(* ===== verification/_CoqProject ===== *)
-Q . S2P
Prelude.v
CInt.v
Constants.v
Memory.v
Registers.v
Format.v
Trace.v
Core.v
CoreFacts.v
TraceFormat.v
Exception.v
Branch.v
Shifter.v
DataProcessing.v
LoadStore.v
Safety.v
Instruction.v
Console.v
CString.v
Debug.v
DebugMessages.v
GdbProtocol.v
Csapp.v
Scanner.v
Session.v
GdbMessages.v
Simulator.v
CommandLine.v
Unix.v
Server.v
InsertionSort.v
Continue.v
SessionSafety.v
CoreTypes.v
Headers.v
Isa.v
Programs.v
Examples.v
GdbRun.v
GdbRegisters.v
StartToEnd.v
MemoryTest.v
