(* ===== verification/Prelude.v ===== *)
(** * Armator: an ARMv5 instruction set simulator, verified

    Armator ([src/arm_simulator-1.4]) simulates an ARMv5 processor.  It is a
    server: gdb connects to it, loads a program into the simulated memory and
    runs it; a second connection raises interrupts.  This library models the
    program's C sources as executable definitions and proves what they do.

    ** The program and its model

    - [memory.c] keeps the bytes of the simulated memory: [Memory].
    - [registers.c] keeps the 37 registers of the seven processor modes:
      [Registers].
    - [trace.c] logs accesses and keeps the stack of source locations that the
      macros of [trace_location.h] push and pop: [Trace], [Format] (the
      conversions of [printf]), and [at_line] in [Core]; [TraceFormat] has the
      second layout of its lines.
    - The header files, and the preprocessor as far as they use it: [Headers].
    - [arm_core.c] combines the three into the processor that the handlers of
      instructions see: [Core]; one [machine] holds the processor, the memory
      and the trace.  [CoreFacts] has the lemmas about it.
    - [arm_exception.c] and [arm_create]: [Exception].
    - [arm_branch_other.c]: [Branch].  The shifter of [arm_instruction.c]:
      [Shifter].  [arm_data_processing.c]: [DataProcessing].
      [arm_load_store.c]: [LoadStore].  Fetch, conditions, dispatch and
      [arm_step] of [arm_instruction.c]: [Instruction].  What the handlers print on
      standard output is kept in the field [console] of the trace; [Console]
      describes it for a whole step.
    - [gdb_protocol.c], the commands of gdb and their packets: [GdbProtocol],
      with the functions of the C library it uses in [CString].
    - [scanner.l], which cuts the connection into packets: [Scanner].  The debug
      messages of these two files are part of their definitions; [GdbMessages] shows
      that they change nothing else.
    - [arm_simulator.c]: the option loop, start-up, threads and their lock in
      [Simulator]; the command line in [CommandLine]; the servers, both listeners and the end of [main] with the
      release of its memory in [Server], together with the client [send_irq.c].
    - [csapp.c]: the robust I/O package in [Csapp]; the error functions, the
      wrappers of system calls and the functions that open sockets in [Unix],
      on the class [Kernel] of the operating system's answers.
    - [debug.c], the selection of source files: [Debug].  [debug.h] and what the
      messages print: [DebugMessages].  [memory_test.c]: [MemoryTest].
    - [Examples]: the C program [insertion_sort.c] in [InsertionSort]; the words
      of [example6.s] in [Programs], those of [example1.s], [example3.s],
      [example4.s] and [example5.s] in [Examples].
    - [util.c], [util.h] and C's integers: [CInt].  [arm_constants.c] and
      [arm_constants.h]: [Constants].

    A definition has the name of the function it translates.  A function of C is
    a computation [M S A] on the state [S] of its component with the outcomes
    [Ret] (it returns), [Exit] (the process exits), [Abort] (an assertion fails)
    and [Undef] (undefined behaviour: an access outside an array, a null
    pointer; not the shifts below).  A component's state is a record; [zoom] runs an operation of a
    component inside the state of the one that contains it.  A pointer to a
    result is an argument, the value before the call, and a component of the
    result, the value after it.

    Some files state what the whole promises: [CoreTypes] has the interface of
    [arm_core.h] as a type of accesses and programs made of them; [Isa] has an
    abstract instruction set, with its own state, instructions, decoder and
    effects, that [arm_step] refines; [Continue] describes the continue command
    of gdb as a sequence of steps; [Session] and [SessionSafety] say what the
    connection can and cannot do to the machine; [GdbRun] puts scanner, commands, memory and
    processor together: a session of gdb that loads and runs a program.
    [StartToEnd] adds [main]: from the command line to the end of the program.

    ** Integers and what C leaves open

    A w-bit integer is an element of [Z] kept in its range by [u8], [u16], [u32]
    and [s32].  What the C standard leaves to the host is the parameter [Host]:
    its byte order, the result of shifts by 32 and more, and the contents of
    uninitialised variables.  Such shifts are undefined in C and the code makes them
    (rotation by 0 in [util.c], register shifts in [arm_instruction.c]); the theorems
    of safety do not count them and hold whatever value they give.  [RotateHost] adds that a shift by 32 gives 0 or the
    operand unchanged, which rotation by 0 relies on; an x86 host is an instance.
    Where an expression calls two functions in an order that C does not fix (the
    macros of [trace_location.h]), the order is that of the text.

    ** What the theorems show

    - Memory: what is written is read back in either byte order, nothing else
      changes, invalid accesses report an error, writes never leave the block,
      and exactly which reads do.
    - Registers: the functions of [registers.c] implement the architecture's map of
      named registers in the layout of [registers.h]; writes are read back in every
      mode.
    - Instructions: the result and the flags of the data-processing
      instructions for the operands the shifter handles ([plain_operand]), the
      comparisons behind the condition codes, single and
      multiple transfers with their addressing modes, branches, exceptions and
      reset, each against a description in terms of numbers.
    - The step: whatever the trace options, a step has the same effect on
      processor and memory and prints the same text ([transparent]), which is that
      of its instruction, operands and flags, for the instructions of [step_covered]
      ([Console]); from a well-formed machine every
      state reached is well formed and no step fails an assertion or leaves an
      array, but for reads past the end of the memory block ([Safety]); a program
      made of typed accesses runs to its end or to such a read ([CoreTypes]).
    - The macros: in the three builds of [Headers], in every file of the program the accesses to the processor are
      wrapped in their source locations, but in [arm_core.c], and no header spoils
      the declarations of another ([Headers]); the constants of this development are
      those of the headers.
    - The instruction set: [arm_step] implements the abstract machine of [Isa],
      for any number of steps, on data processing, single transfers with their
      addressing modes (loads of words; stores of bytes, half-words and words),
      multiple transfers, branches and the software interrupt that ends the
      program.  The example programs do what they are written for and end: the
      factorial ([Programs]), the Syracuse iteration, a countdown, a subtraction with
      flags, loads from data ([Examples]).
    - gdb: framing, checksums and the encoding of words; the effect of the
      commands that write and read memory and registers, one or all of them
      ([GdbRegisters]); what the scanner makes of the connection; that the continue
      command runs the processor up to the first breakpoint ([Continue]); that no
      input at all leaves an ill-formed machine when the scanner returns ([Session]), and
      that it does return, without an access outside its arrays, on packets that meet
      the conditions the source does not check itself ([SessionSafety]); and that a program loaded
      and started by gdb does what was proved of it on the abstract machine
      ([GdbRun]), in the simulator as [main] creates it ([StartToEnd]).
    - Threads: in every interleaving of commands and interrupts only the holder of the
      lock acts on the shared data, which are those of whole handlers and exceptions
      run one after the other; there is no deadlock, and the machine stays well formed.
      This is until [main] releases the data, which it does without the lock.
    - Interrupts: whatever the system answers, the listener raises the exceptions
      whose bytes it reads, each between taking and releasing the lock; and what [send_irq] sends raises
      the exception it was asked for ([Server]).
    - The robust I/O routines end and transfer what they say however the system
      splits the calls, if it interrupts them finitely often; the wrappers of one
      system call, and three of several, return the value of the call or report its
      failure and its cause ([Unix]); debug messages are printed for the
      selected files and no others, and those of the connection to gdb change nothing
      else ([GdbMessages]); the options that are delivered, with at most 64
      files to debug, start the simulator as they say or end it with a message
      ([CommandLine]); the memory's own test
      program succeeds; the example program sorts.

    Where the code departs from the architecture or from its documentation, the
    theorems state what the code does: reads past the end of the memory, the
    register banks used by exception entry, arithmetic right shifts, flags of
    comparisons with zero, the upper bits of byte loads, the register numbers and
    the buffer of the gdb commands.

    ** Bounds

    The continue command of gdb runs until a breakpoint; its loop runs for a
    given number of rounds, the theorems hold for every number, and [Continue]
    shows that one more round than there are steps before the breakpoint is
    enough.  For a program that ends, [GdbRun] shows that there is a number of
    rounds from which on every session has the same result.  Headers include each
    other at most [include_depth] deep; the theorem of [Headers] computes that it is
    enough.  The interrupt listener never ends: it too runs for given numbers of
    connections and reads.  The other loops run to their end: over lists of
    indices, on the distance to a bound (array searches and shifts), or for a
    number of rounds shown to be enough (the checksum loop stops inside the
    packet, the scanner takes a character per token, the I/O loops take a byte or
    an event of the schedule per round).

    ** Not modelled

    [getopt_long] is not part of the program: [CommandLine] has a definition of its
    documented behaviour, without the messages it prints itself and without
    [POSIXLY_CORRECT], for the way from the command line in [StartToEnd].  Left out are
    [Pthread_exit], which only ends the calling thread, and the examples
    [example2.s] and [example7.s], which load single bytes: the upper bits of such a
    load come from an uninitialised variable, so that their results are not
    determined.  Of the preprocessor only the macros of the program are followed, not
    those of the system's headers.  Where no trace file is given, trace and standard
    output are one stream; the model keeps the two parts.  The operating
    system is the parameter [Kernel], flex's generated scanner is modelled from
    the rules of [scanner.l] and flex's longest match.  The threads' private work
    between their sections is not interleaved: it does not touch the shared data.

    ** Open ends

    Reads of the status register in [Isa] (the simulator does not implement writes of
    it), and the answers of gdb's queries. *)
From Stdlib Require Export ZArith Lia Bool Btauto String.
From stdpp Require Export base tactics list numbers option strings.

#[global] Open Scope Z_scope.

#[global] Arguments Z.testbit : simpl never.
#[global] Arguments Z.shiftl : simpl never.
#[global] Arguments Z.shiftr : simpl never.
#[global] Arguments Z.land : simpl never.
#[global] Arguments Z.lor : simpl never.
#[global] Arguments Z.lxor : simpl never.
#[global] Arguments Z.lnot : simpl never.
#[global] Arguments Z.pow : simpl never.
#[global] Arguments Z.modulo : simpl never.
#[global] Arguments Z.div : simpl never.

(** ** Outcomes of C code

    A C function that works on a state of type [S] and returns a value of type
    [A] has one of four outcomes: it returns, the process ends in [exit], an
    [assert] fails, or the behaviour is undefined. *)

Inductive ub : Type :=
| OutOfBounds        (** an access outside an array or a [malloc]ed block *)
| NullPointer.       (** a dereference of a null pointer *)

#[export] Instance ub_eq_dec : EqDecision ub.
Proof. solve_decision. Defined.

Inductive res (S A : Type) : Type :=
| Ret (a : A) (s : S)
| Exit (code : Z) (s : S)
| Abort (s : S)
| Undef (u : ub).
Arguments Ret {S A} a s.
Arguments Exit {S A} code s.
Arguments Abort {S A} s.
Arguments Undef {S A} u.

Definition M (S A : Type) : Type := S -> res S A.

Definition ret {S A} (a : A) : M S A := fun s => Ret a s.
Definition bind {S A B} (m : M S A) (f : A -> M S B) : M S B := fun s =>
  match m s with
  | Ret a s' => f a s'
  | Exit c s' => Exit c s'
  | Abort s' => Abort s'
  | Undef u => Undef u
  end.

Declare Scope c_scope.
Delimit Scope c_scope with c.
Notation "'let!' x := m 'in' k" := (bind m (fun x => k))
  (at level 10, x binder, m at level 100, k at level 200) : c_scope.
Notation "m ;;; k" := (bind m (fun _ => k))
  (at level 98, right associativity) : c_scope.
#[global] Open Scope c_scope.

Definition gets {S A} (f : S -> A) : M S A := fun s => Ret (f s) s.
Definition modify {S} (f : S -> S) : M S unit := fun s => Ret tt (f s).
Definition undef {S A} (u : ub) : M S A := fun _ => Undef u.
Definition c_exit {S A} (code : Z) : M S A := fun s => Exit code s.
Definition c_assert {S} (b : bool) : M S unit :=
  fun s => if b then Ret tt s else Abort s.
Definition when {S} (b : bool) (m : M S unit) : M S unit :=
  if b then m else ret tt.

(** A [for] loop over a known list of indices, its body in the monad. *)
Fixpoint for_each {S A B} (l : list A) (f : A -> B -> M S B) (b : B) : M S B :=
  match l with
  | [] => ret b
  | x :: l' => let! b' := f x b in for_each l' f b'
  end.

(** ** A component's state inside a larger state *)

Record lens (S T : Type) : Type := Lens {
  lget : S -> T;
  lset : T -> S -> S;
}.
Arguments Lens {S T} _ _.
Arguments lget {S T} _ _.
Arguments lset {S T} _ _ _.

Class LensLaws {S T} (l : lens S T) : Prop := {
  lget_lset : forall t s, lget l (lset l t s) = t;
  lset_lget : forall s, lset l (lget l s) s = s;
  lset_lset : forall t t' s, lset l t (lset l t' s) = lset l t s;
}.

Definition zoom {S T A} (l : lens S T) (m : M T A) : M S A := fun s =>
  match m (lget l s) with
  | Ret a t => Ret a (lset l t s)
  | Exit c t => Exit c (lset l t s)
  | Abort t => Abort (lset l t s)
  | Undef u => Undef u
  end.

(** ** Running monadic code: rewriting rules *)

Lemma bind_ret {S A B} (m : M S A) (f : A -> M S B) s a s' :
  m s = Ret a s' -> bind m f s = f a s'.
Proof. unfold bind. by intros ->. Qed.

Lemma bind_undef {S A B} (m : M S A) (f : A -> M S B) s u :
  m s = Undef u -> bind m f s = Undef u.
Proof. unfold bind. by intros ->. Qed.

Lemma bind_exit {S A B} (m : M S A) (f : A -> M S B) s c s' :
  m s = Exit c s' -> bind m f s = Exit c s'.
Proof. unfold bind. by intros ->. Qed.

Lemma bind_assoc {S A B C} (m : M S A) (f : A -> M S B) (g : B -> M S C) s :
  bind (bind m f) g s = bind m (fun x => bind (f x) g) s.
Proof. unfold bind. by destruct (m s). Qed.

Lemma bind_inv {S A B} (m : M S A) (f : A -> M S B) s b s' :
  bind m f s = Ret b s' -> exists a s1, m s = Ret a s1 /\ f a s1 = Ret b s'.
Proof. unfold bind. destruct (m s); try done. eauto. Qed.

Lemma zoom_inv {S T A} (l : lens S T) (m : M T A) s a s' :
  zoom l m s = Ret a s' -> exists t, m (lget l s) = Ret a t /\ s' = lset l t s.
Proof. unfold zoom. destruct (m (lget l s)); try done. intros [= <- <-]. eauto. Qed.

Lemma zoom_ret {S T A} (l : lens S T) (m : M T A) s a t :
  m (lget l s) = Ret a t -> zoom l m s = Ret a (lset l t s).
Proof. unfold zoom. by intros ->. Qed.

(** Running a component's operation that leaves its state alone. *)
Lemma zoom_read {S T A} (l : lens S T) `{!LensLaws l} (m : M T A) s a :
  m (lget l s) = Ret a (lget l s) -> zoom l m s = Ret a s.
Proof. intros E. rewrite (zoom_ret _ _ _ _ _ E). by rewrite lset_lget. Qed.

Lemma zoom_undef {S T A} (l : lens S T) (m : M T A) s u :
  m (lget l s) = Undef u -> zoom l m s = Undef u.
Proof. unfold zoom. by intros ->. Qed.

(** ** Arrays: the cells of a block, indexed by a C integer *)

Section cells.
Context {A : Type}.
Implicit Types (l : list A) (i : Z) (x : A).

Definition aget l i : option A := if 0 <=? i then l !! Z.to_nat i else None.

Definition cell_read i : M (list A) A := fun l =>
  match aget l i with Some x => Ret x l | None => Undef OutOfBounds end.

Definition cell_write i x : M (list A) unit := fun l =>
  match aget l i with
  | Some _ => Ret tt (<[Z.to_nat i := x]> l)
  | None => Undef OutOfBounds
  end.

Definition aset l i x : list A := if 0 <=? i then <[Z.to_nat i := x]> l else l.

Lemma aget_Some_lt l i x : aget l i = Some x -> 0 <= i < Z.of_nat (length l).
Proof.
  unfold aget. destruct (Z.leb_spec 0 i); [|done].
  intros H'%lookup_lt_Some. lia.
Qed.

Lemma aget_lt l i : 0 <= i < Z.of_nat (length l) -> exists x, aget l i = Some x.
Proof.
  intros Hi. unfold aget. destruct (Z.leb_spec 0 i); [|lia].
  apply lookup_lt_is_Some. lia.
Qed.

Lemma aget_None l i : i < 0 \/ Z.of_nat (length l) <= i -> aget l i = None.
Proof.
  intros Hi. unfold aget. destruct (Z.leb_spec 0 i); [|done].
  apply lookup_ge_None. lia.
Qed.

Lemma length_aset l i x : length (aset l i x) = length l.
Proof. unfold aset. case_match; [apply length_insert|done]. Qed.

Lemma aget_aset_eq l i x :
  0 <= i < Z.of_nat (length l) -> aget (aset l i x) i = Some x.
Proof.
  intros Hi. unfold aget, aset. destruct (Z.leb_spec 0 i); [|lia].
  apply list_lookup_insert_eq. lia.
Qed.

Lemma aget_aset_ne l i j x : i <> j -> aget (aset l i x) j = aget l j.
Proof.
  intros Hij. unfold aget, aset.
  destruct (Z.leb_spec 0 j), (Z.leb_spec 0 i); try done.
  apply list_lookup_insert_ne. lia.
Qed.

Lemma aset_aset l i x y : aset (aset l i x) i y = aset l i y.
Proof. unfold aset. case_match; [apply list_insert_insert_eq|done]. Qed.

Lemma aset_comm l i j x y :
  i <> j -> aset (aset l i x) j y = aset (aset l j y) i x.
Proof.
  intros Hij. unfold aset.
  destruct (Z.leb_spec 0 j), (Z.leb_spec 0 i); try done.
  apply list_insert_insert_ne. lia.
Qed.

Lemma aset_aget l i x : aget l i = Some x -> aset l i x = l.
Proof.
  unfold aget, aset. case_match; [|done]. intros. by apply list_insert_id.
Qed.

Lemma Forall_aset (P : A -> Prop) l i x : Forall P l -> P x -> Forall P (aset l i x).
Proof. intros. unfold aset. case_match; [by apply Forall_insert|done]. Qed.

Lemma Forall_aget (P : A -> Prop) l i x : Forall P l -> aget l i = Some x -> P x.
Proof.
  unfold aget. intros HF. case_match; [|done].
  intros Hl. by eapply Forall_lookup_1.
Qed.

Lemma aget_ext l l' :
  length l = length l' ->
  (forall i, 0 <= i < Z.of_nat (length l) -> aget l i = aget l' i) -> l = l'.
Proof.
  intros Hlen Heq. apply list_eq_same_length with (length l); [done..|].
  intros i x y Hi Hx Hy. specialize (Heq (Z.of_nat i)). unfold aget in Heq.
  destruct (Z.leb_spec 0 (Z.of_nat i)); [|lia].
  rewrite Nat2Z.id in Heq. rewrite Heq in Hx by lia. congruence.
Qed.

(** The cell after the first [length l1]. *)
Lemma aset_mid l1 y l2 i x :
  i = Z.of_nat (length l1) -> aset (l1 ++ y :: l2) i x = l1 ++ x :: l2.
Proof.
  intros ->. unfold aset. rewrite (proj2 (Z.leb_le 0 _)), Nat2Z.id by lia.
  replace (length l1) with (length l1 + 0)%nat by lia. by rewrite insert_app_r.
Qed.

Lemma aget_mid l1 y l2 i : i = Z.of_nat (length l1) -> aget (l1 ++ y :: l2) i = Some y.
Proof.
  intros ->. unfold aget. rewrite (proj2 (Z.leb_le 0 _)), Nat2Z.id by lia.
  by rewrite lookup_app_r, Nat.sub_diag by lia.
Qed.

Lemma cell_read_ret l i x : aget l i = Some x -> cell_read i l = Ret x l.
Proof. unfold cell_read. by intros ->. Qed.

Lemma cell_read_undef l i : aget l i = None -> cell_read i l = Undef OutOfBounds.
Proof. unfold cell_read. by intros ->. Qed.

Lemma cell_write_ret l i x :
  0 <= i < Z.of_nat (length l) -> cell_write i x l = Ret tt (aset l i x).
Proof.
  intros Hi. unfold cell_write, aset. destruct (aget_lt l i Hi) as [y ->].
  destruct (Z.leb_spec 0 i); [done|lia].
Qed.
End cells.

(** ** Symbolic execution

    [mrun] collects the equations [op s = Ret a s'] of the operations; [mstep]
    runs the first operation of a sequence with one of them. *)
Create HintDb mrun.
#[export] Hint Extern 5 (_ <= _ < _) => lia : mrun.
#[export] Hint Extern 5 (_ <= _ <= _) => lia : mrun.
#[export] Hint Extern 5 (_ <= _) => lia : mrun.
#[export] Hint Extern 5 (_ < _) => lia : mrun.

Ltac mstep :=
  erewrite bind_ret; [|solve [reflexivity | eauto 12 with mrun]]; cbv beta.
Ltac mrun := repeat mstep.
