(* ===== verification/CInt.v ===== *)
(** * C integers and [util.h] / [util.c]

    Fixed-width integers are elements of [Z] kept in their range by [u8], [u16],
    [u32] (conversion to an unsigned type) and [s32] (conversion to [int]).
    Shifts follow gcc: a signed left shift wraps, a signed right shift is
    arithmetic.  A shift whose count is negative or at least 32 is undefined in
    C; the value it has on the host is a parameter ([Host]). *)
From S2P Require Import Prelude.

Definition u8 (x : Z) : Z := x mod 2 ^ 8.
Definition u16 (x : Z) : Z := x mod 2 ^ 16.
Definition u32 (x : Z) : Z := x mod 2 ^ 32.
Definition s32 (x : Z) : Z := (x + 2 ^ 31) mod 2 ^ 32 - 2 ^ 31.

(** Ranges, as decidable predicates. *)
Definition is_u8 (x : Z) : Prop := 0 <= x < 2 ^ 8.
Definition is_u16 (x : Z) : Prop := 0 <= x < 2 ^ 16.
Definition is_u32 (x : Z) : Prop := 0 <= x < 2 ^ 32.

#[export] Instance is_u8_dec x : Decision (is_u8 x).
Proof. unfold is_u8. apply _. Defined.
#[export] Instance is_u16_dec x : Decision (is_u16 x).
Proof. unfold is_u16. apply _. Defined.
#[export] Instance is_u32_dec x : Decision (is_u32 x).
Proof. unfold is_u32. apply _. Defined.

(** C truth values. *)
Definition nz (x : Z) : bool := negb (x =? 0).
Definition b2z (b : bool) : Z := if b then 1 else 0.

(** What the C standard leaves to the host: its byte order, the result of an
    over-long shift, and the values of uninitialised local variables (the
    [n]-th such variable of a run holds [indet n]). *)
Class Host : Type := {
  host_big_endian : bool;
  shl_over : Z -> Z -> Z;
  shr_over : Z -> Z -> Z;
  indet : nat -> Z;
}.

(** An x86 host: little endian, shift counts taken modulo 32. *)
Definition x86_host (junk : nat -> Z) : Host := {|
  host_big_endian := false;
  shl_over v n := Z.shiftl v (n mod 32);
  shr_over v n := Z.shiftr v (n mod 32);
  indet := junk;
|}.

Definition shift_ok (n : Z) : bool := (0 <=? n) && (n <? 32).

Section ops.
Context `{Host}.

(** [uint32_t << n], [uint32_t >> n], [int << n], [int >> n] *)
Definition shl32 (x n : Z) : Z :=
  u32 (if shift_ok n then Z.shiftl x n else shl_over x n).
Definition shr32 (x n : Z) : Z :=
  u32 (if shift_ok n then Z.shiftr x n else shr_over x n).
Definition int_shl (x n : Z) : Z :=
  s32 (if shift_ok n then Z.shiftl x n else shl_over (u32 x) n).
Definition int_shr (x n : Z) : Z :=
  s32 (if shift_ok n then Z.shiftr x n else shr_over (u32 x) n).

(** [~x] on [uint32_t] *)
Definition not32 (x : Z) : Z := u32 (Z.lnot x).

(** *** Macros of util.h *)
Definition get_bit (x i : Z) : Z := Z.land (shr32 x i) 1.
Definition set_bit (x i : Z) : Z := Z.lor x (u32 (int_shl 1 i)).
Definition clr_bit (x i : Z) : Z := Z.land x (u32 (Z.lnot (int_shl 1 i))).

Definition get_bits (x h l : Z) : Z :=
  Z.land (shr32 x l)
    (u32 (Z.lnot (int_shl (int_shr (-1) (h - l + 1)) (h - l + 1)))).

Definition set_bits (x h l bits : Z) : Z :=
  Z.lor
    (Z.lor (Z.land x (u32 (Z.lnot (int_shl (int_shr (-1) l) l))))
           (Z.land x (u32 (int_shl (int_shr (-1) (h + 1)) (h + 1)))))
    (shl32 bits l).

Definition reverse_2 (x : Z) : Z :=
  Z.lor (shl32 (Z.land x 0xFF) 8) (Z.land (shr32 x 8) 0xFF).

Definition reverse_4 (x : Z) : Z :=
  Z.lor (Z.lor (Z.lor (shl32 (Z.land x 0xFF) 24)
                      (shl32 (Z.land (shr32 x 8) 0xFF) 16))
               (shl32 (Z.land (shr32 x 16) 0xFF) 8))
        (Z.land (shr32 x 24) 0xFF).

(** *** Functions of util.c *)
Definition asr (value shift : Z) : Z :=
  Z.lor (shr32 value shift)
    (u32 (if nz (get_bit value 31) then int_shl (Z.lnot 0) (32 - shift) else 0)).

Definition ror (value rotation : Z) : Z :=
  Z.lor (shr32 value rotation) (shl32 value (32 - rotation)).

Definition is_big_endian : Z := b2z host_big_endian.

Definition change_bit (s n val : Z) : Z :=
  if nz val then set_bit s n else clr_bit s n.
End ops.

(** ** Bits *)

Create Rewrite HintDb zbits.

Lemma testbit_mod_pow2 x n i :
  0 <= n -> 0 <= i -> Z.testbit (x mod 2 ^ n) i = (i <? n) && Z.testbit x i.
Proof.
  intros. destruct (Z.ltb_spec i n); simpl.
  - by apply Z.mod_pow2_bits_low.
  - by apply Z.mod_pow2_bits_high.
Qed.

Lemma testbit_u8 x i : 0 <= i -> Z.testbit (u8 x) i = (i <? 8) && Z.testbit x i.
Proof. apply testbit_mod_pow2; lia. Qed.
Lemma testbit_u16 x i : 0 <= i -> Z.testbit (u16 x) i = (i <? 16) && Z.testbit x i.
Proof. apply testbit_mod_pow2; lia. Qed.
Lemma testbit_u32 x i : 0 <= i -> Z.testbit (u32 x) i = (i <? 32) && Z.testbit x i.
Proof. apply testbit_mod_pow2; lia. Qed.

Lemma testbit_shiftl x n i :
  0 <= i -> Z.testbit (Z.shiftl x n) i = Z.testbit x (i - n).
Proof. intros. by apply Z.shiftl_spec. Qed.
Lemma testbit_shiftr x n i :
  0 <= i -> Z.testbit (Z.shiftr x n) i = Z.testbit x (i + n).
Proof. intros. by apply Z.shiftr_spec. Qed.
Lemma testbit_div x n i :
  0 <= i -> 0 <= n -> Z.testbit (x / 2 ^ n) i = Z.testbit x (i + n).
Proof. intros. by apply Z.div_pow2_bits. Qed.
Lemma testbit_ones n i :
  0 <= i -> 0 <= n -> Z.testbit (Z.ones n) i = (i <? n).
Proof. intros. rewrite Z.testbit_ones_nonneg by done. done. Qed.
Lemma testbit_lnot x i : 0 <= i -> Z.testbit (Z.lnot x) i = negb (Z.testbit x i).
Proof. intros. by apply Z.lnot_spec. Qed.
Lemma testbit_m1 i : 0 <= i -> Z.testbit (-1) i = true.
Proof. intros. by apply Z.bits_m1. Qed.

(** A number below [2 ^ n] has no bit at [n] or above. *)
Lemma testbit_high x n i : 0 <= x < 2 ^ n -> n <= i -> Z.testbit x i = false.
Proof.
  intros Hx Hi.
  destruct (Z.ltb_spec n 0) as [Hn|Hn].
  { rewrite Z.pow_neg_r in Hx by lia. lia. }
  rewrite <- (Z.mod_small x (2 ^ n)) by done. by apply Z.mod_pow2_bits_high.
Qed.

Lemma testbit_u32_high x i : is_u32 x -> 32 <= i -> Z.testbit x i = false.
Proof. apply testbit_high. Qed.

#[export] Hint Rewrite Z.land_spec Z.lor_spec Z.lxor_spec Z.ldiff_spec
  Z.testbit_0_l : zbits.
#[export] Hint Rewrite testbit_u8 testbit_u16 testbit_u32 testbit_shiftl
  testbit_shiftr testbit_div testbit_ones testbit_lnot testbit_m1
  testbit_mod_pow2 using lia : zbits.

(** Decide every comparison and every out-of-range bit, then close by boolean
    reasoning. *)
Ltac bit_cases :=
  repeat match goal with
  | |- context [?a <? ?b] => destruct (Z.ltb_spec a b); simpl
  | |- context [Z.testbit ?x ?i] =>
      rewrite (Z.testbit_neg_r x i) by lia
  | H : 0 <= ?x < 2 ^ ?n |- context [Z.testbit ?x ?i] =>
      rewrite (testbit_high x n i H) by lia
  | H : is_u32 ?x |- context [Z.testbit ?x ?i] =>
      rewrite (testbit_high x 32 i H) by lia
  | H : is_u16 ?x |- context [Z.testbit ?x ?i] =>
      rewrite (testbit_high x 16 i H) by lia
  | H : is_u8 ?x |- context [Z.testbit ?x ?i] =>
      rewrite (testbit_high x 8 i H) by lia
  end.

Ltac bitwise :=
  apply Z.bits_inj'; intros ?i ?Hi; autorewrite with zbits; bit_cases;
  autorewrite with zbits; rewrite ?andb_true_r, ?andb_false_r, ?orb_false_r;
  try solve [ btauto | f_equal; lia | do 2 f_equal; lia ].

(** ** Ranges and conversions *)

Create HintDb crange.

Lemma u8_range x : is_u8 (u8 x).
Proof. apply Z.mod_pos_bound; lia. Qed.
Lemma u16_range x : is_u16 (u16 x).
Proof. apply Z.mod_pos_bound; lia. Qed.
Lemma u32_range x : is_u32 (u32 x).
Proof. apply Z.mod_pos_bound; lia. Qed.

Lemma u8_small x : is_u8 x -> u8 x = x.
Proof. apply Z.mod_small. Qed.
Lemma u16_small x : is_u16 x -> u16 x = x.
Proof. apply Z.mod_small. Qed.
Lemma u32_small x : is_u32 x -> u32 x = x.
Proof. apply Z.mod_small. Qed.

Lemma u32_u32 x : u32 (u32 x) = u32 x.
Proof. apply u32_small, u32_range. Qed.

Lemma u32_s32 x : u32 (s32 x) = u32 x.
Proof.
  unfold u32, s32. rewrite Zminus_mod_idemp_l. f_equal. lia.
Qed.

Lemma s32_small x : - 2 ^ 31 <= x < 2 ^ 31 -> s32 x = x.
Proof. intros. unfold s32. rewrite Z.mod_small by lia. lia. Qed.

Lemma u32_add_l x y : u32 (u32 x + y) = u32 (x + y).
Proof. apply Zplus_mod_idemp_l. Qed.
Lemma u32_add_r x y : u32 (x + u32 y) = u32 (x + y).
Proof. apply Zplus_mod_idemp_r. Qed.
Lemma u32_sub_l x y : u32 (u32 x - y) = u32 (x - y).
Proof. apply Zminus_mod_idemp_l. Qed.
Lemma u32_sub_r x y : u32 (x - u32 y) = u32 (x - y).
Proof. apply Zminus_mod_idemp_r. Qed.

Lemma bits_range n x :
  0 <= n -> 0 <= x -> (forall i, n <= i -> Z.testbit x i = false) -> 0 <= x < 2 ^ n.
Proof.
  intros Hn Hx Hb. replace x with (x mod 2 ^ n).
  { apply Z.mod_pos_bound. by apply Z.pow_pos_nonneg. }
  apply Z.bits_inj'. intros i Hi. rewrite testbit_mod_pow2 by done.
  destruct (Z.ltb_spec i n); [done|]. by rewrite Hb.
Qed.

Lemma lor_range n x y :
  0 <= n -> 0 <= x < 2 ^ n -> 0 <= y < 2 ^ n -> 0 <= Z.lor x y < 2 ^ n.
Proof.
  intros Hn Hx Hy. apply bits_range; [done|apply Z.lor_nonneg; lia|].
  intros i Hi. by rewrite Z.lor_spec, (testbit_high x n), (testbit_high y n).
Qed.

Lemma lxor_range n x y :
  0 <= n -> 0 <= x < 2 ^ n -> 0 <= y < 2 ^ n -> 0 <= Z.lxor x y < 2 ^ n.
Proof.
  intros Hn Hx Hy. apply bits_range; [done|apply Z.lxor_nonneg; lia|].
  intros i Hi. by rewrite Z.lxor_spec, (testbit_high x n), (testbit_high y n).
Qed.

Lemma land_range n x y :
  0 <= n -> 0 <= x < 2 ^ n -> 0 <= Z.land x y < 2 ^ n.
Proof.
  intros Hn Hx. apply bits_range; [done|apply Z.land_nonneg; lia|].
  intros i Hi. by rewrite Z.land_spec, (testbit_high x n).
Qed.

Lemma land_range_r n x y :
  0 <= n -> 0 <= y < 2 ^ n -> 0 <= Z.land x y < 2 ^ n.
Proof. rewrite Z.land_comm. apply land_range. Qed.

Lemma u32_lor x y : is_u32 x -> is_u32 y -> is_u32 (Z.lor x y).
Proof. by apply lor_range. Qed.
Lemma u32_lxor x y : is_u32 x -> is_u32 y -> is_u32 (Z.lxor x y).
Proof. by apply lxor_range. Qed.
Lemma u32_land x y : is_u32 x -> is_u32 (Z.land x y).
Proof. by apply land_range. Qed.
Lemma u32_b2z b : is_u32 (b2z b).
Proof. destruct b; unfold is_u32; simpl; lia. Qed.
Lemma u8_is_u32 x : is_u8 x -> is_u32 x.
Proof. unfold is_u8, is_u32. lia. Qed.

#[export] Hint Resolve u8_range u16_range u32_range u32_lor u32_lxor u32_land
  u32_b2z u8_is_u32 : crange.

Lemma b2z_range b : 0 <= b2z b <= 1.
Proof. destruct b; simpl; lia. Qed.
Lemma nz_b2z b : nz (b2z b) = b.
Proof. by destruct b. Qed.

Lemma nz_true x : x <> 0 -> nz x = true.
Proof. intros Hx%Z.eqb_neq. unfold nz. by rewrite Hx. Qed.

Lemma land_1 x : Z.land x 1 = b2z (Z.testbit x 0).
Proof.
  change 1 with (Z.ones 1). rewrite Z.land_ones by lia.
  rewrite Z.bit0_mod. change (2 ^ 1) with 2.
  pose proof (Z.mod_pos_bound x 2 ltac:(lia)). rewrite Zmod_odd. by destruct (Z.odd x).
Qed.

Lemma shift_ok_spec n : shift_ok n = true <-> 0 <= n < 32.
Proof. unfold shift_ok. rewrite andb_true_iff, Z.leb_le, Z.ltb_lt. lia. Qed.

(** ** The bit field [h..l] of a word *)

Definition field (x h l : Z) : Z := (x / 2 ^ l) mod 2 ^ (h - l + 1).

Lemma field_range x h l : l <= h + 1 -> 0 <= field x h l < 2 ^ (h - l + 1).
Proof. intros. apply Z.mod_pos_bound, Z.pow_pos_nonneg; lia. Qed.

(** [(x & (mask << l)) >> l], the way the instruction decoders take fields. *)
Lemma mask_field x w l :
  0 <= w -> 0 <= l ->
  Z.shiftr (Z.land x (Z.shiftl (Z.ones w) l)) l = field x (l + w - 1) l.
Proof.
  intros. unfold field. replace (l + w - 1 - l + 1) with w by lia.
  apply Z.bits_inj'; intros i Hi. autorewrite with zbits.
  replace (i + l - l) with i by lia. by rewrite andb_comm.
Qed.

Section host.
Context `{Host}.

Lemma shl32_range x n : is_u32 (shl32 x n).
Proof. apply u32_range. Qed.
Lemma shr32_range x n : is_u32 (shr32 x n).
Proof. apply u32_range. Qed.

Lemma shl32_ok x n : 0 <= n < 32 -> shl32 x n = u32 (Z.shiftl x n).
Proof. intros Hn%shift_ok_spec. unfold shl32. by rewrite Hn. Qed.

Lemma shr32_ok x n : 0 <= n < 32 -> is_u32 x -> shr32 x n = Z.shiftr x n.
Proof.
  intros Hn Hx. unfold shr32. rewrite (proj2 (shift_ok_spec n) Hn).
  apply u32_small. unfold is_u32 in *. rewrite Z.shiftr_div_pow2 by lia.
  assert (0 < 2 ^ n) by (apply Z.pow_pos_nonneg; lia).
  split; [apply Z.div_pos; lia|]. apply Z.div_lt_upper_bound; nia.
Qed.

Lemma u32_int_shl x n : 0 <= n < 32 -> u32 (int_shl x n) = u32 (Z.shiftl x n).
Proof.
  intros Hn%shift_ok_spec. unfold int_shl. rewrite Hn. apply u32_s32.
Qed.

Lemma get_bit_testbit x i :
  is_u32 x -> 0 <= i < 32 -> get_bit x i = b2z (Z.testbit x i).
Proof.
  intros Hx Hi. unfold get_bit. rewrite shr32_ok, land_1 by done.
  by rewrite Z.shiftr_spec by lia.
Qed.

Lemma get_bit_range x i : 0 <= get_bit x i <= 1.
Proof. unfold get_bit. rewrite land_1. apply b2z_range. Qed.

Lemma set_bit_testbit x i j :
  0 <= i < 32 -> 0 <= j -> Z.testbit (set_bit x i) j = Z.testbit x j || (i =? j).
Proof.
  intros Hi Hj. unfold set_bit. rewrite u32_int_shl by done.
  rewrite Z.lor_spec, testbit_u32, testbit_shiftl by done.
  destruct (Z.eqb_spec i j) as [->|Hne].
  - rewrite Z.sub_diag. destruct (Z.ltb_spec j 32); [|lia]. done.
  - destruct (Z.ltb_spec j i).
    + rewrite (Z.testbit_neg_r 1) by lia. by rewrite andb_false_r.
    + replace (Z.testbit 1 (j - i)) with false; [by rewrite andb_false_r|].
      symmetry. apply (testbit_high 1 1); lia.
Qed.

Lemma clr_bit_testbit x i j :
  is_u32 x -> 0 <= i < 32 -> 0 <= j ->
  Z.testbit (clr_bit x i) j = Z.testbit x j && negb (i =? j).
Proof.
  intros Hx Hi Hj. unfold clr_bit, int_shl.
  rewrite (proj2 (shift_ok_spec i) Hi).
  assert (Hl : u32 (Z.lnot (s32 (Z.shiftl 1 i))) = u32 (Z.lnot (Z.shiftl 1 i))).
  { rewrite <- (u32_s32 (Z.lnot (s32 _))). rewrite u32_s32. unfold Z.lnot.
    rewrite <- !Z.sub_1_r. rewrite <- u32_sub_l. rewrite <- (u32_sub_l (- Z.shiftl _ _)).
    f_equal. f_equal. rewrite <- !Z.sub_0_l. rewrite <- u32_sub_r, u32_s32.
    apply u32_sub_r. }
  rewrite Hl, Z.land_spec, testbit_u32, testbit_lnot, testbit_shiftl by done.
  destruct (Z.ltb_spec j 32) as [Hj'|Hj']; cycle 1.
  { by rewrite (testbit_u32_high x j). }
  simpl. f_equal. f_equal. destruct (Z.eqb_spec i j) as [->|Hne].
  - by rewrite Z.sub_diag.
  - destruct (Z.ltb_spec j i); [by rewrite Z.testbit_neg_r by lia|].
    apply (testbit_high 1 1); lia.
Qed.

Lemma change_bit_testbit x i v j :
  is_u32 x -> 0 <= i < 32 -> 0 <= j ->
  Z.testbit (change_bit x i v) j = if i =? j then nz v else Z.testbit x j.
Proof.
  intros. unfold change_bit. destruct (nz v).
  - rewrite set_bit_testbit by done. destruct (i =? j); [by rewrite orb_true_r|].
    by rewrite orb_false_r.
  - rewrite clr_bit_testbit by done. destruct (i =? j); simpl;
      by rewrite ?andb_false_r, ?andb_true_r.
Qed.

Lemma set_bit_range x i : is_u32 x -> is_u32 (set_bit x i).
Proof. intros. unfold set_bit. auto with crange. Qed.
Lemma clr_bit_range x i : is_u32 x -> is_u32 (clr_bit x i).
Proof. intros. unfold clr_bit. auto with crange. Qed.
Lemma change_bit_range x i v : is_u32 x -> is_u32 (change_bit x i v).
Proof.
  intros. unfold change_bit. case_match; auto using set_bit_range, clr_bit_range.
Qed.

Lemma get_bits_field x h l :
  is_u32 x -> 0 <= l <= h -> h <= 31 -> h - l < 31 -> get_bits x h l = field x h l.
Proof.
  intros Hx Hl Hh Hw. unfold get_bits, int_shr.
  rewrite (proj2 (shift_ok_spec (h - l + 1))) by lia.
  rewrite (Z.shiftr_div_pow2 (-1)) by lia.
  assert (0 < 2 ^ (h - l + 1) <= 2 ^ 31).
  { split; [apply Z.pow_pos_nonneg; lia|apply Z.pow_le_mono_r; lia]. }
  replace (-1 / 2 ^ (h - l + 1)) with (-1)
    by (apply Z.div_unique with (2 ^ (h - l + 1) - 1); lia).
  change (s32 (-1)) with (-1).
  unfold int_shl. rewrite (proj2 (shift_ok_spec (h - l + 1))) by lia.
  rewrite s32_small by (rewrite Z.shiftl_mul_pow2 by lia; lia).
  rewrite shr32_ok by (done || lia). unfold field.
  bitwise.
Qed.
End host.

#[export] Hint Resolve shl32_range shr32_range set_bit_range clr_bit_range
  change_bit_range : crange.

(** ** Shifts and rotations of util.c *)

Lemma s32_cases x :
  is_u32 x -> s32 x = if Z.testbit x 31 then x - 2 ^ 32 else x.
Proof.
  intros Hx. unfold s32, is_u32 in *.
  rewrite (Z.testbit_odd x 31), Z.shiftr_div_pow2 by lia.
  destruct (Z.ltb_spec x (2 ^ 31)).
  - rewrite (Z.div_small x) by lia. rewrite Z.mod_small by lia. simpl. lia.
  - replace (x / 2 ^ 31) with 1 by (apply Z.div_unique with (x - 2 ^ 31); lia).
    replace (x + 2 ^ 31) with (x - 2 ^ 31 + 1 * 2 ^ 32) by lia.
    rewrite Z.mod_add, Z.mod_small by lia. simpl. lia.
Qed.

Lemma s32_range x : - 2 ^ 31 <= s32 x < 2 ^ 31.
Proof. unfold s32. pose proof (Z.mod_pos_bound (x + 2 ^ 31) (2 ^ 32)). lia. Qed.

(** A signed number below [2 ^ n] in magnitude repeats its sign from bit [n] on. *)
Lemma testbit_sign x n i :
  0 <= n -> - 2 ^ n <= x < 2 ^ n -> n <= i -> Z.testbit x i = (x <? 0).
Proof.
  intros Hn Hx Hi. destruct (Z.ltb_spec x 0).
  - rewrite <- (negb_involutive (Z.testbit x i)), <- testbit_lnot by lia.
    rewrite (testbit_high _ n) by (unfold Z.lnot; lia). done.
  - apply (testbit_high x n); lia.
Qed.

Lemma testbit_s32 x i :
  is_u32 x -> 0 <= i -> Z.testbit (s32 x) i = Z.testbit x (Z.min i 31).
Proof.
  intros Hx Hi. destruct (Z.leb_spec i 31).
  - rewrite Z.min_l by lia. rewrite <- (u32_small x Hx) at 2.
    rewrite <- u32_s32, testbit_u32 by lia. destruct (Z.ltb_spec i 32); [done|lia].
  - rewrite Z.min_r by lia. rewrite (testbit_sign _ 31) by (apply s32_range || lia).
    rewrite s32_cases by done. unfold is_u32 in Hx.
    destruct (Z.testbit x 31) eqn:E; destruct (Z.ltb_spec (if true then x - 2 ^ 32 else x) 0);
      destruct (Z.ltb_spec x 0); lia || done.
Qed.

Section shifts.
Context `{Host}.

Lemma asr_range v s : is_u32 (asr v s).
Proof. unfold asr. auto with crange. Qed.
Lemma ror_range v r : is_u32 (ror v r).
Proof. unfold ror. auto with crange. Qed.

(** [asr] is the arithmetic shift of the signed reading of the word. *)
Lemma asr_signed v s :
  is_u32 v -> 1 <= s <= 31 -> asr v s = u32 (Z.shiftr (s32 v) s).
Proof.
  intros Hv Hs. unfold asr.
  rewrite shr32_ok, get_bit_testbit, nz_b2z by (done || lia).
  apply Z.bits_inj'; intros i Hi.
  rewrite Z.lor_spec, testbit_shiftr, testbit_u32, testbit_u32, testbit_shiftr,
    testbit_s32 by (done || lia).
  destruct (Z.ltb_spec i 32) as [Hi'|Hi']; rewrite ?andb_true_l, ?andb_false_l; cycle 1.
  { by rewrite (testbit_u32_high v) by (done || lia). }
  destruct (Z.testbit v 31) eqn:E; cycle 1.
  { rewrite Z.testbit_0_l, orb_false_r. destruct (Z.leb_spec (i + s) 31).
    - by rewrite Z.min_l.
    - by rewrite Z.min_r, E, (testbit_u32_high v) by (done || lia). }
  assert (Hsh : Z.testbit (int_shl (Z.lnot 0) (32 - s)) i = (32 - s <=? i)).
  { assert (Hb : Z.testbit (u32 (int_shl (Z.lnot 0) (32 - s))) i
                 = Z.testbit (int_shl (Z.lnot 0) (32 - s)) i).
    { rewrite testbit_u32 by done. destruct (Z.ltb_spec i 32); [done|lia]. }
    rewrite <- Hb, u32_int_shl, testbit_u32, testbit_shiftl by lia.
    destruct (Z.ltb_spec i 32); [|lia]. change (Z.lnot 0) with (-1). simpl.
    destruct (Z.leb_spec (32 - s) i); [by apply testbit_m1; lia|].
    by rewrite Z.testbit_neg_r by lia. }
  rewrite Hsh. destruct (Z.leb_spec (32 - s) i).
  - rewrite orb_true_r. destruct (Z.leb_spec (i + s) 31); [lia|].
    by rewrite Z.min_r by lia.
  - rewrite orb_false_r. by rewrite Z.min_l by lia.
Qed.

(** [ror] rotates right: bit [i] of the result is bit [i + r mod 32] of the word. *)
Lemma ror_testbit v r i :
  is_u32 v -> 0 < r < 32 -> 0 <= i < 32 ->
  Z.testbit (ror v r) i = Z.testbit v ((i + r) mod 32).
Proof.
  intros Hv Hr Hi. unfold ror.
  rewrite shr32_ok, shl32_ok by (done || lia).
  rewrite Z.lor_spec, testbit_shiftr, testbit_u32, testbit_shiftl by lia.
  destruct (Z.ltb_spec i 32); [|lia]. simpl.
  destruct (Z.ltb_spec (i + r) 32).
  - rewrite (Z.testbit_neg_r v (i - _)) by lia. rewrite orb_false_r.
    by rewrite Z.mod_small by lia.
  - rewrite (testbit_u32_high v (i + r)) by (done || lia). simpl.
    f_equal. apply Z.mod_unique with 1; lia.
Qed.

(** Rotating by [r] and then by [32 - r] gives the word back. *)
Lemma ror_ror v r : is_u32 v -> 0 < r < 32 -> ror (ror v r) (32 - r) = v.
Proof.
  intros Hv Hr. apply Z.bits_inj'; intros i Hi.
  destruct (Z.ltb_spec i 32); cycle 1.
  { rewrite !(testbit_high _ 32) by (apply ror_range || done). done. }
  rewrite !ror_testbit; auto using ror_range with lia; cycle 1.
  { pose proof (Z.mod_pos_bound (i + (32 - r)) 32). lia. }
  f_equal. rewrite Zplus_mod_idemp_l. replace (i + (32 - r) + r) with (i + 1 * 32) by lia.
  rewrite Z.mod_add by lia. apply Z.mod_small. lia.
Qed.

(** A rotation by 0 shifts left by 32.  It still yields the word when the
    over-long shift yields 0 or, as on x86, masks its count. *)
Lemma ror_0 v :
  is_u32 v -> u32 (shl_over v 32) = 0 \/ u32 (shl_over v 32) = v -> ror v 0 = v.
Proof.
  intros Hv Ho. unfold ror. rewrite shr32_ok, Z.shiftr_0_r by (done || lia).
  change (shl32 v (32 - 0)) with (u32 (shl_over v 32)).
  destruct Ho as [-> | ->]; [apply Z.lor_0_r|apply Z.lor_diag].
Qed.
End shifts.
#[export] Hint Resolve asr_range ror_range : crange.

(** A host on which [x << 32] is 0 or [x] (the two behaviours of the processors
    in use), so that [ror] by 0 is the identity. *)
Class RotateHost `{Host} : Prop :=
  shl_32 : forall v, is_u32 v -> u32 (shl_over v 32) = 0 \/ u32 (shl_over v 32) = v.

#[export] Instance x86_rotate junk : RotateHost (H := x86_host junk).
Proof. intros v Hv. right. simpl. rewrite Z.shiftl_0_r. by apply u32_small. Qed.
