(* ===== verification/Constants.v ===== *)
(** * [arm_constants.h] and [arm_constants.c]: encodings and name tables *)
From S2P Require Import Prelude CInt.

(** ** Opcodes of data processing instructions (bits 24..21) *)
Definition AND : Z := 0.
Definition EOR : Z := 1.
Definition SUB : Z := 2.
Definition RSB : Z := 3.
Definition ADD : Z := 4.
Definition ADC : Z := 5.
Definition SBC : Z := 6.
Definition RSC : Z := 7.
Definition TST : Z := 8.
Definition TEQ : Z := 9.
Definition CMP : Z := 10.
Definition CMN : Z := 11.
Definition ORR : Z := 12.
Definition MOV : Z := 13.
Definition BIC : Z := 14.
Definition MVN : Z := 15.

(** ** Instruction types (bits 27..25) *)
Definition DATA_PROCESSING_SHIFT : Z := 0.
Definition DATA_PROCESSING_IMMEDIATE : Z := 1.
Definition LOAD_STORE_IMMEDIATE : Z := 2.
Definition LOAD_STORE_REGISTER : Z := 3.
Definition LOAD_STORE_MULTIPLE : Z := 4.
Definition BRANCH : Z := 5.
Definition LOAD_STORE_COPROC : Z := 6.
Definition COPROCESSOR_OTHERS_SWI : Z := 7.

(** ** Conditions (bits 31..28) *)
Definition EQ : Z := 0.
Definition NE : Z := 1.
Definition CS : Z := 2.
Definition CC : Z := 3.
Definition MI : Z := 4.
Definition PL : Z := 5.
Definition VS : Z := 6.
Definition VC : Z := 7.
Definition HI : Z := 8.
Definition LS : Z := 9.
Definition GE : Z := 10.
Definition LT : Z := 11.
Definition GT : Z := 12.
Definition LE : Z := 13.
Definition AL : Z := 14.

(** ** Registers *)
Definition SP : Z := 13.
Definition LR : Z := 14.
Definition PC : Z := 15.
Definition CPSR : Z := 16.
(** [trace.h] *)
Definition SPSR : Z := 17.

(** ** Processor modes *)
Definition USR : Z := 0x10.
Definition FIQ : Z := 0x11.
Definition IRQ : Z := 0x12.
Definition SVC : Z := 0x13.
Definition ABT : Z := 0x17.
Definition UND : Z := 0x1b.
Definition SYS : Z := 0x1f.

(** ** Exceptions *)
Definition RESET : Z := 1.
Definition UNDEFINED_INSTRUCTION : Z := 2.
Definition SOFTWARE_INTERRUPT : Z := 3.
Definition PREFETCH_ABORT : Z := 4.
Definition DATA_ABORT : Z := 5.
Definition IMPRECISE_ABORT : Z := 6.
Definition INTERRUPT : Z := 7.
Definition FAST_INTERRUPT : Z := 8.

(** ** Bits of the CPSR (the macros [N], [Z], [C], [V]) *)
Definition FLAG_N : Z := 31.
Definition FLAG_Z : Z := 30.
Definition FLAG_C : Z := 29.
Definition FLAG_V : Z := 28.

(** ** Shift operations (bits 6..5) *)
Definition LSL : Z := 0.
Definition LSR : Z := 1.
Definition ASR : Z := 2.
Definition ROR : Z := 3.

(** ** Name tables; a null entry is [None] *)
Definition arm_mode_names : list (option string) :=
  replicate 16 None ++
  [Some "USR"; Some "FIQ"; Some "IRQ"; Some "SVC"; None; None; None;
   Some "ABT"; None; None; None; Some "UND"; None; None; None; Some "SYS"]%string.

Definition arm_register_names : list string :=
  ["R00"; "R01"; "R02"; "R03"; "R04"; "R05"; "R06"; "R07"; "R08"; "R09"; "R10";
   "R11"; "R12"; "SP"; "LR"; "PC"; "CPSR"; "SPSR"]%string.

Definition arm_exception_names : list (option string) :=
  [None; Some "reset"; Some "undefined instruction"; Some "software interrupt";
   Some "prefetch abort"; Some "data abort"; Some "imprecise_abort";
   Some "interrupt"; Some "fast interrupt"]%string.

Definition arm_opcode_names : list string :=
  ["AND"; "EOR"; "SUB"; "RSB"; "ADD"; "ADC"; "SBC"; "RSC"; "TST"; "TEQ"; "CMP";
   "CMN"; "ORR"; "MOV"; "BIC"; "MVN"]%string.

(** Indexing a constant table; out of the table it is undefined. *)
Definition table_read {S A} (l : list A) (i : Z) : M S A :=
  match aget l i with Some x => ret x | None => undef OutOfBounds end.

Definition arm_get_exception_name {S} (exception : Z) : M S (option string) :=
  if exception <? 9 then table_read arm_exception_names exception else ret None.

Definition arm_get_mode_name {S} (mode : Z) : M S (option string) :=
  table_read arm_mode_names mode.

Definition arm_get_register_name {S} (reg : Z) : M S string :=
  table_read arm_register_names reg.

Definition arm_get_opcode_name {S} (code : Z) : M S string :=
  table_read arm_opcode_names code.

Lemma table_read_lt {S A} (l : list A) i (s : S) :
  0 <= i < Z.of_nat (length l) -> exists x, table_read l i s = Ret x s.
Proof. intros [x Hx]%aget_lt. exists x. unfold table_read. by rewrite Hx. Qed.
