(* ===== verification/Memory.v ===== *)
(** * [memory.c]: the simulated memory

    [memory_data] holds the block [m] returned by [malloc] (a null pointer is
    the empty block, so that every access through it is out of bounds), its
    [size] and the byte order.  A read takes the value the result pointer
    refers to before the call and returns the pair of the return code and of
    the value after the call. *)
From S2P Require Import Prelude CInt Constants.

Record memory_data : Type := Memory {
  m : list Z;
  size : Z;
  is_be : Z;
}.

Definition m_lens : lens memory_data (list Z) :=
  Lens m (fun l mem => Memory l (size mem) (is_be mem)).

#[export] Instance m_lens_laws : LensLaws m_lens.
Proof. by split; try intros [] || intros ? []. Qed.

(** [malloc(size)] gives the block [bytes] (its initial contents are not
    specified) or a null pointer. *)
Definition memory_create (bytes : option (list Z)) (size is_big_endian : Z) : memory_data :=
  Memory (default [] bytes) size is_big_endian.

Definition memory_get_size : M memory_data Z := gets size.

Definition is_not_valid_address (address : Z) : M memory_data bool :=
  let! sz := memory_get_size in ret (sz <=? address).

(** [mem->m[i]] *)
Definition rd (i : Z) : M memory_data Z := zoom m_lens (cell_read i).
Definition wr (i v : Z) : M memory_data unit := zoom m_lens (cell_write i (u8 v)).

Section with_host.
Context `{Host}.

Definition memory_read_byte (address value : Z) : M memory_data (Z * Z) :=
  let! bad := is_not_valid_address address in
  if bad then ret (DATA_ABORT, value) else
  let! b := rd address in
  ret (0, b).

Definition memory_read_half (address value : Z) : M memory_data (Z * Z) :=
  let! bad := is_not_valid_address address in
  if bad then ret (DATA_ABORT, value) else
  let! be := gets is_be in
  if nz be then
    let! b0 := rd address in let! b1 := rd (u32 (address + 1)) in
    ret (0, u16 (Z.lor (int_shl b0 8) b1))
  else
    let! b1 := rd (u32 (address + 1)) in let! b0 := rd address in
    ret (0, u16 (Z.lor (int_shl b1 8) b0)).

Definition memory_read_word (address value : Z) : M memory_data (Z * Z) :=
  let! bad := is_not_valid_address address in
  if bad then ret (DATA_ABORT, value) else
  let! be := gets is_be in
  if nz be then
    let! b0 := rd address in let! b1 := rd (u32 (address + 1)) in
    let! b2 := rd (u32 (address + 2)) in let! b3 := rd (u32 (address + 3)) in
    ret (0, u32 (Z.lor (Z.lor (Z.lor (int_shl b0 24) (int_shl b1 16))
                               (int_shl b2 8)) b3))
  else
    let! b3 := rd (u32 (address + 3)) in let! b2 := rd (u32 (address + 2)) in
    let! b1 := rd (u32 (address + 1)) in let! b0 := rd address in
    ret (0, u32 (Z.lor (Z.lor (Z.lor (int_shl b3 24) (int_shl b2 16))
                               (int_shl b1 8)) b0)).

Definition memory_write_byte (address value : Z) : M memory_data Z :=
  let! bad := is_not_valid_address address in
  if bad then ret DATA_ABORT else
  wr address value ;;;
  ret 0.

Definition memory_write_half (address value : Z) : M memory_data Z :=
  let! bad := is_not_valid_address address in
  if bad then ret DATA_ABORT else
  if nz (address mod 2) then ret DATA_ABORT else
  let! be := gets is_be in
  (if nz be then
     wr address (int_shr value 8) ;;; wr (u32 (address + 1)) value
   else
     wr address value ;;; wr (u32 (address + 1)) (int_shr value 8)) ;;;
  ret 0.

Definition memory_write_word (address value : Z) : M memory_data Z :=
  let! bad := is_not_valid_address address in
  if bad then ret DATA_ABORT else
  if nz (address mod 4) then ret DATA_ABORT else
  let! be := gets is_be in
  (if nz be then
     wr address (shr32 value 24) ;;; wr (u32 (address + 1)) (shr32 value 16) ;;;
     wr (u32 (address + 2)) (shr32 value 8) ;;; wr (u32 (address + 3)) value
   else
     wr address value ;;; wr (u32 (address + 1)) (shr32 value 8) ;;;
     wr (u32 (address + 2)) (shr32 value 16) ;;; wr (u32 (address + 3)) (shr32 value 24)) ;;;
  ret 0.
End with_host.

(** ** Abstract view: a memory is its bytes, its size and its byte order *)

Definition mem_ok (mem : memory_data) : Prop :=
  Forall is_u8 (m mem) /\ 0 <= size mem <= Z.of_nat (length (m mem)) /\
  Z.of_nat (length (m mem)) <= 2 ^ 32.

Definition byte_at (mem : memory_data) (a : Z) : Z := default 0 (aget (m mem) a).

(** The number whose bytes are [bs], most significant first. *)
Definition of_bytes (bs : list Z) : Z := fold_left (fun acc b => acc * 2 ^ 8 + b) bs 0.

(** The bytes at [a], ..., [a + n - 1], most significant first. *)
Definition bytes_at (mem : memory_data) (a : Z) (n : nat) : list Z :=
  let bs := (fun k => byte_at mem (a + Z.of_nat k)) <$> seq 0 n in
  if nz (is_be mem) then bs else rev bs.

Definition half_at (mem : memory_data) (a : Z) : Z := of_bytes (bytes_at mem a 2).
Definition word_at (mem : memory_data) (a : Z) : Z := of_bytes (bytes_at mem a 4).

Definition set_m (l : list Z) (mem : memory_data) : memory_data :=
  Memory l (size mem) (is_be mem).

(** Byte [k] of a word stored in the given byte order at offset [k]. *)
Definition word_byte (be : bool) (v k : Z) : Z :=
  u8 (Z.shiftr v (8 * (if be then 3 - k else k))).
Definition half_byte (be : bool) (v k : Z) : Z :=
  u8 (Z.shiftr v (8 * (if be then 1 - k else k))).

Definition put_byte (mem : memory_data) (a v : Z) : memory_data :=
  set_m (aset (m mem) a (u8 v)) mem.
Definition put_half (mem : memory_data) (a v : Z) : memory_data :=
  let b := half_byte (nz (is_be mem)) v in
  set_m (aset (aset (m mem) a (b 0)) (a + 1) (b 1)) mem.
Definition put_word (mem : memory_data) (a v : Z) : memory_data :=
  let b := word_byte (nz (is_be mem)) v in
  set_m (aset (aset (aset (aset (m mem) a (b 0)) (a + 1) (b 1)) (a + 2) (b 2))
           (a + 3) (b 3)) mem.

(** ** Lemmas *)

Lemma byte_at_aget mem a :
  0 <= a < Z.of_nat (length (m mem)) -> aget (m mem) a = Some (byte_at mem a).
Proof. intros [x Hx]%aget_lt. unfold byte_at. by rewrite Hx. Qed.

Lemma byte_at_range mem a : mem_ok mem -> is_u8 (byte_at mem a).
Proof.
  intros (HF & _). unfold byte_at. destruct (aget (m mem) a) eqn:E; simpl.
  - by eapply Forall_aget.
  - unfold is_u8; lia.
Qed.

Lemma rd_ok mem a :
  0 <= a < Z.of_nat (length (m mem)) -> rd a mem = Ret (byte_at mem a) mem.
Proof.
  intros Ha. unfold rd. erewrite zoom_ret; [|apply cell_read_ret, byte_at_aget, Ha].
  f_equal. apply (lset_lget (l := m_lens)).
Qed.

Lemma wr_ok mem a v :
  0 <= a < Z.of_nat (length (m mem)) -> wr a v mem = Ret tt (put_byte mem a v).
Proof. intros Ha. unfold wr. by erewrite zoom_ret by by apply cell_write_ret. Qed.

Lemma rd_oob mem a :
  a < 0 \/ Z.of_nat (length (m mem)) <= a -> rd a mem = Undef OutOfBounds.
Proof.
  intros Ha. unfold rd. apply zoom_undef, cell_read_undef, aget_None, Ha.
Qed.

Lemma m_put_byte mem a v : m (put_byte mem a v) = aset (m mem) a (u8 v).
Proof. done. Qed.

Lemma valid_ok mem a : is_not_valid_address a mem = Ret (size mem <=? a) mem.
Proof. done. Qed.

(** *** Assembling a value from its bytes *)

Lemma u32_of_lor x y : u32 (Z.lor x y) = Z.lor (u32 x) (u32 y).
Proof. bitwise. Qed.
Lemma u16_of_lor x y : u16 (Z.lor x y) = Z.lor (u16 x) (u16 y).
Proof. bitwise. Qed.

Lemma lor_add a b n : 0 <= n -> 0 <= b < 2 ^ n -> Z.lor (a * 2 ^ n) b = a * 2 ^ n + b.
Proof.
  intros Hn Hb. rewrite <- Z.shiftl_mul_pow2 by done.
  assert (Z.land (Z.shiftl a n) b = 0).
  { apply Z.bits_inj'; intros i Hi. autorewrite with zbits.
    destruct (Z.ltb_spec i n).
    - by rewrite Z.testbit_neg_r by lia.
    - rewrite (testbit_high b n i) by lia. by rewrite andb_false_r. }
  rewrite <- Z.lxor_lor by done. symmetry. by apply Z.add_nocarry_lxor.
Qed.

Section assemble.
Context `{Host}.

Lemma u32_int_shl_byte b n :
  is_u8 b -> 0 <= n <= 24 -> u32 (int_shl b n) = b * 2 ^ n.
Proof.
  intros Hb Hn. rewrite u32_int_shl by lia. rewrite Z.shiftl_mul_pow2 by lia.
  apply u32_small. unfold is_u8, is_u32 in *.
  assert (0 < 2 ^ n <= 2 ^ 24).
  { split; [apply Z.pow_pos_nonneg; lia|apply Z.pow_le_mono_r; lia]. }
  nia.
Qed.

Lemma assemble_word b0 b1 b2 b3 :
  is_u8 b0 -> is_u8 b1 -> is_u8 b2 -> is_u8 b3 ->
  u32 (Z.lor (Z.lor (Z.lor (int_shl b0 24) (int_shl b1 16)) (int_shl b2 8)) b3)
  = of_bytes [b0; b1; b2; b3].
Proof.
  intros H0 H1 H2 H3. rewrite !u32_of_lor, !u32_int_shl_byte by (done || lia).
  rewrite (u32_small b3) by auto with crange. unfold of_bytes; simpl.
  unfold is_u8 in *.
  rewrite (lor_add b0 _ 24) by lia.
  replace (b0 * 2 ^ 24 + b1 * 2 ^ 16) with ((b0 * 2 ^ 8 + b1) * 2 ^ 16) by lia.
  rewrite (lor_add _ _ 16) by lia.
  replace ((b0 * 2 ^ 8 + b1) * 2 ^ 16 + b2 * 2 ^ 8)
    with (((b0 * 2 ^ 8 + b1) * 2 ^ 8 + b2) * 2 ^ 8) by lia.
  by rewrite (lor_add _ _ 8) by lia.
Qed.

Lemma assemble_half b0 b1 :
  is_u8 b0 -> is_u8 b1 -> u16 (Z.lor (int_shl b0 8) b1) = of_bytes [b0; b1].
Proof.
  intros H0 H1. rewrite u16_of_lor.
  assert (Hs : int_shl b0 8 = b0 * 2 ^ 8).
  { unfold int_shl. change (shift_ok 8) with true. cbv iota.
    rewrite Z.shiftl_mul_pow2 by lia. apply s32_small. unfold is_u8 in *. lia. }
  unfold is_u8 in *. rewrite Hs, !u16_small by (unfold is_u16; lia).
  rewrite lor_add by lia. unfold of_bytes; simpl. lia.
Qed.
End assemble.

Lemma of_bytes_2 a b : of_bytes [a; b] = a * 2 ^ 8 + b.
Proof. unfold of_bytes; simpl. lia. Qed.
Lemma of_bytes_4 a b c d :
  of_bytes [a; b; c; d] = a * 2 ^ 24 + b * 2 ^ 16 + c * 2 ^ 8 + d.
Proof. unfold of_bytes; simpl. lia. Qed.

(** *** Disassembling: the bytes of a value give it back *)

Lemma byte_split v n : 0 <= n -> u8 (Z.shiftr v n) = (v / 2 ^ n) mod 2 ^ 8.
Proof. intros. unfold u8. by rewrite Z.shiftr_div_pow2. Qed.

Lemma of_bytes_word v :
  is_u32 v ->
  of_bytes [u8 (Z.shiftr v 24); u8 (Z.shiftr v 16); u8 (Z.shiftr v 8); u8 v] = v.
Proof.
  intros Hv. rewrite of_bytes_4, !byte_split by lia. unfold u8, is_u32 in *.
  pose proof (Z.div_mod v (2 ^ 8) ltac:(lia)) as E0.
  replace (v / 2 ^ 16) with (v / 2 ^ 8 / 2 ^ 8) by (rewrite Z.div_div; [done|lia..]).
  replace (v / 2 ^ 24) with (v / 2 ^ 8 / 2 ^ 8 / 2 ^ 8)
    by (rewrite !Z.div_div; [done|lia..]).
  set (q1 := v / 2 ^ 8) in *.
  pose proof (Z.div_mod q1 (2 ^ 8) ltac:(lia)) as E1. set (q2 := q1 / 2 ^ 8) in *.
  pose proof (Z.div_mod q2 (2 ^ 8) ltac:(lia)) as E2. set (q3 := q2 / 2 ^ 8) in *.
  rewrite (Z.mod_small q3 (2 ^ 8)); [lia|].
  split; [repeat apply Z.div_pos; lia|].
  repeat (apply Z.div_lt_upper_bound; [lia|]). lia.
Qed.

Lemma of_bytes_half v : is_u16 v -> of_bytes [u8 (Z.shiftr v 8); u8 v] = v.
Proof.
  intros Hv. rewrite of_bytes_2, byte_split by lia. unfold u8, is_u16 in *.
  pose proof (Z.div_mod v (2 ^ 8) ltac:(lia)) as E0.
  rewrite (Z.mod_small (v / _)); [lia|].
  split; [apply Z.div_pos; lia|]. apply Z.div_lt_upper_bound; lia.
Qed.

(** *** The operations on every branch *)

(** Run the write that starts a sequence. *)
Ltac wr_step :=
  rewrite ?bind_assoc;
  erewrite bind_ret by (apply wr_ok; simpl; rewrite ?length_aset; lia); cbv beta.

#[export] Hint Resolve rd_ok wr_ok valid_ok : mrun.

Lemma leb_valid mem a : 0 <= a < size mem -> (size mem <=? a) = false.
Proof. intros. apply Z.leb_gt. lia. Qed.

Lemma mem_ok_put_byte mem a v : mem_ok mem -> mem_ok (put_byte mem a v).
Proof.
  intros (HF & Hs). split; [apply Forall_aset; auto with crange|].
  simpl. by rewrite length_aset.
Qed.

Section ops.
Context `{Host}.
Implicit Types (mem : memory_data) (a v : Z).

Lemma memory_read_byte_ok mem a v :
  mem_ok mem -> 0 <= a < size mem ->
  memory_read_byte a v mem = Ret (0, byte_at mem a) mem.
Proof.
  intros (_ & Hs) Ha. unfold memory_read_byte. mstep. rewrite leb_valid by done.
  by mrun.
Qed.

Lemma memory_read_half_ok mem a v :
  mem_ok mem -> 0 <= a < size mem -> a + 1 < Z.of_nat (length (m mem)) ->
  memory_read_half a v mem = Ret (0, half_at mem a) mem.
Proof.
  intros Hok Ha Hl. destruct (Hok) as (_ & Hs). unfold memory_read_half.
  mstep. rewrite leb_valid by done. rewrite u32_small by (unfold is_u32; lia).
  mstep. unfold half_at, bytes_at. simpl. rewrite Z.add_0_r.
  destruct (nz (is_be mem)); mrun; unfold ret; simpl;
    by rewrite assemble_half by by apply byte_at_range.
Qed.

Lemma memory_read_word_ok mem a v :
  mem_ok mem -> 0 <= a < size mem -> a + 3 < Z.of_nat (length (m mem)) ->
  memory_read_word a v mem = Ret (0, word_at mem a) mem.
Proof.
  intros Hok Ha Hl. destruct (Hok) as (_ & Hs). unfold memory_read_word.
  mstep. rewrite leb_valid by done. rewrite !u32_small by (unfold is_u32; lia).
  mstep. unfold word_at, bytes_at. simpl. rewrite Z.add_0_r.
  destruct (nz (is_be mem)); mrun; unfold ret; simpl;
    by rewrite assemble_word by by apply byte_at_range.
Qed.

(** An address at or past the end of the memory: every operation returns
    [DATA_ABORT] and nothing changes. *)
Lemma memory_invalid mem a v :
  size mem <= a ->
  memory_read_byte a v mem = Ret (DATA_ABORT, v) mem /\
  memory_read_half a v mem = Ret (DATA_ABORT, v) mem /\
  memory_read_word a v mem = Ret (DATA_ABORT, v) mem /\
  memory_write_byte a v mem = Ret DATA_ABORT mem /\
  memory_write_half a v mem = Ret DATA_ABORT mem /\
  memory_write_word a v mem = Ret DATA_ABORT mem.
Proof.
  intros Ha%Z.leb_le.
  unfold memory_read_byte, memory_read_half, memory_read_word, memory_write_byte,
    memory_write_half, memory_write_word.
  repeat split; erewrite bind_ret by apply valid_ok; by rewrite Ha.
Qed.

Lemma memory_write_half_misaligned mem a v :
  a mod 2 <> 0 -> memory_write_half a v mem = Ret DATA_ABORT mem.
Proof.
  intros Hm%nz_true. unfold memory_write_half. mstep. rewrite Hm. by case_match.
Qed.

Lemma memory_write_word_misaligned mem a v :
  a mod 4 <> 0 -> memory_write_word a v mem = Ret DATA_ABORT mem.
Proof.
  intros Hm%nz_true. unfold memory_write_word. mstep. rewrite Hm. by case_match.
Qed.

Lemma memory_write_byte_ok mem a v :
  mem_ok mem -> 0 <= a < size mem ->
  memory_write_byte a v mem = Ret 0 (put_byte mem a v).
Proof.
  intros (_ & Hs) Ha. unfold memory_write_byte. mstep. rewrite leb_valid by done.
  by mrun.
Qed.

Lemma memory_write_half_ok mem a v :
  mem_ok mem -> 0 <= a < size mem -> a mod 2 = 0 ->
  a + 1 < Z.of_nat (length (m mem)) -> is_u16 v ->
  memory_write_half a v mem = Ret 0 (put_half mem a v).
Proof.
  intros (_ & Hs) Ha Hal Hl Hv. unfold memory_write_half. mstep.
  rewrite leb_valid by done. rewrite Hal, u32_small by (unfold is_u32; lia).
  unfold put_half, half_byte. simpl. mstep.
  assert (Hsh : int_shr v 8 = Z.shiftr v 8).
  { unfold int_shr. change (shift_ok 8) with true. cbv iota. apply s32_small.
    rewrite Z.shiftr_div_pow2 by lia. unfold is_u16 in Hv.
    pose proof (Z.div_pos v (2 ^ 8)). pose proof (Z.div_lt_upper_bound v (2 ^ 8) (2 ^ 16)).
    lia. }
  rewrite Hsh. destruct (nz (is_be mem)); simpl; mrun; rewrite ?Z.shiftr_0_r.
  all: by do 2 wr_step.
Qed.

Lemma memory_write_word_ok mem a v :
  mem_ok mem -> 0 <= a < size mem -> a mod 4 = 0 ->
  a + 3 < Z.of_nat (length (m mem)) -> is_u32 v ->
  memory_write_word a v mem = Ret 0 (put_word mem a v).
Proof.
  intros (_ & Hs) Ha Hal Hl Hv. unfold memory_write_word. mstep.
  rewrite leb_valid by done. rewrite Hal, !u32_small by (unfold is_u32; lia).
  unfold put_word, word_byte. simpl. mstep. rewrite !shr32_ok by (done || lia).
  destruct (nz (is_be mem)); simpl; rewrite ?Z.shiftr_0_r.
  all: by do 4 wr_step.
Qed.
End ops.

(** *** What a store changes *)

Lemma byte_at_set l mem a : byte_at (set_m l mem) a = default 0 (aget l a).
Proof. done. Qed.

Ltac bytes :=
  unfold put_word, put_half, put_byte; cbv zeta; rewrite ?byte_at_set; simpl;
  repeat first
    [ rewrite aget_aset_eq by (rewrite ?length_aset; lia)
    | rewrite aget_aset_ne by lia ].

Lemma byte_at_put_byte mem a v b :
  0 <= a < Z.of_nat (length (m mem)) ->
  byte_at (put_byte mem a v) b = if b =? a then u8 v else byte_at mem b.
Proof. intros. destruct (Z.eqb_spec b a) as [->|]; by bytes. Qed.

Lemma byte_at_put_half mem a v k :
  0 <= a -> a + 1 < Z.of_nat (length (m mem)) -> 0 <= k < 2 ->
  byte_at (put_half mem a v) (a + k) = half_byte (nz (is_be mem)) v k.
Proof.
  intros. assert (k = 0 \/ k = 1) as [-> | ->] by lia; rewrite ?Z.add_0_r; by bytes.
Qed.

Lemma byte_at_put_word mem a v k :
  0 <= a -> a + 3 < Z.of_nat (length (m mem)) -> 0 <= k < 4 ->
  byte_at (put_word mem a v) (a + k) = word_byte (nz (is_be mem)) v k.
Proof.
  intros. assert (k = 0 \/ k = 1 \/ k = 2 \/ k = 3) as [-> | [-> | [-> | ->]]] by lia;
    rewrite ?Z.add_0_r; by bytes.
Qed.

Lemma byte_at_put_half_ne mem a v b :
  b < a \/ a + 2 <= b -> byte_at (put_half mem a v) b = byte_at mem b.
Proof. intros. by bytes. Qed.

Lemma byte_at_put_word_ne mem a v b :
  b < a \/ a + 4 <= b -> byte_at (put_word mem a v) b = byte_at mem b.
Proof. intros. by bytes. Qed.

Lemma mem_ok_put_half mem a v : mem_ok mem -> mem_ok (put_half mem a v).
Proof.
  intros (HF & Hs). split; [|simpl; by rewrite !length_aset].
  unfold put_half, half_byte; simpl. repeat apply Forall_aset; auto with crange.
Qed.

Lemma mem_ok_put_word mem a v : mem_ok mem -> mem_ok (put_word mem a v).
Proof.
  intros (HF & Hs). split; [|simpl; by rewrite !length_aset].
  unfold put_word, word_byte; simpl. repeat apply Forall_aset; auto with crange.
Qed.
#[export] Hint Resolve mem_ok_put_byte mem_ok_put_half mem_ok_put_word : crange.

Lemma word_at_eq mem a :
  word_at mem a =
  of_bytes (if nz (is_be mem)
            then [byte_at mem a; byte_at mem (a + 1); byte_at mem (a + 2); byte_at mem (a + 3)]
            else [byte_at mem (a + 3); byte_at mem (a + 2); byte_at mem (a + 1); byte_at mem a]).
Proof. unfold word_at, bytes_at. simpl. rewrite Z.add_0_r. by destruct (nz _). Qed.

Lemma half_at_eq mem a :
  half_at mem a =
  of_bytes (if nz (is_be mem) then [byte_at mem a; byte_at mem (a + 1)]
            else [byte_at mem (a + 1); byte_at mem a]).
Proof. unfold half_at, bytes_at. simpl. rewrite Z.add_0_r. by destruct (nz _). Qed.

Lemma word_at_put_word mem a v :
  0 <= a -> a + 3 < Z.of_nat (length (m mem)) -> is_u32 v ->
  word_at (put_word mem a v) a = v.
Proof.
  intros Ha Hl Hv. pose proof (byte_at_put_word mem a v 0) as H0.
  rewrite Z.add_0_r in H0. rewrite word_at_eq, H0, !byte_at_put_word by lia. simpl.
  unfold word_byte. destruct (nz (is_be mem)); simpl;
    rewrite Z.shiftr_0_r; by apply of_bytes_word.
Qed.

Lemma word_at_frame mem mem' a :
  is_be mem' = is_be mem -> (forall k, 0 <= k < 4 -> byte_at mem' (a + k) = byte_at mem (a + k)) ->
  word_at mem' a = word_at mem a.
Proof.
  intros Hbe Hk. pose proof (Hk 0 ltac:(lia)) as H0. rewrite Z.add_0_r in H0.
  by rewrite !word_at_eq, Hbe, H0, !Hk by lia.
Qed.

Lemma word_at_range mem a : mem_ok mem -> is_u32 (word_at mem a).
Proof.
  intros Hok. rewrite word_at_eq.
  pose proof (byte_at_range mem a Hok). pose proof (byte_at_range mem (a + 1) Hok).
  pose proof (byte_at_range mem (a + 2) Hok). pose proof (byte_at_range mem (a + 3) Hok).
  unfold is_u8, is_u32 in *. destruct (nz _); rewrite of_bytes_4; lia.
Qed.

Lemma half_at_range mem a : mem_ok mem -> is_u16 (half_at mem a).
Proof.
  intros Hok. rewrite half_at_eq.
  pose proof (byte_at_range mem a Hok). pose proof (byte_at_range mem (a + 1) Hok).
  unfold is_u8, is_u16 in *. destruct (nz _); rewrite of_bytes_2; lia.
Qed.
#[export] Hint Resolve word_at_range byte_at_range : crange.

Lemma aligned_room a n k :
  0 < k -> 0 <= a < n -> a mod k = 0 -> n mod k = 0 -> a + k <= n.
Proof.
  intros Hk Ha H1 H2. apply Z.mod_divide in H1 as [x ->]; [|lia].
  apply Z.mod_divide in H2 as [y ->]; [|lia].
  assert (x < y) by (apply (Z.mul_lt_mono_pos_r k); lia).
  enough ((x + 1) * k <= y * k) by lia. apply Z.mul_le_mono_nonneg_r; lia.
Qed.

(** ** Properties *)

Section properties.
Context `{Host}.

(** The conditions under which a word access at [a] stays inside the block:
    the memory's size is a multiple of 4 (as the 0x20000 bytes of [main]) and
    the address is aligned. *)
Definition word_addr (mem : memory_data) (a : Z) : Prop :=
  size mem mod 4 = 0 /\ 0 <= a < size mem /\ a mod 4 = 0.

Lemma word_addr_room mem a :
  mem_ok mem -> word_addr mem a -> a + 3 < Z.of_nat (length (m mem)).
Proof.
  intros (_ & Hs & _) (H4 & Ha & Hal).
  pose proof (aligned_room a (size mem) 4 ltac:(lia) Ha Hal H4). lia.
Qed.

(** C19: A word written at an aligned valid address is read back unchanged by
    [memory_read_word], each of its four bytes is where the byte order of the
    memory puts it (most significant first when big endian, last when little
    endian), and no other byte of the memory changes. *)
Theorem memory_word_roundtrip mem a v old :
  mem_ok mem -> word_addr mem a -> is_u32 v ->
  exists mem',
    memory_write_word a v mem = Ret 0 mem' /\
    memory_read_word a old mem' = Ret (0, v) mem' /\
    (forall k, 0 <= k < 4 ->
      memory_read_byte (a + k) old mem' =
      Ret (0, u8 (Z.shiftr v (8 * (if nz (is_be mem) then 3 - k else k)))) mem') /\
    (forall b, b < a \/ a + 4 <= b -> byte_at mem' b = byte_at mem b) /\
    mem_ok mem'.
Proof.
  intros Hok Hw Hv. pose proof (word_addr_room mem a Hok Hw) as Hr.
  destruct Hw as (H4 & Ha & Hal). exists (put_word mem a v).
  pose proof (mem_ok_put_word mem a v Hok) as Hok'.
  pose proof (aligned_room a (size mem) 4 ltac:(lia) Ha Hal H4).
  split; [by apply memory_write_word_ok|]. split_and!; [| | |done].
  - rewrite memory_read_word_ok; try done; [|simpl; by rewrite !length_aset].
    by rewrite word_at_put_word by (done || lia).
  - intros k Hk. rewrite memory_read_byte_ok by (done || simpl; lia).
    by rewrite byte_at_put_word by lia.
  - intros b Hb. by apply byte_at_put_word_ne.
Qed.

(** A valid but misaligned word or half-word write returns [DATA_ABORT]
    and leaves the memory alone; so does every access whose address is not
    below the size. *)
Theorem memory_errors mem a v :
  (size mem <= a \/ a mod 4 <> 0 -> memory_write_word a v mem = Ret DATA_ABORT mem) /\
  (size mem <= a \/ a mod 2 <> 0 -> memory_write_half a v mem = Ret DATA_ABORT mem) /\
  (size mem <= a ->
    memory_write_byte a v mem = Ret DATA_ABORT mem /\
    memory_read_byte a v mem = Ret (DATA_ABORT, v) mem /\
    memory_read_half a v mem = Ret (DATA_ABORT, v) mem /\
    memory_read_word a v mem = Ret (DATA_ABORT, v) mem).
Proof.
  split_and!; [intros [Ha|Ha]|intros [Ha|Ha]|intros Ha].
  1,3,5: by destruct (memory_invalid mem a v Ha) as (? & ? & ? & ? & ? & ?).
  - by apply memory_write_word_misaligned.
  - by apply memory_write_half_misaligned.
Qed.

(** No store ever leaves the block of a memory whose size is a multiple
    of 4, whatever the address and the value: each of them returns, with 0 or
    [DATA_ABORT], and keeps the memory well formed. *)
Theorem memory_writes_safe mem a v :
  mem_ok mem -> size mem mod 4 = 0 -> is_u32 a -> is_u32 v ->
  (exists r mem', memory_write_byte a (u8 v) mem = Ret r mem' /\
                  (r = 0 \/ r = DATA_ABORT) /\ mem_ok mem') /\
  (exists r mem', memory_write_half a (u16 v) mem = Ret r mem' /\
                  (r = 0 \/ r = DATA_ABORT) /\ mem_ok mem') /\
  (exists r mem', memory_write_word a v mem = Ret r mem' /\
                  (r = 0 \/ r = DATA_ABORT) /\ mem_ok mem').
Proof.
  intros Hok H4 Ha Hv. unfold is_u32 in Ha. destruct (Hok) as (_ & Hs & _).
  assert (H2 : size mem mod 2 = 0).
  { apply Z.mod_divide in H4 as [x ->]; [|lia].
    replace (x * 4) with (x * 2 * 2) by lia. apply Z.mod_mul. lia. }
  split; [|split].
  - destruct (Z.leb_spec (size mem) a).
    + exists DATA_ABORT, mem. split; [by apply memory_invalid|auto].
    + exists 0, (put_byte mem a (u8 v)).
      split; [apply memory_write_byte_ok; [done|lia]|]; auto with crange.
  - destruct (Z.leb_spec (size mem) a); cycle 1.
    { destruct (Z.eq_dec (a mod 2) 0) as [Hm|Hm].
      - pose proof (aligned_room a (size mem) 2).
        exists 0, (put_half mem a (u16 v)).
        split; [apply memory_write_half_ok; auto with crange; lia|]; auto with crange.
      - exists DATA_ABORT, mem. split; [by apply memory_write_half_misaligned|auto]. }
    exists DATA_ABORT, mem. split; [by apply memory_invalid|auto].
  - destruct (Z.leb_spec (size mem) a); cycle 1.
    { destruct (Z.eq_dec (a mod 4) 0) as [Hm|Hm].
      - pose proof (aligned_room a (size mem) 4).
        exists 0, (put_word mem a v).
        split; [apply memory_write_word_ok; auto with crange; lia|]; auto with crange.
      - exists DATA_ABORT, mem. split; [by apply memory_write_word_misaligned|auto]. }
    exists DATA_ABORT, mem. split; [by apply memory_invalid|auto].
Qed.

(** A read of [n] bytes that starts in the block and runs past its end. *)
Lemma rd_last mem a k :
  is_u32 (a + k) -> Z.of_nat (length (m mem)) <= a + k ->
  rd (u32 (a + k)) mem = Undef OutOfBounds.
Proof. intros Hu Hl. rewrite u32_small by done. apply rd_oob. by right. Qed.

(** C31: Exactly which reads are undefined.  For a memory whose block has just
    its [size] bytes, a valid half-word read is out of bounds precisely at the
    last byte, and a valid word read precisely at the last three bytes: the
    code checks only the first address of the access. *)
Theorem memory_read_bounds mem a old :
  mem_ok mem -> size mem = Z.of_nat (length (m mem)) -> size mem + 3 <= 2 ^ 32 ->
  0 <= a < size mem ->
  (memory_read_byte a old mem = Ret (0, byte_at mem a) mem) /\
  (memory_read_half a old mem =
     if a <? size mem - 1 then Ret (0, half_at mem a) mem else Undef OutOfBounds) /\
  (memory_read_word a old mem =
     if a <? size mem - 3 then Ret (0, word_at mem a) mem else Undef OutOfBounds).
Proof.
  intros Hok Hsz Hb Ha. split_and!.
  - by apply memory_read_byte_ok.
  - destruct (Z.ltb_spec a (size mem - 1)); [by apply memory_read_half_ok; try lia|].
    unfold memory_read_half. mstep. rewrite leb_valid by done. mstep.
    assert (rd (u32 (a + 1)) mem = Undef OutOfBounds)
      by (apply rd_last; unfold is_u32; lia).
    case_match; mrun; by apply bind_undef.
  - destruct (Z.ltb_spec a (size mem - 3)); [by apply memory_read_word_ok; try lia|].
    unfold memory_read_word. mstep. rewrite leb_valid by done. mstep.
    assert (rd (u32 (a + 3)) mem = Undef OutOfBounds)
      by (apply rd_last; unfold is_u32; lia).
    case_match; [|by apply bind_undef]. mstep.
    destruct (Z.ltb_spec a (size mem - 1)); cycle 1.
    { apply bind_undef, rd_last; unfold is_u32; lia. }
    rewrite (u32_small (a + 1)) by (unfold is_u32; lia). mstep.
    destruct (Z.ltb_spec a (size mem - 2)); cycle 1.
    { apply bind_undef, rd_last; unfold is_u32; lia. }
    rewrite (u32_small (a + 2)) by (unfold is_u32; lia). mstep.
    by apply bind_undef.
Qed.

Lemma byte_field v b c d n :
  v = (d * 2 ^ 8 + b) * 2 ^ n + c -> is_u8 b -> 0 <= c < 2 ^ n -> 0 <= n ->
  v / 2 ^ n mod 2 ^ 8 = b.
Proof.
  intros -> Hb Hc Hn. assert (0 < 2 ^ n) by (apply Z.pow_pos_nonneg; lia).
  rewrite Z.add_comm, Z.div_add, (Z.div_small c) by lia. rewrite Z.add_0_l.
  rewrite Z.add_comm, Z.mod_add by lia. by apply Z.mod_small.
Qed.

Lemma reverse_4_bytes b0 b1 b2 b3 :
  is_u8 b0 -> is_u8 b1 -> is_u8 b2 -> is_u8 b3 ->
  reverse_4 (of_bytes [b0; b1; b2; b3]) = of_bytes [b3; b2; b1; b0].
Proof.
  intros H0 H1 H2 H3. unfold reverse_4.
  assert (Hv : is_u32 (of_bytes [b0; b1; b2; b3])).
  { rewrite of_bytes_4. unfold is_u8, is_u32 in *. lia. }
  assert (Hff : forall x, Z.land x 0xFF = x mod 2 ^ 8).
  { intros. change 0xFF with (Z.ones 8). by rewrite Z.land_ones. }
  rewrite !shr32_ok, !Hff, !Z.shiftr_div_pow2 by (done || lia).
  rewrite of_bytes_4. unfold is_u8 in *.
  replace ((b0 * 2 ^ 24 + b1 * 2 ^ 16 + b2 * 2 ^ 8 + b3) mod 2 ^ 8) with b3; cycle 1.
  { replace (b0 * 2 ^ 24 + b1 * 2 ^ 16 + b2 * 2 ^ 8 + b3)
      with (b3 + (b0 * 2 ^ 16 + b1 * 2 ^ 8 + b2) * 2 ^ 8) by lia.
    rewrite Z.mod_add by lia. by rewrite Z.mod_small. }
  rewrite (byte_field _ b2 b3 (b0 * 2 ^ 8 + b1) 8) by (done || lia).
  rewrite (byte_field _ b1 (b2 * 2 ^ 8 + b3) b0 16) by (done || lia).
  rewrite (byte_field _ b0 (b1 * 2 ^ 16 + b2 * 2 ^ 8 + b3) 0 24) by (done || lia).
  rewrite <- (u32_small b0) at 1 by (unfold is_u32; lia).
  rewrite !shl32_ok, <- !u32_int_shl, <- !u32_of_lor by lia.
  by apply assemble_word.
Qed.

(** Byte order is exactly byte reversal: the word read at an address from
    a little endian memory is [reverse_4] of the word read from the big endian
    memory with the same bytes. *)
Theorem memory_endianness l sz a old :
  mem_ok (Memory l sz 1) -> 0 <= a < sz -> a + 3 < Z.of_nat (length l) ->
  exists w, memory_read_word a old (Memory l sz 1) = Ret (0, w) (Memory l sz 1) /\
            memory_read_word a old (Memory l sz 0) = Ret (0, reverse_4 w) (Memory l sz 0).
Proof.
  intros Hok Ha Hl. exists (word_at (Memory l sz 1) a).
  split; [by apply memory_read_word_ok|].
  rewrite memory_read_word_ok by done. rewrite !word_at_eq. simpl.
  by rewrite reverse_4_bytes by by apply (byte_at_range (Memory l sz 1)).
Qed.
End properties.

(** ** Witnesses *)

Definition mem8 (be : Z) : memory_data := memory_create (Some [1; 2; 3; 4; 5; 6; 7; 8]) 8 be.

Lemma mem8_ok be : mem_ok (mem8 be).
Proof.
  unfold mem8, memory_create. split; [|simpl; lia]. repeat constructor; unfold is_u8; lia.
Qed.

Definition host0 : Host := x86_host (fun _ => 0).

Lemma memory_word_roundtrip_witness :
  exists mem', memory_write_word (H := host0) 4 0x11223344 (mem8 1) = Ret 0 mem' /\
    memory_read_byte 4 0 mem' = Ret (0, 0x11) mem'.
Proof.
  destruct (memory_word_roundtrip (H := host0) (mem8 1) 4 0x11223344 0) as (mem' & E & _ & Hb & _).
  - apply mem8_ok.
  - split; [reflexivity|split; [cbn; lia|reflexivity]].
  - unfold is_u32; lia.
  - exists mem'. split; [exact E|]. exact (Hb 0 ltac:(lia)).
Defined.

Lemma memory_writes_safe_witness :
  exists r mem', memory_write_word (H := host0) 6 0x11223344 (mem8 0) = Ret r mem' /\
    (r = 0 \/ r = DATA_ABORT) /\ mem_ok mem'.
Proof.
  refine (proj2 (proj2 (memory_writes_safe (H := host0) (mem8 0) 6 0x11223344 _ _ _ _))).
  - apply mem8_ok.
  - reflexivity.
  - unfold is_u32; lia.
  - unfold is_u32; lia.
Defined.

Lemma memory_read_bounds_witness :
  memory_read_word (H := host0) 4 0 (mem8 1) = Ret (0, 0x05060708) (mem8 1) /\
  memory_read_word (H := host0) 5 0 (mem8 1) = Undef OutOfBounds.
Proof.
  split.
  - refine (proj2 (proj2 (memory_read_bounds (H := host0) (mem8 1) 4 0 _ _ _ _)));
      [apply mem8_ok|reflexivity|cbn; lia|cbn; lia].
  - refine (proj2 (proj2 (memory_read_bounds (H := host0) (mem8 1) 5 0 _ _ _ _)));
      [apply mem8_ok|reflexivity|cbn; lia|cbn; lia].
Defined.

Lemma memory_endianness_witness :
  exists w, memory_read_word (H := host0) 0 0 (mem8 1) = Ret (0, w) (mem8 1) /\
    memory_read_word (H := host0) 0 0 (mem8 0) = Ret (0, reverse_4 (H := host0) w) (mem8 0).
Proof.
  apply (memory_endianness (H := host0)); [apply mem8_ok|lia|cbn; lia].
Defined.

Lemma memory_errors_witness :
  memory_write_word (H := host0) 6 0 (mem8 1) = Ret DATA_ABORT (mem8 1) /\
  memory_read_word (H := host0) 8 7 (mem8 1) = Ret (DATA_ABORT, 7) (mem8 1).
Proof.
  split.
  - refine (proj1 (memory_errors (H := host0) (mem8 1) 6 0) _). right. discriminate.
  - refine (proj2 (proj2 (proj2 (proj2 (proj2 (memory_errors (H := host0) (mem8 1) 8 7)) _)))).
    cbn. lia.
Defined.
