(* ===== verification/Registers.v ===== *)
(** * [registers.c]: the register file

    The 37 words of the file are r0..r15, the CPSR, the banked registers of the
    exception modes and their SPSRs, in the layout [registers.h] documents. *)
From stdpp Require Import gmap strings.
From S2P Require Import Prelude CInt Constants.

Definition registers : Type := list Z.

(** [malloc] gives a block of 37 words of unspecified contents, or a null
    pointer (the empty block). *)
Definition registers_create (block : option (list Z)) : registers := default [] block.

Definition read_cpsr : M registers Z := cell_read CPSR.

Definition get_mode : M registers Z :=
  let! cpsr := read_cpsr in ret (u8 (Z.land cpsr 0x1f)).

Definition current_mode_has_spsr : M registers Z :=
  let! m1 := get_mode in
  let! m2 := get_mode in
  ret (b2z (negb (m1 =? USR) && negb (m2 =? SYS))).

Definition in_a_privileged_mode : M registers Z :=
  let! mode := get_mode in ret (b2z (negb (mode =? USR))).

Definition mode_offset (mode : Z) : Z :=
  if mode =? USR then 0 else
  if mode =? SYS then 0 else
  if mode =? SVC then 4 else
  if mode =? ABT then 6 else
  if mode =? UND then 8 else
  if mode =? IRQ then 10 else
  if mode =? FIQ then 17 else 0.

(** The test on [reg] in [read_register] and [write_register]. *)
Definition is_banked (reg mode : Z) : bool :=
  (reg =? 13) || (reg =? 14) || ((8 <=? reg) && (reg <=? 12) && (mode =? FIQ)).

Definition read_register (reg : Z) : M registers Z :=
  let! mode := get_mode in
  if is_banked reg mode then cell_read (reg + mode_offset mode) else cell_read reg.

Definition read_usr_register (reg : Z) : M registers Z := cell_read reg.

Definition read_spsr : M registers Z :=
  let! mode := get_mode in
  if mode =? SVC then cell_read 32 else
  if mode =? ABT then cell_read 33 else
  if mode =? UND then cell_read 34 else
  if mode =? IRQ then cell_read 35 else
  if mode =? FIQ then cell_read 36 else
  ret 0.

Definition write_register (reg value : Z) : M registers unit :=
  let! mode := get_mode in
  if is_banked reg mode then cell_write (reg + mode_offset mode) value
  else cell_write reg value.

Definition write_usr_register (reg value : Z) : M registers unit := cell_write reg value.

Definition write_cpsr (value : Z) : M registers unit := cell_write CPSR value.

Definition write_spsr (value : Z) : M registers unit :=
  let! mode := get_mode in
  when (mode =? SVC) (cell_write 32 value) ;;;
  when (mode =? ABT) (cell_write 33 value) ;;;
  when (mode =? UND) (cell_write 34 value) ;;;
  when (mode =? IRQ) (cell_write 35 value) ;;;
  when (mode =? FIQ) (cell_write 36 value).

(** The table of [registers.h]: what each word of the file holds. *)
Definition register_file : list string :=
  ["r0"; "r1"; "r2"; "r3"; "r4"; "r5"; "r6"; "r7"; "r8"; "r9"; "r10"; "r11"; "r12";
   "SP"; "LR"; "PC"; "CPSR"; "SP_SVC"; "LR_SVC"; "SP_ABT"; "LR_ABT"; "SP_UND"; "LR_UND";
   "SP_IRQ"; "LR_IRQ"; "r8_FIQ"; "r9_FIQ"; "r10_FIQ"; "r11_FIQ"; "r12_FIQ"; "SP_FIQ";
   "LR_FIQ"; "SPSR_SVC"; "SPSR_ABT"; "SPSR_UND"; "SPSR_IRQ"; "SPSR_FIQ"]%string.

(** ** Abstract view *)

Definition regs_ok (r : registers) : Prop := length r = 37%nat /\ Forall is_u32 r.

(** The word at index [i]. *)
Definition rget (r : registers) (i : Z) : Z := default 0 (aget r i).

Definition cpsr_of (r : registers) : Z := rget r CPSR.
Definition mode_of (r : registers) : Z := Z.land (cpsr_of r) 0x1f.

(** The index of register [reg] as seen from [mode], and that of its SPSR. *)
Definition slot (mode reg : Z) : Z :=
  if is_banked reg mode then reg + mode_offset mode else reg.
Definition spsr_slot (mode : Z) : option Z :=
  if mode =? SVC then Some 32 else
  if mode =? ABT then Some 33 else
  if mode =? UND then Some 34 else
  if mode =? IRQ then Some 35 else
  if mode =? FIQ then Some 36 else None.

Definition set_spsr (r : registers) (v : Z) : registers :=
  match spsr_slot (mode_of r) with Some i => aset r i v | None => r end.
Definition spsr_of (r : registers) : Z :=
  match spsr_slot (mode_of r) with Some i => rget r i | None => 0 end.

(** ** Lemmas *)

Lemma aget_rget r i : regs_ok r -> 0 <= i < 37 -> aget r i = Some (rget r i).
Proof.
  intros [Hl _] Hi. destruct (aget_lt r i) as [x Hx]; [by rewrite Hl|].
  unfold rget. by rewrite Hx.
Qed.

Lemma rget_range r i : regs_ok r -> is_u32 (rget r i).
Proof.
  intros [_ HF]. unfold rget. destruct (aget r i) eqn:E; simpl.
  - by eapply Forall_aget.
  - unfold is_u32; lia.
Qed.

Lemma regs_ok_aset r i v : regs_ok r -> is_u32 v -> regs_ok (aset r i v).
Proof. intros [Hl HF] Hv. split; [by rewrite length_aset|by apply Forall_aset]. Qed.
#[export] Hint Resolve rget_range regs_ok_aset : crange.

Lemma rget_aset_eq r i v : regs_ok r -> 0 <= i < 37 -> rget (aset r i v) i = v.
Proof. intros [Hl _] Hi. unfold rget. by rewrite aget_aset_eq by (rewrite Hl; lia). Qed.

Lemma rget_aset_ne r i j v : i <> j -> rget (aset r i v) j = rget r j.
Proof. intros. unfold rget. by rewrite aget_aset_ne. Qed.

Lemma mode_of_range r : 0 <= mode_of r < 32.
Proof. apply (land_range_r 5); lia. Qed.

Lemma mode_offset_range mode : 0 <= mode_offset mode <= 17.
Proof. unfold mode_offset. repeat case_match; lia. Qed.

Lemma slot_range mode reg : 0 <= reg < 16 -> 0 <= slot mode reg < 32 /\ slot mode reg <> 16.
Proof.
  intros Hr. unfold slot, is_banked, mode_offset.
  repeat match goal with
  | |- context [?a =? ?b] => destruct (Z.eqb_spec a b); simpl
  | |- context [?a <=? ?b] => destruct (Z.leb_spec a b); simpl
  end; subst; unfold USR, SYS, SVC, ABT, UND, IRQ, FIQ in *; lia.
Qed.

Lemma spsr_slot_range mode i : spsr_slot mode = Some i -> 32 <= i < 37.
Proof. unfold spsr_slot. repeat case_match; intros [= <-]; lia. Qed.

Section ops.
Context (r : registers) (Hr : regs_ok r).

Lemma cell_read_ok i : 0 <= i < 37 -> cell_read i r = Ret (rget r i) r.
Proof. intros. by apply cell_read_ret, aget_rget. Qed.

Lemma cell_write_ok i v : 0 <= i < 37 -> cell_write i v r = Ret tt (aset r i v).
Proof. intros. apply cell_write_ret. destruct Hr as [-> _]. done. Qed.

Lemma read_cpsr_ok : read_cpsr r = Ret (cpsr_of r) r.
Proof. by apply cell_read_ok. Qed.

Lemma get_mode_ok : get_mode r = Ret (mode_of r) r.
Proof.
  unfold get_mode. erewrite bind_ret by apply read_cpsr_ok. unfold ret.
  f_equal. pose proof (mode_of_range r). apply u8_small. unfold is_u8. unfold mode_of in *. lia.
Qed.

Lemma read_register_ok reg :
  0 <= reg < 16 -> read_register reg r = Ret (rget r (slot (mode_of r) reg)) r.
Proof.
  intros Hg. pose proof (slot_range (mode_of r) reg Hg) as Hs. unfold slot in *.
  unfold read_register. erewrite bind_ret by apply get_mode_ok.
  case_match; apply cell_read_ok; lia.
Qed.

Lemma write_register_ok reg v :
  0 <= reg < 16 -> write_register reg v r = Ret tt (aset r (slot (mode_of r) reg) v).
Proof.
  intros Hg. pose proof (slot_range (mode_of r) reg Hg) as Hs. unfold slot in *.
  unfold write_register. erewrite bind_ret by apply get_mode_ok.
  case_match; apply cell_write_ok; lia.
Qed.

Lemma read_usr_register_ok reg :
  0 <= reg < 16 -> read_usr_register reg r = Ret (rget r reg) r.
Proof. intros. apply cell_read_ok. lia. Qed.

Lemma write_usr_register_ok reg v :
  0 <= reg < 16 -> write_usr_register reg v r = Ret tt (aset r reg v).
Proof. intros. apply cell_write_ok. lia. Qed.

Lemma write_cpsr_ok v : write_cpsr v r = Ret tt (aset r CPSR v).
Proof. by apply cell_write_ok. Qed.

Lemma read_spsr_ok : read_spsr r = Ret (spsr_of r) r.
Proof.
  unfold read_spsr, spsr_of, spsr_slot. erewrite bind_ret by apply get_mode_ok.
  repeat case_match; try done; simplify_eq; apply cell_read_ok; lia.
Qed.

Lemma write_spsr_ok v : write_spsr v r = Ret tt (set_spsr r v).
Proof.
  unfold write_spsr, set_spsr, spsr_slot. erewrite bind_ret by apply get_mode_ok.
  set (mode := mode_of r). clearbody mode.
  repeat match goal with
  | |- context [mode =? ?k] => destruct (Z.eqb_spec mode k); subst
  end; simpl; unfold when, bind, ret; rewrite ?cell_write_ok by lia; try done.
Qed.

Lemma current_mode_has_spsr_ok :
  current_mode_has_spsr r =
  Ret (b2z (negb (mode_of r =? USR) && negb (mode_of r =? SYS))) r.
Proof.
  unfold current_mode_has_spsr. do 2 erewrite bind_ret by apply get_mode_ok. done.
Qed.
End ops.

(** ** Properties *)

Definition modes : list Z := [USR; FIQ; IRQ; SVC; ABT; UND; SYS].
Definition regs16 : list Z := [0; 1; 2; 3; 4; 5; 6; 7; 8; 9; 10; 11; 12; 13; 14; 15].

(** The name the ARM architecture gives to register [reg] of [mode]. *)
Definition mode_suffix (mode : Z) : string :=
  if mode =? SVC then "_SVC" else if mode =? ABT then "_ABT" else
  if mode =? UND then "_UND" else if mode =? IRQ then "_IRQ" else
  if mode =? FIQ then "_FIQ" else "".
Definition plain_name (reg : Z) : string :=
  default ""%string (aget register_file reg).
Definition arch_name (mode reg : Z) : string :=
  if (reg =? 13) || (reg =? 14) then plain_name reg ++ mode_suffix mode
  else if (8 <=? reg) && (reg <=? 12) && (mode =? FIQ) then plain_name reg ++ "_FIQ"
  else plain_name reg.

(** The name of the SPSR of [mode], in the modes that have one. *)
Definition spsr_name (mode : Z) : option string :=
  if (mode =? USR) || (mode =? SYS) then None
  else Some ("SPSR" ++ mode_suffix mode)%string.

(** The registers of the machine by their names: what the file implements. *)
Definition banks (r : registers) : gmap string Z := list_to_map (zip register_file r).

(** [op] reads, or writes [v] to, the register called [name] and no other. *)
Definition reads (name : string) (op : M registers Z) (r : registers) : Prop :=
  exists w, banks r !! name = Some w /\ op r = Ret w r.
Definition writes (name : string) (v : Z) (op : M registers unit) (r : registers) : Prop :=
  exists r', op r = Ret tt r' /\ banks r' = <[name := v]> (banks r).

Lemma elem_regs16 reg : 0 <= reg < 16 -> In reg regs16.
Proof. intros. unfold regs16. simpl. lia. Qed.

Lemma forall_in {A} (f : A -> bool) l x : forallb f l = true -> In x l -> f x = true.
Proof. intros Hf Hx. by apply (proj1 (forallb_forall f l) Hf). Qed.

Lemma slot_layout_all :
  forallb (fun mode => forallb (fun reg =>
    bool_decide (aget register_file (slot mode reg) = Some (arch_name mode reg)))
    regs16) modes = true.
Proof. vm_compute. reflexivity. Qed.

Lemma slot_layout mode reg :
  In mode modes -> 0 <= reg < 16 ->
  aget register_file (slot mode reg) = Some (arch_name mode reg).
Proof.
  intros Hm Hr%elem_regs16. pose proof (forall_in _ _ _ slot_layout_all Hm) as H1.
  pose proof (forall_in _ _ _ H1 Hr) as H2. by apply bool_decide_eq_true in H2.
Qed.

(** Different words of the table have different names. *)
Lemma register_file_inj i j n :
  aget register_file i = Some n -> aget register_file j = Some n -> i = j.
Proof.
  assert (HN : NoDup register_file) by (apply (bool_decide_unpack _); vm_compute; done).
  unfold aget. destruct (Z.leb_spec 0 i), (Z.leb_spec 0 j); try done.
  intros Hi Hj. pose proof (NoDup_lookup _ _ _ _ HN Hi Hj). lia.
Qed.

Lemma register_file_NoDup : NoDup register_file.
Proof. apply (bool_decide_unpack _). vm_compute. done. Qed.

Lemma register_file_In name : name ∈ register_file ->
  exists i, 0 <= i < 37 /\ aget register_file i = Some name.
Proof.
  intros (k & Hk)%list_elem_of_lookup. exists (Z.of_nat k).
  pose proof (lookup_lt_Some _ _ _ Hk) as Hlt. cbn in Hlt. split; [lia|].
  unfold aget. destruct (Z.leb_spec 0 (Z.of_nat k)); [|lia]. by rewrite Nat2Z.id.
Qed.

Section banks.
Context (r : registers) (Hl : length r = 37%nat).

Lemma banks_lookup i name :
  aget register_file i = Some name -> banks r !! name = Some (rget r i).
Proof.
  intros Hi. unfold banks. apply elem_of_list_to_map_1.
  - rewrite fst_zip by (rewrite Hl; cbn; lia). apply register_file_NoDup.
  - unfold rget, aget in *. destruct (Z.leb_spec 0 i); [|done].
    destruct (lookup_lt_is_Some_2 r (Z.to_nat i)) as [w Hw].
    { apply lookup_lt_Some in Hi. rewrite Hl. exact Hi. }
    rewrite Hw. apply list_elem_of_lookup. exists (Z.to_nat i).
    apply lookup_zip_with_Some. eauto.
Qed.

Lemma banks_other name : name ∉ register_file -> banks r !! name = None.
Proof.
  intros Hn. unfold banks. apply not_elem_of_list_to_map_1.
  rewrite fst_zip by (rewrite Hl; cbn; lia). done.
Qed.
End banks.

Lemma banks_aset r i name v :
  regs_ok r -> aget register_file i = Some name ->
  banks (aset r i v) = <[name := v]> (banks r).
Proof.
  intros Hr Hi. pose proof (proj1 Hr) as Hl. apply map_eq. intros n.
  assert (Hl' : length (aset r i v) = 37%nat) by by rewrite length_aset.
  assert (Hb : 0 <= i < 37).
  { unfold aget in Hi. destruct (Z.leb_spec 0 i); [|done]. apply lookup_lt_Some in Hi.
    cbn in Hi. lia. }
  destruct (decide (n ∈ register_file)) as [Hn|Hn].
  - apply register_file_In in Hn as (j & Hj & Hn). rewrite (banks_lookup _ Hl' _ _ Hn).
    destruct (decide (i = j)) as [<-|Hne].
    + rewrite rget_aset_eq by done. assert (n = name) as -> by congruence.
      by rewrite lookup_insert_eq.
    + rewrite rget_aset_ne, lookup_insert_ne by (done || (intros ->; by apply Hne, (register_file_inj _ _ n))).
      symmetry. by apply banks_lookup.
  - rewrite banks_other, lookup_insert_ne, banks_other; try done.
    intros ->. apply Hn. unfold aget in Hi. destruct (0 <=? i); [|done].
    by apply list_elem_of_lookup_2 in Hi.
Qed.

Lemma reads_word r i name op :
  regs_ok r -> aget register_file i = Some name -> op r = Ret (rget r i) r -> reads name op r.
Proof. intros [Hl _] Hi Ho. exists (rget r i). split; [by apply banks_lookup|done]. Qed.

Lemma writes_word r i name v op :
  regs_ok r -> aget register_file i = Some name -> op r = Ret tt (aset r i v) ->
  writes name v op r.
Proof. intros Hr Hi Ho. exists (aset r i v). split; [done|by apply banks_aset]. Qed.

Lemma spsr_slot_layout mode :
  In mode modes ->
  match spsr_slot mode, spsr_name mode with
  | Some i, Some n => aget register_file i = Some n
  | None, None => True
  | _, _ => False
  end.
Proof. intros [<-|[<-|[<-|[<-|[<-|[<-|[<-|[]]]]]]]]; vm_compute; done. Qed.

(** Registers with different numbers are different words, in every mode. *)
Lemma slot_ne_all :
  forallb (fun m1 => forallb (fun r1 => forallb (fun r2 =>
    (r1 =? r2) || negb (slot m1 r1 =? slot m1 r2)) regs16) regs16)
    (Z.of_nat <$> seq 0 32) = true.
Proof. vm_compute. reflexivity. Qed.

Lemma slot_ne mode r1 r2 :
  0 <= mode < 32 -> 0 <= r1 < 16 -> 0 <= r2 < 16 -> r1 <> r2 ->
  slot mode r1 <> slot mode r2.
Proof.
  intros Hm Hr1%elem_regs16 Hr2%elem_regs16 Hne.
  assert (Hin : In mode (Z.of_nat <$> seq 0 32)).
  { apply in_map_iff. exists (Z.to_nat mode). split; [lia|]. apply in_seq. lia. }
  pose proof (forall_in _ _ _ slot_ne_all Hin) as H1.
  pose proof (forall_in _ _ _ H1 Hr1) as H2. pose proof (forall_in _ _ _ H2 Hr2) as H3.
  apply orb_true_iff in H3 as [H3%Z.eqb_eq|H3%negb_true_iff%Z.eqb_neq]; done.
Qed.

(** C29: The functions of [registers.c] implement the register banks of the ARM
    architecture in the layout of [registers.h]. In each of the seven modes
    [read_register] and [write_register] read and write the mode's own copy of
    the register, [read_usr_register] and [write_usr_register] the copy of user
    mode, [read_cpsr] and [write_cpsr] the CPSR, [read_spsr] and [write_spsr]
    the mode's SPSR; a write changes no other register of any mode; without an
    SPSR (user and system mode) [read_spsr] gives 0 and [write_spsr] does nothing. *)
Theorem register_banks r reg v :
  regs_ok r -> In (mode_of r) modes -> 0 <= reg < 16 ->
  reads (arch_name (mode_of r) reg) (read_register reg) r /\
  writes (arch_name (mode_of r) reg) v (write_register reg v) r /\
  reads (arch_name USR reg) (read_usr_register reg) r /\
  writes (arch_name USR reg) v (write_usr_register reg v) r /\
  reads "CPSR" read_cpsr r /\ writes "CPSR" v (write_cpsr v) r /\
  match spsr_name (mode_of r) with
  | Some name => reads name read_spsr r /\ writes name v (write_spsr v) r
  | None => read_spsr r = Ret 0 r /\ write_spsr v r = Ret tt r
  end.
Proof.
  intros Hr Hm Hg. pose proof (slot_layout _ reg Hm Hg) as Hs.
  pose proof (slot_layout USR reg ltac:(by left) Hg) as Hu.
  assert (slot USR reg = reg) as Hur by (unfold slot, is_banked; repeat case_match; cbn; lia).
  rewrite Hur in Hu.
  split_and!; try (eapply reads_word; [done|done|]); try (eapply writes_word; [done|done|]);
    auto using read_register_ok, write_register_ok, read_usr_register_ok,
      write_usr_register_ok.
  - eapply reads_word; [done| |by apply read_cpsr_ok]. done.
  - eapply writes_word; [done| |by apply write_cpsr_ok]. done.
  - pose proof (spsr_slot_layout _ Hm) as Hp.
    rewrite read_spsr_ok, write_spsr_ok by done. unfold spsr_of, set_spsr.
    destruct (spsr_slot _) eqn:E, (spsr_name _) eqn:E'; try done. split.
    + eapply reads_word; [done|done|]. rewrite read_spsr_ok by done. unfold spsr_of. by rewrite E.
    + eapply writes_word; [done|done|]. rewrite write_spsr_ok by done. unfold set_spsr. by rewrite E.
Qed.

Lemma mode_of_aset r i v : i <> 16 -> mode_of (aset r i v) = mode_of r.
Proof. intros. unfold mode_of, cpsr_of. by rewrite rget_aset_ne. Qed.

(** A register written is read back, in whatever mode the processor is;
    the mode and the CPSR, all the other registers of the mode, and the SPSR
    stay as they were, and the file stays well formed. *)
Theorem register_write_read r reg v :
  regs_ok r -> 0 <= reg < 16 -> is_u32 v ->
  exists r',
    write_register reg v r = Ret tt r' /\
    read_register reg r' = Ret v r' /\
    read_cpsr r' = Ret (cpsr_of r) r' /\ get_mode r' = Ret (mode_of r) r' /\
    read_spsr r' = Ret (spsr_of r) r' /\
    (forall reg' w, 0 <= reg' < 16 -> reg' <> reg ->
       read_register reg' r = Ret w r -> read_register reg' r' = Ret w r') /\
    regs_ok r'.
Proof.
  intros Hr Hg Hv. pose proof (slot_range (mode_of r) reg Hg) as [Hs Hs'].
  exists (aset r (slot (mode_of r) reg) v).
  assert (Hr' : regs_ok (aset r (slot (mode_of r) reg) v)) by auto with crange.
  rewrite write_register_ok, read_cpsr_ok, get_mode_ok, read_register_ok, read_spsr_ok by done.
  unfold spsr_of, cpsr_of. rewrite mode_of_aset by done.
  rewrite rget_aset_eq, rget_aset_ne by (done || lia).
  split_and!; try done.
  - do 2 f_equal. destruct (spsr_slot (mode_of r)) eqn:E; [|done].
    apply spsr_slot_range in E. by rewrite rget_aset_ne by lia.
  - intros reg' w Hg' Hne. rewrite !read_register_ok, mode_of_aset by done.
    intros [= <-]. f_equal. apply rget_aset_ne.
    apply slot_ne; auto using mode_of_range.
Qed.

(** The SPSR exists exactly in the five exception modes: there a value
    written is read back and nothing else changes; in the other modes a write
    changes nothing and a read gives 0. *)
Theorem spsr_write_read r v :
  regs_ok r -> is_u32 v ->
  exists r',
    write_spsr v r = Ret tt r' /\ regs_ok r' /\
    read_cpsr r' = Ret (cpsr_of r) r' /\
    (forall i, 0 <= i < 32 -> rget r' i = rget r i) /\
    (spsr_slot (mode_of r) <> None -> read_spsr r' = Ret v r') /\
    (spsr_slot (mode_of r) = None -> r' = r /\ read_spsr r' = Ret 0 r').
Proof.
  intros Hr Hv. exists (set_spsr r v).
  assert (Hr' : regs_ok (set_spsr r v)).
  { unfold set_spsr. case_match; auto with crange. }
  rewrite write_spsr_ok, read_cpsr_ok, read_spsr_ok by done.
  unfold set_spsr, spsr_of in *. destruct (spsr_slot (mode_of r)) as [i|] eqn:E.
  - pose proof (spsr_slot_range _ _ E).
    unfold cpsr_of, CPSR. rewrite mode_of_aset, E, rget_aset_eq, rget_aset_ne by (done || lia).
    split_and!; try done. intros j Hj. apply rget_aset_ne. lia.
  - rewrite E. by split_and!.
Qed.

(** ** Witnesses *)

(** Word [i] of the file holds [100 + i], the CPSR holds the IRQ mode. *)
Definition regs_ex : registers :=
  aset (Z.add 100 ∘ Z.of_nat <$> seq 0 37) CPSR 0xd2.

Lemma regs_ex_ok : regs_ok regs_ex.
Proof.
  split; [reflexivity|]. apply (bool_decide_unpack _). vm_compute. done.
Qed.

Lemma register_banks_witness :
  reads "SP_IRQ" (read_register 13) regs_ex /\
  writes "SP_IRQ" 7 (write_register 13 7) regs_ex /\
  reads "SP" (read_usr_register 13) regs_ex /\ reads "SPSR_IRQ" read_spsr regs_ex.
Proof.
  destruct (register_banks regs_ex 13 7 regs_ex_ok) as (H1 & H2 & H3 & _ & _ & _ & H4 & _).
  - simpl. tauto.
  - lia.
  - exact (conj H1 (conj H2 (conj H3 H4))).
Defined.

Lemma register_write_read_witness :
  exists r', write_register 13 7 regs_ex = Ret tt r' /\ read_register 13 r' = Ret 7 r' /\
    read_register 14 r' = Ret 124 r'.
Proof.
  destruct (register_write_read regs_ex 13 7 regs_ex_ok) as (r' & H1 & H2 & _ & _ & _ & H3 & _).
  - lia.
  - unfold is_u32; lia.
  - exists r'. split; [exact H1|]. split; [exact H2|].
    apply (H3 14 124); [lia|lia|vm_compute; reflexivity].
Defined.

Lemma spsr_write_read_witness :
  exists r', write_spsr 7 regs_ex = Ret tt r' /\ read_spsr r' = Ret 7 r'.
Proof.
  destruct (spsr_write_read regs_ex 7 regs_ex_ok) as (r' & H1 & _ & _ & _ & H2 & _).
  - unfold is_u32; lia.
  - exists r'. split; [exact H1|]. apply H2. vm_compute. discriminate.
Defined.
