(* ===== verification/Format.v ===== *)
(** * The [printf] conversions the sources use *)
From S2P Require Import Prelude CInt.
From stdpp Require Import pretty.
From Stdlib Require Import Ascii.

#[local] Open Scope string_scope.
#[local] Open Scope Z_scope.

Definition hex_digit (upper : bool) (d : Z) : ascii :=
  ascii_of_N (Z.to_N (if d <? 10 then 48 + d else (if upper then 55 else 87) + d)).

(** The last [n] hexadecimal digits of [v], most significant first. *)
Fixpoint hex_digits (upper : bool) (n : nat) (v : Z) : string :=
  match n with
  | O => ""
  | S k => String (hex_digit upper (v / 16 ^ Z.of_nat k mod 16)) (hex_digits upper k v)
  end.

(** ["%08X"] of a [uint32_t], ["%02x"] of an [unsigned char]. *)
Definition fmt_08X (v : Z) : string := hex_digits true 8 v.
Definition fmt_02x (v : Z) : string := hex_digits false 2 v.

(** ["%08x"] and ["%02x"] of a [uint32_t]; the second prints more digits when two
    are not enough. *)
Definition fmt_08x (v : Z) : string := hex_digits false 8 v.
Definition fmt_02x_int (v : Z) : string :=
  hex_digits false (Nat.max 2 (Z.to_nat (Z.log2 v / 4 + 1))) v.

(** ["%d"]: the argument is read as an [int]. *)
Definition fmt_d (v : Z) : string := pretty (s32 v).

(** ["%02d"]: padded with a zero on the left. *)
Definition fmt_02d (v : Z) : string :=
  (if (0 <=? s32 v) && (s32 v <? 10) then "0" else "") +:+ fmt_d v.

(** ["%u"] of a [uint32_t]. *)
Definition fmt_u (v : Z) : string := pretty (u32 v).

(** ["%3s"]: padded with spaces on the left. *)
Fixpoint spaces (n : nat) : string :=
  match n with O => "" | S k => String " " (spaces k) end.
Definition fmt_3s (s : string) : string := spaces (3 - String.length s) +:+ s.

Definition newline : string := String "010" "".
