(* ===== verification/Trace.v ===== *)
(** * [trace.c]: the trace of register and memory accesses

    The static variables of the file are the record [trace_data].  The stream
    [output] is the list of the strings printed to it, most recent first, or
    [None] before [set_trace_file].  Standard output, which the handlers of
    instructions print on, is kept with it ([console]); where no trace file is
    given the two are one stream, of which the model keeps the two parts.
    [ARM_TRACE_FORMAT] is not defined by the build; its variant is in [TraceFormat]. *)
From S2P Require Import Prelude CInt Constants Format.

#[local] Open Scope string_scope.
#[local] Open Scope Z_scope.

Definition OTHER_ACCESS : Z := 0.
Definition OPCODE_FETCH : Z := 1.
Definition WRITE : Z := 0.
Definition READ : Z := 1.

Definition MEMORY : Z := 1.
Definition REGISTERS : Z := 2.
Definition STATE : Z := 4.
Definition POSITION : Z := 8.

Record trace_data : Type := Trace {
  output : option (list string);
  last_address : Z;
  enabled : Z;
  location_file_stack : list string;
  location_line_stack : list Z;
  location_stack_top : Z;
  trace_flags : Z;
  console : list string;        (* standard output, the oldest string first *)
}.

Definition trace_init : trace_data := {|
  output := None;
  last_address := 0x12345678;
  enabled := 1;
  location_file_stack := replicate 128 "";
  location_line_stack := replicate 128 0;
  location_stack_top := -1;
  trace_flags := 0;
  console := [];
|}.

Definition set_output o t :=
  Trace o (last_address t) (enabled t) (location_file_stack t) (location_line_stack t)
    (location_stack_top t) (trace_flags t) (console t).
Definition set_last_address a t :=
  Trace (output t) a (enabled t) (location_file_stack t) (location_line_stack t)
    (location_stack_top t) (trace_flags t) (console t).
Definition set_enabled e t :=
  Trace (output t) (last_address t) e (location_file_stack t) (location_line_stack t)
    (location_stack_top t) (trace_flags t) (console t).
Definition set_file_stack l t :=
  Trace (output t) (last_address t) (enabled t) l (location_line_stack t)
    (location_stack_top t) (trace_flags t) (console t).
Definition set_line_stack l t :=
  Trace (output t) (last_address t) (enabled t) (location_file_stack t) l
    (location_stack_top t) (trace_flags t) (console t).
Definition set_stack_top n t :=
  Trace (output t) (last_address t) (enabled t) (location_file_stack t)
    (location_line_stack t) n (trace_flags t) (console t).
Definition set_flags f t :=
  Trace (output t) (last_address t) (enabled t) (location_file_stack t)
    (location_line_stack t) (location_stack_top t) f (console t).
Definition set_console c t :=
  Trace (output t) (last_address t) (enabled t) (location_file_stack t)
    (location_line_stack t) (location_stack_top t) (trace_flags t) c.

Definition file_stack_lens : lens trace_data (list string) :=
  Lens location_file_stack set_file_stack.
Definition line_stack_lens : lens trace_data (list Z) :=
  Lens location_line_stack set_line_stack.

#[export] Instance file_stack_laws : LensLaws file_stack_lens.
Proof. split; [by intros ? []|by intros []|by intros ? ? []]. Qed.
#[export] Instance line_stack_laws : LensLaws line_stack_lens.
Proof. split; [by intros ? []|by intros []|by intros ? ? []]. Qed.

Definition trace_memory_seq : list string := [""; ""].
Definition trace_memory_cause : list string := [""; ", fetch"].
Definition trace_memory_type : list string := ["write"; "read"].
Definition trace_register_type : list string := ["write"; "read"].

(** [fprintf(output, ...)] of a string already formatted *)
Definition fprintf (s : string) : M trace_data unit := fun t =>
  match output t with
  | Some l => Ret tt (set_output (Some (s :: l)) t)
  | None => Undef NullPointer
  end.

(** [printf(...)] of a string already formatted *)
Definition printf (s : string) : M trace_data unit :=
  modify (fun t => set_console (console t ++ [s])%list t).

Definition set_trace_file : M trace_data unit := modify (set_output (Some [])).

Definition trace_start_location (file : string) (line : Z) : M trace_data unit :=
  let! e := gets enabled in
  when (nz e)
    (modify (fun t => set_stack_top (location_stack_top t + 1) t) ;;;
     let! top := gets location_stack_top in
     zoom file_stack_lens (cell_write top file) ;;;
     let! top := gets location_stack_top in
     zoom line_stack_lens (cell_write top line)).

Definition trace_end_location : M trace_data Z :=
  let! e := gets enabled in
  when (nz e) (modify (fun t => set_stack_top (location_stack_top t - 1) t)) ;;;
  ret 0.

Definition trace_print_location : M trace_data unit :=
  let! e := gets enabled in
  let! f := gets trace_flags in
  when (nz e && nz (Z.land f POSITION))
    (let! top := gets location_stack_top in
     when (0 <=? top)
       (let! file := zoom file_stack_lens (cell_read top) in
        let! line := zoom line_stack_lens (cell_read top) in
        fprintf (file +:+ ", " +:+ fmt_d line +:+ ": "))).

Definition trace_memory (cycle type size cause address value : Z) : M trace_data unit :=
  let! e := gets enabled in
  let! f := gets trace_flags in
  when (nz e && nz (Z.land f MEMORY))
    (let! last := gets last_address in
     let seq := if address =? u32 (last + 4) then 1 else 0 in
     modify (set_last_address address) ;;;
     trace_print_location ;;;
     let! s := table_read trace_memory_seq seq in
     let! ty := table_read trace_memory_type type in
     let! ca := table_read trace_memory_cause cause in
     fprintf ("Cycle " +:+ fmt_d cycle +:+ ", Mem " +:+ s +:+ ty +:+ " (" +:+ fmt_d size
              +:+ " bytes" +:+ ca +:+ ") addr: " +:+ fmt_08X address +:+ ", val: "
              +:+ fmt_08X value +:+ newline)).

Definition trace_register (cycle type reg mode value : Z) : M trace_data unit :=
  let! e := gets enabled in
  let! f := gets trace_flags in
  when (nz e && nz (Z.land f REGISTERS))
    (let! name := arm_get_mode_name mode in
     let mode_name := match name with Some n => "_" +:+ n | None => "" end in
     trace_print_location ;;;
     let! ty := table_read trace_register_type type in
     let! rn := arm_get_register_name reg in
     fprintf ("Cycle " +:+ fmt_d cycle +:+ ", Register " +:+ ty +:+ ", " +:+ rn
              +:+ mode_name +:+ ", val: " +:+ fmt_08X value +:+ newline)).

Definition trace_disable : M trace_data unit := modify (set_enabled 0).
Definition trace_enable : M trace_data unit := modify (set_enabled 1).
Definition trace_add (flags : Z) : M trace_data unit :=
  modify (fun t => set_flags (Z.lor (trace_flags t) flags) t).
