(* ===== verification/Core.v ===== *)
(** * [arm_core.c]: the processor's view of registers, memory and trace

    One [machine] holds the processor ([arm_core_data]), the memory it shares
    with the gdb server, and the static variables of [trace.c].  [n_indet] is the
    number of uninitialised local variables met so far; it selects the value the
    host gives to the next one. *)
From S2P Require Import Prelude CInt Constants Memory Registers Format Trace.

#[local] Open Scope string_scope.
#[local] Open Scope Z_scope.

Record arm_core_data : Type := ArmCore {
  cycle_count : Z;
  reg : registers;
}.

Record machine : Type := Machine {
  arm : arm_core_data;
  mem : memory_data;
  trace : trace_data;
  n_indet : nat;
}.

Definition set_cycle c s :=
  Machine (ArmCore c (reg (arm s))) (mem s) (trace s) (n_indet s).
Definition set_reg r s :=
  Machine (ArmCore (cycle_count (arm s)) r) (mem s) (trace s) (n_indet s).
Definition set_mem mm s := Machine (arm s) mm (trace s) (n_indet s).
Definition set_trace t s := Machine (arm s) (mem s) t (n_indet s).
Definition set_indet n s := Machine (arm s) (mem s) (trace s) n.

Definition reg_lens : lens machine registers := Lens (fun s => reg (arm s)) set_reg.
Definition mem_lens : lens machine memory_data := Lens mem set_mem.
Definition trace_lens : lens machine trace_data := Lens trace set_trace.

#[export] Instance reg_lens_laws : LensLaws reg_lens.
Proof. split; [by intros ? [[] ? ? ?]|by intros [[] ? ? ?]|by intros ? ? [[] ? ? ?]]. Qed.
#[export] Instance mem_lens_laws : LensLaws mem_lens.
Proof. split; [by intros ? []|by intros []|by intros ? ? []]. Qed.
#[export] Instance trace_lens_laws : LensLaws trace_lens.
Proof. split; [by intros ? []|by intros []|by intros ? ? []]. Qed.

Definition in_regs {A} (c : M registers A) : M machine A := zoom reg_lens c.
Definition in_mem {A} (c : M memory_data A) : M machine A := zoom mem_lens c.
Definition in_trace {A} (c : M trace_data A) : M machine A := zoom trace_lens c.

Definition get_cycle : M machine Z := gets (fun s => cycle_count (arm s)).

Definition arm_current_mode_has_spsr : M machine Z := in_regs current_mode_has_spsr.
Definition arm_in_a_privileged_mode : M machine Z := in_regs in_a_privileged_mode.
Definition arm_get_cycle_count : M machine Z := get_cycle.

(** [trace_register] and [trace_memory] as this file calls them. *)
Definition log_register (type r mode value : Z) : M machine unit :=
  let! cycle := get_cycle in
  in_trace (trace_register cycle type r mode value).
Definition log_memory (type size cause address value : Z) : M machine unit :=
  let! cycle := get_cycle in
  in_trace (trace_memory cycle type size cause address value).

Definition arm_read_register (r : Z) : M machine Z :=
  let! value := in_regs (read_register r) in
  let value := if r =? 15 then Z.land (u32 (value + 4)) 0xFFFFFFFD else value in
  let! mode := in_regs get_mode in
  log_register READ r mode value ;;;
  ret value.

Definition arm_read_usr_register (r : Z) : M machine Z :=
  let! value := in_regs (read_usr_register r) in
  let value := if r =? 15 then Z.land (u32 (value + 4)) 0xFFFFFFFD else value in
  log_register READ r USR value ;;;
  ret value.

Definition arm_read_cpsr : M machine Z :=
  let! value := in_regs read_cpsr in
  log_register READ CPSR 0 value ;;;
  ret value.

Definition arm_read_spsr : M machine Z :=
  let! value := in_regs read_spsr in
  let! mode := in_regs get_mode in
  log_register READ SPSR mode value ;;;
  ret value.

Definition arm_write_register (r value : Z) : M machine unit :=
  in_regs (write_register r value) ;;;
  let! mode := in_regs get_mode in
  log_register WRITE r mode value.

Definition arm_write_usr_register (r value : Z) : M machine unit :=
  in_regs (write_usr_register r value) ;;;
  log_register WRITE r USR value.

Definition arm_write_cpsr (value : Z) : M machine unit :=
  in_regs (write_cpsr value) ;;;
  log_register WRITE CPSR 0 value.

Definition arm_write_spsr (value : Z) : M machine unit :=
  in_regs (write_spsr value) ;;;
  let! mode := in_regs get_mode in
  log_register WRITE SPSR mode value.

(** The next uninitialised 32-bit local variable. *)
Definition uninit32 `{Host} : M machine Z :=
  let! n := gets n_indet in
  modify (set_indet (S n)) ;;;
  ret (u32 (indet n)).

Section with_host.
Context `{Host}.

(** [value] is what the result pointer refers to before the call; the pair is
    the return code and what it refers to after the call. *)
Definition arm_fetch (value : Z) : M machine (Z * Z) :=
  let! c := get_cycle in
  modify (set_cycle (u32 (c + 1))) ;;;
  let! pc := arm_read_register 15 in
  let address := u32 (pc - 4) in
  let! rv := in_mem (memory_read_word address value) in
  log_memory READ 4 OPCODE_FETCH address rv.2 ;;;
  arm_write_register 15 (u32 (address + 4)) ;;;
  ret rv.

Definition arm_read_byte (address value : Z) : M machine (Z * Z) :=
  let! rv := in_mem (memory_read_byte address value) in
  log_memory READ 1 OTHER_ACCESS address rv.2 ;;;
  ret rv.

Definition arm_read_half (address value : Z) : M machine (Z * Z) :=
  let! rv := in_mem (memory_read_half address value) in
  log_memory READ 2 OTHER_ACCESS address rv.2 ;;;
  ret rv.

Definition arm_read_word (address value : Z) : M machine (Z * Z) :=
  let! rv := in_mem (memory_read_word address value) in
  log_memory READ 4 OTHER_ACCESS address rv.2 ;;;
  ret rv.

Definition arm_write_byte (address value : Z) : M machine Z :=
  let! r := in_mem (memory_write_byte address value) in
  log_memory WRITE 1 OTHER_ACCESS address value ;;;
  ret r.

Definition arm_write_half (address value : Z) : M machine Z :=
  let! r := in_mem (memory_write_half address value) in
  log_memory WRITE 2 OTHER_ACCESS address value ;;;
  ret r.

Definition arm_write_word (address value : Z) : M machine Z :=
  let! r := in_mem (memory_write_word address value) in
  log_memory WRITE 4 OTHER_ACCESS address value ;;;
  ret r.
End with_host.

(** [arm_print_state(p, output)] *)
Definition print (s : string) : M machine unit := in_trace (fprintf s).

Definition print_register (mode r count : Z) : M machine Z :=
  let! name := arm_get_register_name r in
  if mode =? USR then
    when ((0 <? r) && (r mod 5 =? 0)) (print (newline +:+ "    ")) ;;;
    let! v := arm_read_usr_register r in
    print ("   " +:+ fmt_3s name +:+ "=" +:+ fmt_08X v) ;;;
    ret count
  else
    when ((0 <? count) && (count mod 5 =? 0)) (print (newline +:+ "    ")) ;;;
    let! v := arm_read_register r in
    print ("   " +:+ fmt_3s name +:+ "=" +:+ fmt_08X v) ;;;
    ret (count + 1).

Definition print_mode (mode : Z) (name : string) : M machine unit :=
  when (negb (mode =? SYS)) (print (name +:+ ":")) ;;;
  for_each (Z.of_nat <$> seq 0 16) (print_register mode) 0 ;;;
  when (mode =? USR)
    (let! c := arm_read_cpsr in print ("  CPSR=" +:+ fmt_08X c)) ;;;
  (if (mode =? USR) || (mode =? FIQ) || (mode =? SVC) || (mode =? UND) then print newline
   else if (mode =? IRQ) || (mode =? ABT) then print "          "
   else ret tt).

Definition arm_print_state : M machine unit :=
  for_each (Z.of_nat <$> seq 0 32)
    (fun mode _ =>
       let! name := arm_get_mode_name mode in
       match name with Some n => print_mode mode n | None => ret tt end) tt.

(** [trace.c] *)
Definition trace_arm_state : M machine unit :=
  let! e := gets (fun s => enabled (trace s)) in
  let! f := gets (fun s => trace_flags (trace s)) in
  when (nz e && nz (Z.land f STATE)) arm_print_state.

(** The macros of [trace_location.h]: outside [arm_core.c], an access [c] made at
    [line] of [file] is recorded on the location stack while it runs. *)
Definition at_line {A} (file : string) (line : Z) (c : M machine A) : M machine A :=
  in_trace (trace_start_location file line) ;;;
  let! x := c in
  in_trace trace_end_location ;;;
  ret x.
