(* ===== verification/CoreFacts.v ===== *)
(** * Facts on [arm_core.c] and [trace.c]

    Two views of the code that goes through the trace: with the trace disabled
    the accesses are plain register and memory accesses (the [_q] equations),
    and whatever the trace options, tracing changes nothing but the trace
    ([transparent]). *)
From S2P Require Import Prelude CInt Constants Memory Registers Format Trace Core.

#[local] Open Scope Z_scope.

(** ** The trace never stops a run *)

(** There is room for [k] more nested locations. *)
Definition trace_ok (k : Z) (t : trace_data) : Prop :=
  is_Some (output t) /\ length (location_file_stack t) = 128%nat /\
  length (location_line_stack t) = 128%nat /\
  -1 <= location_stack_top t /\ location_stack_top t + k < 128.

(** What a completed access leaves of the trace's control state. *)
Definition trace_step (t t' : trace_data) : Prop :=
  enabled t' = enabled t /\ trace_flags t' = trace_flags t /\
  location_stack_top t' = location_stack_top t /\
  length (location_file_stack t') = length (location_file_stack t) /\
  length (location_line_stack t') = length (location_line_stack t) /\
  (is_Some (output t) -> is_Some (output t')).

#[export] Instance trace_step_preorder : PreOrder trace_step.
Proof.
  split; [by intros t; split_and!|].
  intros t1 t2 t3 (? & ? & ? & ? & ? & ?) (? & ? & ? & ? & ? & ?).
  split_and!; congruence || auto.
Qed.

Lemma trace_ok_step k t t' : trace_ok k t -> trace_step t t' -> trace_ok k t'.
Proof.
  intros (? & ? & ? & ? & ?) (? & ? & E & ? & ? & ?). unfold trace_ok. rewrite E.
  split_and!; auto; congruence.
Qed.

Lemma trace_ok_le k k' t : k' <= k -> trace_ok k t -> trace_ok k' t.
Proof. intros ? (? & ? & ? & ? & ?). split_and!; auto; lia. Qed.

(** A tracing operation returns, in every state of the trace, and prints nothing on
    standard output. *)
Definition logs (m : M trace_data unit) : Prop :=
  forall t, trace_ok 0 t -> exists t', m t = Ret tt t' /\ trace_step t t' /\ console t' = console t.

Lemma fprintf_logs s : logs (fprintf s).
Proof.
  intros t ([l Hl] & _). unfold fprintf. rewrite Hl. eexists. split; [done|].
  split; [|done]. split_and!; done || by eexists.
Qed.

Lemma seq_logs m1 m2 : logs m1 -> logs m2 -> logs (m1 ;;; m2).
Proof.
  intros H1 H2 t Ht. destruct (H1 t Ht) as (t1 & E1 & S1 & C1).
  destruct (H2 t1) as (t2 & E2 & S2 & C2); [by eapply trace_ok_step|].
  exists t2. erewrite bind_ret by done. split; [done|]. split; [by etrans|congruence].
Qed.

Lemma when_logs b m : (b = true -> logs m) -> logs (when b m).
Proof. intros Hm. destruct b; [by apply Hm|]. intros t _. by exists t. Qed.

Lemma gets_logs {A} (f : trace_data -> A) k : (forall x, logs (k x)) -> logs (bind (gets f) k).
Proof. intros Hk t Ht. erewrite bind_ret by done. by apply Hk. Qed.

Lemma table_logs {A} (l : list A) i k :
  0 <= i < Z.of_nat (length l) -> (forall x, logs (k x)) -> logs (bind (table_read l i) k).
Proof.
  intros Hi Hk t Ht. destruct (table_read_lt l i t Hi) as [x Hx].
  erewrite bind_ret by done. by apply Hk.
Qed.

Lemma print_location_logs : logs trace_print_location.
Proof.
  unfold trace_print_location. apply gets_logs; intros e. apply gets_logs; intros f.
  apply when_logs; intros _. intros t Ht. erewrite bind_ret by done. cbv beta.
  destruct (Z.leb_spec 0 (location_stack_top t)); [|by exists t].
  destruct Ht as (Ho & Hf & Hl & Ht1 & Ht2). unfold when.
  destruct (aget_lt (location_file_stack t) (location_stack_top t)) as [x Hx]; [lia|].
  destruct (aget_lt (location_line_stack t) (location_stack_top t)) as [y Hy]; [lia|].
  erewrite bind_ret by (apply (zoom_read _), cell_read_ret; eassumption). cbv beta.
  erewrite bind_ret by (apply (zoom_read _), cell_read_ret; eassumption).
  apply fprintf_logs. by split_and!.
Qed.

Lemma trace_memory_logs cycle type sz cause a v :
  0 <= type < 2 -> 0 <= cause < 2 -> logs (trace_memory cycle type sz cause a v).
Proof.
  intros Ht Hc. unfold trace_memory.
  apply gets_logs; intros e. apply gets_logs; intros f. apply when_logs; intros _.
  apply gets_logs; intros last. cbv zeta. apply seq_logs.
  { intros t _. eexists. split; [done|]. split; [by split_and!|done]. }
  apply seq_logs; [apply print_location_logs|].
  apply table_logs; [simpl; case_match; lia|]. intros s.
  apply table_logs; [simpl; lia|]. intros ty.
  apply table_logs; [simpl; lia|]. intros ca. apply fprintf_logs.
Qed.

Lemma trace_register_logs cycle type r mode v :
  0 <= type < 2 -> 0 <= r < 18 -> 0 <= mode < 32 ->
  logs (trace_register cycle type r mode v).
Proof.
  intros Ht Hr Hm. unfold trace_register.
  apply gets_logs; intros e. apply gets_logs; intros f. apply when_logs; intros _.
  apply table_logs; [simpl; lia|]. intros n. cbv zeta.
  apply seq_logs; [apply print_location_logs|].
  apply table_logs; [simpl; lia|]. intros ty.
  apply table_logs; [simpl; lia|]. intros rn. apply fprintf_logs.
Qed.

(** A location pushed is popped. *)
Lemma start_location_ok file line k t :
  trace_ok (k + 1) t -> 0 <= k ->
  exists t', trace_start_location file line t = Ret tt t' /\ trace_ok k t' /\
    enabled t' = enabled t /\ trace_flags t' = trace_flags t /\
    location_stack_top t' = location_stack_top t + (if nz (enabled t) then 1 else 0) /\
    console t' = console t.
Proof.
  intros (Ho & Hf & Hl & Ht1 & Ht2) Hk. unfold trace_start_location.
  erewrite bind_ret by done. cbv beta. destruct (nz (enabled t)) eqn:E; simpl.
  - unfold when. erewrite bind_ret by done. erewrite bind_ret by done. cbv beta.
    erewrite bind_ret by (apply zoom_ret, cell_write_ret; simpl; lia).
    erewrite bind_ret by done. cbv beta.
    eexists. split; [apply zoom_ret, cell_write_ret; simpl; lia|].
    unfold trace_ok. simpl. rewrite !length_aset. split_and!; auto; lia.
  - exists t. rewrite Z.add_0_r. unfold trace_ok. split_and!; auto; lia.
Qed.

Lemma end_location_ok t :
  exists t', trace_end_location t = Ret 0 t' /\
    enabled t' = enabled t /\ trace_flags t' = trace_flags t /\ output t' = output t /\
    length (location_file_stack t') = length (location_file_stack t) /\
    length (location_line_stack t') = length (location_line_stack t) /\
    location_stack_top t' = location_stack_top t - (if nz (enabled t) then 1 else 0) /\
    console t' = console t.
Proof.
  unfold trace_end_location. erewrite bind_ret by done. cbv beta.
  destruct (nz (enabled t)) eqn:E; simpl; eexists; (split; [done|]); simpl;
    split_and!; auto; lia.
Qed.

(** ** Machines that differ in their trace only *)

#[export] Instance machine_equiv : Equiv machine := fun s1 s2 =>
  arm s1 = arm s2 /\ mem s1 = mem s2 /\ n_indet s1 = n_indet s2.

#[export] Instance machine_equivalence : Equivalence (≡@{machine}).
Proof.
  split.
  - by intros s.
  - by intros s1 s2 (? & ? & ?).
  - intros s1 s2 s3 (? & ? & ?) (? & ? & ?). split_and!; congruence.
Qed.

Lemma set_trace_equiv t s : set_trace t s ≡ s.
Proof. done. Qed.

#[export] Instance set_reg_proper : Proper ((=) ==> (≡) ==> (≡)) set_reg.
Proof. intros r ? <- s1 s2 (E & ? & ?). unfold set_reg. rewrite E. by split_and!. Qed.
#[export] Instance set_mem_proper : Proper ((=) ==> (≡) ==> (≡)) set_mem.
Proof. intros r ? <- s1 s2 (? & ? & ?). by split_and!. Qed.
#[export] Instance set_cycle_proper : Proper ((=) ==> (≡) ==> (≡)) set_cycle.
Proof. intros r ? <- s1 s2 (E & ? & ?). unfold set_cycle. rewrite E. by split_and!. Qed.
#[export] Instance set_indet_proper : Proper ((=) ==> (≡) ==> (≡)) set_indet.
Proof. intros r ? <- s1 s2 (? & ? & ?). by split_and!. Qed.

(** Two runs print the same on standard output. *)
Definition prints_alike (t1 t2 t1' t2' : trace_data) : Prop :=
  exists l, console t1' = (console t1 ++ l)%list /\ console t2' = (console t2 ++ l)%list.

Lemma prints_alike_none t1 t2 t1' t2' :
  console t1' = console t1 -> console t2' = console t2 -> prints_alike t1 t2 t1' t2'.
Proof. intros E1 E2. exists []. by rewrite !app_nil_r. Qed.

Lemma prints_alike_trans t1 t2 t1' t2' t1'' t2'' :
  prints_alike t1 t2 t1' t2' -> prints_alike t1' t2' t1'' t2'' -> prints_alike t1 t2 t1'' t2''.
Proof. intros (l & E1 & E2) (l' & F1 & F2). exists (l ++ l')%list. by rewrite F1, F2, E1, E2, !app_assoc. Qed.

Lemma prints_alike_refl t1 t2 : prints_alike t1 t2 t1 t2.
Proof. by apply prints_alike_none. Qed.
#[export] Hint Resolve prints_alike_refl : core.

(** Two runs that agree except for the trace. *)
Definition agree {A} (s1 s2 : machine) (r1 r2 : res machine A) : Prop :=
  match r1, r2 with
  | Ret x s1', Ret y s2' =>
      x = y /\ s1' ≡ s2' /\
      (trace_step (trace s1) (trace s1') /\ trace_step (trace s2) (trace s2')) /\
      prints_alike (trace s1) (trace s2) (trace s1') (trace s2')
  | Exit c s1', Exit d s2' =>
      c = d /\ s1' ≡ s2' /\ prints_alike (trace s1) (trace s2) (trace s1') (trace s2')
  | Abort s1', Abort s2' => s1' ≡ s2'
  | Undef u, Undef v => u = v
  | _, _ => False
  end.

(** [c] does not depend on the trace and leaves its control state as it was,
    provided there is room for [k] nested locations. *)
Definition transparent {A} (k : Z) (c : M machine A) : Prop :=
  forall s1 s2, s1 ≡ s2 -> trace_ok k (trace s1) -> trace_ok k (trace s2) ->
    agree s1 s2 (c s1) (c s2).

Create HintDb transp.

(** Split conjunctions, without unfolding [≡]. *)
Ltac conjs := repeat match goal with |- _ /\ _ => split end.

Lemma transparent_le {A} k k' (c : M machine A) :
  k <= k' -> transparent k c -> transparent k' c.
Proof. intros Hk Hc s1 s2 Hs H1 H2. apply Hc; eauto using trace_ok_le. Qed.

Lemma transparent_ret {A} k (a : A) : transparent k (ret a).
Proof. intros s1 s2 Hs _ _. by split_and!. Qed.

(** Sequencing, when the first part only gives values in [P]. *)
Lemma transparent_bind_val {A B} k (c : M machine A) (f : A -> M machine B) (P : A -> Prop) :
  transparent k c -> (forall s x s', c s = Ret x s' -> P x) ->
  (forall x, P x -> transparent k (f x)) -> transparent k (bind c f).
Proof.
  intros Hc HP Hf s1 s2 Hs H1 H2. pose proof (Hc s1 s2 Hs H1 H2) as Ha. unfold bind, agree in *.
  destruct (c s1) as [x s1'| | |] eqn:E1, (c s2) as [y s2'| | |]; try done.
  destruct Ha as (-> & Hs' & (T1 & T2) & P1). specialize (Hf y (HP _ _ _ E1) s1' s2' Hs').
  specialize (Hf ltac:(eauto using trace_ok_step) ltac:(eauto using trace_ok_step)).
  unfold agree in Hf.
  destruct (f y s1') as [x' s1''| | |], (f y s2') as [y' s2''| | |]; try done.
  - destruct Hf as (-> & ? & (? & ?) & ?). conjs; try done; try by etrans. by eapply prints_alike_trans.
  - destruct Hf as (-> & ? & ?). conjs; try done. by eapply prints_alike_trans.
Qed.

Lemma transparent_bind {A B} k (c : M machine A) (f : A -> M machine B) :
  transparent k c -> (forall x, transparent k (f x)) -> transparent k (bind c f).
Proof. intros Hc Hf. by apply (transparent_bind_val k c f (fun _ => True)). Qed.

(** Code whose value depends on the trace may still be transparent as a whole. *)
Lemma transparent_gets {A} k (f : machine -> A) :
  Proper ((≡) ==> (=)) f -> transparent k (gets f).
Proof. intros Hf s1 s2 Hs _ _. unfold gets, agree. split_and!; try done. by apply Hf. Qed.

Lemma transparent_modify k (f : machine -> machine) :
  Proper ((≡) ==> (≡)) f -> (forall s, trace (f s) = trace s) -> transparent k (modify f).
Proof.
  intros Hf Ht s1 s2 Hs _ _. unfold modify, agree. rewrite !Ht.
  split_and!; try done. by apply Hf.
Qed.

Lemma transparent_exit {A} k code : transparent (A := A) k (c_exit code).
Proof. intros s1 s2 Hs _ _. done. Qed.
Lemma transparent_undef {A} k u : transparent (A := A) k (undef u).
Proof. by intros s1 s2 Hs _ _. Qed.

Lemma transparent_if {A} k (b : bool) (c1 c2 : M machine A) :
  transparent k c1 -> transparent k c2 -> transparent k (if b then c1 else c2).
Proof. by destruct b. Qed.

Lemma transparent_when k b c : transparent k c -> transparent k (when b c).
Proof. intros. apply transparent_if; auto using transparent_ret. Qed.

Lemma transparent_for {A B} k (l : list A) (f : A -> B -> M machine B) b :
  (forall x y, In x l -> transparent k (f x y)) -> transparent k (for_each l f b).
Proof.
  revert b. induction l as [|x l IH]; intros b Hf; simpl; [apply transparent_ret|].
  apply transparent_bind; [by apply Hf; left|]. intros b'. apply IH.
  intros y z Hy. apply Hf. by right.
Qed.

Lemma transparent_regs {A} k (c : M registers A) : transparent k (in_regs c).
Proof.
  intros s1 s2 Hs _ _. unfold in_regs, zoom. destruct (Hs) as (E & _). simpl. rewrite E.
  destruct (c (reg (arm s2))); simpl; conjs; done || by rewrite Hs.
Qed.

Lemma transparent_mem {A} k (c : M memory_data A) : transparent k (in_mem c).
Proof.
  intros s1 s2 Hs _ _. unfold in_mem, zoom. destruct (Hs) as (_ & E & _). simpl. rewrite E.
  destruct (c (mem s2)); simpl; conjs; done || by rewrite Hs.
Qed.

Lemma logs_transparent k m : 0 <= k -> logs m -> transparent k (in_trace m).
Proof.
  intros Hk Hm s1 s2 Hs H1 H2. unfold in_trace.
  destruct (Hm (trace s1)) as (t1 & E1 & S1 & C1); [by eapply trace_ok_le|].
  destruct (Hm (trace s2)) as (t2 & E2 & S2 & C2); [by eapply trace_ok_le|].
  unfold zoom, agree. simpl. rewrite E1, E2. conjs; try done. by apply prints_alike_none.
Qed.

Lemma transparent_printf k str : transparent k (in_trace (printf str)).
Proof. intros s1 s2 Hs _ _. unfold in_trace, zoom, agree. simpl. conjs; try done. by exists [str]. Qed.

Lemma transparent_table {A} k (l : list A) i : transparent k (table_read l i).
Proof. intros s1 s2 Hs _ _. unfold table_read, agree. destruct (aget l i); by conjs. Qed.

Lemma transparent_cycle k : transparent k get_cycle.
Proof. apply transparent_gets. intros s1 s2 (E & _). by rewrite E. Qed.

#[export] Hint Resolve transparent_printf transparent_table : transp.
#[export] Hint Resolve transparent_ret transparent_exit transparent_undef
  transparent_when transparent_if transparent_regs transparent_mem
  transparent_cycle : transp.
#[export] Hint Extern 2 (transparent _ (bind _ _)) =>
  apply transparent_bind; [|intros ?] : transp.
#[export] Hint Extern 2 (transparent _ (match ?x with _ => _ end)) => destruct x : transp.

Lemma transparent_log_register k type r mode v :
  0 <= k -> 0 <= type < 2 -> 0 <= r < 18 -> 0 <= mode < 32 ->
  transparent k (log_register type r mode v).
Proof.
  intros. unfold log_register. apply transparent_bind; [apply transparent_cycle|].
  intros. by apply logs_transparent, trace_register_logs.
Qed.

Lemma transparent_log_memory k type sz cause a v :
  0 <= k -> 0 <= type < 2 -> 0 <= cause < 2 ->
  transparent k (log_memory type sz cause a v).
Proof.
  intros. unfold log_memory. apply transparent_bind; [apply transparent_cycle|].
  intros. by apply logs_transparent, trace_memory_logs.
Qed.

(** The mode read for the trace is always in the table. *)
Lemma transparent_mode_bind {B} k (f : Z -> M machine B) :
  (forall mode, 0 <= mode < 32 -> transparent k (f mode)) ->
  transparent k (bind (in_regs get_mode) f).
Proof.
  intros Hf.
  assert (Hm : forall r, (exists mode, get_mode r = Ret mode r /\ 0 <= mode < 32) \/
                         get_mode r = Undef OutOfBounds).
  { intros r. unfold get_mode, read_cpsr, cell_read, bind.
    destruct (aget r CPSR) as [x|]; [left|by right]. eexists. split; [done|].
    unfold u8. pose proof (land_range_r 5 x 0x1f ltac:(lia) ltac:(lia)).
    rewrite Z.mod_small by lia. done. }
  intros s1 s2 Hs H1 H2. destruct (Hs) as (E & _).
  destruct (Hm (reg (arm s2))) as [(mode & Em & Hr)|Em].
  - erewrite !bind_ret by (apply (zoom_read _); simpl; rewrite ?E; exact Em). by apply Hf.
  - erewrite !bind_undef by (apply zoom_undef; simpl; rewrite ?E; exact Em). done.
Qed.

Lemma at_line_transparent {A} k file line (c : M machine A) :
  0 <= k -> transparent k c -> transparent (k + 1) (at_line file line c).
Proof.
  intros Hk Hc s1 s2 Hs H1 H2. unfold at_line, in_trace.
  destruct (start_location_ok file line k _ H1 Hk) as (t1 & E1 & O1 & En1 & F1 & T1 & C1).
  destruct (start_location_ok file line k _ H2 Hk) as (t2 & E2 & O2 & En2 & F2 & T2 & C2).
  rewrite (bind_ret _ _ _ _ _ (zoom_ret _ _ _ _ _ E1)).
  rewrite (bind_ret _ _ _ _ _ (zoom_ret _ _ _ _ _ E2)).
  assert (Hs' : set_trace t1 s1 ≡ set_trace t2 s2) by done.
  specialize (Hc _ _ Hs' O1 O2). unfold agree, bind in *. simpl in *.
  destruct (c (set_trace t1 s1)) as [x s1'| | |], (c (set_trace t2 s2)) as [y s2'| | |];
    try done.
  2: { destruct Hc as (-> & ? & l & P1 & P2). conjs; try done. exists l. by rewrite <- C1, <- C2. }
  destruct Hc as (-> & Hs'' & ((a1 & b1 & c1 & d1 & e1 & f1) & (a2 & b2 & c2 & d2 & e2 & f2)) & l & L1 & L2).
  destruct (end_location_ok (trace s1')) as (u1 & U1 & V1 & W1 & X1 & Y1 & Z1 & P1 & Q1).
  destruct (end_location_ok (trace s2')) as (u2 & U2 & V2 & W2 & X2 & Y2 & Z2 & P2 & Q2).
  unfold in_trace, zoom. simpl. rewrite U1, U2. simpl.
  destruct O1 as (? & ? & ? & _), O2 as (? & ? & ? & _).
  destruct H1 as (? & ? & ? & _), H2 as (? & ? & ? & _).
  unfold trace_step; simpl.
  rewrite V1, V2, W1, W2, X1, X2, Y1, Y2, Z1, Z2, P1, P2.
  rewrite a1, a2, b1, b2, c1, c2, d1, d2, e1, e2, En1, En2, F1, F2, T1, T2.
  conjs; auto; try congruence; try lia. exists l. by rewrite Q1, Q2, L1, L2, C1, C2.
Qed.

Lemma transparent_at_line {A} k file line (c : M machine A) :
  1 <= k -> transparent (k - 1) c -> transparent k (at_line file line c).
Proof.
  intros Hk Hc. replace k with (k - 1 + 1) by lia. apply at_line_transparent; [lia|done].
Qed.

Section accesses.
Context `{Host} (k : Z) (Hk : 0 <= k).

#[local] Hint Resolve transparent_mode_bind : transp.
#[local] Hint Extern 1 (transparent _ (log_register _ _ _ _)) =>
  apply transparent_log_register; unfold READ, WRITE, CPSR, SPSR, USR; lia : transp.
#[local] Hint Extern 1 (transparent _ (log_memory _ _ _ _ _)) =>
  apply transparent_log_memory; unfold READ, WRITE, OPCODE_FETCH, OTHER_ACCESS; lia : transp.
#[local] Hint Extern 1 (transparent _ (bind (in_regs get_mode) _)) =>
  apply transparent_mode_bind; intros ? ? : transp.

Lemma transparent_read_register r : 0 <= r < 16 -> transparent k (arm_read_register r).
Proof. intros. unfold arm_read_register. eauto 8 with transp. Qed.
Lemma transparent_read_usr_register r : 0 <= r < 16 -> transparent k (arm_read_usr_register r).
Proof. intros. unfold arm_read_usr_register. eauto 8 with transp. Qed.
Lemma transparent_read_cpsr : transparent k arm_read_cpsr.
Proof. unfold arm_read_cpsr. eauto 8 with transp. Qed.
Lemma transparent_read_spsr : transparent k arm_read_spsr.
Proof. unfold arm_read_spsr. eauto 8 with transp. Qed.
Lemma transparent_write_register r v : 0 <= r < 16 -> transparent k (arm_write_register r v).
Proof. intros. unfold arm_write_register. eauto 8 with transp. Qed.
Lemma transparent_write_usr_register r v :
  0 <= r < 16 -> transparent k (arm_write_usr_register r v).
Proof. intros. unfold arm_write_usr_register. eauto 8 with transp. Qed.
Lemma transparent_write_cpsr v : transparent k (arm_write_cpsr v).
Proof. unfold arm_write_cpsr. eauto 8 with transp. Qed.
Lemma transparent_write_spsr v : transparent k (arm_write_spsr v).
Proof. unfold arm_write_spsr. eauto 8 with transp. Qed.

Lemma transparent_read_byte a v : transparent k (arm_read_byte a v).
Proof. unfold arm_read_byte. eauto 8 with transp. Qed.
Lemma transparent_read_half a v : transparent k (arm_read_half a v).
Proof. unfold arm_read_half. eauto 8 with transp. Qed.
Lemma transparent_read_word a v : transparent k (arm_read_word a v).
Proof. unfold arm_read_word. eauto 8 with transp. Qed.
Lemma transparent_write_byte a v : transparent k (arm_write_byte a v).
Proof. unfold arm_write_byte. eauto 8 with transp. Qed.
Lemma transparent_write_half a v : transparent k (arm_write_half a v).
Proof. unfold arm_write_half. eauto 8 with transp. Qed.
Lemma transparent_write_word a v : transparent k (arm_write_word a v).
Proof. unfold arm_write_word. eauto 8 with transp. Qed.
Lemma transparent_has_spsr : transparent k arm_current_mode_has_spsr.
Proof. apply transparent_regs. Qed.

Lemma transparent_uninit : transparent k uninit32.
Proof.
  unfold uninit32. apply transparent_bind.
  { apply transparent_gets. by intros s1 s2 (_ & _ & E). }
  intros n. apply transparent_bind; [|auto with transp].
  apply transparent_modify; [|done]. intros s1 s2 Hs. by rewrite Hs.
Qed.

Lemma transparent_fetch v : transparent k (arm_fetch v).
Proof.
  unfold arm_fetch. apply transparent_bind; [apply transparent_cycle|]. intros c.
  apply transparent_bind.
  { apply transparent_modify; [|done]. intros s1 s2 Hs. by rewrite Hs. }
  intros _. apply transparent_bind; [apply transparent_read_register; lia|]. intros pc.
  cbv zeta. apply transparent_bind; [apply transparent_mem|]. intros rv.
  apply transparent_bind; [auto with transp|]. intros _.
  apply transparent_bind; [apply transparent_write_register; lia|]. auto with transp.
Qed.
End accesses.

#[export] Hint Resolve transparent_read_register transparent_read_usr_register
  transparent_read_cpsr transparent_read_spsr transparent_write_register
  transparent_write_usr_register transparent_write_cpsr transparent_write_spsr
  transparent_read_byte transparent_read_half transparent_read_word
  transparent_write_byte transparent_write_half transparent_write_word
  transparent_has_spsr transparent_uninit transparent_fetch transparent_at_line : transp.
#[export] Hint Extern 5 (_ <= _ < _) => lia : transp.
#[export] Hint Extern 5 (_ <= _) => lia : transp.

(** Prove code transparent by following its structure. *)
Ltac transp :=
  repeat match goal with
  | |- transparent _ (bind _ _) => apply transparent_bind; [|intros ?]
  | |- transparent _ (if _ then _ else _) => apply transparent_if
  | |- transparent _ (match ?x with _ => _ end) => destruct x
  | |- transparent _ (when _ _) => apply transparent_when
  | |- transparent _ (at_line _ _ _) => apply transparent_at_line; [lia|]
  | |- transparent _ (let _ := _ in _) => cbv zeta
  | |- transparent _ _ => solve [eauto with transp]
  end.

(** ** With the trace disabled *)

Definition quiet (s : machine) : Prop := enabled (trace s) = 0.

Definition hush (s : machine) : machine := set_trace (set_enabled 0 (trace s)) s.

Lemma hush_equiv s : hush s ≡ s.
Proof. done. Qed.
Lemma hush_quiet s : quiet (hush s).
Proof. done. Qed.

(** What holds of the run with the trace disabled holds of every run, up to the
    trace. *)
Lemma transparent_run {A} k (c : M machine A) s x s' :
  transparent k c -> trace_ok k (trace s) -> c (hush s) = Ret x s' ->
  exists s'', c s = Ret x s'' /\ s'' ≡ s' /\ trace_step (trace s) (trace s'').
Proof.
  intros Hc Ht E. specialize (Hc s (hush s) ltac:(done) Ht).
  specialize (Hc ltac:(destruct Ht as (? & ? & ? & ? & ?); by split_and!)).
  rewrite E in Hc. unfold agree in Hc. destruct (c s) as [y s1| | |]; try done.
  destruct Hc as (-> & ? & (? & _) & _). eauto.
Qed.

(** It also holds of what is printed on standard output. *)
Lemma transparent_run_prints {A} k (c : M machine A) s x s' :
  transparent k c -> trace_ok k (trace s) -> c (hush s) = Ret x s' ->
  exists s'', c s = Ret x s'' /\ s'' ≡ s' /\ trace_step (trace s) (trace s'') /\
    console (trace s'') = console (trace s').
Proof.
  intros Hc Ht E. specialize (Hc s (hush s) ltac:(done) Ht).
  specialize (Hc ltac:(destruct Ht as (? & ? & ? & ? & ?); by split_and!)).
  rewrite E in Hc. unfold agree in Hc. destruct (c s) as [y s1| | |]; try done.
  destruct Hc as (-> & ? & (? & _) & l & P1 & P2). exists s1. split_and!; try done. by rewrite P1, P2.
Qed.

Lemma transparent_run_exit {A} k (c : M machine A) s code s' :
  transparent k c -> trace_ok k (trace s) -> c (hush s) = Exit code s' ->
  exists s'', c s = Exit code s'' /\ s'' ≡ s'.
Proof.
  intros Hc Ht E. specialize (Hc s (hush s) ltac:(done) Ht).
  specialize (Hc ltac:(destruct Ht as (? & ? & ? & ? & ?); by split_and!)).
  rewrite E in Hc. unfold agree in Hc. destruct (c s) as [|y s1| |]; try done.
  destruct Hc as (-> & ? & _). eauto.
Qed.

Lemma transparent_run_undef {A} k (c : M machine A) s u :
  transparent k c -> trace_ok k (trace s) -> c (hush s) = Undef u -> c s = Undef u.
Proof.
  intros Hc Ht E. specialize (Hc s (hush s) ltac:(done) Ht).
  specialize (Hc ltac:(destruct Ht as (? & ? & ? & ? & ?); by split_and!)).
  rewrite E in Hc. unfold agree in Hc. destruct (c s) as [| | |v]; try done. by subst.
Qed.

(** Output on standard output. *)
Definition say (l : list string) (s : machine) : machine :=
  set_trace (set_console (console (trace s) ++ l)%list (trace s)) s.

Lemma say_equiv l s : say l s ≡ s.
Proof. done. Qed.
Lemma say_say l l' s : say l' (say l s) = say (l ++ l')%list s.
Proof. unfold say, set_console, set_trace. simpl. by rewrite app_assoc. Qed.
Lemma say_nil s : say [] s = s.
Proof. destruct s as [? ? [] ?]. unfold say, set_console, set_trace. simpl. by rewrite app_nil_r. Qed.
Lemma mem_say l s : mem (say l s) = mem s.
Proof. done. Qed.
Lemma arm_say l s : arm (say l s) = arm s.
Proof. done. Qed.
Lemma printf_q str s : in_trace (printf str) s = Ret tt (say [str] s).
Proof. done. Qed.
Lemma quiet_say l s : quiet s -> quiet (say l s).
Proof. done. Qed.

Lemma log_register_q type r mode v s : quiet s -> log_register type r mode v s = Ret tt s.
Proof.
  intros Hq. unfold log_register. erewrite bind_ret by done. apply (zoom_read _).
  unfold trace_register. erewrite bind_ret by done. cbv beta. simpl. by rewrite Hq.
Qed.
Lemma log_memory_q type sz cause a v s : quiet s -> log_memory type sz cause a v s = Ret tt s.
Proof.
  intros Hq. unfold log_memory. erewrite bind_ret by done. apply (zoom_read _).
  unfold trace_memory. erewrite bind_ret by done. cbv beta. simpl. by rewrite Hq.
Qed.

Lemma at_line_q {A} file line (c : M machine A) s :
  quiet s -> (forall x s', c s = Ret x s' -> quiet s') ->
  at_line file line c s = c s.
Proof.
  intros Hq Hc. unfold at_line.
  assert (E : in_trace (trace_start_location file line) s = Ret tt s).
  { apply (zoom_read _). unfold trace_start_location. erewrite bind_ret by done.
    cbv beta. simpl. by rewrite Hq. }
  rewrite (bind_ret _ _ _ _ _ E). unfold bind. destruct (c s) as [x s'| | |] eqn:Ec; try done.
  specialize (Hc _ _ eq_refl). unfold in_trace. rewrite (zoom_read trace_lens _ _ 0); [done|].
  unfold trace_end_location. erewrite bind_ret by done. cbv beta. simpl. by rewrite Hc.
Qed.

Lemma at_line_ret {A} file line (c : M machine A) s x s' :
  c s = Ret x s' -> quiet s -> quiet s' -> at_line file line c s = Ret x s'.
Proof.
  intros E Hq Hq'. rewrite at_line_q; [done|done|]. rewrite E. by intros ? ? [= <- <-].
Qed.

Lemma at_line_undef {A} file line (c : M machine A) s u :
  c s = Undef u -> quiet s -> at_line file line c s = Undef u.
Proof. intros E Hq. rewrite at_line_q; [done|done|]. by rewrite E. Qed.

(** ** The machine as the instructions see it *)

Abbreviation regs s := (reg (arm s)).

(** The value of register [r], as [arm_read_register] gives it. *)
Definition pc_read (v : Z) : Z := Z.land (u32 (v + 4)) 0xFFFFFFFD.
Definition rval (s : machine) (r : Z) : Z :=
  let v := rget (regs s) (slot (mode_of (regs s)) r) in
  if r =? 15 then pc_read v else v.
Definition usr_rval (s : machine) (r : Z) : Z :=
  let v := rget (regs s) r in if r =? 15 then pc_read v else v.

Definition upd_reg (r v : Z) (s : machine) : machine :=
  set_reg (aset (regs s) (slot (mode_of (regs s)) r) v) s.
Definition upd_usr_reg (r v : Z) (s : machine) : machine := set_reg (aset (regs s) r v) s.
Definition upd_cpsr (v : Z) (s : machine) : machine := set_reg (aset (regs s) CPSR v) s.
Definition upd_spsr (v : Z) (s : machine) : machine := set_reg (set_spsr (regs s) v) s.

(** The address of the next instruction to fetch. *)
Definition pc_of (s : machine) : Z := rget (regs s) 15.

#[export] Instance rval_proper : Proper ((≡) ==> (=) ==> (=)) rval.
Proof. intros s1 s2 (E & _) r ? <-. unfold rval. by rewrite E. Qed.
#[export] Instance pc_of_proper : Proper ((≡) ==> (=)) pc_of.
Proof. intros s1 s2 (E & _). unfold pc_of. by rewrite E. Qed.
#[export] Instance arm_proper : Proper ((≡) ==> (=)) arm.
Proof. by intros s1 s2 (E & _). Qed.
#[export] Instance mem_proper : Proper ((≡) ==> (=)) mem.
Proof. by intros s1 s2 (_ & E & _). Qed.
#[export] Instance upd_reg_proper : Proper ((=) ==> (=) ==> (≡) ==> (≡)) upd_reg.
Proof.
  intros r ? <- v ? <- s1 s2 Hs. unfold upd_reg. by rewrite (arm_proper _ _ Hs), Hs.
Qed.

Lemma slot_15 mode : slot mode 15 = 15.
Proof. reflexivity. Qed.

Lemma rval_range s r : regs_ok (regs s) -> is_u32 (rval s r).
Proof. intros. unfold rval, pc_read. case_match; auto with crange. Qed.
Lemma usr_rval_range s r : regs_ok (regs s) -> is_u32 (usr_rval s r).
Proof. intros. unfold usr_rval, pc_read. case_match; auto with crange. Qed.
Lemma cpsr_range r : regs_ok r -> is_u32 (cpsr_of r).
Proof. apply rget_range. Qed.
Lemma spsr_range r : regs_ok r -> is_u32 (spsr_of r).
Proof. intros. unfold spsr_of. case_match; [auto with crange|unfold is_u32; lia]. Qed.
#[export] Hint Resolve rval_range usr_rval_range cpsr_range spsr_range : crange.

Lemma regs_ok_upd_reg r v s : regs_ok (regs s) -> is_u32 v -> regs_ok (regs (upd_reg r v s)).
Proof. intros. by apply regs_ok_aset. Qed.
Lemma regs_ok_upd_usr_reg r v s :
  regs_ok (regs s) -> is_u32 v -> regs_ok (regs (upd_usr_reg r v s)).
Proof. intros. by apply regs_ok_aset. Qed.
Lemma regs_ok_upd_cpsr v s : regs_ok (regs s) -> is_u32 v -> regs_ok (regs (upd_cpsr v s)).
Proof. intros. by apply regs_ok_aset. Qed.
Lemma regs_ok_upd_spsr v s : regs_ok (regs s) -> is_u32 v -> regs_ok (regs (upd_spsr v s)).
Proof. intros. simpl. unfold set_spsr. case_match; auto with crange. Qed.
#[export] Hint Resolve regs_ok_upd_reg regs_ok_upd_usr_reg regs_ok_upd_cpsr
  regs_ok_upd_spsr : crange.

Section quiet.
Context `{Host} (s : machine) (Hq : quiet s) (Hr : regs_ok (regs s)).
Implicit Types (r v a : Z).

Lemma in_regs_read {A} (c : M registers A) x :
  c (regs s) = Ret x (regs s) -> in_regs c s = Ret x s.
Proof. intros E. by apply (zoom_read _). Qed.

Lemma in_mem_read {A} (c : M memory_data A) x :
  c (mem s) = Ret x (mem s) -> in_mem c s = Ret x s.
Proof. intros E. by apply (zoom_read _). Qed.

Lemma get_mode_q : in_regs get_mode s = Ret (mode_of (regs s)) s.
Proof. by apply in_regs_read, get_mode_ok. Qed.

Lemma arm_read_register_q r : 0 <= r < 16 -> arm_read_register r s = Ret (rval s r) s.
Proof.
  intros Hg. unfold arm_read_register.
  rewrite (bind_ret _ _ _ _ _ (in_regs_read _ _ (read_register_ok _ Hr r Hg))).
  rewrite (bind_ret _ _ _ _ _ get_mode_q).
  by rewrite (bind_ret _ _ _ _ _ (log_register_q _ _ _ _ _ Hq)).
Qed.

Lemma arm_read_usr_register_q r :
  0 <= r < 16 -> arm_read_usr_register r s = Ret (usr_rval s r) s.
Proof.
  intros Hg. unfold arm_read_usr_register.
  rewrite (bind_ret _ _ _ _ _ (in_regs_read _ _ (read_usr_register_ok _ Hr r Hg))).
  by rewrite (bind_ret _ _ _ _ _ (log_register_q _ _ _ _ _ Hq)).
Qed.

Lemma arm_read_cpsr_q : arm_read_cpsr s = Ret (cpsr_of (regs s)) s.
Proof.
  unfold arm_read_cpsr.
  rewrite (bind_ret _ _ _ _ _ (in_regs_read _ _ (read_cpsr_ok _ Hr))).
  by rewrite (bind_ret _ _ _ _ _ (log_register_q _ _ _ _ _ Hq)).
Qed.

Lemma arm_read_spsr_q : arm_read_spsr s = Ret (spsr_of (regs s)) s.
Proof.
  unfold arm_read_spsr.
  rewrite (bind_ret _ _ _ _ _ (in_regs_read _ _ (read_spsr_ok _ Hr))).
  rewrite (bind_ret _ _ _ _ _ get_mode_q).
  by rewrite (bind_ret _ _ _ _ _ (log_register_q _ _ _ _ _ Hq)).
Qed.

Lemma arm_has_spsr_q :
  arm_current_mode_has_spsr s =
  Ret (b2z (negb (mode_of (regs s) =? USR) && negb (mode_of (regs s) =? SYS))) s.
Proof. by apply in_regs_read, current_mode_has_spsr_ok. Qed.
End quiet.

Section quiet_writes.
Context `{Host} (s : machine) (Hq : quiet s) (Hr : regs_ok (regs s)).
Implicit Types (r v a : Z).

Lemma arm_write_register_q r v :
  0 <= r < 16 -> is_u32 v -> arm_write_register r v s = Ret tt (upd_reg r v s).
Proof.
  intros Hg Hv. unfold arm_write_register, in_regs.
  rewrite (bind_ret _ _ _ _ _ (zoom_ret reg_lens _ _ _ _ (write_register_ok _ Hr r v Hg))).
  rewrite (bind_ret _ _ _ _ _ (get_mode_q (upd_reg r v s) (regs_ok_upd_reg r v s Hr Hv))).
  by apply log_register_q.
Qed.

Lemma arm_write_usr_register_q r v :
  0 <= r < 16 -> arm_write_usr_register r v s = Ret tt (upd_usr_reg r v s).
Proof.
  intros Hg. unfold arm_write_usr_register, in_regs.
  rewrite (bind_ret _ _ _ _ _ (zoom_ret reg_lens _ _ _ _ (write_usr_register_ok _ Hr r v Hg))).
  by apply log_register_q.
Qed.

Lemma arm_write_cpsr_q v : arm_write_cpsr v s = Ret tt (upd_cpsr v s).
Proof.
  unfold arm_write_cpsr, in_regs.
  rewrite (bind_ret _ _ _ _ _ (zoom_ret reg_lens _ _ _ _ (write_cpsr_ok _ Hr v))).
  by apply log_register_q.
Qed.

Lemma arm_write_spsr_q v : is_u32 v -> arm_write_spsr v s = Ret tt (upd_spsr v s).
Proof.
  intros Hv. unfold arm_write_spsr, in_regs.
  rewrite (bind_ret _ _ _ _ _ (zoom_ret reg_lens _ _ _ _ (write_spsr_ok _ Hr v))).
  rewrite (bind_ret _ _ _ _ _ (get_mode_q (upd_spsr v s) (regs_ok_upd_spsr v s Hr Hv))).
  by apply log_register_q.
Qed.

Lemma arm_read_word_q a v x :
  memory_read_word a v (mem s) = Ret x (mem s) -> arm_read_word a v s = Ret x s.
Proof.
  intros E. unfold arm_read_word. rewrite (bind_ret _ _ _ _ _ (in_mem_read _ _ _ E)).
  by rewrite (bind_ret _ _ _ _ _ (log_memory_q _ _ _ _ _ _ Hq)).
Qed.
Lemma arm_read_half_q a v x :
  memory_read_half a v (mem s) = Ret x (mem s) -> arm_read_half a v s = Ret x s.
Proof.
  intros E. unfold arm_read_half. rewrite (bind_ret _ _ _ _ _ (in_mem_read _ _ _ E)).
  by rewrite (bind_ret _ _ _ _ _ (log_memory_q _ _ _ _ _ _ Hq)).
Qed.
Lemma arm_read_byte_q a v x :
  memory_read_byte a v (mem s) = Ret x (mem s) -> arm_read_byte a v s = Ret x s.
Proof.
  intros E. unfold arm_read_byte. rewrite (bind_ret _ _ _ _ _ (in_mem_read _ _ _ E)).
  by rewrite (bind_ret _ _ _ _ _ (log_memory_q _ _ _ _ _ _ Hq)).
Qed.
Lemma arm_write_word_q a v r mem' :
  memory_write_word a v (mem s) = Ret r mem' ->
  arm_write_word a v s = Ret r (set_mem mem' s).
Proof.
  intros E. unfold arm_write_word, in_mem.
  rewrite (bind_ret _ _ _ _ _ (zoom_ret mem_lens _ _ _ _ E)).
  rewrite (bind_ret _ _ _ _ _ (log_memory_q _ _ _ _ _ (set_mem mem' s) Hq)). done.
Qed.
Lemma arm_write_half_q a v r mem' :
  memory_write_half a v (mem s) = Ret r mem' ->
  arm_write_half a v s = Ret r (set_mem mem' s).
Proof.
  intros E. unfold arm_write_half, in_mem.
  rewrite (bind_ret _ _ _ _ _ (zoom_ret mem_lens _ _ _ _ E)).
  rewrite (bind_ret _ _ _ _ _ (log_memory_q _ _ _ _ _ (set_mem mem' s) Hq)). done.
Qed.
Lemma arm_write_byte_q a v r mem' :
  memory_write_byte a v (mem s) = Ret r mem' ->
  arm_write_byte a v s = Ret r (set_mem mem' s).
Proof.
  intros E. unfold arm_write_byte, in_mem.
  rewrite (bind_ret _ _ _ _ _ (zoom_ret mem_lens _ _ _ _ E)).
  rewrite (bind_ret _ _ _ _ _ (log_memory_q _ _ _ _ _ (set_mem mem' s) Hq)). done.
Qed.
End quiet_writes.

Lemma quiet_upd_reg r v s : quiet s -> quiet (upd_reg r v s).
Proof. done. Qed.
Lemma quiet_set_mem mm s : quiet s -> quiet (set_mem mm s).
Proof. done. Qed.
Lemma quiet_upd_usr_reg r v s : quiet s -> quiet (upd_usr_reg r v s).
Proof. done. Qed.
Lemma quiet_upd_cpsr v s : quiet s -> quiet (upd_cpsr v s).
Proof. done. Qed.
Lemma quiet_upd_spsr v s : quiet s -> quiet (upd_spsr v s).
Proof. done. Qed.

#[export] Hint Resolve printf_q quiet_say at_line_ret quiet_upd_reg quiet_set_mem quiet_upd_usr_reg
  quiet_upd_cpsr quiet_upd_spsr arm_read_register_q arm_read_usr_register_q
  arm_read_cpsr_q arm_read_spsr_q arm_has_spsr_q arm_write_register_q
  arm_write_usr_register_q arm_write_cpsr_q arm_write_spsr_q arm_read_word_q
  arm_read_half_q arm_read_byte_q arm_write_word_q arm_write_half_q
  arm_write_byte_q : mrun.
#[export] Hint Resolve regs_ok_upd_reg regs_ok_upd_usr_reg regs_ok_upd_cpsr
  regs_ok_upd_spsr rval_range usr_rval_range cpsr_range spsr_range u32_range
  u32_lor u32_lxor u32_land : mrun.
