(* ===== verification/TraceFormat.v ===== *)
(** * The trace in the format of ARM's tools

    [trace.c] has a second layout of the lines it prints, for builds with
    [ARM_TRACE_FORMAT].  The file has that variant of what differs; the two builds
    do the same but for the text. *)
From S2P Require Import Prelude CInt Constants Format Trace Core CoreFacts.

#[local] Open Scope string_scope.
#[local] Open Scope Z_scope.

(** The names of the other build with [arm_] before them. *)

Definition arm_trace_memory_seq : list string := ["N"; "S"].
Definition arm_trace_memory_cause : list string := ["_"; "O"].
Definition arm_trace_memory_type : list string := ["W"; "R"].
Definition arm_trace_register_type : list string := ["W"; "R"].

Definition arm_trace_memory (cycle type size cause address value : Z) : M trace_data unit :=
  let! e := gets enabled in
  let! f := gets trace_flags in
  when (nz e && nz (Z.land f MEMORY))
    (let! last := gets last_address in
     let seq := if address =? u32 (last + 4) then 1 else 0 in
     modify (set_last_address address) ;;;
     let! s := table_read arm_trace_memory_seq seq in
     let! ty := table_read arm_trace_memory_type type in
     let! ca := table_read arm_trace_memory_cause cause in
     fprintf ("M" +:+ s +:+ ty +:+ fmt_d size +:+ ca +:+ "__ " +:+ fmt_08X address +:+ " "
              +:+ fmt_08X value +:+ newline)).

Definition arm_trace_register (cycle type reg mode value : Z) : M trace_data unit :=
  let! e := gets enabled in
  let! f := gets trace_flags in
  when (nz e && nz (Z.land f REGISTERS))
    (let! name := arm_get_mode_name mode in
     let mode_name := match name with Some n => "_" +:+ n | None => "" end in
     let! ty := table_read arm_trace_register_type type in
     let! rn := arm_get_register_name reg in
     fprintf ("R" +:+ ty +:+ " " +:+ rn +:+ mode_name +:+ " " +:+ fmt_08X value +:+ newline)).

(** ** The two builds *)

(** [m] returns and changes [t] to [t'], of which only the output is left open. *)
Definition leaves (m : M trace_data unit) (t t' : trace_data) : Prop :=
  exists l, m t = Ret tt (set_output (Some l) t').

Lemma leaves_fprintf str t : is_Some (output t) -> leaves (fprintf str) t t.
Proof. intros [l E]. exists (str :: l). unfold fprintf. by rewrite E. Qed.

Lemma leaves_print_location t : trace_ok 0 t -> leaves trace_print_location t t.
Proof.
  intros (Ho & Hf & Hl & Ht1 & Ht2).
  assert (Hid : leaves (ret tt) t t) by (destruct Ho as [l E]; exists l; destruct t; simpl in E; by subst).
  unfold trace_print_location, leaves. erewrite bind_ret by done. erewrite bind_ret by done. cbv beta.
  destruct (_ && _); [|done]. cbn [when]. erewrite bind_ret by done. cbv beta.
  destruct (Z.leb_spec 0 (location_stack_top t)); [|done]. cbn [when].
  destruct (aget_lt (location_file_stack t) (location_stack_top t)) as [file Ef]; [lia|].
  destruct (aget_lt (location_line_stack t) (location_stack_top t)) as [line El]; [lia|].
  erewrite bind_ret by (apply (zoom_read file_stack_lens), cell_read_ret, Ef).
  erewrite bind_ret by (apply (zoom_read line_stack_lens), cell_read_ret, El). by apply leaves_fprintf.
Qed.

Lemma leaves_seq m1 m2 t t' :
  leaves m1 t t -> (forall l, leaves m2 (set_output (Some l) t) t') -> leaves (m1 ;;; m2) t t'.
Proof. intros [l E] H2. unfold leaves. rewrite (bind_ret _ _ _ _ _ E). apply H2. Qed.

Lemma leaves_table {A} (l : list A) i (k : A -> M trace_data unit) t t' :
  0 <= i < Z.of_nat (length l) -> (forall x, leaves (k x) t t') -> leaves (bind (table_read l i) k) t t'.
Proof.
  intros Hi Hk. destruct (aget_lt l i Hi) as [x E]. unfold leaves.
  rewrite (bind_ret _ _ t x t); [apply Hk|]. unfold table_read. by rewrite E.
Qed.

(** The lines of the format. *)
Definition arm_memory_line (seq : bool) (type size cause address value : Z) : string :=
  "M" +:+ (if seq then "S" else "N") +:+ (if type =? WRITE then "W" else "R") +:+ fmt_d size +:+
  (if cause =? OPCODE_FETCH then "O" else "_") +:+ "__ " +:+ fmt_08X address +:+ " " +:+ fmt_08X value +:+ newline.

Definition traced (flag : Z) (t : trace_data) : bool := nz (enabled t) && nz (Z.land (trace_flags t) flag).

Lemma gets_bind {A} (f : trace_data -> A) (k : A -> M trace_data unit) t : bind (gets f) k t = k (f t) t.
Proof. done. Qed.

(** The traces of memory accesses.  In either format the trace remembers the address
    when it is enabled for memory and does not change otherwise; ARM's format is one
    line, which says whether the access follows the last one. *)
Theorem trace_memory_formats cycle type size cause address value t l :
  trace_ok 0 t -> output t = Some l -> 0 <= type < 2 -> 0 <= cause < 2 ->
  let t' := if traced MEMORY t then set_last_address address t else t in
  leaves (trace_memory cycle type size cause address value) t t' /\
  arm_trace_memory cycle type size cause address value t =
    Ret tt (if traced MEMORY t
            then set_output (Some (arm_memory_line (address =? u32 (last_address t + 4)) type size cause address value :: l)) t'
            else t).
Proof.
  intros Ht Hl Hty Hca. unfold traced. split.
  - unfold leaves, trace_memory. rewrite !gets_bind. destruct (_ && _); cbn [when]; cycle 1.
    { exists l. destruct t; simpl in Hl; by subst. }
    rewrite gets_bind. rewrite (bind_ret _ _ t tt (set_last_address address t)) by done.
    apply leaves_seq; [by apply leaves_print_location|]. intros l'.
    apply leaves_table; [simpl; case_match; lia|]. intros s. do 2 (apply leaves_table; [simpl; lia|]; intros ?).
    by apply (leaves_fprintf _ (set_output (Some l') (set_last_address address t))).
  - unfold arm_trace_memory. rewrite !gets_bind. destruct (_ && _); [|done]. cbn [when].
    rewrite gets_bind. rewrite (bind_ret _ _ t tt (set_last_address address t)) by done.
    assert (Ety : type = 0 \/ type = 1) by lia. assert (Eca : cause = 0 \/ cause = 1) by lia.
    destruct Ety as [-> | ->], Eca as [-> | ->], (_ =? _);
      unfold bind, table_read, fprintf; simpl; by rewrite Hl.
Qed.

(** The traces of register accesses change nothing but the output in either format. *)
Theorem trace_register_formats cycle type reg mode value t :
  trace_ok 0 t -> 0 <= type < 2 -> 0 <= reg < 18 -> 0 <= mode < 32 ->
  leaves (trace_register cycle type reg mode value) t t /\
  leaves (arm_trace_register cycle type reg mode value) t t.
Proof.
  intros Ht Hty Hr Hm. destruct (Ht) as ([l Hl] & _).
  assert (Hid : leaves (ret tt) t t) by (exists l; destruct t; simpl in Hl; by subst).
  split; unfold leaves, trace_register, arm_trace_register; rewrite !gets_bind;
    (destruct (_ && _); [|exact Hid]); cbn [when]; (apply leaves_table; [simpl; lia|]; intros name).
  - apply leaves_seq; [by apply leaves_print_location|]. intros l'.
    do 2 (apply leaves_table; [simpl; lia|]; intros ?). by apply (leaves_fprintf _ (set_output (Some l') t)).
  - do 2 (apply leaves_table; [simpl; lia|]; intros ?). apply leaves_fprintf. by rewrite Hl.
Qed.
