(* ===== verification/Exception.v ===== *)
(** * [arm_exception.c] and [arm_create]: exception entry and reset *)
From S2P Require Import Prelude CInt Constants Memory Registers Format Trace Core CoreFacts.

#[local] Open Scope string_scope.
#[local] Open Scope Z_scope.

Definition CP15_reg1_EEbit : Z := 0.
Definition Exception_bit_9 : Z := Z.shiftl CP15_reg1_EEbit 9.

(** The [switch] on the exception: the new CPSR and the offset [d]. *)
Definition exception_cpsr (exception cpsr : Z) : Z * Z :=
  if exception =? UNDEFINED_INSTRUCTION then (Z.lor (Z.land cpsr 0x140) 0x9b, 4) else
  if exception =? SOFTWARE_INTERRUPT then (Z.lor (Z.land cpsr 0x140) 0x93, 4) else
  if exception =? PREFETCH_ABORT then (Z.lor (Z.land cpsr 0x40) 0x197, 4) else
  if exception =? DATA_ABORT then (Z.lor (Z.land cpsr 0x40) 0x197, 8) else
  if exception =? INTERRUPT then (Z.lor (Z.land cpsr 0x40) 0x192, 8) else
  if exception =? FAST_INTERRUPT then (0x1d1, 8) else
  (cpsr, 4).

Definition file : string := "arm_exception.c".

Definition arm_exception (exception : Z) : M machine unit :=
  (if exception =? RESET then
     at_line file 37 (arm_write_cpsr (Z.lor 0xd3 Exception_bit_9)) ;;;
     at_line file 38 (arm_write_register SP 0x800)
   else
     let! cpsr := at_line file 41 arm_read_cpsr in
     at_line file 45 (arm_write_spsr cpsr) ;;;
     let '(cpsr', d) := exception_cpsr exception cpsr in
     at_line file 73
       (let! pc := at_line file 73 (arm_read_register PC) in
        arm_write_register LR (u32 (pc + d))) ;;;
     at_line file 74 (arm_write_cpsr cpsr')) ;;;
  at_line file 77 (arm_write_usr_register PC (u32 ((exception - 1) * 4))).

(** [arm_create]: the fields of the new structure and the register file start
    with what [malloc] leaves there ([cycle], [block]); the memory is the one
    given.  The state given supplies the trace. *)
Definition arm_create (cycle : Z) (block : option (list Z)) (mm : memory_data) : M machine unit :=
  modify (fun s => set_mem mm (set_reg (registers_create block) (set_cycle cycle s))) ;;;
  arm_exception RESET ;;;
  modify (set_cycle 0).

(** [arm.c] *)
Definition arm_init : M machine unit := ret tt.

(** ** Well-formed machines *)

Definition machine_ok (s : machine) : Prop :=
  regs_ok (regs s) /\ mem_ok (mem s) /\ is_u32 (cycle_count (arm s)) /\
  trace_ok 2 (trace s).

Lemma machine_ok_equiv s s' :
  machine_ok s -> s' ≡ s -> trace_ok 2 (trace s') -> machine_ok s'.
Proof.
  intros (Hr & Hm & Hc & _) (E1 & E2 & _) Ht. unfold machine_ok. rewrite E1, E2. by split_and!.
Qed.

(** ** Lemmas *)

(** The state after exception entry, as updates of the state before it. *)
Definition exception_state (exception : Z) (s : machine) : machine :=
  let cpsr := cpsr_of (regs s) in
  let '(cpsr', d) := exception_cpsr exception cpsr in
  let s1 := upd_spsr cpsr s in
  upd_usr_reg PC (u32 ((exception - 1) * 4))
    (upd_cpsr cpsr' (upd_reg LR (u32 (rval s1 PC + d)) s1)).

Definition reset_state (s : machine) : machine :=
  upd_usr_reg PC 0 (upd_reg SP 0x800 (upd_cpsr 0xd3 s)).

Lemma exception_cpsr_range exception cpsr :
  is_u32 cpsr -> is_u32 (exception_cpsr exception cpsr).1.
Proof.
  intros Hc. unfold exception_cpsr.
  repeat case_match; simpl; auto with crange;
    try apply u32_lor; auto with crange; unfold is_u32; lia.
Qed.

Section facts.
Context (s : machine) (Hr : regs_ok (regs s)).

Lemma arm_exception_q exception :
  quiet s -> exception <> RESET -> arm_exception exception s = Ret tt (exception_state exception s).
Proof.
  intros Hq He. pose proof (exception_cpsr_range exception (cpsr_of (regs s))) as Hc.
  unfold arm_exception, exception_state. rewrite (proj2 (Z.eqb_neq _ _) He).
  rewrite bind_assoc. mstep. rewrite bind_assoc. mstep.
  destruct (exception_cpsr exception (cpsr_of (regs s))) as [cpsr' d].
  simpl in Hc. rewrite bind_assoc. unfold PC, LR.
  erewrite bind_ret; cycle 1.
  { eapply at_line_ret; [mstep; eauto with mrun|..]; eauto with mrun. }
  mstep. eauto 12 with mrun crange.
Qed.

Lemma arm_reset_q : quiet s -> arm_exception RESET s = Ret tt (reset_state s).
Proof.
  intros Hq. unfold arm_exception, reset_state. change (RESET =? RESET) with true. cbv iota.
  rewrite bind_assoc. change (Z.lor 0xd3 Exception_bit_9) with 0xd3.
  assert (is_u32 0xd3) by (unfold is_u32; lia).
  assert (is_u32 0x800) by (unfold is_u32; lia). unfold SP, PC.
  mstep. mstep. change (u32 ((RESET - 1) * 4)) with 0. eauto 12 with mrun.
Qed.
End facts.

Lemma arm_exception_transparent exception : transparent 2 (arm_exception exception).
Proof.
  unfold arm_exception, SP, LR, PC. transp.
Qed.

(** ** Properties *)

(** What the ARM architecture prescribes for the exceptions the code handles:
    vector address, processor mode. *)
Definition arch_vector (exception : Z) : option (Z * Z) :=
  if exception =? UNDEFINED_INSTRUCTION then Some (0x04, UND) else
  if exception =? SOFTWARE_INTERRUPT then Some (0x08, SVC) else
  if exception =? PREFETCH_ABORT then Some (0x0c, ABT) else
  if exception =? DATA_ABORT then Some (0x10, ABT) else
  if exception =? INTERRUPT then Some (0x18, IRQ) else
  if exception =? FAST_INTERRUPT then Some (0x1c, FIQ) else None.

(** The bits of [cpsr & mask | k]. *)
Lemma masked_mode cpsr mask k :
  Z.land mask 0x1f = 0 -> Z.land (Z.lor (Z.land cpsr mask) k) 0x1f = Z.land k 0x1f.
Proof.
  intros Hm. by rewrite Z.land_lor_distr_l, <- Z.land_assoc, Hm, Z.land_0_r, Z.lor_0_l.
Qed.

Lemma masked_bit cpsr mask k i :
  Z.testbit (Z.lor (Z.land cpsr mask) k) i =
  Z.testbit cpsr i && Z.testbit mask i || Z.testbit k i.
Proof. by rewrite Z.lor_spec, Z.land_spec. Qed.

Lemma arch_vector_cases exception v mode :
  arch_vector exception = Some (v, mode) ->
  v = u32 ((exception - 1) * 4) /\ exception <> RESET /\
  (forall cpsr,
     let cpsr' := (exception_cpsr exception cpsr).1 in
     Z.land cpsr' 0x1f = mode /\ Z.testbit cpsr' 7 = true /\ Z.testbit cpsr' 5 = false /\
     Z.testbit cpsr' 6 = (exception =? FAST_INTERRUPT) || Z.testbit cpsr 6).
Proof.
  unfold arch_vector.
  repeat match goal with
  | |- context [if ?e =? ?k then _ else _] =>
      destruct (Z.eqb_spec e k) as [->|]; [intros [= <- <-]|]
  end; [..|done].
  all: (split; [reflexivity|split; [done|]]); intros cpsr; simpl; split_and!; try reflexivity.
  all: try by rewrite masked_mode.
  all: rewrite masked_bit; cbn; rewrite ?andb_false_r, ?andb_true_r, ?orb_true_r; done || by rewrite orb_false_r.
Qed.

Section states.
Context (s : machine) (Hr : regs_ok (regs s)).

Lemma exception_state_regs exception :
  regs_ok (regs (exception_state exception s)) /\
  pc_of (exception_state exception s) = u32 ((exception - 1) * 4) /\
  cpsr_of (regs (exception_state exception s))
    = (exception_cpsr exception (cpsr_of (regs s))).1.
Proof.
  pose proof (exception_cpsr_range exception (cpsr_of (regs s)) (cpsr_range _ Hr)) as Hc.
  unfold exception_state, pc_of. destruct (exception_cpsr _ _) as [cpsr' d]. simpl in Hc.
  set (s1 := upd_reg LR _ _).
  assert (regs_ok (regs s1)) by (subst s1; auto 8 with crange).
  split; [auto with crange|]. unfold cpsr_of, PC, CPSR. simpl.
  rewrite rget_aset_eq by (auto with crange || lia). split; [done|].
  rewrite rget_aset_ne, rget_aset_eq by (auto with crange || lia). done.
Qed.
End states.

(** Run any of the operations of this file in a well-formed machine: it returns,
    its effect on the processor and the memory is that of the quiet run, and
    the trace stays usable. *)
Lemma run_prints {A} (c : M machine A) s x s' :
  transparent 2 c -> machine_ok s -> c (hush s) = Ret x s' ->
  regs_ok (regs s') -> mem_ok (mem s') -> is_u32 (cycle_count (arm s')) ->
  exists s'', c s = Ret x s'' /\ s'' ≡ s' /\ machine_ok s'' /\ console (trace s'') = console (trace s').
Proof.
  intros Hc (_ & _ & _ & Ht) E Hr' Hm' Hc'.
  destruct (transparent_run_prints _ _ _ _ _ Hc Ht E) as (s'' & E'' & Heq & Hs & Hp).
  exists s''. split; [done|]. split; [done|]. split; [|done].
  destruct Heq as (E1 & E2 & _). unfold machine_ok. rewrite E1, E2.
  split_and!; try done. by eapply trace_ok_step.
Qed.

Lemma run_ok {A} (c : M machine A) s x s' :
  transparent 2 c -> machine_ok s -> c (hush s) = Ret x s' ->
  regs_ok (regs s') -> mem_ok (mem s') -> is_u32 (cycle_count (arm s')) ->
  exists s'', c s = Ret x s'' /\ s'' ≡ s' /\ machine_ok s''.
Proof. intros. destruct (run_prints c s x s') as (s'' & ? & ? & ? & _); eauto. Qed.

(** Raising an exception always succeeds and leaves the memory alone. *)
Lemma arm_exception_total s exception :
  machine_ok s ->
  exists s', arm_exception exception s = Ret tt s' /\ machine_ok s' /\ mem s' = mem s.
Proof.
  intros Hok. destruct (Hok) as (Hr & Hm & Hcy & _).
  destruct (Z.eq_dec exception RESET) as [->|Hne].
  - destruct (run_ok _ s tt _ (arm_exception_transparent RESET) Hok
                (arm_reset_q (hush s) Hr (hush_quiet s))) as (s' & E & (_ & E2 & _) & Hok'); try done.
    { unfold reset_state.
      apply regs_ok_upd_usr_reg; [apply regs_ok_upd_reg; [apply regs_ok_upd_cpsr; [done|]|]|];
        unfold is_u32; lia. }
    exists s'. by rewrite E2.
  - assert (Hsame : mem (exception_state exception (hush s)) = mem s /\
                    cycle_count (arm (exception_state exception (hush s))) = cycle_count (arm s))
      by (unfold exception_state; by destruct (exception_cpsr _ _)).
    destruct Hsame as [Hmem Hcyc].
    destruct (run_ok _ s tt _ (arm_exception_transparent exception) Hok
                (arm_exception_q (hush s) Hr exception (hush_quiet s) Hne))
      as (s' & E & (_ & E2 & _) & Hok'); [|by rewrite Hmem|by rewrite Hcyc|exists s'; by rewrite E2, Hmem].
    apply exception_state_regs, Hr.
Qed.

Lemma exception_entry_ok s exception v mode :
  machine_ok s -> arch_vector exception = Some (v, mode) ->
  exists s', arm_exception exception s = Ret tt s' /\ machine_ok s' /\
    pc_of s' = v /\ mode_of (regs s') = mode /\ mem s' = mem s /\
    let cpsr' := cpsr_of (regs s') in
    Z.testbit cpsr' 7 = true /\ Z.testbit cpsr' 5 = false /\
    Z.testbit cpsr' 6 = (exception =? FAST_INTERRUPT) || Z.testbit (cpsr_of (regs s)) 6.
Proof.
  intros Hok Hv. destruct (arch_vector_cases _ _ _ Hv) as (-> & Hne & Hc).
  destruct (Hok) as (Hr & Hm & Hcy & _).
  destruct (exception_state_regs (hush s) Hr exception) as (Hr' & Hpc & Hcp).
  specialize (Hc (cpsr_of (regs s))).
  assert (Hsame : mem (exception_state exception (hush s)) = mem s /\
                  cycle_count (arm (exception_state exception (hush s))) = cycle_count (arm s)).
  { unfold exception_state. by destruct (exception_cpsr _ _). }
  destruct Hsame as [Hmem Hcyc].
  destruct (run_ok _ s tt _ (arm_exception_transparent exception) Hok
              (arm_exception_q (hush s) Hr exception (hush_quiet s) Hne))
    as (s' & E & Heq & Hok'); [done|by rewrite Hmem|by rewrite Hcyc|].
  exists s'. destruct Heq as (E1 & E2 & _). unfold pc_of, mode_of in *. simpl in Hcp.
  rewrite E1, E2, Hpc, Hcp, Hmem. by destruct Hc as (? & ? & ? & ?).
Qed.

(** C28: Exception entry.  For the six exceptions other than reset, the processor
    continues at the architecture's vector in the architecture's mode, with
    interrupts disabled, in ARM state, and with fast interrupts disabled if they
    were or if the exception is a fast interrupt; the memory does not change. *)
Theorem exception_entry s exception v mode :
  machine_ok s -> arch_vector exception = Some (v, mode) ->
  exists s', arm_exception exception s = Ret tt s' /\ machine_ok s' /\
    pc_of s' = v /\ mode_of (regs s') = mode /\ mem s' = mem s /\
    let cpsr' := cpsr_of (regs s') in
    Z.testbit cpsr' 7 = true /\ Z.testbit cpsr' 5 = false /\
    Z.testbit cpsr' 6 = (exception =? FAST_INTERRUPT) || Z.testbit (cpsr_of (regs s)) 6.
Proof. apply exception_entry_ok. Qed.

(** What exception entry saves, exactly: the old CPSR goes to the SPSR of
    the mode that is left, and the return address to the link register of that
    mode.  When the exception leaves the User mode, which has no SPSR, no SPSR
    and no banked register changes: the old CPSR is lost and the User mode's own
    link register is overwritten. *)
Theorem exception_saves_in_old_mode s exception v mode :
  machine_ok s -> arch_vector exception = Some (v, mode) -> mode_of (regs s) = USR ->
  exists s', arm_exception exception s = Ret tt s' /\
    rget (regs s') 14 =
      u32 (rval s PC + (exception_cpsr exception (cpsr_of (regs s))).2) /\
    (forall i, 17 <= i < 37 -> rget (regs s') i = rget (regs s) i).
Proof.
  intros Hok Hv Hu. destruct (arch_vector_cases _ _ _ Hv) as (-> & Hne & _).
  destruct (Hok) as (Hr & Hm & Hcy & Ht).
  destruct (transparent_run _ _ s _ _ (arm_exception_transparent exception) Ht
              (arm_exception_q (hush s) Hr exception (hush_quiet s) Hne))
    as (s' & E & (E1 & _) & _).
  exists s'. split; [done|]. rewrite E1. unfold exception_state.
  destruct (exception_cpsr exception (cpsr_of (regs (hush s)))) as [cpsr' d] eqn:Ee.
  change (cpsr_of (regs (hush s))) with (cpsr_of (regs s)) in Ee. rewrite Ee.
  unfold upd_spsr, set_spsr. change (mode_of (regs (hush s))) with (mode_of (regs s)).
  simpl. rewrite Hu. simpl. unfold upd_reg, rval. simpl. rewrite Hu. simpl.
  unfold PC, CPSR, LR. change (slot USR 14) with 14. change (slot USR 15) with 15.
  split.
  - rewrite !rget_aset_ne, rget_aset_eq by (done || lia). done.
  - intros i Hi. by rewrite !rget_aset_ne by lia.
Qed.

Lemma arm_create_ok s cycle l mm :
  regs_ok l -> mem_ok mm -> trace_ok 2 (trace s) ->
  exists s', arm_create cycle (Some l) mm s = Ret tt s' /\ machine_ok s' /\
    mem s' = mm /\ cycle_count (arm s') = 0 /\
    pc_of s' = 0 /\ cpsr_of (regs s') = 0xd3 /\ mode_of (regs s') = SVC /\
    rval s' SP = 0x800 /\
    (forall i, i <> 15 -> i <> 16 -> i <> 17 -> rget (regs s') i = rget l i).
Proof.
  intros Hl Hm Ht. unfold arm_create.
  set (s0 := set_mem mm (set_reg l (set_cycle cycle s))).
  change (modify _ s) with (Ret tt s0 : res machine unit). unfold bind at 1. simpl.
  assert (Hr0 : regs_ok (regs (hush s0))) by done.
  destruct (transparent_run _ _ s0 _ _ (arm_exception_transparent RESET) Ht
              (arm_reset_q (hush s0) Hr0 (hush_quiet s0))) as (s1 & E & (E1 & E2 & _) & Hst).
  change (modify _ s) with (Ret tt s0 : res machine unit). cbv iota beta.
  rewrite (bind_ret _ _ _ _ _ E). exists (set_cycle 0 s1). split; [done|].
  assert (Hr1 : regs s1 = aset (aset (aset l 16 0xd3) 17 0x800) 15 0).
  { rewrite E1. unfold reset_state, upd_usr_reg, upd_reg, upd_cpsr. simpl.
    unfold mode_of, cpsr_of, CPSR. by rewrite rget_aset_eq. }
  assert (Hok1 : regs_ok (regs s1)).
  { rewrite Hr1. repeat apply regs_ok_aset; try done; unfold is_u32; lia. }
  unfold machine_ok, pc_of, mode_of, cpsr_of, CPSR. simpl. rewrite E2.
  assert (Hc : rget (regs s1) 16 = 0xd3).
  { rewrite Hr1. rewrite !rget_aset_ne, rget_aset_eq by (done || lia). done. }
  split_and!; try done.
  - by eapply trace_ok_step.
  - rewrite Hr1. by rewrite rget_aset_eq by (repeat apply regs_ok_aset; done || unfold is_u32; lia).
  - by rewrite Hc.
  - unfold rval, mode_of, cpsr_of, CPSR. simpl. rewrite Hc. simpl.
    change (slot (Z.land 0xd3 0x1f) SP) with 17. rewrite Hr1.
    rewrite rget_aset_ne, rget_aset_eq by (repeat apply regs_ok_aset; done || unfold is_u32; lia).
    done.
  - intros i H15 H16 H17. rewrite Hr1. by rewrite !rget_aset_ne by lia.
Qed.

(** [arm_create] gives a well-formed processor in the reset state: Supervisor
    mode with both interrupts disabled, the Supervisor stack pointer at 0x800, the
    next instruction at address 0, cycle 0; the memory and all other registers
    are as they were allocated. *)
Theorem arm_create_reset s cycle l mm :
  regs_ok l -> mem_ok mm -> trace_ok 2 (trace s) ->
  exists s', arm_create cycle (Some l) mm s = Ret tt s' /\ machine_ok s' /\
    mem s' = mm /\ cycle_count (arm s') = 0 /\
    pc_of s' = 0 /\ cpsr_of (regs s') = 0xd3 /\ mode_of (regs s') = SVC /\
    rval s' SP = 0x800 /\
    (forall i, i <> 15 -> i <> 16 -> i <> 17 -> rget (regs s') i = rget l i).
Proof. apply arm_create_ok. Qed.

(** ** Witnesses *)

Definition trace_on : trace_data := set_flags 15 (set_output (Some []) trace_init).

Lemma trace_on_ok : trace_ok 2 trace_on.
Proof. split_and!; [by eexists|reflexivity..|simpl; lia|simpl; lia]. Qed.

(** A machine in User mode at address 0x40, with word [i] of the register file
    equal to [100 + i] otherwise. *)
Definition regs_usr : registers := aset (aset regs_ex CPSR 0x60000010) 15 0x40.
Definition machine_usr : machine := Machine (ArmCore 0 regs_usr) (mem8 1) trace_on 0.

Lemma regs_usr_ok : regs_ok regs_usr.
Proof. split; [reflexivity|]. apply (bool_decide_unpack _). vm_compute. done. Qed.

Lemma machine_usr_ok : machine_ok machine_usr.
Proof.
  split_and!; [apply regs_usr_ok|apply mem8_ok|unfold is_u32; cbn; lia|apply trace_on_ok].
Qed.

Lemma exception_entry_witness :
  exists s', arm_exception INTERRUPT machine_usr = Ret tt s' /\ pc_of s' = 0x18 /\
    mode_of (regs s') = IRQ.
Proof.
  destruct (exception_entry machine_usr INTERRUPT 0x18 IRQ machine_usr_ok eq_refl)
    as (s' & H1 & _ & H2 & H3 & _).
  exists s'. exact (conj H1 (conj H2 H3)).
Defined.

Lemma exception_saves_in_old_mode_witness :
  exists s', arm_exception SOFTWARE_INTERRUPT machine_usr = Ret tt s' /\
    rget (regs s') 14 = 0x48 /\ rget (regs s') 18 = 118 /\ rget (regs s') 32 = 132.
Proof.
  destruct (exception_saves_in_old_mode machine_usr SOFTWARE_INTERRUPT 0x8 SVC
              machine_usr_ok eq_refl eq_refl) as (s' & H1 & H2 & H3).
  exists s'. split; [exact H1|]. split; [rewrite H2; vm_compute; reflexivity|].
  rewrite (H3 18) by lia. rewrite (H3 32) by lia. split; vm_compute; reflexivity.
Defined.

Lemma arm_create_reset_witness :
  exists s', arm_create 77 (Some regs_ex) (mem8 1) machine_usr = Ret tt s' /\
    pc_of s' = 0 /\ rval s' SP = 0x800.
Proof.
  destruct (arm_create_reset machine_usr 77 regs_ex (mem8 1) regs_ex_ok (mem8_ok 1) trace_on_ok)
    as (s' & H1 & _ & _ & _ & H2 & _ & _ & H3 & _).
  exists s'. exact (conj H1 (conj H2 H3)).
Defined.
