(* ===== verification/Branch.v ===== *)
(** * [arm_branch_other.c]: branches, software interrupts, status register access *)
From S2P Require Import Prelude CInt Constants Memory Registers Format Trace Core CoreFacts Exception.

#[local] Open Scope string_scope.
#[local] Open Scope Z_scope.

Definition branch_file : string := "arm_branch_other.c".
Definition MASK_L : Z := Z.shiftl 1 24.
Definition MASK_TARGET_ADR : Z := 0xFFFFFF.

Definition sign_extending (x : Z) : Z :=
  if nz (Z.land x (Z.shiftl 1 23)) then s32 (Z.lor x 0x3F000000) else s32 x.

Section with_host.
Context `{Host}.

Definition arm_branch (ins : Z) : M machine Z :=
  when (nz (Z.land ins MASK_L))
    (at_line branch_file 41
       (let! pc := at_line branch_file 41 (arm_read_register 15) in
        arm_write_register 14 (u32 (pc - 4)))) ;;;
  at_line branch_file 44
    (let! pc := at_line branch_file 44 (arm_read_register 15) in
     arm_write_register 15
       (u32 (pc + int_shl (sign_extending (Z.land ins MASK_TARGET_ADR)) 2))) ;;;
  ret 0.

Definition arm_coprocessor_others_swi (ins : Z) : M machine Z :=
  if nz (get_bit ins 24) then
    if Z.land ins 0xFFFFFF =? 0x123456 then c_exit 0 else ret SOFTWARE_INTERRUPT
  else ret UNDEFINED_INSTRUCTION.

Definition arm_miscellaneous (ins : Z) : M machine Z :=
  if nz (get_bit ins 21) then ret 0
  else if nz (get_bit ins 22) then
    let! has := arm_current_mode_has_spsr in
    if negb (nz has) then ret UNDEFINED_INSTRUCTION else
    at_line branch_file 73
      (let! v := at_line branch_file 73 arm_read_spsr in
       arm_write_register (get_bits ins 15 12) v) ;;;
    ret 0
  else
    at_line branch_file 75
      (let! v := at_line branch_file 75 arm_read_cpsr in
       arm_write_register (get_bits ins 15 12) v) ;;;
    ret 0.
End with_host.

(** ** Lemmas *)

Lemma bit_at x i : 0 <= i -> nz (Z.land (Z.shiftr x i) 1) = Z.testbit x i.
Proof. intros. by rewrite land_1, Z.shiftr_spec, nz_b2z, Z.add_0_l by lia. Qed.

Lemma nz_bit x i : 0 <= i -> nz (Z.land x (Z.shiftl 1 i)) = Z.testbit x i.
Proof.
  intros Hi. unfold nz. destruct (Z.eqb_spec (Z.land x (Z.shiftl 1 i)) 0) as [E|E]; simpl.
  - apply (f_equal (fun y => Z.testbit y i)) in E. rewrite Z.testbit_0_l in E.
    rewrite Z.land_spec, Z.shiftl_spec, Z.sub_diag in E by done.
    by rewrite andb_true_r in E.
  - destruct (Z.testbit x i) eqn:Eb; [done|]. contradict E. apply Z.bits_inj'.
    intros j Hj. rewrite Z.land_spec, Z.shiftl_spec, Z.testbit_0_l by done.
    destruct (Z.eq_dec j i) as [->|Hne]; [by rewrite Eb|].
    destruct (Z.ltb_spec j i); [by rewrite (Z.testbit_neg_r 1), andb_false_r by lia|].
    rewrite (testbit_high 1 1) by lia. apply andb_false_r.
Qed.

(** The 24-bit offset of a branch as a signed number of words. *)
Definition branch_words (ins : Z) : Z :=
  let x := field ins 23 0 in if Z.testbit ins 23 then x - 2 ^ 24 else x.

Lemma land_ones_field x n : 0 <= n -> Z.land x (Z.ones (n + 1)) = field x n 0.
Proof.
  intros. unfold field. rewrite Z.land_ones by lia. change (2 ^ 0) with 1.
  rewrite Z.div_1_r. f_equal. f_equal. lia.
Qed.

Lemma branch_offset `{Host} ins :
  u32 (int_shl (sign_extending (Z.land ins MASK_TARGET_ADR)) 2) = u32 (4 * branch_words ins).
Proof.
  rewrite u32_int_shl by lia. rewrite Z.shiftl_mul_pow2 by lia. change (2 ^ 2) with 4.
  unfold sign_extending, branch_words, MASK_TARGET_ADR.
  change 0xFFFFFF with (Z.ones (23 + 1)). rewrite nz_bit by lia.
  rewrite Z.land_spec, (testbit_ones (23 + 1) 23) by lia. rewrite andb_true_r.
  rewrite land_ones_field by lia.
  pose proof (field_range ins 23 0 ltac:(lia)) as Hf. change (2 ^ (23 - 0 + 1)) with (2 ^ 24) in Hf.
  destruct (Z.testbit ins 23).
  - rewrite Z.lor_comm. change 0x3F000000 with (0x3F * 2 ^ 24). rewrite lor_add by lia.
    rewrite s32_small by lia. unfold u32.
    replace ((0x3F * 2 ^ 24 + field ins 23 0) * 4)
      with (4 * (field ins 23 0 - 2 ^ 24) + 1 * 2 ^ 32) by lia.
    by rewrite Z.mod_add.
  - rewrite s32_small by lia. f_equal. lia.
Qed.

(** The program counter reads 4 ahead of the word stored, which the fetch has
    already advanced by 4. *)
Lemma pc_read_aligned v : v mod 4 = 0 -> pc_read v = u32 (v + 4).
Proof.
  intros Hv. unfold pc_read.
  assert (Hb : Z.testbit (u32 (v + 4)) 1 = false).
  { rewrite testbit_u32 by lia. change (1 <? 32) with true.
    rewrite andb_true_l, Z.testbit_odd, Z.shiftr_div_pow2 by lia. change (2 ^ 1) with 2.
    apply Z.mod_divide in Hv as [q ->]; [|lia].
    replace (q * 4 + 4) with ((2 * (q + 1)) * 2) by lia. rewrite Z.div_mul by lia.
    by rewrite Z.odd_mul. }
  apply Z.bits_inj'; intros i Hi. rewrite Z.land_spec.
  destruct (Z.eq_dec i 1) as [->|Hne]; [by rewrite Hb|].
  destruct (Z.ltb_spec i 32).
  - replace (Z.testbit 0xFFFFFFFD i) with true; [apply andb_true_r|].
    symmetry. change 0xFFFFFFFD with (Z.lxor (Z.ones 32) (Z.shiftl 1 1)).
    rewrite Z.lxor_spec, testbit_ones, testbit_shiftl by lia.
    replace (i <? 32) with true by (symmetry; by apply Z.ltb_lt).
    destruct (Z.ltb_spec i 1); [by rewrite Z.testbit_neg_r by lia|].
    by rewrite (testbit_high 1 1) by lia.
  - by rewrite (testbit_u32_high (u32 (v + 4)) i) by (auto with crange || lia).
Qed.

Lemma rval_upd_reg_eq s r v :
  regs_ok (regs s) -> 0 <= r < 15 -> rval (upd_reg r v s) r = v.
Proof.
  intros Hr Hg. pose proof (slot_range (mode_of (regs s)) r ltac:(lia)) as [Hs Hs'].
  unfold rval, upd_reg. simpl. rewrite mode_of_aset by done.
  rewrite rget_aset_eq by (done || lia). by replace (r =? 15) with false by lia.
Qed.

Lemma rval_upd_reg_ne s r r' v :
  0 <= r < 16 -> 0 <= r' < 16 -> r <> r' -> rval (upd_reg r v s) r' = rval s r'.
Proof.
  intros Hg Hg' Hne. pose proof (slot_range (mode_of (regs s)) r ltac:(lia)) as [Hs Hs'].
  unfold rval, upd_reg. simpl. rewrite mode_of_aset by done.
  rewrite rget_aset_ne; [done|]. apply slot_ne; auto using mode_of_range.
Qed.

Lemma pc_upd_reg_15 s v : regs_ok (regs s) -> pc_of (upd_reg 15 v s) = v.
Proof. intros. unfold pc_of, upd_reg. simpl. rewrite slot_15. by rewrite rget_aset_eq. Qed.

Lemma pc_upd_reg_ne s r v : 0 <= r < 15 -> pc_of (upd_reg r v s) = pc_of s.
Proof.
  intros Hg. unfold pc_of, upd_reg. simpl.
  apply rget_aset_ne. rewrite <- (slot_15 (mode_of (regs s))).
  apply slot_ne; auto using mode_of_range; lia.
Qed.

Lemma rval_15 s : rval s 15 = pc_read (pc_of s).
Proof. unfold rval, pc_of. by rewrite slot_15. Qed.

Section facts.
Context `{Host}.

(** The state after a branch, from the state after its fetch. *)
Definition branch_state (ins : Z) (s : machine) : machine :=
  let s1 := if Z.testbit ins 24 then upd_reg 14 (u32 (rval s 15 - 4)) s else s in
  upd_reg 15 (u32 (rval s 15 + 4 * branch_words ins)) s1.

Lemma arm_branch_q ins s :
  quiet s -> regs_ok (regs s) -> arm_branch ins s = Ret 0 (branch_state ins s).
Proof.
  intros Hq Hr. unfold arm_branch, branch_state, MASK_L. rewrite nz_bit by lia.
  assert (Hw : forall s1, quiet s1 -> regs_ok (regs s1) ->
    (at_line branch_file 44
      (let! pc := at_line branch_file 44 (arm_read_register 15) in
       arm_write_register 15
         (u32 (pc + int_shl (sign_extending (Z.land ins MASK_TARGET_ADR)) 2))) ;;; ret 0) s1
    = Ret 0 (upd_reg 15 (u32 (rval s1 15 + 4 * branch_words ins)) s1)).
  { intros s1 Hq1 Hr1. erewrite bind_ret; cycle 1.
    { eapply at_line_ret; [mstep; eauto with mrun|..]; eauto with mrun. }
    rewrite <- u32_add_r, branch_offset, u32_add_r. done. }
  destruct (Z.testbit ins 24); unfold when.
  - erewrite bind_ret; cycle 1.
    { eapply at_line_ret; [mstep; eauto with mrun|..]; eauto with mrun. }
    rewrite Hw by eauto with mrun. rewrite rval_upd_reg_ne by lia. done.
  - rewrite (bind_ret _ _ _ tt s) by done. by apply Hw.
Qed.

Lemma arm_branch_transparent ins : transparent 2 (arm_branch ins).
Proof. unfold arm_branch. transp. Qed.

Lemma branch_state_ok ins s :
  regs_ok (regs s) -> regs_ok (regs (branch_state ins s)) /\
  mem (branch_state ins s) = mem s /\
  cycle_count (arm (branch_state ins s)) = cycle_count (arm s).
Proof.
  intros. unfold branch_state. destruct (Z.testbit ins 24); split_and!; auto 8 with crange.
Qed.
End facts.

(** ** Properties *)

Lemma u32_mod4 v : v mod 4 = 0 -> u32 v mod 4 = 0.
Proof.
  intros Hv. unfold u32. change (2 ^ 32) with (4 * 2 ^ 30).
  rewrite Z.rem_mul_r by lia. rewrite Hv, Z.add_0_l, Z.mul_comm. apply Z.mod_mul. lia.
Qed.

Lemma pc_read_next addr : addr mod 4 = 0 -> pc_read (u32 (addr + 4)) = u32 (addr + 8).
Proof.
  intros Ha. rewrite pc_read_aligned, u32_add_l; [f_equal; lia|].
  apply u32_mod4. apply Z.mod_divide in Ha as [q ->]; [|lia].
  replace (q * 4 + 4) with ((q + 1) * 4) by lia. apply Z.mod_mul. lia.
Qed.

Lemma cpsr_upd_reg r v s : 0 <= r < 16 -> cpsr_of (regs (upd_reg r v s)) = cpsr_of (regs s).
Proof.
  intros Hg. pose proof (slot_range (mode_of (regs s)) r Hg) as [_ Hs].
  unfold upd_reg, cpsr_of. simpl. by rewrite rget_aset_ne.
Qed.

Section properties.
Context `{Host}.

(** Branches.  After the fetch of a branch at the aligned address [addr]
    (which leaves [addr + 4] in the PC), [arm_branch] continues at the address
    of the instruction plus 8 plus four times the signed 24-bit offset, modulo
    2^32; with the link bit set, the link register holds the address of the
    next instruction.  No other register, no status bit and no memory
    changes. *)
Theorem arm_branch_target s ins addr :
  machine_ok s -> addr mod 4 = 0 -> pc_of s = u32 (addr + 4) ->
  exists s', arm_branch ins s = Ret 0 s' /\ machine_ok s' /\
    pc_of s' = u32 (addr + 8 + 4 * branch_words ins) /\
    rval s' LR = (if Z.testbit ins 24 then u32 (addr + 4) else rval s LR) /\
    (forall r, 0 <= r < 14 -> rval s' r = rval s r) /\
    cpsr_of (regs s') = cpsr_of (regs s) /\ mem s' = mem s.
Proof.
  intros Hok Ha Hpc. destruct (Hok) as (Hr & Hm & Hc & _).
  destruct (branch_state_ok ins (hush s) Hr) as (Hr' & Hm' & Hc').
  destruct (run_ok _ s _ _ (arm_branch_transparent ins) Hok
              (arm_branch_q ins (hush s) (hush_quiet s) Hr))
    as (s' & E & Heq & Hok'); [done|by rewrite Hm'|by rewrite Hc'|].
  exists s'. split; [done|split; [done|]]. setoid_rewrite Heq. rewrite Hm'.
  assert (H15 : rval (hush s) 15 = u32 (addr + 8)).
  { rewrite rval_15. change (pc_of (hush s)) with (pc_of s). rewrite Hpc.
    by apply pc_read_next. }
  unfold branch_state. rewrite H15.
  set (s1 := if Z.testbit ins 24 then _ else _).
  assert (Hr1 : regs_ok (regs s1)) by (subst s1; case_match; auto with crange).
  split_and!; try done.
  - rewrite pc_upd_reg_15 by done. apply u32_add_l.
  - unfold LR. rewrite rval_upd_reg_ne by lia. subst s1. case_match; [|done].
    rewrite rval_upd_reg_eq by (done || lia). rewrite u32_sub_l. f_equal. lia.
  - intros r Hg. rewrite rval_upd_reg_ne by lia. subst s1. case_match; [|done].
    by rewrite rval_upd_reg_ne by lia.
  - rewrite cpsr_upd_reg by lia. subst s1. case_match; [|done]. by rewrite cpsr_upd_reg.
Qed.
End properties.

Lemma arm_branch_target_witness :
  exists s', arm_branch (H := host0) 0xEBFFFFFE machine_usr = Ret 0 s' /\
    pc_of s' = 0x3c /\ rval s' LR = 0x40.
Proof.
  destruct (arm_branch_target (H := host0) machine_usr 0xEBFFFFFE 0x3c machine_usr_ok eq_refl eq_refl)
    as (s' & H1 & _ & H2 & H3 & _).
  exists s'. exact (conj H1 (conj H2 H3)).
Defined.

(** *** Status register reads *)

Lemma field_reg ins h : 0 <= field ins (h + 3) h < 16.
Proof.
  pose proof (field_range ins (h + 3) h ltac:(lia)) as Hf.
  replace (h + 3 - h + 1) with 4 in Hf by lia. done.
Qed.

Section misc.
Context `{Host}.

Definition has_spsr (s : machine) : bool :=
  negb (mode_of (regs s) =? USR) && negb (mode_of (regs s) =? SYS).

Definition misc_state (ins : Z) (s : machine) : machine :=
  if Z.testbit ins 21 then s
  else if Z.testbit ins 22 then
    if has_spsr s then upd_reg (field ins 15 12) (spsr_of (regs s)) s else s
  else upd_reg (field ins 15 12) (cpsr_of (regs s)) s.

Lemma arm_miscellaneous_q ins s :
  is_u32 ins -> quiet s -> regs_ok (regs s) ->
  exists r, arm_miscellaneous ins s = Ret r (misc_state ins s).
Proof.
  intros Hi Hq Hr. unfold arm_miscellaneous, misc_state.
  rewrite !get_bit_testbit, !nz_b2z by (done || lia).
  destruct (Z.testbit ins 21); [by eexists|].
  rewrite get_bits_field by (done || lia).
  pose proof (field_reg ins 12) as Hf. change (12 + 3) with 15 in Hf.
  destruct (Z.testbit ins 22).
  - mstep. rewrite nz_b2z. fold (has_spsr s). destruct (has_spsr s); [|by eexists].
    simpl. eexists. erewrite bind_ret; [reflexivity|].
    eapply at_line_ret; [mstep; eauto with mrun|..]; eauto with mrun.
  - eexists. erewrite bind_ret; [reflexivity|].
    eapply at_line_ret; [mstep; eauto with mrun|..]; eauto with mrun.
Qed.

Lemma arm_miscellaneous_transparent ins : is_u32 ins -> transparent 2 (arm_miscellaneous ins).
Proof.
  intros Hi. unfold arm_miscellaneous. rewrite !get_bits_field by (done || lia).
  pose proof (field_reg ins 12) as Hf. change (12 + 3) with 15 in Hf.
  transp.
Qed.

Lemma arm_swi_transparent ins : transparent 2 (arm_coprocessor_others_swi ins).
Proof. unfold arm_coprocessor_others_swi. transp. Qed.
End misc.
