(* ===== verification/Shifter.v ===== *)
(** * [shifter_operand] of [arm_instruction.c]: addressing mode 1

    The result pair is the operand and the value left in [*carry_out]. *)
From S2P Require Import Prelude CInt Constants Memory Registers Format Trace Core CoreFacts Exception Branch.

#[local] Open Scope string_scope.
#[local] Open Scope Z_scope.

Definition instruction_file : string := "arm_instruction.c".

Definition MASK_RM : Z := Z.shiftl 15 0.
Definition MASK_BY_REGISTER : Z := Z.shiftl 1 4.
Definition MASK_SHIFT : Z := Z.shiftl 3 5.
Definition MASK_RS_IMMEDIATE : Z := Z.shiftl 31 7.
Definition MASK_RS_REGISTER : Z := Z.shiftl 15 8.

Section with_host.
Context `{Host}.

Definition shifter_operand (ins carry_out : Z) : M machine (Z * Z) :=
  let! Rm := at_line instruction_file 156
               (arm_read_register (Z.shiftr (Z.land ins MASK_RM) 0)) in
  let! shift :=
    (if nz (Z.shiftr (Z.land ins MASK_BY_REGISTER) 4) then
       at_line instruction_file 160
         (arm_read_register (Z.shiftr (Z.land ins MASK_RS_REGISTER) 8))
     else ret (Z.shiftr (Z.land ins MASK_RS_IMMEDIATE) 7)) in
  let shift :=
    if negb (nz shift) && nz (get_bit ins 6) && nz (get_bit ins 4) then 32 else shift in
  let! carry_out :=
    (if negb (nz shift) then
       let! cpsr := at_line instruction_file 168 arm_read_cpsr in
       ret (get_bit cpsr FLAG_C)
     else ret carry_out) in
  let op := Z.shiftr (Z.land ins MASK_SHIFT) 5 in
  if op =? LSL then
    ret (shl32 Rm shift,
         if nz shift then get_bit Rm (u32 (32 - shift)) else carry_out)
  else if op =? LSR then
    ret (shr32 Rm shift,
         if nz shift then get_bit Rm (u32 (shift - 1)) else carry_out)
  else if op =? ASR then
    ret (asr Rm (u8 (s32 shift - 1)), get_bit Rm (s32 shift - 1))
  else if op =? ROR then
    if nz shift then ret (ror Rm (u8 shift), get_bit Rm (u32 (shift - 1)))
    else
      let! cpsr := at_line instruction_file 188 arm_read_cpsr in
      ret (Z.lor (shr32 Rm 1) (shl32 (get_bit cpsr FLAG_C) 31), Z.land Rm 1)
  else ret (0, carry_out).
End with_host.

(** ** The operand as a function of the machine *)

Lemma mask15_field ins l : 0 <= l -> Z.shiftr (Z.land ins (Z.shiftl 15 l)) l = field ins (l + 3) l.
Proof. intros. change 15 with (Z.ones 4). rewrite mask_field by lia. f_equal. lia. Qed.

Lemma mask1_bit ins l : 0 <= l -> nz (Z.shiftr (Z.land ins (Z.shiftl 1 l)) l) = Z.testbit ins l.
Proof.
  intros. change 1 with (Z.ones 1) at 1. rewrite mask_field by lia.
  unfold field. replace (l + 1 - 1 - l + 1) with 1 by lia. change (2 ^ 1) with 2.
  rewrite <- Z.shiftr_div_pow2 by done. rewrite Zmod_odd, <- Z.bit0_odd.
  rewrite Z.shiftr_spec by lia. rewrite Z.add_0_l. by destruct (Z.testbit ins l).
Qed.

Section pure.
Context `{Host}.

(** The shift amount: an immediate or, when bit 4 is set, a register; 0 in a
    register stands for 32 when bit 6 is set. *)
Definition shift_amount (ins : Z) (s : machine) : Z :=
  let n := if Z.testbit ins 4 then rval s (field ins 11 8) else field ins 11 7 in
  if negb (nz n) && Z.testbit ins 6 && Z.testbit ins 4 then 32 else n.

Definition carry_in (s : machine) : bool := Z.testbit (cpsr_of (regs s)) FLAG_C.

Definition operand (ins carry_out : Z) (s : machine) : Z * Z :=
  let Rm := rval s (field ins 3 0) in
  let n := shift_amount ins s in
  let c := if negb (nz n) then b2z (carry_in s) else carry_out in
  let op := field ins 6 5 in
  if op =? LSL then (shl32 Rm n, if nz n then get_bit Rm (u32 (32 - n)) else c)
  else if op =? LSR then (shr32 Rm n, if nz n then get_bit Rm (u32 (n - 1)) else c)
  else if op =? ASR then (asr Rm (u8 (s32 n - 1)), get_bit Rm (s32 n - 1))
  else if nz n then (ror Rm (u8 n), get_bit Rm (u32 (n - 1)))
  else (Z.lor (shr32 Rm 1) (shl32 (b2z (carry_in s)) 31), Z.land Rm 1).

Lemma op_cases ins : let op := field ins 6 5 in op = LSL \/ op = LSR \/ op = ASR \/ op = ROR.
Proof.
  pose proof (field_range ins 6 5 ltac:(lia)) as Hf. change (2 ^ (6 - 5 + 1)) with 4 in Hf.
  unfold LSL, LSR, ASR, ROR. simpl. lia.
Qed.

Lemma operand_range ins c s : is_u32 (operand ins c s).1.
Proof. unfold operand. repeat case_match; simpl; auto with crange. Qed.

Lemma operand_carry_range ins c s : 0 <= c <= 1 -> 0 <= (operand ins c s).2 <= 1.
Proof.
  intros Hc. unfold operand.
  repeat case_match; simpl; auto using get_bit_range, b2z_range;
    rewrite land_1; apply b2z_range.
Qed.

Lemma shifter_operand_q ins c s :
  is_u32 ins -> quiet s -> regs_ok (regs s) ->
  shifter_operand ins c s = Ret (operand ins c s) s.
Proof.
  intros Hi Hq Hr. unfold shifter_operand, MASK_RM, MASK_BY_REGISTER, MASK_RS_REGISTER,
    MASK_RS_IMMEDIATE, MASK_SHIFT.
  rewrite !mask15_field, mask1_bit by lia. change (0 + 3) with 3. change (8 + 3) with 11.
  change 31 with (Z.ones 5). change 3 with (Z.ones 2). rewrite !mask_field by lia.
  change (7 + 5 - 1) with 11. change (5 + 2 - 1) with 6. change (Z.ones 2) with 3.
  pose proof (field_reg ins 0) as F0. pose proof (field_reg ins 8) as F8.
  simpl in F0, F8. mstep.
  rewrite (bind_ret _ _ s (if Z.testbit ins 4 then rval s (field ins 11 8) else field ins 11 7) s);
    [|destruct (Z.testbit ins 4); eauto with mrun].
  rewrite !get_bit_testbit, !nz_b2z by (done || lia).
  set (n0 := if Z.testbit ins 4 then _ else _). cbv zeta.
  change (if negb (nz n0) && Z.testbit ins 6 && Z.testbit ins 4 then 32 else n0)
    with (shift_amount ins s).
  unfold operand. set (n := shift_amount ins s).
  rewrite (bind_ret _ _ s (if negb (nz n) then b2z (carry_in s) else c) s); cycle 1.
  { destruct (negb (nz n)); [|done]. mstep. unfold ret. f_equal.
    rewrite get_bit_testbit; [done|auto with crange|unfold FLAG_C; lia]. }
  destruct (op_cases ins) as [-> | [-> | [-> | ->]]]; try done.
  change (ROR =? LSL) with false. change (ROR =? LSR) with false.
  change (ROR =? ASR) with false. change (ROR =? ROR) with true. cbv iota.
  destruct (nz n); [done|]. mstep.
  rewrite get_bit_testbit; [done|auto with crange|unfold FLAG_C; lia].
Qed.

Lemma shifter_operand_transparent ins c : is_u32 ins -> transparent 2 (shifter_operand ins c).
Proof.
  intros Hi. unfold shifter_operand, MASK_RM, MASK_RS_REGISTER.
  rewrite !mask15_field by lia.
  pose proof (field_reg ins 0) as F0. pose proof (field_reg ins 8) as F8.
  simpl in F0, F8. transp.
Qed.
End pure.

(** ** Properties *)

(** The barrel shifter of the ARM architecture (addressing mode 1): operand and
    carry out of [Rm] shifted by [n] in 0..31, [c] being the carry flag.  An
    amount of 0 stands for 32 (LSR, ASR) or for a rotation through the carry
    (ROR). *)
Definition arch_shift (op Rm n : Z) (c : bool) : Z * bool :=
  if op =? LSL then (u32 (Rm * 2 ^ n), if n =? 0 then c else Z.testbit Rm (32 - n))
  else if op =? LSR then
    if n =? 0 then (0, Z.testbit Rm 31) else (Rm / 2 ^ n, Z.testbit Rm (n - 1))
  else if op =? ASR then
    if n =? 0 then (if Z.testbit Rm 31 then 2 ^ 32 - 1 else 0, Z.testbit Rm 31)
    else (u32 (s32 Rm / 2 ^ n), Z.testbit Rm (n - 1))
  else
    if n =? 0 then (b2z c * 2 ^ 31 + Rm / 2, Z.testbit Rm 0)
    else (Rm mod 2 ^ n * 2 ^ (32 - n) + Rm / 2 ^ n, Z.testbit Rm (n - 1)).

Section properties.
Context `{Host}.

Lemma ror_rotate v n :
  is_u32 v -> 0 < n < 32 -> ror v n = v mod 2 ^ n * 2 ^ (32 - n) + v / 2 ^ n.
Proof.
  intros Hv Hn. unfold ror. rewrite shr32_ok, shl32_ok by (done || lia).
  rewrite Z.shiftr_div_pow2, Z.shiftl_mul_pow2 by lia. unfold u32.
  replace (2 ^ 32) with (2 ^ n * 2 ^ (32 - n)) by (rewrite <- Z.pow_add_r by lia; f_equal; lia).
  rewrite Z.mul_mod_distr_r by (apply Z.pow_nonzero; lia).
  rewrite Z.lor_comm. apply lor_add; [lia|].
  assert (0 < 2 ^ n) by (apply Z.pow_pos_nonneg; lia).
  unfold is_u32 in Hv. split; [apply Z.div_pos; lia|].
  apply Z.div_lt_upper_bound; [lia|]. rewrite <- Z.pow_add_r by lia.
  replace (n + (32 - n)) with 32 by lia. lia.
Qed.

Lemma rrx_value v c :
  is_u32 v -> Z.lor (shr32 v 1) (shl32 (b2z c) 31) = b2z c * 2 ^ 31 + v / 2.
Proof.
  intros Hv. rewrite shr32_ok, shl32_ok by (done || lia).
  rewrite Z.shiftr_div_pow2, Z.shiftl_mul_pow2 by lia. change (2 ^ 1) with 2.
  pose proof (b2z_range c). rewrite u32_small by (unfold is_u32; lia).
  rewrite Z.lor_comm. apply lor_add; [lia|]. unfold is_u32 in Hv.
  split; [apply Z.div_pos; lia|]. apply Z.div_lt_upper_bound; lia.
Qed.

Lemma nz_pos n : 1 <= n -> nz n = true.
Proof. intros. apply nz_true. lia. Qed.

(** The operand is the architecture's in the cases the code gets right. *)
Lemma operand_arch ins co s :
  regs_ok (regs s) ->
  let op := field ins 6 5 in let n := shift_amount ins s in
  let Rm := rval s (field ins 3 0) in
  (op = LSL /\ 0 <= n <= 31) \/ (op = LSR /\ 1 <= n <= 31) \/ (op = ROR /\ 0 <= n <= 31) ->
  operand ins co s =
  ((arch_shift op Rm n (carry_in s)).1, b2z (arch_shift op Rm n (carry_in s)).2).
Proof.
  intros Hr op n Rm Hcase. unfold operand. fold op n Rm.
  assert (HRm : is_u32 Rm) by by apply rval_range. clearbody op n Rm.
  destruct Hcase as [[-> Hn]|[[-> Hn]|[-> Hn]]]; unfold arch_shift; simpl.
  - rewrite shl32_ok, Z.shiftl_mul_pow2 by lia. f_equal.
    destruct (Z.eqb_spec n 0) as [->|]; [done|]. rewrite nz_pos by lia.
    rewrite u32_small, get_bit_testbit by (done || unfold is_u32; lia). done.
  - rewrite nz_pos, shr32_ok, Z.shiftr_div_pow2, u32_small, get_bit_testbit
      by (done || unfold is_u32; lia).
    by replace (n =? 0) with false by lia.
  - destruct (Z.eqb_spec n 0) as [->|].
    + simpl. rewrite rrx_value by done. by rewrite land_1.
    + rewrite nz_pos, (u8_small n) by (unfold is_u8; lia).
      rewrite ror_rotate, u32_small, get_bit_testbit by (done || unfold is_u32; lia). done.
Qed.

(** C27: The shifter computes the architecture's operand and carry for LSL by
    0 to 31, LSR by 1 to 31, ROR by 1 to 31 and RRX, whether the amount is an
    immediate or comes from a register, and changes nothing in the
    processor. *)
Theorem shifter_operand_correct s ins c :
  machine_ok s -> is_u32 ins ->
  let op := field ins 6 5 in let n := shift_amount ins s in
  let Rm := rval s (field ins 3 0) in
  (op = LSL /\ 0 <= n <= 31) \/ (op = LSR /\ 1 <= n <= 31) \/ (op = ROR /\ 0 <= n <= 31) ->
  exists s', shifter_operand ins c s =
    Ret ((arch_shift op Rm n (carry_in s)).1, b2z (arch_shift op Rm n (carry_in s)).2) s' /\
    s' ≡ s /\ machine_ok s'.
Proof.
  intros Hok Hi op n Rm Hcase. destruct (Hok) as (Hr & Hm & Hcy & _).
  destruct (run_ok _ s _ _ (shifter_operand_transparent ins c Hi) Hok
              (shifter_operand_q ins c (hush s) Hi (hush_quiet s) Hr))
    as (s' & E & Heq & Hok'); [done..|].
  exists s'. split; [|split; [by rewrite Heq, hush_equiv|done]]. rewrite E. f_equal.
  by apply (operand_arch ins c (hush s)).
Qed.

(** Arithmetic right shifts are one position short: for an amount [n]
    from 2 to 31 the operand is the signed value of [Rm] divided by 2^(n-1), not
    by 2^n; the carry is the architecture's. *)
Theorem shifter_asr_off_by_one s ins c :
  machine_ok s -> is_u32 ins -> field ins 6 5 = ASR ->
  let n := shift_amount ins s in let Rm := rval s (field ins 3 0) in
  2 <= n <= 31 ->
  exists s', shifter_operand ins c s =
    Ret (u32 (s32 Rm / 2 ^ (n - 1)), b2z (arch_shift ASR Rm n (carry_in s)).2) s' /\ s' ≡ s.
Proof.
  intros Hok Hi Hop n Rm Hn. destruct (Hok) as (Hr & Hm & Hcy & _).
  destruct (run_ok _ s _ _ (shifter_operand_transparent ins c Hi) Hok
              (shifter_operand_q ins c (hush s) Hi (hush_quiet s) Hr))
    as (s' & E & Heq & Hok'); [done..|].
  exists s'. split; [|by rewrite Heq, hush_equiv]. rewrite E. f_equal. unfold operand.
  change (shift_amount ins (hush s)) with n.
  change (carry_in (hush s)) with (carry_in s). change (rval (hush s) (field ins 3 0)) with Rm.
  assert (HRm : is_u32 Rm) by by apply rval_range.
  rewrite Hop. unfold arch_shift. simpl. replace (n =? 0) with false by lia. simpl.
  rewrite (s32_small n), u8_small by (unfold is_u8; lia).
  rewrite asr_signed, Z.shiftr_div_pow2, get_bit_testbit by (done || lia). done.
Qed.
End properties.

Lemma shifter_operand_correct_witness :
  exists s', shifter_operand (H := host0) 0xE1A00402 0 machine_usr = Ret (102 * 256, 0) s' /\
    s' ≡ machine_usr.
Proof.
  destruct (shifter_operand_correct (H := host0) machine_usr 0xE1A00402 0 machine_usr_ok)
    as (s' & H1 & H2 & _).
  - unfold is_u32; lia.
  - left. vm_compute. split; [reflexivity|split; discriminate].
  - exists s'. split; [exact H1|exact H2].
Defined.

(** ASR #2 of 102 gives 51 where the architecture gives 25. *)
Lemma shifter_asr_off_by_one_witness :
  exists s', shifter_operand (H := host0) 0xE1A00142 0 machine_usr = Ret (51, 1) s' /\
    (arch_shift ASR 102 2 true).1 = 25.
Proof.
  destruct (shifter_asr_off_by_one (H := host0) machine_usr 0xE1A00142 0 machine_usr_ok)
    as (s' & H1 & _).
  - unfold is_u32; lia.
  - reflexivity.
  - vm_compute. split; discriminate.
  - exists s'. split; [exact H1|reflexivity].
Defined.
