(* ===== verification/DataProcessing.v ===== *)
(** * [arm_data_processing.c]: the sixteen data-processing instructions

    The handler as the code has it; its effect as a function of the machine
    ([dp_state]) and the lines it prints on standard output ([dp_text]). *)
From S2P Require Import Prelude CInt Constants Memory Registers Format Trace Core CoreFacts Exception Branch Shifter.

#[local] Open Scope string_scope.
#[local] Open Scope Z_scope.

Definition dp_file : string := "arm_data_processing.c".

Definition MASK_OPCODE : Z := Z.shiftl 15 21.
Definition MASK_I : Z := Z.shiftl 1 25.
Definition MASK_RN : Z := Z.shiftl 15 16.
Definition MASK_RD : Z := Z.shiftl 15 12.
Definition MASK_STATUS : Z := Z.shiftl 1 20.
Definition MASK_MAJREG : Z := Z.shiftl 3 23.

Section with_host.
Context `{Host}.

(** Lines 50-59: [Value_Shifter] and [carry_out]. *)
Definition dp_operand (ins : Z) : M machine (Z * Z) :=
  if nz (Z.shiftr (Z.land ins MASK_I) 25) then
    let Value_Shifter :=
      ror (Z.land ins 0xFF) (u8 (Z.land (Z.shiftr ins 8) 0xF * 2)) in
    let! cpsr := at_line dp_file 53 arm_read_cpsr in
    ret (Value_Shifter, get_bit cpsr FLAG_C)
  else shifter_operand ins 0.

(** The carry flag, as lines 80, 83 and 86 read it. *)
Definition dp_carry (line : Z) : M machine Z :=
  let! cpsr := at_line dp_file line arm_read_cpsr in
  ret (get_bit cpsr FLAG_C).

Definition dp_misc (ins : Z) : M machine unit :=
  when (negb (nz (get_bit ins 20))) (arm_miscellaneous ins ;;; ret tt).

(** Lines 63-122: the [switch] on the operation, giving [Res]. *)
Definition dp_operation (opcode ins Value_Rn Value_Shifter : Z) : M machine Z :=
  if opcode =? AND then ret (Z.land Value_Rn Value_Shifter) else
  if opcode =? EOR then ret (Z.lxor Value_Rn Value_Shifter) else
  if opcode =? SUB then ret (u32 (Value_Rn - Value_Shifter)) else
  if opcode =? RSB then ret (u32 (Value_Shifter - Value_Rn)) else
  if opcode =? ADD then ret (u32 (Value_Rn + Value_Shifter)) else
  if opcode =? ADC then
    let! c := dp_carry 80 in ret (u32 (Value_Rn + Value_Shifter + c)) else
  if opcode =? SBC then
    let! c := dp_carry 83 in ret (u32 (Value_Rn - Value_Shifter - b2z (negb (nz c)))) else
  if opcode =? RSC then
    let! c := dp_carry 86 in ret (u32 (Value_Shifter - Value_Rn - b2z (negb (nz c)))) else
  if opcode =? TST then dp_misc ins ;;; ret (Z.land Value_Rn Value_Shifter) else
  if opcode =? TEQ then dp_misc ins ;;; ret (Z.lxor Value_Rn Value_Shifter) else
  if opcode =? CMP then dp_misc ins ;;; ret (u32 (Value_Rn - Value_Shifter)) else
  if opcode =? CMN then dp_misc ins ;;; ret (u32 (Value_Rn + Value_Shifter)) else
  if opcode =? ORR then ret (Z.lor Value_Rn Value_Shifter) else
  if opcode =? MOV then ret Value_Shifter else
  if opcode =? BIC then ret (Z.land Value_Rn (not32 Value_Shifter)) else
  if opcode =? MVN then ret (not32 Value_Shifter) else
  uninit32.

(** Lines 136-160: the new CPSR from the old one, [Value_Shifter] being the
    value after lines 138-141. *)
Definition dp_new_cpsr (opcode Value_Rn Value_Shifter Res carry_out cpsr : Z) : Z :=
  let a := get_bit Value_Rn 31 in
  let b :=
    if nz Value_Rn &&
       ((opcode =? SUB) || (opcode =? RSB) || (opcode =? SBC) ||
        (opcode =? RSC) || (opcode =? CMP))
    then get_bit (not32 Value_Shifter) 31 else get_bit Value_Shifter 31 in
  let r := get_bit Res 31 in
  let cpsr := change_bit cpsr FLAG_N (get_bit Res 31) in
  let cpsr := change_bit cpsr FLAG_Z (b2z (Res =? 0)) in
  let cpsr := change_bit cpsr FLAG_C carry_out in
  if (SUB <=? opcode) && (opcode <=? CMN) && negb (opcode =? TST) && negb (opcode =? TEQ) then
    let cpsr := change_bit cpsr FLAG_C
      (b2z (nz carry_out || (nz a && nz b) || (negb (nz r) && negb (a =? b)))) in
    change_bit cpsr FLAG_V (b2z ((a =? b) && negb (b =? r)))
  else cpsr.

(** Line 164: the flags on standard output. *)
Definition flags_text (cpsr : Z) : string :=
  " N=" +:+ fmt_d (Z.land (Z.shiftr cpsr FLAG_N) 1) +:+ "  Z=" +:+ fmt_d (Z.land (Z.shiftr cpsr FLAG_Z) 1) +:+
  "  C=" +:+ fmt_d (Z.land (Z.shiftr cpsr FLAG_C) 1) +:+ "  V=" +:+ fmt_d (Z.land (Z.shiftr cpsr FLAG_V) 1) +:+
  newline.

(** Lines 132-166; the result is [Value_Shifter] after lines 138-141. *)
Definition dp_update_flags (opcode Rd Value_Rn Value_Shifter Res carry_out : Z) : M machine Z :=
  let! has := (if Rd =? PC then arm_current_mode_has_spsr else ret 0) in
  if nz has then
    at_line dp_file 133
      (let! spsr := at_line dp_file 133 arm_read_spsr in arm_write_cpsr spsr) ;;;
    ret Value_Shifter
  else
    let! Value_Shifter :=
      (if opcode =? ADC then
         let! c := dp_carry 138 in
         ret (if nz c then u32 (Value_Shifter + 1) else Value_Shifter)
       else ret Value_Shifter) in
    let! Value_Shifter :=
      (if (opcode =? SBC) || (opcode =? RSB) then
         let! c := dp_carry 140 in
         ret (if negb (nz c) then u32 (Value_Shifter - 1) else Value_Shifter)
       else ret Value_Shifter) in
    in_trace (printf ("Value_Shifter = " +:+ fmt_d Value_Shifter +:+ newline)) ;;;
    let! cpsr := at_line dp_file 151 arm_read_cpsr in
    let cpsr := dp_new_cpsr opcode Value_Rn Value_Shifter Res carry_out cpsr in
    at_line dp_file 162 (arm_write_cpsr cpsr) ;;;
    in_trace (printf (flags_text cpsr)) ;;;
    ret Value_Shifter.

(** Lines 177-181: the instruction on standard output. *)
Definition dp_print (ins opcode Rd Value_Shifter : Z) : M machine unit :=
  let! name := arm_get_opcode_name opcode in
  in_trace (printf name) ;;;
  when (nz (Z.shiftr (Z.land ins MASK_STATUS) 20)) (in_trace (printf "S")) ;;;
  in_trace (printf (" r" +:+ fmt_d Rd +:+ ", ")) ;;;
  when (negb (opcode =? MOV) && negb (opcode =? MVN))
    (in_trace (printf ("r" +:+ fmt_d (Z.shiftr (Z.land ins MASK_RN) 16) +:+ ", "))) ;;;
  in_trace (printf ("#" +:+ fmt_d Value_Shifter +:+ newline)).

Definition arm_data_processing (ins : Z) : M machine Z :=
  let opcode := Z.shiftr (Z.land ins MASK_OPCODE) 21 in
  let! Value_Rn := at_line dp_file 43
                     (arm_read_register (Z.shiftr (Z.land ins MASK_RN) 16)) in
  let Rd := u8 (Z.shiftr (Z.land ins MASK_RD) 12) in
  let! vc := dp_operand ins in
  let '(Value_Shifter, carry_out) := vc in
  let! Res := dp_operation opcode ins Value_Rn Value_Shifter in
  when (negb (Z.shiftr (Z.land ins MASK_MAJREG) 23 =? 2))
    (at_line dp_file 127 (arm_write_register Rd Res)) ;;;
  let! Value_Shifter :=
    (if nz (Z.shiftr (Z.land ins MASK_STATUS) 20)
     then dp_update_flags opcode Rd Value_Rn Value_Shifter Res carry_out
     else ret Value_Shifter) in
  dp_print ins opcode Rd Value_Shifter ;;;
  ret 0.
End with_host.

(** ** The instruction as a function of the machine *)

(** What the ARM architecture computes for an operation: [Rn] and [Op] are the
    operands, [c] the carry flag. *)
Definition arch_result (opcode Rn Op : Z) (c : bool) : Z :=
  if opcode =? AND then Z.land Rn Op else
  if opcode =? EOR then Z.lxor Rn Op else
  if opcode =? SUB then u32 (Rn - Op) else
  if opcode =? RSB then u32 (Op - Rn) else
  if opcode =? ADD then u32 (Rn + Op) else
  if opcode =? ADC then u32 (Rn + Op + b2z c) else
  if opcode =? SBC then u32 (Rn - Op - b2z (negb c)) else
  if opcode =? RSC then u32 (Op - Rn - b2z (negb c)) else
  if opcode =? TST then Z.land Rn Op else
  if opcode =? TEQ then Z.lxor Rn Op else
  if opcode =? CMP then u32 (Rn - Op) else
  if opcode =? CMN then u32 (Rn + Op) else
  if opcode =? ORR then Z.lor Rn Op else
  if opcode =? MOV then Op else
  if opcode =? BIC then Z.ldiff Rn Op else 2 ^ 32 - 1 - Op.

(** TST, TEQ, CMP, CMN: the operations without a destination. *)
Definition is_test (opcode : Z) : bool := (TST <=? opcode) && (opcode <=? CMN).

Lemma opcode_cases (P : Z -> Prop) opcode :
  0 <= opcode < 16 ->
  P 0 -> P 1 -> P 2 -> P 3 -> P 4 -> P 5 -> P 6 -> P 7 ->
  P 8 -> P 9 -> P 10 -> P 11 -> P 12 -> P 13 -> P 14 -> P 15 -> P opcode.
Proof.
  intros Ho. intros.
  assert (Hc : opcode = 0 \/ opcode = 1 \/ opcode = 2 \/ opcode = 3 \/ opcode = 4 \/
    opcode = 5 \/ opcode = 6 \/ opcode = 7 \/ opcode = 8 \/ opcode = 9 \/ opcode = 10 \/
    opcode = 11 \/ opcode = 12 \/ opcode = 13 \/ opcode = 14 \/ opcode = 15) by lia.
  repeat (destruct Hc as [-> | Hc]; [done|]). by subst.
Qed.

Lemma not32_sub x : is_u32 x -> not32 x = 2 ^ 32 - 1 - x.
Proof.
  intros Hx. unfold not32. rewrite <- (Z.sub_0_r (Z.lnot x)), <- (Z_mod_same_full (2 ^ 32)).
  unfold Z.lnot, u32, is_u32 in *. rewrite Z_mod_same_full, Z.sub_0_r.
  rewrite <- (Z_mod_plus_full _ 1). rewrite Z.mod_small; lia.
Qed.

Lemma bic_ldiff x y : is_u32 x -> Z.land x (not32 y) = Z.ldiff x y.
Proof.
  intros Hx. apply Z.bits_inj'; intros i Hi. unfold not32.
  rewrite Z.land_spec, Z.ldiff_spec, testbit_u32, testbit_lnot by done.
  destruct (Z.ltb_spec i 32); [done|]. by rewrite testbit_u32_high.
Qed.

Lemma ldiff_u32 x y : is_u32 x -> is_u32 (Z.ldiff x y).
Proof. intros. rewrite <- bic_ldiff by done. by apply u32_land. Qed.

Lemma arch_result_range opcode Rn Op c :
  is_u32 Rn -> is_u32 Op -> is_u32 (arch_result opcode Rn Op c).
Proof.
  intros. unfold arch_result.
  repeat case_match; auto using u32_land, u32_lxor, u32_lor, u32_range, ldiff_u32.
  unfold is_u32 in *; lia.
Qed.
#[export] Hint Resolve arch_result_range operand_range : crange mrun.

Section pure.
Context `{Host}.

Definition dp_opd (ins : Z) (s : machine) : Z * Z :=
  if Z.testbit ins 25 then (ror (field ins 7 0) (2 * field ins 11 8), b2z (carry_in s))
  else operand ins 0 s.

(** What lines 138-141 make of the second operand. *)
Definition dp_adjust (opcode Op : Z) (c : bool) : Z :=
  if opcode =? ADC then if c then u32 (Op + 1) else Op
  else if (opcode =? SBC) || (opcode =? RSB) then if c then Op else u32 (Op - 1)
  else Op.

Definition dp_flags_state (opcode Rd Rn Op Res co : Z) (s : machine) : machine :=
  if (Rd =? 15) && has_spsr s then upd_cpsr (spsr_of (regs s)) s
  else upd_cpsr (dp_new_cpsr opcode Rn (dp_adjust opcode Op (carry_in s)) Res co
                   (cpsr_of (regs s))) s.

Definition dp_value (ins : Z) (s : machine) : Z :=
  arch_result (field ins 24 21) (rval s (field ins 19 16)) (dp_opd ins s).1 (carry_in s).

Definition dp_write (ins : Z) (s : machine) : machine :=
  if is_test (field ins 24 21) then
    if Z.testbit ins 20 then s else misc_state ins s
  else upd_reg (field ins 15 12) (dp_value ins s) s.

Definition dp_state (ins : Z) (s : machine) : machine :=
  if Z.testbit ins 20 then
    dp_flags_state (field ins 24 21) (field ins 15 12) (rval s (field ins 19 16))
      (dp_opd ins s).1 (dp_value ins s) (dp_opd ins s).2 (dp_write ins s)
  else dp_write ins s.

(** What is printed: the second operand after lines 138-141, the flags, and the
    instruction. *)
Definition dp_shown (opcode Rd Op : Z) (s : machine) : Z :=
  if (Rd =? 15) && has_spsr s then Op else dp_adjust opcode Op (carry_in s).

Definition dp_flags_text (opcode Rd Rn Op Res co : Z) (s : machine) : list string :=
  if (Rd =? 15) && has_spsr s then []
  else ["Value_Shifter = " +:+ fmt_d (dp_adjust opcode Op (carry_in s)) +:+ newline;
        flags_text (dp_new_cpsr opcode Rn (dp_adjust opcode Op (carry_in s)) Res co (cpsr_of (regs s)))].

Definition instruction_text (ins v : Z) : list string :=
  ([default "" (aget arm_opcode_names (field ins 24 21))] ++ (if Z.testbit ins 20 then ["S"] else []) ++
   [" r" +:+ fmt_d (field ins 15 12) +:+ ", "] ++
   (if (field ins 24 21 =? MOV) || (field ins 24 21 =? MVN) then []
    else ["r" +:+ fmt_d (field ins 19 16) +:+ ", "]) ++
   ["#" +:+ fmt_d v +:+ newline])%list.

Definition dp_text (ins : Z) (s : machine) : list string :=
  let opcode := field ins 24 21 in
  let Rd := field ins 15 12 in
  let Op := (dp_opd ins s).1 in
  if Z.testbit ins 20 then
    (dp_flags_text opcode Rd (rval s (field ins 19 16)) Op (dp_value ins s) (dp_opd ins s).2 (dp_write ins s) ++
     instruction_text ins (dp_shown opcode Rd Op (dp_write ins s)))%list
  else instruction_text ins Op.

Lemma dp_opd_range ins s : is_u32 (dp_opd ins s).1.
Proof. unfold dp_opd. case_match; simpl; auto with crange. Qed.

Lemma dp_opd_carry ins s : 0 <= (dp_opd ins s).2 <= 1.
Proof.
  unfold dp_opd. case_match; [apply b2z_range|]. apply operand_carry_range. lia.
Qed.
#[local] Hint Resolve dp_opd_range : crange mrun.

Lemma dp_new_cpsr_range o Rn Op Res co cpsr :
  is_u32 cpsr -> is_u32 (dp_new_cpsr o Rn Op Res co cpsr).
Proof. intros. unfold dp_new_cpsr. case_match; auto 8 using change_bit_range. Qed.
#[local] Hint Resolve dp_new_cpsr_range : crange mrun.

Lemma dp_carry_q line s :
  quiet s -> regs_ok (regs s) -> dp_carry line s = Ret (b2z (carry_in s)) s.
Proof.
  intros Hq Hr. unfold dp_carry. mstep. unfold ret. f_equal.
  rewrite get_bit_testbit; [done|auto with crange|unfold FLAG_C; lia].
Qed.
#[local] Hint Resolve dp_carry_q : mrun.

Lemma dp_operand_q ins s :
  is_u32 ins -> quiet s -> regs_ok (regs s) -> dp_operand ins s = Ret (dp_opd ins s) s.
Proof.
  intros Hi Hq Hr. unfold dp_operand, dp_opd, MASK_I. rewrite mask1_bit by lia.
  destruct (Z.testbit ins 25); [|by apply shifter_operand_q]. mstep. unfold ret. f_equal.
  change 0xFF with (Z.ones (7 + 1)). change 0xF with (Z.ones 4).
  rewrite land_ones_field by lia. rewrite Z.land_ones, Z.shiftr_div_pow2 by lia.
  change ((ins / 2 ^ 8) mod 2 ^ 4) with (field ins 11 8).
  pose proof (field_reg ins 8) as F. change (8 + 3) with 11 in F.
  rewrite u8_small by (unfold is_u8; lia).
  rewrite get_bit_testbit; [|auto with crange|unfold FLAG_C; lia].
  by rewrite (Z.mul_comm _ 2).
Qed.

Lemma dp_misc_q ins s :
  is_u32 ins -> quiet s -> regs_ok (regs s) ->
  dp_misc ins s = Ret tt (if Z.testbit ins 20 then s else misc_state ins s).
Proof.
  intros Hi Hq Hr. unfold dp_misc. rewrite get_bit_testbit, nz_b2z by (done || lia).
  destruct (Z.testbit ins 20); [done|]. simpl.
  destruct (arm_miscellaneous_q ins s Hi Hq Hr) as [r E]. by erewrite bind_ret.
Qed.
#[local] Hint Resolve dp_misc_q : mrun.

Lemma dp_operation_q opcode ins Rn Op s :
  is_u32 ins -> is_u32 Rn -> is_u32 Op -> 0 <= opcode < 16 -> quiet s -> regs_ok (regs s) ->
  dp_operation opcode ins Rn Op s =
  Ret (arch_result opcode Rn Op (carry_in s))
      (if is_test opcode then if Z.testbit ins 20 then s else misc_state ins s else s).
Proof.
  intros Hi HR HO Ho Hq Hr. unfold dp_operation, arch_result.
  pattern opcode. apply opcode_cases; [done|simpl; try reflexivity..].
  all: repeat (mstep; rewrite ?nz_b2z); try reflexivity.
  - by rewrite bic_ldiff.
  - by rewrite not32_sub.
Qed.

Lemma dp_update_flags_q opcode Rd Rn Op Res co s :
  quiet s -> regs_ok (regs s) ->
  dp_update_flags opcode Rd Rn Op Res co s
  = Ret (dp_shown opcode Rd Op s)
      (say (dp_flags_text opcode Rd Rn Op Res co s) (dp_flags_state opcode Rd Rn Op Res co s)).
Proof.
  intros Hq Hr. unfold dp_update_flags, dp_flags_state, dp_flags_text, dp_shown, PC.
  rewrite (bind_ret _ _ s (b2z ((Rd =? 15) && has_spsr s)) s); cycle 1.
  { destruct (Rd =? 15); [by apply arm_has_spsr_q|done]. }
  rewrite nz_b2z. destruct ((Rd =? 15) && has_spsr s).
  { rewrite (bind_ret _ _ s tt (upd_cpsr (spsr_of (regs s)) s)); [by rewrite say_nil|].
    eapply at_line_ret; [mstep; eauto with mrun|..]; eauto with mrun. }
  rewrite (bind_ret _ _ s
    (if opcode =? ADC then if carry_in s then u32 (Op + 1) else Op else Op) s); cycle 1.
  { destruct (opcode =? ADC); [|done]. mstep. by rewrite nz_b2z. }
  rewrite (bind_ret _ _ s (dp_adjust opcode Op (carry_in s)) s); cycle 1.
  { unfold dp_adjust. destruct (Z.eqb_spec opcode ADC) as [->|]; [done|].
    destruct ((opcode =? SBC) || (opcode =? RSB)); [|done].
    mstep. rewrite nz_b2z. by destruct (carry_in s). }
  set (Op' := dp_adjust _ _ _). rewrite (bind_ret _ _ _ _ _ (printf_q _ _)).
  set (s1 := say _ s). assert (Hq1 : quiet s1) by done. assert (Hr1 : regs_ok (regs s1)) by done.
  mstep. change (cpsr_of (regs s1)) with (cpsr_of (regs s)). set (c := dp_new_cpsr _ _ _ _ _ _).
  assert (Hc : is_u32 c) by (apply dp_new_cpsr_range; auto with crange).
  rewrite (bind_ret _ _ s1 tt (upd_cpsr c s1)) by eauto 12 with mrun.
  rewrite (bind_ret _ _ _ _ _ (printf_q _ _)). unfold ret. f_equal.
  change (upd_cpsr c s1) with (say ["Value_Shifter = " +:+ fmt_d Op' +:+ newline] (upd_cpsr c s)).
  by rewrite say_say.
Qed.

Lemma dp_print_q ins Rd v s :
  is_u32 ins -> Rd = field ins 15 12 ->
  dp_print ins (field ins 24 21) Rd v s = Ret tt (say (instruction_text ins v) s).
Proof.
  intros Hi ->. unfold dp_print, instruction_text, MASK_STATUS, MASK_RN. rewrite mask15_field, mask1_bit by lia.
  change (16 + 3) with 19. pose proof (field_reg ins 21) as F21. change (21 + 3) with 24 in F21.
  destruct (table_read_lt arm_opcode_names (field ins 24 21) s F21) as [x Hx].
  rewrite (bind_ret _ _ _ _ _ Hx). unfold table_read in Hx. destruct (aget arm_opcode_names _) as [y|]; [|done].
  injection Hx as ->. cbn [default]. rewrite (bind_ret _ _ _ _ _ (printf_q _ _)).
  rewrite (bind_ret _ _ _ tt (say (if Z.testbit ins 20 then ["S"] else []) (say [x] s))); cycle 1.
  { destruct (Z.testbit ins 20); [apply printf_q|by rewrite say_nil]. }
  rewrite (bind_ret _ _ _ _ _ (printf_q _ _)).
  match goal with |- bind _ _ ?s1 = _ => rewrite (bind_ret _ _ _ tt
    (say (if (field ins 24 21 =? MOV) || (field ins 24 21 =? MVN) then []
          else ["r" +:+ fmt_d (field ins 19 16) +:+ ", "]) s1)) end; cycle 1.
  { destruct (_ =? MOV), (_ =? MVN); try (by rewrite say_nil); apply printf_q. }
  rewrite printf_q, !say_say. by rewrite <- ?app_assoc.
Qed.

Lemma major_test ins : (field ins 24 23 =? 2) = is_test (field ins 24 21).
Proof.
  pose proof (field_range ins 24 21 ltac:(lia)) as Hf. change (2 ^ (24 - 21 + 1)) with 16 in Hf.
  assert (E : field ins 24 23 = field ins 24 21 / 4).
  { unfold field. change (24 - 23 + 1) with 2. change (24 - 21 + 1) with 4.
    change 4 with (2 ^ 2) at 2. rewrite <- Z.shiftr_div_pow2, <- Z.shiftr_div_pow2 by lia.
    bitwise. }
  rewrite E. unfold is_test, TST, CMN.
  pose proof (Z.div_mod (field ins 24 21) 4). pose proof (Z.mod_pos_bound (field ins 24 21) 4).
  destruct (Z.eqb_spec (field ins 24 21 / 4) 2); symmetry;
    [apply andb_true_iff|apply andb_false_iff]; rewrite ?Z.leb_le, ?Z.leb_gt; lia.
Qed.

Lemma misc_state_ok ins s :
  regs_ok (regs s) -> regs_ok (regs (misc_state ins s)) /\ mem (misc_state ins s) = mem s /\ cycle_count (arm (misc_state ins s)) = cycle_count (arm s) /\ trace (misc_state ins s) = trace s.
Proof. intros. unfold misc_state. repeat case_match; split_and!; auto 8 with crange. Qed.

Lemma dp_write_ok ins s :
  regs_ok (regs s) -> regs_ok (regs (dp_write ins s)) /\ mem (dp_write ins s) = mem s /\ cycle_count (arm (dp_write ins s)) = cycle_count (arm s) /\ trace (dp_write ins s) = trace s.
Proof.
  intros Hr. unfold dp_write, dp_value. repeat case_match; try by apply misc_state_ok.
  - done.
  - split_and!; auto with crange.
Qed.

Lemma dp_state_ok ins s :
  regs_ok (regs s) -> regs_ok (regs (dp_state ins s)) /\ mem (dp_state ins s) = mem s /\ cycle_count (arm (dp_state ins s)) = cycle_count (arm s).
Proof.
  intros Hr. destruct (dp_write_ok ins s Hr) as (Hw & Em & Ec & _).
  unfold dp_state, dp_flags_state. repeat case_match; split_and!; auto 8 with crange.
Qed.

Lemma dp_state_trace ins s : regs_ok (regs s) -> trace (dp_state ins s) = trace s.
Proof.
  intros Hr. destruct (dp_write_ok ins s Hr) as (_ & _ & _ & Et).
  unfold dp_state, dp_flags_state. by repeat case_match.
Qed.

Lemma arm_data_processing_q ins s :
  is_u32 ins -> quiet s -> regs_ok (regs s) ->
  arm_data_processing ins s = Ret 0 (say (dp_text ins s) (dp_state ins s)).
Proof.
  intros Hi Hq Hr. unfold arm_data_processing, MASK_OPCODE, MASK_RN, MASK_RD, MASK_MAJREG,
    MASK_STATUS.
  rewrite !mask15_field, mask1_bit by lia. change (Z.shiftl 3 23) with (Z.shiftl (Z.ones 2) 23).
  rewrite mask_field by lia.
  change (21 + 3) with 24. change (16 + 3) with 19. change (12 + 3) with 15.
  change (23 + 2 - 1) with 24.
  pose proof (field_reg ins 21) as F21. change (21 + 3) with 24 in F21.
  pose proof (field_reg ins 16) as F16. change (16 + 3) with 19 in F16.
  pose proof (field_reg ins 12) as F12. change (12 + 3) with 15 in F12.
  rewrite (u8_small (field ins 15 12)) by (unfold is_u8; lia).
  mstep. rewrite (bind_ret _ _ _ _ _ (dp_operand_q ins s Hi Hq Hr)). cbv beta.
  destruct (dp_opd ins s) as [Op co] eqn:EO.
  assert (HO : is_u32 Op) by (pose proof (dp_opd_range ins s) as X; by rewrite EO in X).
  rewrite (bind_ret _ _ _ _ _ (dp_operation_q _ _ _ _ s Hi (rval_range s _ Hr) HO F21 Hq Hr)).
  rewrite major_test. cbv beta.
  destruct (dp_write_ok ins s Hr) as (Hw & _ & _ & Et).
  assert (Hqw : quiet (dp_write ins s)) by (unfold quiet; by rewrite Et).
  rewrite (bind_ret _ _ _ tt (dp_write ins s)); cycle 1.
  { unfold dp_write, dp_value. rewrite EO. destruct (is_test (field ins 24 21)); [done|].
    simpl. eauto 12 with mrun. }
  unfold dp_state. rewrite EO. fold (dp_value ins s).
  replace (arch_result (field ins 24 21) (rval s (field ins 19 16)) Op (carry_in s))
    with (dp_value ins s) by (unfold dp_value; by rewrite EO).
  unfold dp_text. rewrite EO. cbn [fst snd]. destruct (Z.testbit ins 20).
  - rewrite (bind_ret _ _ _ _ _ (dp_update_flags_q _ _ _ _ _ _ _ Hqw Hw)).
    rewrite (bind_ret _ _ _ _ _ (dp_print_q _ _ _ _ Hi eq_refl)). by rewrite say_say.
  - rewrite (bind_ret _ _ _ Op (dp_write ins s)) by done.
    by rewrite (bind_ret _ _ _ _ _ (dp_print_q _ _ _ _ Hi eq_refl)).
Qed.

Lemma arm_data_processing_transparent ins :
  is_u32 ins -> transparent 2 (arm_data_processing ins).
Proof.
  intros Hi. unfold arm_data_processing, MASK_RN, MASK_RD. rewrite !mask15_field by lia.
  pose proof (field_reg ins 16) as F16. pose proof (field_reg ins 12) as F12.
  rewrite u8_small by (unfold is_u8; lia).
  pose proof (shifter_operand_transparent ins 0 Hi).
  pose proof (arm_miscellaneous_transparent ins Hi).
  unfold dp_operand, dp_operation, dp_update_flags, dp_print, arm_get_opcode_name, dp_carry, dp_misc. transp.
Qed.
End pure.

(** None of this depends on the trace. *)
#[export] Instance upd_cpsr_proper : Proper ((=) ==> (≡) ==> (≡)) upd_cpsr.
Proof. intros v ? <- s1 s2 Hs. unfold upd_cpsr. by rewrite (arm_proper _ _ Hs), Hs. Qed.
#[export] Instance has_spsr_proper : Proper ((≡) ==> (=)) has_spsr.
Proof. intros s1 s2 (E & _). unfold has_spsr. by rewrite E. Qed.
#[export] Instance carry_in_proper : Proper ((≡) ==> (=)) carry_in.
Proof. intros s1 s2 (E & _). unfold carry_in. by rewrite E. Qed.
#[export] Instance dp_opd_proper `{Host} ins : Proper ((≡) ==> (=)) (dp_opd ins).
Proof.
  intros s1 s2 (E & _). unfold dp_opd, operand, shift_amount, carry_in, rval. by rewrite E.
Qed.
#[export] Instance misc_state_proper ins : Proper ((≡) ==> (≡)) (misc_state ins).
Proof.
  intros s1 s2 Hs. unfold misc_state. rewrite (has_spsr_proper _ _ Hs), (arm_proper _ _ Hs).
  repeat case_match; by rewrite Hs.
Qed.
#[export] Instance dp_value_proper `{Host} ins : Proper ((≡) ==> (=)) (dp_value ins).
Proof. intros s1 s2 Hs. unfold dp_value. by rewrite Hs. Qed.
#[export] Instance dp_write_proper `{Host} ins : Proper ((≡) ==> (≡)) (dp_write ins).
Proof. intros s1 s2 Hs. unfold dp_write. rewrite (dp_value_proper ins _ _ Hs). repeat case_match; by rewrite Hs. Qed.
#[export] Instance dp_state_proper `{Host} ins : Proper ((≡) ==> (≡)) (dp_state ins).
Proof.
  intros s1 s2 Hs. pose proof (dp_value_proper ins _ _ Hs) as Hv. pose proof (dp_write_proper ins _ _ Hs) as Hw.
  unfold dp_state, dp_flags_state. rewrite Hv, (has_spsr_proper _ _ Hw), (carry_in_proper _ _ Hw).
  rewrite (arm_proper _ _ Hw), (dp_opd_proper _ _ _ Hs), (rval_proper _ _ Hs _ _ eq_refl).
  repeat case_match; by rewrite Hw.
Qed.
#[export] Instance dp_text_proper `{Host} ins : Proper ((≡) ==> (=)) (dp_text ins).
Proof.
  intros s1 s2 Hs. pose proof (dp_value_proper ins _ _ Hs) as Hv. pose proof (dp_write_proper ins _ _ Hs) as Hw.
  unfold dp_text, dp_flags_text, dp_shown. rewrite Hv, (has_spsr_proper _ _ Hw), (carry_in_proper _ _ Hw).
  by rewrite (arm_proper _ _ Hw), (dp_opd_proper _ _ _ Hs), (rval_proper _ _ Hs _ _ eq_refl).
Qed.

(** ** The flags *)

Lemma testbit_31 x : is_u32 x -> Z.testbit x 31 = (2 ^ 31 <=? x).
Proof.
  intros Hx. pose proof (s32_cases x Hx) as E. pose proof (s32_range x).
  unfold is_u32 in *. destruct (Z.testbit x 31), (Z.leb_spec (2 ^ 31) x); lia.
Qed.

Lemma u32_sum x y :
  is_u32 x -> is_u32 y -> u32 (x + y) = if 2 ^ 32 <=? x + y then x + y - 2 ^ 32 else x + y.
Proof.
  unfold is_u32, u32. intros Hx Hy. destruct (Z.leb_spec (2 ^ 32) (x + y)).
  - rewrite <- (Z_mod_plus_full _ (-1)). rewrite Z.mod_small; lia.
  - apply Z.mod_small. lia.
Qed.

Lemma u32_diff x y :
  is_u32 x -> is_u32 y -> u32 (x - y) = if y <=? x then x - y else x - y + 2 ^ 32.
Proof.
  unfold is_u32, u32. intros Hx Hy. destruct (Z.leb_spec y x).
  - apply Z.mod_small. lia.
  - rewrite <- (Z_mod_plus_full _ 1). rewrite Z.mod_small; lia.
Qed.

(** The carry and overflow that the source computes from the signs [a] and [b]
    of the operands and [r] of the result. *)
Definition sign_carry (a b r : bool) : bool := a && b || negb r && xorb a b.
Definition sign_overflow (a b r : bool) : bool := Bool.eqb a b && xorb b r.

(** Out of the range of a signed word. *)
Definition signed_overflow (x : Z) : bool := (x <? - 2 ^ 31) || (2 ^ 31 <=? x).

(** Split every comparison of the goal, then decide it. *)
Ltac compare_cases :=
  repeat match goal with
  | |- context [?x <=? ?y] => destruct (Z.leb_spec x y); simpl; try lia
  | |- context [?x <? ?y] => destruct (Z.ltb_spec x y); simpl; try lia
  end; try done.

Lemma add_flags x y :
  is_u32 x -> is_u32 y ->
  sign_carry (Z.testbit x 31) (Z.testbit y 31) (Z.testbit (u32 (x + y)) 31)
    = (2 ^ 32 <=? x + y) /\
  sign_overflow (Z.testbit x 31) (Z.testbit y 31) (Z.testbit (u32 (x + y)) 31)
    = signed_overflow (s32 x + s32 y).
Proof.
  intros Hx Hy. rewrite !s32_cases, !testbit_31 by auto with crange.
  rewrite (u32_sum x y) by done. unfold is_u32, sign_carry, sign_overflow, signed_overflow in *.
  destruct (Z.leb_spec (2 ^ 31) x), (Z.leb_spec (2 ^ 31) y), (Z.leb_spec (2 ^ 32) (x + y));
    split; compare_cases.
Qed.

Lemma sub_flags x y :
  is_u32 x -> is_u32 y ->
  sign_carry (Z.testbit x 31) (negb (Z.testbit y 31)) (Z.testbit (u32 (x - y)) 31)
    = (y <=? x) /\
  sign_overflow (Z.testbit x 31) (negb (Z.testbit y 31)) (Z.testbit (u32 (x - y)) 31)
    = signed_overflow (s32 x - s32 y).
Proof.
  intros Hx Hy. rewrite !s32_cases, !testbit_31 by auto with crange.
  rewrite (u32_diff x y) by done. unfold is_u32, sign_carry, sign_overflow, signed_overflow in *.
  destruct (Z.leb_spec (2 ^ 31) x), (Z.leb_spec (2 ^ 31) y), (Z.leb_spec y x);
    split; compare_cases.
Qed.

(** The operations that set the carry and overflow by arithmetic. *)
Definition is_arith (opcode : Z) : bool :=
  (SUB <=? opcode) && (opcode <=? CMN) && negb (opcode =? TST) && negb (opcode =? TEQ).

(** The operations whose second operand enters the flags complemented. *)
Definition is_subtract (opcode : Z) : bool :=
  (opcode =? SUB) || (opcode =? RSB) || (opcode =? SBC) || (opcode =? RSC) || (opcode =? CMP).

Section flags.
Context `{Host}.

Lemma b2z_eqb a b : (b2z a =? b2z b) = Bool.eqb a b.
Proof. by destruct a, b. Qed.

Lemma dp_new_cpsr_bit opcode Rn Op Res co cpsr i :
  is_u32 Rn -> is_u32 Op -> is_u32 Res -> is_u32 cpsr -> 0 <= i ->
  let a := Z.testbit Rn 31 in
  let b := xorb (nz Rn && is_subtract opcode) (Z.testbit Op 31) in
  let r := Z.testbit Res 31 in
  Z.testbit (dp_new_cpsr opcode Rn Op Res co cpsr) i =
  if i =? FLAG_N then r
  else if i =? FLAG_Z then Res =? 0
  else if i =? FLAG_C then nz co || is_arith opcode && sign_carry a b r
  else if i =? FLAG_V then if is_arith opcode then sign_overflow a b r else Z.testbit cpsr i
  else Z.testbit cpsr i.
Proof.
  intros HR HO Hs Hc Hi a b r. unfold dp_new_cpsr. fold (is_arith opcode) (is_subtract opcode).
  rewrite (get_bit_testbit Rn 31), (get_bit_testbit Op 31), (get_bit_testbit Res 31) by (done || lia).
  rewrite get_bit_testbit by (unfold not32; auto with crange || lia).
  replace (if nz Rn && is_subtract opcode then _ else _) with (b2z b); cycle 1.
  { subst b. destruct (nz Rn && is_subtract opcode); [|done].
    unfold not32. by rewrite testbit_u32, testbit_lnot. }
  fold a r. rewrite !nz_b2z, !b2z_eqb.
  assert (xorb_eqb : forall x y, negb (Bool.eqb x y) = xorb x y) by by intros [] [].
  rewrite !xorb_eqb, <- orb_assoc. fold (sign_carry a b r) (sign_overflow a b r).
  set (c1 := change_bit (change_bit (change_bit cpsr _ _) _ _) _ _).
  assert (H1 : is_u32 c1) by (subst c1; auto using change_bit_range).
  assert (E1 : Z.testbit c1 i = if i =? FLAG_N then r else if i =? FLAG_Z then Res =? 0
    else if i =? FLAG_C then nz co else Z.testbit cpsr i).
  { subst c1. rewrite !change_bit_testbit
      by (auto using change_bit_range || unfold FLAG_N, FLAG_Z, FLAG_C; lia).
    rewrite !nz_b2z. unfold FLAG_N, FLAG_Z, FLAG_C.
    destruct (Z.eqb_spec 29 i), (Z.eqb_spec 30 i), (Z.eqb_spec 31 i), (Z.eqb_spec i 29),
      (Z.eqb_spec i 30), (Z.eqb_spec i 31); done || lia. }
  destruct (is_arith opcode); [|rewrite E1, andb_false_l, orb_false_r; by destruct (i =? FLAG_V)].
  rewrite !change_bit_testbit, E1
    by (auto using change_bit_range || unfold FLAG_N, FLAG_Z, FLAG_C, FLAG_V; lia).
  rewrite !nz_b2z. unfold FLAG_N, FLAG_Z, FLAG_C, FLAG_V.
  destruct (Z.eqb_spec 28 i), (Z.eqb_spec 29 i), (Z.eqb_spec i 28), (Z.eqb_spec i 29),
    (Z.eqb_spec i 30), (Z.eqb_spec i 31); done || lia.
Qed.
End flags.

(** ** Properties *)

(** The second operand and the shifter carry that the ARM architecture
    prescribes: a rotated 8-bit immediate or a shifted register. *)
Definition arch_operand `{Host} (ins : Z) (s : machine) : Z * bool :=
  if Z.testbit ins 25 then
    let v := field ins 7 0 in let n := 2 * field ins 11 8 in
    if n =? 0 then (v, carry_in s)
    else let x := v mod 2 ^ n * 2 ^ (32 - n) + v / 2 ^ n in (x, Z.testbit x 31)
  else arch_shift (field ins 6 5) (rval s (field ins 3 0)) (shift_amount ins s) (carry_in s).

(** The operands the shifter handles as the architecture says: every immediate,
    LSL by 0 to 31, LSR and ROR by 1 to 31, RRX. *)
Definition plain_operand `{Host} (ins : Z) (s : machine) : bool :=
  let op := field ins 6 5 in let n := shift_amount ins s in
  Z.testbit ins 25 || (n <=? 31) && ((op =? LSL) || (op =? LSR) && (1 <=? n) || (op =? ROR)).

(** The SPSR is copied back instead of setting flags: [MOVS pc, lr] and the like. *)
Definition restores_cpsr (ins : Z) (s : machine) : bool :=
  Z.testbit ins 20 && (field ins 15 12 =? 15) && has_spsr s.

Section properties.
Context `{Host}.

Lemma shift_amount_nonneg ins s : regs_ok (regs s) -> 0 <= shift_amount ins s.
Proof.
  intros Hr. unfold shift_amount. pose proof (rval_range s (field ins 11 8) Hr).
  pose proof (field_range ins 11 7 ltac:(lia)). unfold is_u32 in *. repeat case_match; lia.
Qed.

Lemma operand_plain ins co s :
  regs_ok (regs s) -> Z.testbit ins 25 = false -> plain_operand ins s = true ->
  operand ins co s = let '(x, c) := arch_operand ins s in (x, b2z c).
Proof.
  intros Hr Hb Hp. unfold plain_operand, arch_operand in *. rewrite Hb in *.
  pose proof (shift_amount_nonneg ins s Hr).
  rewrite operand_arch; [|done|].
  - by destruct (arch_shift _ _ _ _).
  - rewrite orb_false_l, andb_true_iff, !orb_true_iff, andb_true_iff in Hp.
    rewrite !Z.eqb_eq, !Z.leb_le in Hp.
    destruct Hp as [? [[?|[? ?]]|?]]; [left|right; left|right; right]; split; done || lia.
Qed.

Lemma dp_opd_plain `{!RotateHost} ins s :
  regs_ok (regs s) -> plain_operand ins s = true -> (dp_opd ins s).1 = (arch_operand ins s).1.
Proof.
  intros Hr Hp. unfold dp_opd. destruct (Z.testbit ins 25) eqn:Hb.
  - unfold arch_operand. rewrite Hb. simpl.
    pose proof (field_range ins 7 0 ltac:(lia)) as Hv. change (2 ^ (7 - 0 + 1)) with 256 in Hv.
    pose proof (field_reg ins 8) as Hn. change (8 + 3) with 11 in Hn.
    assert (is_u32 (field ins 7 0)) by (unfold is_u32; lia).
    destruct (Z.eqb_spec (2 * field ins 11 8) 0) as [->|]; simpl.
    + apply ror_0; [done|]. by apply shl_32.
    + rewrite ror_rotate by (done || lia). done.
  - rewrite operand_plain by done. by destruct (arch_operand ins s).
Qed.
(** A run of a data-processing instruction in any machine. *)
Lemma dp_run_prints ins s :
  machine_ok s -> is_u32 ins ->
  exists s', arm_data_processing ins s = Ret 0 s' /\ s' ≡ dp_state ins s /\ machine_ok s' /\
    console (trace s') = (console (trace s) ++ dp_text ins s)%list.
Proof.
  intros Hok Hi. destruct (Hok) as (Hr & Hm & Hc & _).
  destruct (dp_state_ok ins (hush s) Hr) as (Hr' & Hm' & Hc').
  destruct (run_prints _ s _ _ (arm_data_processing_transparent ins Hi) Hok
              (arm_data_processing_q ins (hush s) Hi (hush_quiet s) Hr))
    as (s' & E & Heq & Hok' & Hp); [done|by rewrite mem_say, Hm'|by rewrite arm_say, Hc'|].
  exists s'. split; [done|]. split; [by rewrite Heq, say_equiv, hush_equiv|]. split; [done|].
  rewrite Hp. unfold say. cbn [trace console set_trace set_console].
  rewrite (dp_state_trace ins (hush s) Hr). by rewrite (dp_text_proper ins _ _ (hush_equiv s)).
Qed.

Lemma dp_run ins s :
  machine_ok s -> is_u32 ins ->
  exists s', arm_data_processing ins s = Ret 0 s' /\ s' ≡ dp_state ins s /\ machine_ok s'.
Proof. intros Hok Hi. destruct (dp_run_prints ins s Hok Hi) as (s' & ? & ? & ? & _). eauto. Qed.

(** The CPSR a flag-setting instruction leaves. *)
Lemma dp_state_cpsr ins s :
  regs_ok (regs s) -> Z.testbit ins 20 = true -> restores_cpsr ins s = false ->
  cpsr_of (regs (dp_state ins s)) =
  dp_new_cpsr (field ins 24 21) (rval s (field ins 19 16))
    (dp_adjust (field ins 24 21) (dp_opd ins s).1 (carry_in s)) (dp_value ins s)
    (dp_opd ins s).2 (cpsr_of (regs s)).
Proof.
  intros Hr Hs Hn. unfold restores_cpsr in Hn. rewrite Hs in Hn. simpl in Hn.
  pose proof (field_reg ins 12) as F12. change (12 + 3) with 15 in F12.
  destruct (dp_write_ok ins s Hr) as (Hw & _).
  assert (Ec : cpsr_of (regs (dp_write ins s)) = cpsr_of (regs s)).
  { unfold dp_write. rewrite Hs. case_match; [done|]. by rewrite cpsr_upd_reg. }
  unfold dp_state, dp_flags_state, has_spsr, carry_in, mode_of in *. rewrite Hs, Ec, Hn.
  unfold upd_cpsr. simpl. unfold cpsr_of at 1. by rewrite rget_aset_eq.
Qed.

Lemma dp_state_reg ins s i :
  is_test (field ins 24 21) = false -> i <> CPSR ->
  rget (regs (dp_state ins s)) i =
  rget (aset (regs s) (slot (mode_of (regs s)) (field ins 15 12)) (dp_value ins s)) i.
Proof.
  intros Ht Hi. unfold dp_state, dp_flags_state, dp_write. rewrite Ht.
  destruct (Z.testbit ins 20); [|done]. set (s1 := upd_reg _ _ s).
  destruct (_ && _); simpl; by rewrite (rget_aset_ne _ CPSR) by done.
Qed.

Lemma data_processing_ok `{!RotateHost} s ins :
  machine_ok s -> is_u32 ins -> is_test (field ins 24 21) = false ->
  plain_operand ins s = true ->
  let Rd := slot (mode_of (regs s)) (field ins 15 12) in
  exists s', arm_data_processing ins s = Ret 0 s' /\ machine_ok s' /\
    rget (regs s') Rd =
      arch_result (field ins 24 21) (rval s (field ins 19 16)) (arch_operand ins s).1 (carry_in s) /\
    (forall i, i <> Rd -> i <> CPSR -> rget (regs s') i = rget (regs s) i) /\
    (Z.testbit ins 20 = false -> cpsr_of (regs s') = cpsr_of (regs s)) /\
    (restores_cpsr ins s = true -> cpsr_of (regs s') = spsr_of (regs s)) /\
    mem s' = mem s.
Proof.
  intros Hok Hi Ht Hp Rd. destruct (Hok) as (Hr & _).
  destruct (dp_run ins s Hok Hi) as (s' & E & Heq & Hok'). exists s'.
  split; [done|]. split; [done|]. setoid_rewrite Heq.
  pose proof (field_reg ins 12) as F12. change (12 + 3) with 15 in F12.
  pose proof (slot_range (mode_of (regs s)) _ F12) as [Hs Hs'].
  rewrite <- dp_opd_plain by done. fold (dp_value ins s).
  destruct (dp_state_ok ins s Hr) as (_ & Em & _). rewrite Em.
  split_and!; try done.
  - rewrite dp_state_reg by done. apply rget_aset_eq; [done|]. unfold Rd. lia.
  - intros i Hne Hc. rewrite dp_state_reg by done. by apply rget_aset_ne.
  - intros Hb. unfold dp_state, dp_write. rewrite Hb, Ht. by apply cpsr_upd_reg.
  - unfold restores_cpsr. intros [[Hb H15]%andb_true_iff Hsp]%andb_true_iff.
    destruct (dp_write_ok ins s Hr) as (Hw & _).
    unfold dp_state, dp_flags_state, dp_write in *. rewrite Hb, Ht, H15 in *.
    unfold has_spsr in *. simpl. rewrite !mode_of_aset by done. rewrite Hsp. simpl.
    unfold cpsr_of. rewrite rget_aset_eq by done. unfold spsr_of. simpl.
    rewrite mode_of_aset by done. destruct (spsr_slot _) eqn:Es; [|done].
    apply spsr_slot_range in Es. apply rget_aset_ne. lia.
Qed.

(** C20: The twelve operations with a destination.  With an immediate
    operand, or a register shifted by LSL 0 to 31, LSR or ROR 1 to 31 or RRX
    (not ASR, LSR #32 and register shifts by 32 or more), the destination register of the current mode receives the value
    the ARM architecture prescribes for the operation, the operands and the
    carry flag; every other register of every mode, the memory and, without the
    S bit, the CPSR are unchanged.  With the S bit and the PC as destination in
    an exception mode, the CPSR is restored from the SPSR. *)
Theorem data_processing_result `{!RotateHost} s ins :
  machine_ok s -> is_u32 ins -> is_test (field ins 24 21) = false ->
  plain_operand ins s = true ->
  let Rd := slot (mode_of (regs s)) (field ins 15 12) in
  exists s', arm_data_processing ins s = Ret 0 s' /\ machine_ok s' /\
    rget (regs s') Rd =
      arch_result (field ins 24 21) (rval s (field ins 19 16)) (arch_operand ins s).1 (carry_in s) /\
    (forall i, i <> Rd -> i <> CPSR -> rget (regs s') i = rget (regs s) i) /\
    (Z.testbit ins 20 = false -> cpsr_of (regs s') = cpsr_of (regs s)) /\
    (restores_cpsr ins s = true -> cpsr_of (regs s') = spsr_of (regs s)) /\
    mem s' = mem s.
Proof. apply data_processing_ok. Qed.
(** The shifter carry as the flag update sees it: for an immediate operand it is
    the old carry flag. *)
Definition shifter_carry (ins : Z) (s : machine) : bool :=
  if Z.testbit ins 25 then carry_in s else (arch_operand ins s).2.

Lemma dp_opd_shifter_carry ins s :
  regs_ok (regs s) -> plain_operand ins s = true -> nz (dp_opd ins s).2 = shifter_carry ins s.
Proof.
  intros Hr Hp. unfold dp_opd, shifter_carry. destruct (Z.testbit ins 25) eqn:Hb.
  - simpl. apply nz_b2z.
  - rewrite operand_plain by done. destruct (arch_operand ins s). apply nz_b2z.
Qed.

(** The bits of the CPSR after a flag-setting instruction. *)
Lemma dp_flags_run `{!RotateHost} s ins :
  machine_ok s -> is_u32 ins -> Z.testbit ins 20 = true -> restores_cpsr ins s = false ->
  plain_operand ins s = true ->
  let opcode := field ins 24 21 in
  let Rn := rval s (field ins 19 16) in let Op := (arch_operand ins s).1 in
  let Res := arch_result opcode Rn Op (carry_in s) in
  let a := Z.testbit Rn 31 in
  let b := xorb (nz Rn && is_subtract opcode)
             (Z.testbit (dp_adjust opcode Op (carry_in s)) 31) in
  let r := Z.testbit Res 31 in
  exists s', arm_data_processing ins s = Ret 0 s' /\ machine_ok s' /\
    (is_test opcode = true -> forall i, i <> CPSR -> rget (regs s') i = rget (regs s) i) /\
    forall i, 0 <= i ->
      Z.testbit (cpsr_of (regs s')) i =
      if i =? FLAG_N then r
      else if i =? FLAG_Z then Res =? 0
      else if i =? FLAG_C then
        shifter_carry ins s || is_arith opcode && sign_carry a b r
      else if i =? FLAG_V then
        if is_arith opcode then sign_overflow a b r else Z.testbit (cpsr_of (regs s)) i
      else Z.testbit (cpsr_of (regs s)) i.
Proof.
  intros Hok Hi Hs Hn Hp opcode Rn Op Res a b r. destruct (Hok) as (Hr & _).
  destruct (dp_run ins s Hok Hi) as (s' & E & Heq & Hok'). exists s'.
  split; [done|]. split; [done|]. setoid_rewrite Heq.
  rewrite dp_state_cpsr by done. unfold Op, Res, b, r, Rn, a, opcode in *.
  pose proof (dp_opd_range ins s) as Ho. rewrite dp_opd_plain in * by done. split.
  - intros Ht i Hc. unfold dp_state, dp_flags_state, dp_write.
    rewrite Hs, Ht. destruct ((field ins 15 12 =? 15) && _); simpl; by rewrite rget_aset_ne.
  - intros i Hi0. unfold dp_value. rewrite dp_opd_plain by done.
    rewrite dp_new_cpsr_bit by (auto with crange; unfold dp_adjust; repeat case_match; auto with crange).
    by rewrite dp_opd_shifter_carry.
Qed.

(** C22: Flags of the logical operations (AND, EOR, TST, TEQ, ORR, MOV, BIC, MVN
    with the S bit): N is the sign of the result, Z tells whether it is zero, C
    is the shifter's carry (the old carry for an immediate), V and all the other
    bits of the CPSR are kept; the tests change no register. *)
Theorem logical_flags `{!RotateHost} s ins :
  machine_ok s -> is_u32 ins -> Z.testbit ins 20 = true -> restores_cpsr ins s = false ->
  plain_operand ins s = true -> is_arith (field ins 24 21) = false ->
  let Res := arch_result (field ins 24 21) (rval s (field ins 19 16))
               (arch_operand ins s).1 (carry_in s) in
  exists s', arm_data_processing ins s = Ret 0 s' /\ machine_ok s' /\
    (is_test (field ins 24 21) = true ->
       forall i, i <> CPSR -> rget (regs s') i = rget (regs s) i) /\
    Z.testbit (cpsr_of (regs s')) FLAG_N = Z.testbit Res 31 /\
    Z.testbit (cpsr_of (regs s')) FLAG_Z = (Res =? 0) /\
    Z.testbit (cpsr_of (regs s')) FLAG_C = shifter_carry ins s /\
    forall i, 0 <= i < 29 -> Z.testbit (cpsr_of (regs s')) i = Z.testbit (cpsr_of (regs s)) i.
Proof.
  intros Hok Hi Hs Hn Hp Ha Res.
  destruct (dp_flags_run s ins Hok Hi Hs Hn Hp) as (s' & E & Hok' & Ht & Hb). exists s'.
  split_and!; [done|done|done|..].
  1-3: rewrite Hb by done; rewrite ?Ha; simpl; rewrite ?orb_false_r; done.
  intros i Hi0. rewrite Hb, Ha by lia. unfold FLAG_N, FLAG_Z, FLAG_C, FLAG_V.
  replace (i =? 31) with false by lia. replace (i =? 30) with false by lia.
  replace (i =? 29) with false by lia. by destruct (i =? 28).
Qed.

(** The additions and subtractions whose flags come out right: all but RSB and
    RSC, ADC with the carry set, SBC with the carry clear, and subtractions from
    zero. *)
Definition is_addition (opcode : Z) (c : bool) : bool :=
  (opcode =? ADD) || (opcode =? CMN) || (opcode =? ADC) && negb c.
Definition is_subtraction (opcode : Z) (c : bool) : bool :=
  (opcode =? SUB) || (opcode =? CMP) || (opcode =? SBC) && c.

Lemma addition_case opcode Rn Op c :
  is_addition opcode c = true ->
  arch_result opcode Rn Op c = u32 (Rn + Op) /\ is_arith opcode = true /\
  is_subtract opcode = false /\ dp_adjust opcode Op c = Op.
Proof.
  unfold is_addition. rewrite !orb_true_iff, andb_true_iff, !Z.eqb_eq, negb_true_iff.
  intros [[-> | ->]|[-> ->]]; split_and!; try done. unfold arch_result. simpl. by rewrite Z.add_0_r.
Qed.

Lemma subtraction_case opcode Rn Op c :
  is_subtraction opcode c = true ->
  arch_result opcode Rn Op c = u32 (Rn - Op) /\ is_arith opcode = true /\
  is_subtract opcode = true /\ dp_adjust opcode Op c = Op /\ is_addition opcode c = false.
Proof.
  unfold is_subtraction. rewrite !orb_true_iff, andb_true_iff, !Z.eqb_eq.
  intros [[-> | ->]|[-> ->]]; split_and!; try done. unfold arch_result. simpl. by rewrite Z.sub_0_r.
Qed.

Lemma arithmetic_flags_ok `{!RotateHost} s ins :
  machine_ok s -> is_u32 ins -> Z.testbit ins 20 = true -> restores_cpsr ins s = false ->
  plain_operand ins s = true ->
  let opcode := field ins 24 21 in
  let Rn := rval s (field ins 19 16) in let Op := (arch_operand ins s).1 in
  let add := is_addition opcode (carry_in s) in
  add = true \/ is_subtraction opcode (carry_in s) = true /\ Rn <> 0 ->
  let Res := u32 (if add then Rn + Op else Rn - Op) in
  exists s', arm_data_processing ins s = Ret 0 s' /\ machine_ok s' /\
    Z.testbit (cpsr_of (regs s')) FLAG_N = Z.testbit Res 31 /\
    Z.testbit (cpsr_of (regs s')) FLAG_Z = (Res =? 0) /\
    Z.testbit (cpsr_of (regs s')) FLAG_C =
      shifter_carry ins s || (if add then 2 ^ 32 <=? Rn + Op else Op <=? Rn) /\
    Z.testbit (cpsr_of (regs s')) FLAG_V =
      signed_overflow (if add then s32 Rn + s32 Op else s32 Rn - s32 Op).
Proof.
  intros Hok Hi Hs Hn Hp opcode Rn Op add Hcase Res. destruct (Hok) as (Hr & _).
  destruct (dp_flags_run s ins Hok Hi Hs Hn Hp) as (s' & E & Hok' & _ & Hb). exists s'.
  split; [done|]. split; [done|]. fold opcode Rn Op in Hb.
  assert (HR : is_u32 Rn) by by apply rval_range.
  assert (HO : is_u32 Op) by (unfold Op; rewrite <- dp_opd_plain by done; apply dp_opd_range).
  rewrite !Hb by (unfold FLAG_N, FLAG_Z, FLAG_C, FLAG_V; lia). clearbody Rn Op.
  unfold FLAG_N, FLAG_Z, FLAG_C, FLAG_V. simpl.
  destruct (add_flags Rn Op HR HO) as [Ac Av], (sub_flags Rn Op HR HO) as [Sc Sv].
  destruct Hcase as [Ha|[Ha HR0]].
  - destruct (addition_case opcode Rn Op (carry_in s) Ha) as (-> & -> & -> & ->).
    unfold Res. rewrite Ha, andb_false_r, xorb_false_l, <- Ac, <- Av. by split_and!.
  - destruct (subtraction_case opcode Rn Op (carry_in s) Ha) as (-> & -> & -> & -> & Hadd).
    unfold Res, add. rewrite Hadd, (nz_true Rn), xorb_true_l, <- Sc, <- Sv by done. by split_and!.
Qed.

(** C21: Flags of the additions (ADD, CMN, ADC without carry) and subtractions
    (SUB, CMP, SBC without borrow) of a non-zero [Rn]: N and Z describe the
    result, V is the signed overflow of the operation, and C is its unsigned
    carry (for a subtraction: no borrow) or the shifter's carry. *)
Theorem arithmetic_flags `{!RotateHost} s ins :
  machine_ok s -> is_u32 ins -> Z.testbit ins 20 = true -> restores_cpsr ins s = false ->
  plain_operand ins s = true ->
  let opcode := field ins 24 21 in
  let Rn := rval s (field ins 19 16) in let Op := (arch_operand ins s).1 in
  let add := is_addition opcode (carry_in s) in
  add = true \/ is_subtraction opcode (carry_in s) = true /\ Rn <> 0 ->
  let Res := u32 (if add then Rn + Op else Rn - Op) in
  exists s', arm_data_processing ins s = Ret 0 s' /\ machine_ok s' /\
    Z.testbit (cpsr_of (regs s')) FLAG_N = Z.testbit Res 31 /\
    Z.testbit (cpsr_of (regs s')) FLAG_Z = (Res =? 0) /\
    Z.testbit (cpsr_of (regs s')) FLAG_C =
      shifter_carry ins s || (if add then 2 ^ 32 <=? Rn + Op else Op <=? Rn) /\
    Z.testbit (cpsr_of (regs s')) FLAG_V =
      signed_overflow (if add then s32 Rn + s32 Op else s32 Rn - s32 Op).
Proof. apply arithmetic_flags_ok. Qed.
(** Comparing zero with a positive number sets the overflow flag, although
    no signed overflow happens: the complemented sign of the operand is used
    only when [Value_Rn] is not zero. *)
Theorem compare_zero_overflow `{!RotateHost} s ins :
  machine_ok s -> is_u32 ins -> Z.testbit ins 20 = true -> restores_cpsr ins s = false ->
  plain_operand ins s = true -> field ins 24 21 = CMP -> rval s (field ins 19 16) = 0 ->
  let Op := (arch_operand ins s).1 in
  1 <= Op < 2 ^ 31 ->
  signed_overflow (0 - s32 Op) = false /\
  exists s', arm_data_processing ins s = Ret 0 s' /\
    Z.testbit (cpsr_of (regs s')) FLAG_N = true /\ Z.testbit (cpsr_of (regs s')) FLAG_V = true.
Proof.
  intros Hok Hi Hs Hn Hp Ho HR Op HOp.
  assert (HO : is_u32 Op) by (unfold is_u32; lia). split.
  { rewrite s32_small by lia. unfold signed_overflow. compare_cases. }
  destruct (dp_flags_run s ins Hok Hi Hs Hn Hp) as (s' & E & _ & _ & Hb). exists s'.
  split; [done|]. rewrite !Hb by done. rewrite Ho, HR. fold Op. simpl.
  unfold arch_result, dp_adjust. simpl.
  rewrite (testbit_31 (u32 (0 - Op))), u32_diff, (testbit_31 Op) by (auto with crange || unfold is_u32; lia).
  rewrite (proj2 (Z.leb_gt Op 0)) by lia. unfold sign_overflow.
  split; compare_cases.
Qed.

(** C30: The test operations without the S bit are the status register
    transfers: MRS copies the CPSR, or in an exception mode the SPSR, to the
    destination; in User and System mode a read of the SPSR, and every MSR,
    leave the processor and the memory as they are. *)
Theorem status_transfer s ins :
  machine_ok s -> is_u32 ins ->
  is_test (field ins 24 21) = true -> Z.testbit ins 20 = false ->
  exists s', arm_data_processing ins s = Ret 0 s' /\ machine_ok s' /\
    s' ≡ (if Z.testbit ins 21 then s
          else if Z.testbit ins 22 then
            if has_spsr s then upd_reg (field ins 15 12) (spsr_of (regs s)) s else s
          else upd_reg (field ins 15 12) (cpsr_of (regs s)) s).
Proof.
  intros Hok Hi Ht Hs. destruct (dp_run ins s Hok Hi) as (s' & E & Heq & Hok').
  exists s'. split; [done|]. split; [done|]. rewrite Heq.
  unfold dp_state, dp_write. by rewrite Hs, Ht.
Qed.
End properties.

(** ** Witnesses *)

Ltac u32_lit := unfold is_u32; lia.

(** ADD r0, r1, #4 *)
Lemma data_processing_result_witness :
  exists s', arm_data_processing (H := host0) 0xE2810004 machine_usr = Ret 0 s' /\
    rget (regs s') 0 = 105 /\ rget (regs s') 1 = 101.
Proof.
  destruct (data_processing_result (H := host0) (H0 := x86_rotate _)
              machine_usr 0xE2810004 machine_usr_ok ltac:(u32_lit) eq_refl eq_refl)
    as (s' & H1 & _ & H2 & H3 & _).
  exists s'. split; [exact H1|]. split; [exact H2|].
  rewrite H3; [vm_compute; reflexivity|vm_compute; discriminate|vm_compute; discriminate].
Defined.

(** MOVS r0, r1, LSL #31 *)
Lemma logical_flags_witness :
  exists s', arm_data_processing (H := host0) 0xE1B00F81 machine_usr = Ret 0 s' /\
    Z.testbit (cpsr_of (regs s')) FLAG_N = true /\ Z.testbit (cpsr_of (regs s')) FLAG_C = false.
Proof.
  destruct (logical_flags (H := host0) (H0 := x86_rotate _)
              machine_usr 0xE1B00F81 machine_usr_ok ltac:(u32_lit) eq_refl eq_refl eq_refl eq_refl)
    as (s' & H1 & _ & _ & H2 & _ & H3 & _).
  exists s'. exact (conj H1 (conj H2 H3)).
Defined.

(** CMP r1, #101 *)
Lemma arithmetic_flags_witness :
  exists s', arm_data_processing (H := host0) 0xE3510065 machine_usr = Ret 0 s' /\
    Z.testbit (cpsr_of (regs s')) FLAG_Z = true /\ Z.testbit (cpsr_of (regs s')) FLAG_V = false.
Proof.
  destruct (arithmetic_flags (H := host0) (H0 := x86_rotate _)
              machine_usr 0xE3510065 machine_usr_ok ltac:(u32_lit) eq_refl eq_refl eq_refl)
    as (s' & H1 & _ & _ & H2 & _ & H3).
  - right. split; [reflexivity|]. vm_compute. discriminate.
  - exists s'. exact (conj H1 (conj H2 H3)).
Defined.

(** CMP r1, #1 with r1 = 0: N and V are set, so the condition LT is false. *)
Definition machine_r1_0 : machine := upd_reg 1 0 machine_usr.

Lemma machine_r1_0_ok : machine_ok machine_r1_0.
Proof.
  destruct machine_usr_ok as (? & ? & ? & ?). split_and!; try done.
  apply regs_ok_upd_reg; [done|u32_lit].
Qed.

Lemma compare_zero_overflow_witness :
  exists s', arm_data_processing (H := host0) 0xE3510001 machine_r1_0 = Ret 0 s' /\
    Z.testbit (cpsr_of (regs s')) FLAG_V = true.
Proof.
  destruct (compare_zero_overflow (H := host0) (H0 := x86_rotate _)
              machine_r1_0 0xE3510001 machine_r1_0_ok ltac:(u32_lit)
              eq_refl eq_refl eq_refl eq_refl eq_refl)
    as (_ & s' & H1 & _ & H2).
  - vm_compute. split; [discriminate|reflexivity].
  - exists s'. exact (conj H1 H2).
Defined.

(** MRS r0, CPSR *)
Lemma status_transfer_witness :
  exists s', arm_data_processing (H := host0) 0xE10F0000 machine_usr = Ret 0 s' /\
    s' ≡ upd_reg 0 0x60000010 machine_usr.
Proof.
  destruct (status_transfer (H := host0) machine_usr 0xE10F0000 machine_usr_ok
              ltac:(u32_lit) eq_refl eq_refl) as (s' & H1 & _ & H2).
  exists s'. split; [exact H1|exact H2].
Defined.
