(* ===== verification/LoadStore.v ===== *)
(** * [arm_load_store.c]: single and multiple loads and stores

    The local variable [val] is read through pointers to its first byte or
    half-word in memory order; where the source leaves it uninitialised it
    holds an indeterminate value of the host.  What the handlers print on
    standard output is [load_text], [store_text] and [lsm_text]. *)
From S2P Require Import Prelude CInt Constants Memory Registers Format Trace Core CoreFacts Exception Branch Shifter DataProcessing.

#[local] Open Scope string_scope.
#[local] Open Scope Z_scope.

Definition ls_file : string := "arm_load_store.c".

Section with_host.
Context `{Host}.

(** A [uint32_t] seen through [(uint8_t * )] and [(uint16_t * )] pointers. *)
Definition first_byte (val : Z) : Z := if host_big_endian then Z.shiftr val 24 else u8 val.
Definition set_first_byte (val b : Z) : Z :=
  if host_big_endian then Z.lor (Z.shiftl b 24) (Z.land val 0x00FFFFFF)
  else Z.lor (Z.land val 0xFFFFFF00) b.
Definition first_half (val : Z) : Z := if host_big_endian then Z.shiftr val 16 else u16 val.
Definition set_first_half (val h : Z) : Z :=
  if host_big_endian then Z.lor (Z.shiftl h 16) (Z.land val 0x0000FFFF)
  else Z.lor (Z.land val 0xFFFF0000) h.

(** The variable [c] of the source is only written. *)
Definition addressing_mode (ins : Z) : M machine Z :=
  let is_half := negb (nz (get_bit ins 26)) in
  let is_shift := nz (get_bit ins 25) in
  let is_immedHL := nz (get_bit ins 22) in
  let U := nz (get_bit ins 23) in
  let Rm := u8 (get_bits ins 3 0) in
  let! res :=
    (if is_shift then let! xc := shifter_operand ins 0 in ret xc.1
     else if is_half then
       if is_immedHL then ret (Z.lor (shl32 (get_bits ins 11 8) 4) (get_bits ins 3 0))
       else at_line ls_file 48 (arm_read_register Rm)
     else ret (get_bits ins 11 0)) in
  ret (if negb U then u32 (res * -1) else res).

(** Lines 77-83: the load into [val]; the code returned is dropped. *)
Definition ls_read (is_half is_byte : bool) (address val : Z) : M machine Z :=
  if is_half then
    let! rv := at_line ls_file 78 (arm_read_half address (first_half val)) in
    ret (set_first_half val rv.2)
  else if is_byte then
    let! rv := at_line ls_file 80 (arm_read_byte address (first_byte val)) in
    ret (set_first_byte val rv.2)
  else
    let! rv := at_line ls_file 82 (arm_read_word address val) in
    ret rv.2.

(** Lines 91-97: the store of [val]. *)
Definition ls_write (is_half is_byte : bool) (address val : Z) : M machine Z :=
  if is_half then at_line ls_file 92 (arm_write_half address (u16 val))
  else if is_byte then at_line ls_file 94 (arm_write_byte address (u8 val))
  else at_line ls_file 96 (arm_write_word address val).

(** Lines 109-111: the base register. *)
Definition ls_writeback (ins Rn address : Z) (is_P is_W : bool) : M machine unit :=
  let! address :=
    (if negb is_P then let! off := addressing_mode ins in ret (u32 (address + off))
     else ret address) in
  when (negb is_P || is_W) (at_line ls_file 111 (arm_write_register Rn address)).

(** Lines 101-106: the transfer on standard output. *)
Definition ls_print (ins Rd Rn val address : Z) (is_load is_W : bool) : M machine unit :=
  in_trace (printf (if is_load then "LDR" else "STR")) ;;;
  let! offset := addressing_mode ins in
  in_trace (printf (" r" +:+ fmt_d Rd +:+ ", [r" +:+ fmt_d Rn +:+ ", #" +:+ fmt_d offset +:+ "]")) ;;;
  when is_W (in_trace (printf "!")) ;;;
  in_trace (printf
    (if negb is_load then " #" +:+ fmt_d val +:+ " -> @:" +:+ fmt_u address +:+ ")" +:+ newline
     else " r" +:+ fmt_d Rd +:+ " <- #" +:+ fmt_d val +:+ " @:" +:+ fmt_u address +:+ ")" +:+ newline)).

(** The assignments [res = arm_write_register(...)] take the value of the
    macro's last operand, [trace_end_location()], which is 0. *)
Definition arm_load_store (ins : Z) : M machine Z :=
  let Rn := u8 (get_bits ins 19 16) in
  let Rd := u8 (get_bits ins 15 12) in
  let is_load := nz (get_bit ins 20) in
  let is_half := nz (get_bit ins 7) && nz (get_bit ins 4) in
  let is_byte := nz (get_bit ins 22) in
  let is_P := nz (get_bit ins 24) in
  let is_W := nz (get_bit ins 21) in
  let! val := uninit32 in
  let! address := at_line ls_file 71 (arm_read_register Rn) in
  let! address :=
    (if is_P then let! off := addressing_mode ins in ret (u32 (address + off))
     else ret address) in
  let! vr :=
    (if is_load then
       let! val := ls_read is_half is_byte address val in
       let val := if Rd =? PC then Z.land val 0xFFFFFFFE else val in
       (if negb is_P && is_W then at_line ls_file 86 (arm_write_usr_register Rd val)
        else at_line ls_file 86 (arm_write_register Rd val)) ;;;
       ret (val, 0)
     else
       let! val :=
         (if negb is_P && is_W then at_line ls_file 90 (arm_read_usr_register Rd)
          else at_line ls_file 90 (arm_read_register Rd)) in
       let! res := ls_write is_half is_byte address val in
       ret (val, res)) in
  ls_print ins Rd Rn vr.1 address is_load is_W ;;;
  ls_writeback ins Rn address is_P is_W ;;;
  ret vr.2.

(** The variables of the loop of [arm_load_store_multiple]. *)
Record lsm_loop : Type := LsmLoop {
  l_address : Z;
  l_count : Z;     (* Number_Of_Set_Bits *)
  l_val : Z;
  l_res : Z;
}.

(** Lines 151-170 *)
Definition lsm_body (ins : Z) (is_load : bool) (Ri : Z) (l : lsm_loop) : M machine lsm_loop :=
  if nz (Z.land (shr32 ins Ri) 1) then
    in_trace (printf (" " +:+ fmt_d Ri +:+ ",")) ;;;
    let! vr :=
      (if is_load then
         let! rv := at_line ls_file 159 (arm_read_word (l_address l) (l_val l)) in
         let val := if Ri =? PC then Z.land rv.2 0xFFFFFFFE else rv.2 in
         at_line ls_file 161 (arm_write_register Ri val) ;;;
         ret (val, 0)
       else
         let! val := at_line ls_file 164 (arm_read_register Ri) in
         let! res := at_line ls_file 165 (arm_write_word (l_address l) val) in
         ret (val, res)) in
    ret (LsmLoop (u32 (l_address l + 4)) (u8 (l_count l + 1)) vr.1 vr.2)
  else ret l.

(** Lines 132-140: the start of the line printed on standard output. *)
Definition lsm_print (Rn is_incr is_before : Z) (is_load write_back : bool) : M machine unit :=
  in_trace (printf (if is_load then "LDM" else "STM")) ;;;
  in_trace (printf (if nz is_incr then "I" else "D")) ;;;
  in_trace (printf (if nz is_before then "B " else "A ")) ;;;
  in_trace (printf ("r" +:+ fmt_d Rn)) ;;;
  when write_back (in_trace (printf "!")) ;;;
  in_trace (printf ", {").

Definition reg_indices : list Z := Z.of_nat <$> seq 0 16.

Definition arm_load_store_multiple (ins : Z) : M machine Z :=
  let Rn := u8 (get_bits ins 19 16) in
  let is_load := nz (get_bit ins 20) in
  let is_incr := get_bit ins 23 in
  let is_before := get_bit ins 24 in
  let write_back := nz (get_bit ins 21) in
  let! val := uninit32 in
  let! res := uninit32 in
  let! start_address := at_line ls_file 128 (arm_read_register Rn) in
  let address := start_address in
  lsm_print Rn is_incr is_before is_load write_back ;;;
  let address :=
    if negb (nz is_incr) then
      fold_left (fun a Ri => if nz (Z.land (shr32 ins Ri) 1) then u32 (a - 4) else a)
        reg_indices address
    else address in
  let address := if is_incr =? is_before then u32 (address + 4) else address in
  let! l := for_each reg_indices (lsm_body ins is_load) (LsmLoop address 0 val (s32 res)) in
  in_trace (printf ("}" +:+ newline)) ;;;
  when write_back
    (if nz is_incr then
       at_line ls_file 179 (arm_write_register Rn (u32 (start_address + l_count l * 4)))
     else
       at_line ls_file 181 (arm_write_register Rn (u32 (start_address - l_count l * 4)))) ;;;
  ret (l_res l).

Definition arm_coprocessor_load_store (ins : Z) : M machine Z :=
  ret UNDEFINED_INSTRUCTION.
End with_host.

(** ** Single transfers as functions of the machine *)

Section pure.
Context `{Host}.

(** The offset of addressing modes 2 and 3, as a number modulo 2^32. *)
Definition ls_offset (ins : Z) (s : machine) : Z :=
  let o :=
    if Z.testbit ins 25 then (operand ins 0 s).1
    else if Z.testbit ins 26 then field ins 11 0
    else if Z.testbit ins 22 then field ins 11 8 * 16 + field ins 3 0
    else rval s (field ins 3 0) in
  if Z.testbit ins 23 then o else u32 (- o).

Definition ls_address (ins : Z) (s : machine) : Z :=
  let base := rval s (field ins 19 16) in
  if Z.testbit ins 24 then u32 (base + ls_offset ins s) else base.

(** The user-mode transfers: post-indexed with the W bit. *)
Definition ls_user (ins : Z) : bool := negb (Z.testbit ins 24) && Z.testbit ins 21.

Definition writeback_state (ins address : Z) (s : machine) : machine :=
  if Z.testbit ins 24 then
    if Z.testbit ins 21 then upd_reg (field ins 19 16) address s else s
  else upd_reg (field ins 19 16) (u32 (address + ls_offset ins s)) s.

(** The state after a load whose memory access left [v] in [val]. *)
Definition loaded_value (ins v : Z) : Z :=
  if field ins 15 12 =? 15 then Z.land v 0xFFFFFFFE else v.
Definition load_state (ins v : Z) (s : machine) : machine :=
  let v := loaded_value ins v in let Rd := field ins 15 12 in
  writeback_state ins (ls_address ins s)
    (if ls_user ins then upd_usr_reg Rd v s else upd_reg Rd v s).

Definition stored_value (ins : Z) (s : machine) : Z :=
  if ls_user ins then usr_rval s (field ins 15 12) else rval s (field ins 15 12).
Definition store_state (ins : Z) (mem' : memory_data) (s : machine) : machine :=
  writeback_state ins (ls_address ins s) (set_mem mem' s).

Lemma field_is_u32 x h l : l <= h + 1 -> h - l + 1 <= 32 -> is_u32 (field x h l).
Proof.
  intros Hl Hh. pose proof (field_range x h l Hl).
  pose proof (Z.pow_le_mono_r 2 (h - l + 1) 32). unfold is_u32. lia.
Qed.

Lemma ls_offset_range ins s : regs_ok (regs s) -> is_u32 (ls_offset ins s).
Proof.
  intros Hr. unfold ls_offset. pose proof (operand_range ins 0 s).
  pose proof (field_is_u32 ins 11 0). pose proof (field_reg ins 8). pose proof (field_reg ins 0).
  change (8 + 3) with 11 in *. change (0 + 3) with 3 in *.
  repeat case_match; auto with crange; unfold is_u32 in *; lia.
Qed.

Lemma ls_address_range ins s : regs_ok (regs s) -> is_u32 (ls_address ins s).
Proof. intros. unfold ls_address. case_match; auto with crange. Qed.
#[local] Hint Resolve ls_offset_range ls_address_range : crange mrun.

Lemma half_offset x y : 0 <= x < 16 -> 0 <= y < 16 -> Z.lor (shl32 x 4) y = x * 16 + y.
Proof.
  intros Hx Hy. rewrite shl32_ok, Z.shiftl_mul_pow2 by lia.
  rewrite u32_small by (unfold is_u32; change (2 ^ 4) with 16; lia). apply lor_add; lia.
Qed.

Lemma addressing_mode_q ins s :
  is_u32 ins -> quiet s -> regs_ok (regs s) -> addressing_mode ins s = Ret (ls_offset ins s) s.
Proof.
  intros Hi Hq Hr. unfold addressing_mode, ls_offset.
  pose proof (field_reg ins 8) as F8. pose proof (field_reg ins 0) as F0.
  change (8 + 3) with 11 in F8. change (0 + 3) with 3 in F0.
  rewrite !get_bits_field, !get_bit_testbit, !nz_b2z by (done || lia).
  rewrite (u8_small (field ins 3 0)), half_offset by (done || unfold is_u8; lia).
  set (o := if Z.testbit ins 25 then (operand ins 0 s).1 else _).
  rewrite (bind_ret _ _ s o s); cycle 1.
  { subst o. destruct (Z.testbit ins 25).
    - by erewrite bind_ret by by apply shifter_operand_q.
    - destruct (Z.testbit ins 26), (Z.testbit ins 22); simpl; eauto with mrun. }
  replace (o * -1) with (- o) by lia. by destruct (Z.testbit ins 23).
Qed.

Lemma addressing_mode_transparent ins : is_u32 ins -> transparent 2 (addressing_mode ins).
Proof.
  intros Hi. unfold addressing_mode. pose proof (shifter_operand_transparent ins 0 Hi).
  pose proof (field_reg ins 0) as F0. change (0 + 3) with 3 in F0.
  rewrite !(get_bits_field ins 3 0) by (done || lia). rewrite u8_small by (unfold is_u8; lia).
  transp.
Qed.

Lemma ls_writeback_q ins address s :
  is_u32 ins -> is_u32 address -> quiet s -> regs_ok (regs s) ->
  ls_writeback ins (field ins 19 16) address (Z.testbit ins 24) (Z.testbit ins 21) s
  = Ret tt (writeback_state ins address s).
Proof.
  intros Hi Ha Hq Hr. unfold ls_writeback, writeback_state.
  pose proof (field_reg ins 16) as F16. change (16 + 3) with 19 in F16.
  destruct (Z.testbit ins 24); simpl.
  - rewrite (bind_ret _ _ s address s) by done. destruct (Z.testbit ins 21); simpl; [|done].
    eauto with mrun.
  - rewrite (bind_ret _ _ s (u32 (address + ls_offset ins s)) s); [simpl; eauto with mrun|].
    by erewrite bind_ret by by apply addressing_mode_q.
Qed.

Lemma writeback_state_ok ins address s :
  regs_ok (regs s) -> is_u32 address ->
  regs_ok (regs (writeback_state ins address s)) /\
  mem (writeback_state ins address s) = mem s /\
  cycle_count (arm (writeback_state ins address s)) = cycle_count (arm s).
Proof. intros. unfold writeback_state. repeat case_match; split_and!; auto with crange. Qed.

(** The memory's side of a load into [val] and of a store. *)
Definition mem_load (is_half is_byte : bool) (a val : Z) : M memory_data Z :=
  if is_half then
    let! rv := memory_read_half a (first_half val) in ret (set_first_half val rv.2)
  else if is_byte then
    let! rv := memory_read_byte a (first_byte val) in ret (set_first_byte val rv.2)
  else let! rv := memory_read_word a val in ret rv.2.
Definition mem_store (is_half is_byte : bool) (a val : Z) : M memory_data Z :=
  if is_half then memory_write_half a (u16 val)
  else if is_byte then memory_write_byte a (u8 val)
  else memory_write_word a val.

Definition is_half (ins : Z) : bool := Z.testbit ins 7 && Z.testbit ins 4.
Definition is_byte (ins : Z) : bool := Z.testbit ins 22.

Lemma ls_read_q half byte a val v s :
  quiet s -> mem_load half byte a val (mem s) = Ret v (mem s) ->
  ls_read half byte a val s = Ret v s.
Proof.
  intros Hq. unfold mem_load, ls_read.
  destruct half; [|destruct byte]; unfold bind at 1.
  - destruct (memory_read_half _ _ _) as [rv m2| | |] eqn:E; try done. intros [= <- ->].
    mstep. done.
  - destruct (memory_read_byte _ _ _) as [rv m2| | |] eqn:E; try done. intros [= <- ->].
    mstep. done.
  - destruct (memory_read_word _ _ _) as [rv m2| | |] eqn:E; try done. intros [= <- ->].
    mstep. done.
Qed.

Lemma ls_write_q half byte a val r mem' s :
  quiet s -> mem_store half byte a val (mem s) = Ret r mem' ->
  ls_write half byte a val s = Ret r (set_mem mem' s).
Proof.
  intros Hq E. unfold mem_store, ls_write in *.
  destruct half; [|destruct byte]; eauto 12 with mrun.
Qed.

(** The machine once [val] is allocated. *)
Definition alloc (s : machine) : machine := set_indet (S (n_indet s)) s.
Definition val0 (s : machine) : Z := u32 (indet (n_indet s)).

Lemma uninit32_q s : uninit32 s = Ret (val0 s) (alloc s).
Proof. reflexivity. Qed.

(** What a single transfer of the value [v] prints. *)
Definition ls_text (ins v : Z) (offset address : Z) : list string :=
  ([if Z.testbit ins 20 then "LDR" else "STR";
    " r" +:+ fmt_d (field ins 15 12) +:+ ", [r" +:+ fmt_d (field ins 19 16) +:+ ", #" +:+ fmt_d offset +:+ "]"] ++
   (if Z.testbit ins 21 then ["!"] else []) ++
   [if Z.testbit ins 20
    then " r" +:+ fmt_d (field ins 15 12) +:+ " <- #" +:+ fmt_d v +:+ " @:" +:+ fmt_u address +:+ ")" +:+ newline
    else " #" +:+ fmt_d v +:+ " -> @:" +:+ fmt_u address +:+ ")" +:+ newline])%list.

Lemma ls_print_q ins v a s :
  is_u32 ins -> quiet s -> regs_ok (regs s) ->
  ls_print ins (field ins 15 12) (field ins 19 16) v a (Z.testbit ins 20) (Z.testbit ins 21) s
  = Ret tt (say (ls_text ins v (ls_offset ins s) a) s).
Proof.
  intros Hi Hq Hr. unfold ls_print, ls_text. rewrite (bind_ret _ _ _ _ _ (printf_q _ _)).
  rewrite (bind_ret _ _ _ _ _ (addressing_mode_q ins (say _ s) Hi Hq Hr)).
  rewrite (bind_ret _ _ _ _ _ (printf_q _ _)).
  match goal with |- bind _ _ ?s1 = _ =>
    rewrite (bind_ret _ _ _ tt (say (if Z.testbit ins 21 then ["!"] else []) s1)) end; cycle 1.
  { destruct (Z.testbit ins 21); [apply printf_q|by rewrite say_nil]. }
  rewrite printf_q, !say_say. change (ls_offset ins (say _ s)) with (ls_offset ins s).
  rewrite <- ?app_assoc. by destruct (Z.testbit ins 20).
Qed.

Definition loaded_state (ins v : Z) (s : machine) : machine :=
  if ls_user ins then upd_usr_reg (field ins 15 12) (loaded_value ins v) s
  else upd_reg (field ins 15 12) (loaded_value ins v) s.

(** Of a load; the offset is read again after the destination is written. *)
Definition load_text (ins v : Z) (s : machine) : list string :=
  ls_text ins (loaded_value ins v) (ls_offset ins (loaded_state ins v s)) (ls_address ins s).
Definition store_text (ins : Z) (s : machine) : list string :=
  ls_text ins (stored_value ins s) (ls_offset ins s) (ls_address ins s).

Lemma writeback_say ins a l s : writeback_state ins a (say l s) = say l (writeback_state ins a s).
Proof. unfold writeback_state. by repeat case_match. Qed.

(** The decoding of the instruction. *)
Lemma load_store_fields ins s :
  is_u32 ins -> quiet s -> regs_ok (regs s) ->
  arm_load_store ins s =
  (let! vr :=
    (if Z.testbit ins 20 then
       let! val := ls_read (is_half ins) (is_byte ins) (ls_address ins s) (val0 s) in
       let val := loaded_value ins val in
       (if ls_user ins then at_line ls_file 86 (arm_write_usr_register (field ins 15 12) val)
        else at_line ls_file 86 (arm_write_register (field ins 15 12) val)) ;;;
       ret (val, 0)
     else
       let! res := ls_write (is_half ins) (is_byte ins) (ls_address ins s) (stored_value ins s) in
       ret (stored_value ins s, res)) in
  ls_print ins (field ins 15 12) (field ins 19 16) vr.1 (ls_address ins s) (Z.testbit ins 20) (Z.testbit ins 21) ;;;
  ls_writeback ins (field ins 19 16) (ls_address ins s) (Z.testbit ins 24) (Z.testbit ins 21) ;;;
  ret vr.2) (alloc s).
Proof.
  intros Hi Hq Hr. unfold arm_load_store.
  pose proof (field_reg ins 16) as F16. pose proof (field_reg ins 12) as F12.
  change (16 + 3) with 19 in F16. change (12 + 3) with 15 in F12.
  rewrite !get_bits_field, !get_bit_testbit, !nz_b2z by (done || lia).
  rewrite !u8_small by (unfold is_u8; lia). cbv zeta.
  rewrite (bind_ret _ _ _ _ _ (uninit32_q s)).
  assert (Hq1 : quiet (alloc s)) by done. assert (Hr1 : regs_ok (regs (alloc s))) by done.
  mstep. change (rval (alloc s)) with (rval s).
  rewrite (bind_ret _ _ _ (ls_address ins s) (alloc s)); cycle 1.
  { unfold ls_address. destruct (Z.testbit ins 24); [|done].
    by erewrite bind_ret by by apply addressing_mode_q. }
  fold (is_half ins) (is_byte ins) (ls_user ins).
  unfold bind at 1 6. destruct (Z.testbit ins 20); [done|].
  rewrite (bind_ret _ _ _ (stored_value ins s) (alloc s)); [done|].
  change (stored_value ins s) with (stored_value ins (alloc s)).
  unfold stored_value. destruct (ls_user ins); eauto with mrun.
Qed.

Lemma load_q ins v s :
  is_u32 ins -> quiet s -> regs_ok (regs s) -> is_u32 v -> Z.testbit ins 20 = true ->
  mem_load (is_half ins) (is_byte ins) (ls_address ins s) (val0 s) (mem s) = Ret v (mem s) ->
  arm_load_store ins s = Ret 0 (say (load_text ins v (alloc s)) (load_state ins v (alloc s))).
Proof.
  intros Hi Hq Hr Hv HL E. rewrite load_store_fields by done. rewrite HL at 1.
  pose proof (field_reg ins 12) as F12. change (12 + 3) with 15 in F12.
  assert (Hq1 : quiet (alloc s)) by done. assert (Hr1 : regs_ok (regs (alloc s))) by done.
  assert (Hv' : is_u32 (loaded_value ins v)) by (unfold loaded_value; case_match; auto with crange).
  set (s2 := if ls_user ins then upd_usr_reg (field ins 15 12) (loaded_value ins v) (alloc s)
             else upd_reg (field ins 15 12) (loaded_value ins v) (alloc s)).
  assert (Hq2 : quiet s2) by (subst s2; by destruct (ls_user ins)).
  assert (Hr2 : regs_ok (regs s2)) by (subst s2; destruct (ls_user ins); auto with crange).
  rewrite (bind_ret _ _ _ (loaded_value ins v, 0) s2); cycle 1.
  { rewrite (bind_ret _ _ _ v (alloc s)) by by apply ls_read_q. cbv zeta.
    rewrite (bind_ret _ _ _ tt s2); [done|].
    subst s2. destruct (ls_user ins); eauto with mrun. }
  cbn [fst snd]. rewrite (bind_ret _ _ _ _ _ (ls_print_q ins _ _ s2 Hi Hq2 Hr2)).
  pose proof (ls_address_range ins s Hr) as Ha.
  rewrite (bind_ret _ _ _ _ _ (ls_writeback_q ins _ (say _ s2) Hi Ha Hq2 Hr2)).
  by rewrite writeback_say.
Qed.

Lemma store_q ins r mem' s :
  is_u32 ins -> quiet s -> regs_ok (regs s) -> Z.testbit ins 20 = false ->
  mem_store (is_half ins) (is_byte ins) (ls_address ins s) (stored_value ins s) (mem s)
    = Ret r mem' ->
  arm_load_store ins s = Ret r (say (store_text ins (alloc s)) (store_state ins mem' (alloc s))).
Proof.
  intros Hi Hq Hr HL E. rewrite load_store_fields by done. rewrite HL at 1.
  rewrite (bind_ret _ _ _ (stored_value ins s, r) (set_mem mem' (alloc s))); cycle 1.
  { by rewrite (bind_ret _ _ _ r (set_mem mem' (alloc s))) by by apply ls_write_q. }
  assert (Hq2 : quiet (set_mem mem' (alloc s))) by exact Hq.
  assert (Hr2 : regs_ok (regs (set_mem mem' (alloc s)))) by exact Hr.
  pose proof (ls_address_range ins s Hr) as Ha. unfold store_state.
  change (ls_address ins (alloc s)) with (ls_address ins s).
  set (s2 := set_mem mem' (alloc s)) in *. cbn [fst snd].
  rewrite (bind_ret _ _ _ _ _ (ls_print_q ins _ _ s2 Hi Hq2 Hr2)).
  rewrite (bind_ret _ _ _ _ _ (ls_writeback_q ins _ (say _ s2) Hi Ha Hq2 Hr2)).
  by rewrite writeback_say.
Qed.

Lemma arm_load_store_transparent ins : is_u32 ins -> transparent 2 (arm_load_store ins).
Proof.
  intros Hi. unfold arm_load_store, ls_read, ls_write, ls_print, ls_writeback.
  pose proof (field_reg ins 16) as F16. pose proof (field_reg ins 12) as F12.
  change (16 + 3) with 19 in F16. change (12 + 3) with 15 in F12.
  rewrite !get_bits_field by (done || lia). rewrite !u8_small by (unfold is_u8; lia).
  pose proof (addressing_mode_transparent ins Hi). transp.
Qed.
End pure.

(** None of this depends on the trace. *)
#[export] Instance upd_usr_reg_proper : Proper ((=) ==> (=) ==> (≡) ==> (≡)) upd_usr_reg.
Proof.
  intros r ? <- v ? <- s1 s2 Hs. unfold upd_usr_reg. by rewrite (arm_proper _ _ Hs), Hs.
Qed.
#[export] Instance alloc_proper : Proper ((≡) ==> (≡)) alloc.
Proof. intros s1 s2 Hs. destruct (Hs) as (_ & _ & E). unfold alloc. by rewrite E, Hs. Qed.

Section proper.
Context `{Host}.

#[export] Instance ls_offset_proper ins : Proper ((≡) ==> (=)) (ls_offset ins).
Proof.
  intros s1 s2 (E & _). unfold ls_offset, operand, shift_amount, carry_in, rval. by rewrite E.
Qed.
#[export] Instance ls_address_proper ins : Proper ((≡) ==> (=)) (ls_address ins).
Proof.
  intros s1 s2 Hs. unfold ls_address.
  by rewrite (ls_offset_proper ins _ _ Hs), (rval_proper _ _ Hs _ _ eq_refl).
Qed.
#[export] Instance writeback_proper ins a : Proper ((≡) ==> (≡)) (writeback_state ins a).
Proof.
  intros s1 s2 Hs. unfold writeback_state. rewrite (ls_offset_proper ins _ _ Hs).
  repeat case_match; by rewrite Hs.
Qed.
#[export] Instance load_state_proper ins v : Proper ((≡) ==> (≡)) (load_state ins v).
Proof.
  intros s1 s2 Hs. unfold load_state. rewrite (ls_address_proper ins _ _ Hs).
  repeat case_match; by rewrite Hs.
Qed.
#[export] Instance store_state_proper ins mm : Proper ((≡) ==> (≡)) (store_state ins mm).
Proof.
  intros s1 s2 Hs. unfold store_state. rewrite (ls_address_proper ins _ _ Hs). by rewrite Hs.
Qed.

#[export] Instance loaded_state_proper ins v : Proper ((≡) ==> (≡)) (loaded_state ins v).
Proof. intros s1 s2 Hs. unfold loaded_state. case_match; by rewrite Hs. Qed.
#[export] Instance load_text_proper ins v : Proper ((≡) ==> (=)) (load_text ins v).
Proof.
  intros s1 s2 Hs. unfold load_text.
  by rewrite (ls_offset_proper ins _ _ (loaded_state_proper ins v _ _ Hs)), (ls_address_proper ins _ _ Hs).
Qed.
#[export] Instance store_text_proper ins : Proper ((≡) ==> (=)) (store_text ins).
Proof.
  intros s1 s2 Hs. unfold store_text, stored_value, usr_rval.
  by rewrite (ls_offset_proper ins _ _ Hs), (ls_address_proper ins _ _ Hs), (rval_proper _ _ Hs _ _ eq_refl),
    (arm_proper _ _ Hs).
Qed.

Lemma writeback_trace ins a s : trace (writeback_state ins a s) = trace s.
Proof. unfold writeback_state. by repeat case_match. Qed.

(** Runs in any machine. *)
Lemma load_run_prints ins v s :
  machine_ok s -> is_u32 ins -> is_u32 v -> Z.testbit ins 20 = true ->
  mem_load (is_half ins) (is_byte ins) (ls_address ins s) (val0 s) (mem s) = Ret v (mem s) ->
  exists s', arm_load_store ins s = Ret 0 s' /\ s' ≡ load_state ins v (alloc s) /\ machine_ok s' /\
    console (trace s') = (console (trace s) ++ load_text ins v (alloc s))%list.
Proof.
  intros Hok Hi Hv HL E. destruct (Hok) as (Hr & Hm & Hc & _).
  pose proof (load_q ins v (hush s) Hi (hush_quiet s) Hr Hv HL E) as Eq.
  assert (Hv' : is_u32 (loaded_value ins v)) by (unfold loaded_value; case_match; auto with crange).
  assert (Hst : regs_ok (regs (load_state ins v (alloc (hush s)))) /\
                mem (load_state ins v (alloc (hush s))) = mem s /\
                cycle_count (arm (load_state ins v (alloc (hush s)))) = cycle_count (arm s)).
  { unfold load_state. destruct (ls_user ins).
    all: match goal with |- regs_ok (regs (writeback_state _ ?a ?s1)) /\ _ =>
      assert (Hs1 : regs_ok (regs s1)) by auto with crange;
      destruct (writeback_state_ok ins a s1 Hs1 (ls_address_range _ _ Hr)) as (? & -> & ->) end.
    all: by split_and!. }
  destruct Hst as (Hr' & Hm' & Hc').
  destruct (run_prints _ s _ _ (arm_load_store_transparent ins Hi) Hok Eq) as (s' & E' & Heq & Hok' & Hp);
    [done|by rewrite mem_say, Hm'|by rewrite arm_say, Hc'|].
  exists s'. split; [done|]. split; [by rewrite Heq, say_equiv, hush_equiv|]. split; [done|].
  rewrite Hp. unfold say, load_state. cbn [trace console set_trace set_console]. rewrite writeback_trace.
  rewrite (load_text_proper ins v _ _ (alloc_proper _ _ (hush_equiv s))). by destruct (ls_user ins).
Qed.

Lemma load_run ins v s :
  machine_ok s -> is_u32 ins -> is_u32 v -> Z.testbit ins 20 = true ->
  mem_load (is_half ins) (is_byte ins) (ls_address ins s) (val0 s) (mem s) = Ret v (mem s) ->
  exists s', arm_load_store ins s = Ret 0 s' /\ s' ≡ load_state ins v (alloc s) /\ machine_ok s'.
Proof. intros. destruct (load_run_prints ins v s) as (s' & ? & ? & ? & _); eauto. Qed.

Lemma store_run_prints ins r mem' s :
  machine_ok s -> is_u32 ins -> Z.testbit ins 20 = false ->
  mem_store (is_half ins) (is_byte ins) (ls_address ins s) (stored_value ins s) (mem s)
    = Ret r mem' -> mem_ok mem' ->
  exists s', arm_load_store ins s = Ret r s' /\ s' ≡ store_state ins mem' (alloc s) /\
    machine_ok s' /\ console (trace s') = (console (trace s) ++ store_text ins (alloc s))%list.
Proof.
  intros Hok Hi HL E Hm'. destruct (Hok) as (Hr & Hm & Hc & _).
  pose proof (store_q ins r mem' (hush s) Hi (hush_quiet s) Hr HL E) as Eq.
  assert (Hr1 : regs_ok (regs (set_mem mem' (alloc (hush s))))) by done.
  destruct (writeback_state_ok ins (ls_address ins (alloc (hush s))) _ Hr1
              (ls_address_range _ _ Hr)) as (Hr' & Em & Ec).
  destruct (run_prints _ s _ _ (arm_load_store_transparent ins Hi) Hok Eq) as (s' & E' & Heq & Hok' & Hp);
    [done|unfold store_state; by rewrite mem_say, Em|unfold store_state; by rewrite arm_say, Ec|].
  exists s'. split; [done|]. split; [by rewrite Heq, say_equiv, hush_equiv|]. split; [done|].
  rewrite Hp. unfold say, store_state. cbn [trace console set_trace set_console]. rewrite writeback_trace.
  by rewrite (store_text_proper ins _ _ (alloc_proper _ _ (hush_equiv s))).
Qed.

Lemma store_run ins r mem' s :
  machine_ok s -> is_u32 ins -> Z.testbit ins 20 = false ->
  mem_store (is_half ins) (is_byte ins) (ls_address ins s) (stored_value ins s) (mem s)
    = Ret r mem' -> mem_ok mem' ->
  exists s', arm_load_store ins s = Ret r s' /\ s' ≡ store_state ins mem' (alloc s) /\
    machine_ok s'.
Proof. intros. destruct (store_run_prints ins r mem' s) as (s' & ? & ? & ? & _); eauto. Qed.
End proper.

(** ** Properties of single transfers *)

(** The base register changes: pre-indexed with the W bit, or post-indexed. *)
Definition writes_base (ins : Z) : bool := negb (Z.testbit ins 24) || Z.testbit ins 21.
(** A word access as the handler decodes it. *)
Definition is_word (ins : Z) : bool := negb (is_half ins) && negb (is_byte ins).
(** The offset is an immediate. *)
Definition immediate_offset (ins : Z) : bool := negb (Z.testbit ins 25) && Z.testbit ins 26.

Section transfers.
Context `{Host}.

(** The words of the register file that hold the base and the transferred
    register. *)
Definition base_slot (ins : Z) (s : machine) : Z := slot (mode_of (regs s)) (field ins 19 16).
Definition data_slot (ins : Z) (s : machine) : Z :=
  if ls_user ins then field ins 15 12 else slot (mode_of (regs s)) (field ins 15 12).

(** The base register's new value. *)
Definition new_base (ins : Z) (s : machine) : Z :=
  u32 (rval s (field ins 19 16) + ls_offset ins s).

Lemma ls_base ins s :
  (if Z.testbit ins 24 then ls_address ins s else u32 (ls_address ins s + ls_offset ins s))
  = new_base ins s.
Proof. unfold ls_address, new_base. by destruct (Z.testbit ins 24). Qed.

Lemma writeback_regs ins a s i :
  regs_ok (regs s) -> is_u32 a ->
  rget (regs (writeback_state ins a s)) i =
  if writes_base ins && (i =? base_slot ins s)
  then if Z.testbit ins 24 then a else u32 (a + ls_offset ins s) else rget (regs s) i.
Proof.
  intros Hr Ha. pose proof (field_reg ins 16) as F16. change (16 + 3) with 19 in F16.
  pose proof (slot_range (mode_of (regs s)) _ F16) as [Hs _].
  unfold writeback_state, writes_base, base_slot, upd_reg.
  destruct (Z.testbit ins 24), (Z.testbit ins 21); simpl; try done.
  all: destruct (Z.eqb_spec i (slot (mode_of (regs s)) (field ins 19 16))) as [->|];
    [rewrite rget_aset_eq by (done || lia); done|by rewrite rget_aset_ne].
Qed.

Lemma writeback_mem ins a s : mem (writeback_state ins a s) = mem s.
Proof. unfold writeback_state. by repeat case_match. Qed.

Lemma stored_value_range ins s : regs_ok (regs s) -> is_u32 (stored_value ins s).
Proof. intros. unfold stored_value. case_match; auto with crange. Qed.

Lemma store_word_ok s ins :
  machine_ok s -> is_u32 ins -> size (mem s) mod 4 = 0 ->
  Z.testbit ins 20 = false -> is_word ins = true ->
  let a := ls_address ins s in
  let valid := (a <? size (mem s)) && (a mod 4 =? 0) in
  exists s', arm_load_store ins s = Ret (if valid then 0 else DATA_ABORT) s' /\ machine_ok s' /\
    mem s' = (if valid then put_word (mem s) a (stored_value ins s) else mem s) /\
    forall i, rget (regs s') i =
      if writes_base ins && (i =? base_slot ins s) then new_base ins s else rget (regs s) i.
Proof.
  intros Hok Hi H4 HL Hw a valid. destruct (Hok) as (Hr & Hm & Hc & _).
  pose proof (ls_address_range ins s Hr) as Ha. fold a in Ha.
  set (mem' := if valid then put_word (mem s) a (stored_value ins s) else mem s).
  unfold is_word in Hw. apply andb_true_iff in Hw as [Hh%negb_true_iff Hb%negb_true_iff].
  destruct (store_run ins (if valid then 0 else DATA_ABORT) mem' s Hok Hi HL) as (s' & E & Heq & Hok').
  { rewrite Hh, Hb. unfold mem_store. fold a. subst mem'. unfold valid, is_u32 in *.
    destruct (Z.ltb_spec a (size (mem s))); simpl; [|by apply memory_invalid].
    destruct (Z.eqb_spec (a mod 4) 0); [|by apply memory_write_word_misaligned].
    apply memory_write_word_ok; auto using stored_value_range; [lia|].
    apply word_addr_room; [done|]. split_and!; done || lia. }
  { subst mem'. destruct valid; auto with crange. }
  exists s'. split; [done|]. split; [done|]. setoid_rewrite Heq. unfold store_state.
  rewrite writeback_mem. split; [done|]. intros i. rewrite writeback_regs by done.
  by rewrite <- ls_base.
Qed.

(** A word store.  At an aligned address inside the memory it returns 0 and
    the memory holds the source register's value there, all else unchanged;
    at any other address it returns [DATA_ABORT] and leaves the memory alone.
    In both cases the base register is updated when the addressing mode says
    so and no other register of any mode changes. *)
Theorem store_word s ins :
  machine_ok s -> is_u32 ins -> size (mem s) mod 4 = 0 ->
  Z.testbit ins 20 = false -> is_word ins = true ->
  let a := ls_address ins s in
  let valid := (a <? size (mem s)) && (a mod 4 =? 0) in
  exists s', arm_load_store ins s = Ret (if valid then 0 else DATA_ABORT) s' /\ machine_ok s' /\
    mem s' = (if valid then put_word (mem s) a (stored_value ins s) else mem s) /\
    forall i, rget (regs s') i =
      if writes_base ins && (i =? base_slot ins s) then new_base ins s else rget (regs s) i.
Proof. apply store_word_ok. Qed.

(** The values of the register file after a load. *)
Lemma load_regs ins v s i :
  regs_ok (regs s) -> is_u32 v ->
  Z.testbit ins 24 = true \/ immediate_offset ins = true ->
  rget (regs (load_state ins v (alloc s))) i =
  if writes_base ins && (i =? base_slot ins s) then new_base ins s
  else if i =? data_slot ins s then loaded_value ins v else rget (regs s) i.
Proof.
  intros Hr Hv Ho. pose proof (field_reg ins 12) as F12. change (12 + 3) with 15 in F12.
  pose proof (slot_range (mode_of (regs s)) _ F12) as [Hs Hs'].
  assert (Hv' : is_u32 (loaded_value ins v)) by (unfold loaded_value; case_match; auto with crange).
  unfold load_state. set (s1 := if ls_user ins then _ else _).
  assert (Hd : 0 <= data_slot ins s < 37 /\ data_slot ins s <> 16)
    by (unfold data_slot; case_match; lia).
  assert (Er : regs s1 = aset (regs s) (data_slot ins s) (loaded_value ins v)).
  { subst s1. unfold data_slot. by destruct (ls_user ins). }
  assert (Hr1 : regs_ok (regs s1)) by (rewrite Er; auto with crange).
  rewrite writeback_regs by (done || by apply ls_address_range).
  assert (Eb : base_slot ins s1 = base_slot ins s).
  { unfold base_slot. rewrite Er. by rewrite mode_of_aset by apply Hd. }
  rewrite Eb, Er. change (ls_address ins (alloc s)) with (ls_address ins s).
  destruct (writes_base ins && (i =? base_slot ins s)).
  - rewrite <- ls_base. destruct (Z.testbit ins 24); [done|].
    destruct Ho as [?|Ho]; [done|]. unfold immediate_offset in Ho.
    apply andb_true_iff in Ho as [H25%negb_true_iff H26].
    unfold ls_offset. by rewrite H25, H26.
  - destruct (Z.eqb_spec i (data_slot ins s)) as [->|]; [apply rget_aset_eq; [done|apply Hd]|].
    by apply rget_aset_ne.
Qed.

Lemma load_word_ok s ins :
  machine_ok s -> is_u32 ins -> Z.testbit ins 20 = true -> is_word ins = true ->
  Z.testbit ins 24 = true \/ immediate_offset ins = true ->
  let a := ls_address ins s in
  a < size (mem s) -> a + 3 < Z.of_nat (length (m (mem s))) ->
  exists s', arm_load_store ins s = Ret 0 s' /\ machine_ok s' /\ mem s' = mem s /\
    forall i, rget (regs s') i =
      if writes_base ins && (i =? base_slot ins s) then new_base ins s
      else if i =? data_slot ins s then loaded_value ins (word_at (mem s) a)
      else rget (regs s) i.
Proof.
  intros Hok Hi HL Hw Ho a Ha Hl. destruct (Hok) as (Hr & Hm & Hc & _).
  pose proof (ls_address_range ins s Hr) as Har. fold a in Har. unfold is_u32 in Har.
  unfold is_word in Hw. apply andb_true_iff in Hw as [Hh%negb_true_iff Hb%negb_true_iff].
  destruct (load_run ins (word_at (mem s) a) s Hok Hi) as (s' & E & Heq & Hok'); auto with crange.
  { rewrite Hh, Hb. unfold mem_load. fold a.
    by rewrite (bind_ret _ _ _ _ _ (memory_read_word_ok (mem s) a (val0 s) Hm ltac:(lia) Hl)). }
  exists s'. split; [done|]. split; [done|]. setoid_rewrite Heq. split.
  - unfold load_state. rewrite writeback_mem. by destruct (ls_user ins).
  - intros i. apply load_regs; auto with crange.
Qed.

(** A word load inside the memory (pre-indexed or with an immediate
    offset): the destination receives the word at the effective address (bit 0
    cleared for the PC), the base register is updated when the addressing mode
    says so, the memory and all other registers of every mode are unchanged. *)
Theorem load_word s ins :
  machine_ok s -> is_u32 ins -> Z.testbit ins 20 = true -> is_word ins = true ->
  Z.testbit ins 24 = true \/ immediate_offset ins = true ->
  let a := ls_address ins s in
  a < size (mem s) -> a + 3 < Z.of_nat (length (m (mem s))) ->
  exists s', arm_load_store ins s = Ret 0 s' /\ machine_ok s' /\ mem s' = mem s /\
    forall i, rget (regs s') i =
      if writes_base ins && (i =? base_slot ins s) then new_base ins s
      else if i =? data_slot ins s then loaded_value ins (word_at (mem s) a)
      else rget (regs s) i.
Proof. apply load_word_ok. Qed.
(** C39: STR then LDR.  A word stored at an aligned address in the memory is
    what a later word load from the same address delivers, whatever the
    addressing modes of the two instructions. *)
Theorem store_load_roundtrip s ins1 :
  machine_ok s -> is_u32 ins1 -> Z.testbit ins1 20 = false -> is_word ins1 = true ->
  word_addr (mem s) (ls_address ins1 s) ->
  exists s1, arm_load_store ins1 s = Ret 0 s1 /\
    forall ins2,
      is_u32 ins2 -> Z.testbit ins2 20 = true -> is_word ins2 = true ->
      Z.testbit ins2 24 = true \/ immediate_offset ins2 = true ->
      ls_address ins2 s1 = ls_address ins1 s ->
      writes_base ins2 && (data_slot ins2 s1 =? base_slot ins2 s1) = false ->
      exists s2, arm_load_store ins2 s1 = Ret 0 s2 /\
        rget (regs s2) (data_slot ins2 s1) = loaded_value ins2 (stored_value ins1 s).
Proof.
  intros Hok Hi HL Hw Hv. destruct (Hok) as (Hr & Hm & _).
  set (a := ls_address ins1 s) in *. pose proof (word_addr_room _ _ Hm Hv) as Hroom.
  pose proof (stored_value_range ins1 s Hr) as Hsv.
  unfold is_word in Hw. apply andb_true_iff in Hw as [Hh%negb_true_iff Hb%negb_true_iff].
  destruct Hv as (H4 & Ha & Hal).
  destruct (store_run ins1 0 (put_word (mem s) a (stored_value ins1 s)) s Hok Hi HL)
    as (s1 & E & Heq & Hok'); [|auto with crange|].
  { rewrite Hh, Hb. by apply memory_write_word_ok. }
  exists s1. split; [done|]. intros ins2 Hi2 HL2 Hw2 Ho2 Ea Hd.
  unfold is_word in Hw2. apply andb_true_iff in Hw2 as [Hh2%negb_true_iff Hb2%negb_true_iff].
  destruct (Hok') as (Hr1 & Hm1 & _).
  assert (Em : mem s1 = put_word (mem s) a (stored_value ins1 s)).
  { rewrite Heq. unfold store_state. by rewrite writeback_mem. }
  destruct (load_run ins2 (stored_value ins1 s) s1 Hok' Hi2 Hsv HL2) as (s2 & E2 & Heq2 & _).
  { rewrite Hh2, Hb2. unfold mem_load. rewrite Ea, Em. erewrite bind_ret; cycle 1.
    - apply memory_read_word_ok; [auto with crange|done|simpl; by rewrite !length_aset].
    - by rewrite word_at_put_word by (done || lia). }
  exists s2. split; [done|]. rewrite (arm_proper _ _ Heq2), load_regs by done.
  rewrite Hd. by rewrite Z.eqb_refl.
Qed.

(** On a little-endian host the first byte of [val] is its low byte. *)
Lemma set_first_byte_le val b :
  host_big_endian = false -> is_u32 val -> is_u8 b ->
  set_first_byte val b = val / 2 ^ 8 * 2 ^ 8 + b.
Proof.
  intros Hhost Hu Hb. unfold set_first_byte. rewrite Hhost, <- lor_add by (done || lia). f_equal.
  change 0xFFFFFF00 with (Z.shiftl (Z.ones 24) 8).
  rewrite <- Z.shiftl_mul_pow2, <- Z.shiftr_div_pow2 by lia. apply Z.bits_inj'; intros i Hi0.
  rewrite Z.land_spec, !testbit_shiftl by done. destruct (Z.ltb_spec i 8).
  - rewrite !(Z.testbit_neg_r _ (i - 8)) by lia. apply andb_false_r.
  - rewrite testbit_shiftr, testbit_ones by lia. replace (i - 8 + 8) with i by lia.
    destruct (Z.ltb_spec (i - 8) 24); [apply andb_true_r|].
    by rewrite testbit_u32_high by (done || lia).
Qed.

(** Byte loads on a little-endian host: only the low byte of the
    destination comes from the memory, the other 24 bits are those of the
    uninitialised variable [val]. *)
Theorem load_byte_upper_bits s ins :
  machine_ok s -> is_u32 ins -> host_big_endian = false ->
  Z.testbit ins 20 = true -> is_half ins = false -> is_byte ins = true ->
  Z.testbit ins 24 = true -> Z.testbit ins 21 = false -> field ins 15 12 <> 15 ->
  let a := ls_address ins s in a < size (mem s) ->
  exists s', arm_load_store ins s = Ret 0 s' /\ mem s' = mem s /\
    rval s' (field ins 15 12) mod 2 ^ 8 = byte_at (mem s) a /\
    rval s' (field ins 15 12) / 2 ^ 8 = val0 s / 2 ^ 8.
Proof.
  intros Hok Hi Hhost HL Hh Hb HP HW Hpc a Ha. destruct (Hok) as (Hr & Hm & _).
  pose proof (ls_address_range ins s Hr) as Har. fold a in Har. unfold is_u32 in Har.
  pose proof (byte_at_range (mem s) a Hm) as Hbt.
  pose proof (field_reg ins 12) as F12. change (12 + 3) with 15 in F12.
  set (v := set_first_byte (val0 s) (byte_at (mem s) a)).
  assert (Ev : v = val0 s / 2 ^ 8 * 2 ^ 8 + byte_at (mem s) a)
    by (apply set_first_byte_le; [done|apply u32_range|done]).
  assert (Hq : 0 <= val0 s / 2 ^ 8 < 2 ^ 24).
  { pose proof (u32_range (indet (n_indet s))) as Hu. fold (val0 s) in Hu. unfold is_u32 in Hu.
    split; [apply Z.div_pos; lia|apply Z.div_lt_upper_bound; lia]. }
  unfold is_u8 in Hbt.
  destruct (load_run ins v s Hok Hi) as (s' & E & Heq & Hok').
  { unfold is_u32. lia. }
  { done. }
  { rewrite Hh, Hb. unfold mem_load. fold a.
    rewrite (bind_ret _ _ _ _ _ (memory_read_byte_ok (mem s) a _ Hm ltac:(lia))). done. }
  exists s'. split; [done|].
  assert (Es : rval s' (field ins 15 12) = v).
  { rewrite Heq. unfold load_state, writeback_state, ls_user, loaded_value. rewrite HP, HW. simpl.
    rewrite (proj2 (Z.eqb_neq _ _) Hpc). rewrite rval_upd_reg_eq by (done || lia). done. }
  rewrite Es, Ev. split; [|split].
  - rewrite Heq. unfold load_state. rewrite writeback_mem. by destruct (ls_user ins).
  - rewrite Z.add_comm, Z.mod_add by lia. by apply Z.mod_small.
  - rewrite Z.div_add_l by lia. rewrite (Z.div_small (byte_at _ _)) by done. lia.
Qed.

(** A load from outside the memory is not reported: the handler returns 0
    and the destination receives the uninitialised variable [val]. *)
Theorem load_abort_lost s ins :
  machine_ok s -> is_u32 ins -> Z.testbit ins 20 = true -> is_word ins = true ->
  Z.testbit ins 24 = true \/ immediate_offset ins = true ->
  size (mem s) <= ls_address ins s ->
  exists s', arm_load_store ins s = Ret 0 s' /\ machine_ok s' /\ mem s' = mem s /\
    (writes_base ins && (data_slot ins s =? base_slot ins s) = false ->
     rget (regs s') (data_slot ins s) = loaded_value ins (val0 s)).
Proof.
  intros Hok Hi HL Hw Ho Ha. destruct (Hok) as (Hr & Hm & _).
  unfold is_word in Hw. apply andb_true_iff in Hw as [Hh%negb_true_iff Hb%negb_true_iff].
  assert (Hv : is_u32 (val0 s)) by apply u32_range.
  destruct (load_run ins (val0 s) s Hok Hi Hv HL) as (s' & E & Heq & Hok').
  { rewrite Hh, Hb. unfold mem_load. erewrite bind_ret by by apply memory_invalid. done. }
  exists s'. split; [done|]. split; [done|]. rewrite (arm_proper _ _ Heq), (mem_proper _ _ Heq). split.
  - unfold load_state. rewrite writeback_mem. by destruct (ls_user ins).
  - intros Hd. rewrite load_regs by done. by rewrite Hd, Z.eqb_refl.
Qed.
End transfers.

(** ** Multiple transfers as functions of the machine *)

(** The registers transferred, in the order of their numbers. *)
Definition lsm_regs (ins : Z) : list Z := List.filter (Z.testbit ins) reg_indices.
Definition lsm_bytes (ins : Z) : Z := 4 * Z.of_nat (length (lsm_regs ins)).

(** Addressing mode 4: the lowest address (IA, IB, DA, DB) and the value written
    back to the base register. *)
Definition lsm_low (ins : Z) (s : machine) : Z :=
  let base := rval s (field ins 19 16) in
  u32 (match Z.testbit ins 23, Z.testbit ins 24 with
       | true, false => base
       | true, true => base + 4
       | false, false => base - lsm_bytes ins + 4
       | false, true => base - lsm_bytes ins
       end).
Definition lsm_base (ins : Z) (s : machine) : Z :=
  let base := rval s (field ins 19 16) in
  u32 (if Z.testbit ins 23 then base + lsm_bytes ins else base - lsm_bytes ins).

(** The word loaded into register [r]. *)
Definition lsm_word (r v : Z) : Z := if r =? 15 then Z.land v 0xFFFFFFFE else v.

Lemma lsm_word_range r v : is_u32 v -> is_u32 (lsm_word r v).
Proof. intros. unfold lsm_word. case_match; auto with crange. Qed.
#[export] Hint Resolve lsm_word_range : crange.

(** Registers [rl] loaded from the words at [a], [a + 4], ... *)
Fixpoint ldm_state (rl : list Z) (a : Z) (s : machine) : machine :=
  match rl with
  | [] => s
  | r :: rl' => ldm_state rl' (a + 4) (upd_reg r (lsm_word r (word_at (mem s) a)) s)
  end.

(** The values [f r] stored at [a], [a + 4], ... *)
Fixpoint stm_mem (rl : list Z) (a : Z) (f : Z -> Z) (mm : memory_data) : memory_data :=
  match rl with
  | [] => mm
  | r :: rl' => stm_mem rl' (a + 4) f (put_word mm a (f r))
  end.

Lemma lsm_regs_range ins r : In r (lsm_regs ins) -> 0 <= r < 16 /\ Z.testbit ins r = true.
Proof.
  unfold lsm_regs, reg_indices. rewrite filter_In, in_map_iff.
  intros ((n & <- & Hn%in_seq) & ?). split; [lia|done].
Qed.

Lemma lsm_regs_length ins : (length (lsm_regs ins) <= 16)%nat.
Proof. unfold lsm_regs. etrans; [apply List.filter_length_le|]. done. Qed.

Lemma lsm_regs_nodup ins : List.NoDup (lsm_regs ins).
Proof.
  apply List.NoDup_filter, NoDup_ListNoDup, (bool_decide_unpack _). vm_compute. done.
Qed.

(** A loop whose body does nothing outside a sublist. *)
Lemma for_each_filter {S A B} (p : A -> bool) (l : list A) (f : A -> B -> M S B) b s :
  (forall x b s, In x l -> p x = false -> f x b s = Ret b s) ->
  for_each l f b s = for_each (List.filter p l) f b s.
Proof.
  revert b s. induction l as [|x l IH]; intros b s Hf; simpl; [done|].
  assert (Hf' : forall x b s, In x l -> p x = false -> f x b s = Ret b s)
    by (intros; apply Hf; [by right|done]).
  destruct (p x) eqn:Ep; simpl.
  - unfold bind. destruct (f x b s); try done. by apply IH.
  - rewrite (bind_ret _ _ _ _ _ (Hf x b s (or_introl eq_refl) Ep)). by apply IH.
Qed.

Section multiple.
Context `{Host}.

Lemma lsm_bit ins r : is_u32 ins -> 0 <= r < 16 -> nz (Z.land (shr32 ins r) 1) = Z.testbit ins r.
Proof.
  intros Hi Hr. rewrite shr32_ok, land_1, nz_b2z, testbit_shiftr by (done || lia).
  by rewrite Z.add_0_l.
Qed.

Lemma lsm_low_fold ins (l : list Z) a :
  is_u32 ins -> is_u32 a -> Forall (fun r => 0 <= r < 16) l ->
  fold_left (fun a Ri => if nz (Z.land (shr32 ins Ri) 1) then u32 (a - 4) else a) l a
  = u32 (a - 4 * Z.of_nat (length (List.filter (Z.testbit ins) l))).
Proof.
  intros Hi. revert a. induction l as [|r l IH]; intros a Ha Hl; simpl.
  - by rewrite Z.sub_0_r, u32_small.
  - inversion Hl; subst. rewrite lsm_bit by done. destruct (Z.testbit ins r).
    + rewrite IH by auto with crange. rewrite u32_sub_l. f_equal.
      change (length (r :: List.filter (Z.testbit ins) l))
        with (S (length (List.filter (Z.testbit ins) l))). lia.
    + by apply IH.
Qed.

Lemma reg_indices_range : Forall (fun r => 0 <= r < 16) reg_indices.
Proof. apply (bool_decide_unpack _). vm_compute. done. Qed.

(** The start address the code computes is that of addressing mode 4. *)
Lemma lsm_start ins base :
  is_u32 ins -> is_u32 base ->
  let incr := b2z (Z.testbit ins 23) in let before := b2z (Z.testbit ins 24) in
  let a := if negb (nz incr) then
      fold_left (fun a Ri => if nz (Z.land (shr32 ins Ri) 1) then u32 (a - 4) else a)
        reg_indices base else base in
  (if incr =? before then u32 (a + 4) else a) =
  u32 (match Z.testbit ins 23, Z.testbit ins 24 with
       | true, false => base
       | true, true => base + 4
       | false, false => base - lsm_bytes ins + 4
       | false, true => base - lsm_bytes ins
       end).
Proof.
  intros Hi Hb. rewrite lsm_low_fold by (done || apply reg_indices_range).
  fold (lsm_regs ins) (lsm_bytes ins).
  destruct (Z.testbit ins 23), (Z.testbit ins 24); simpl; rewrite ?u32_add_l; try done.
  by rewrite u32_small.
Qed.
(** The registers of the list on standard output. *)
Definition list_text (rl : list Z) : list string := (fun r => " " +:+ fmt_d r +:+ ",") <$> rl.

Lemma ldm_state_say rl a l s : ldm_state rl a (say l s) = say l (ldm_state rl a s).
Proof. revert a s. induction rl as [|r rl IH]; intros a s; simpl; [done|]. by rewrite <- IH. Qed.

Lemma ldm_loop ins rl a c v r s :
  quiet s -> regs_ok (regs s) -> mem_ok (mem s) -> is_u32 ins ->
  (forall x, In x rl -> 0 <= x < 16 /\ Z.testbit ins x = true) ->
  0 <= a -> a + 4 * Z.of_nat (length rl) <= size (mem s) ->
  0 <= c -> c + Z.of_nat (length rl) <= 16 ->
  exists l', for_each rl (lsm_body ins true) (LsmLoop (u32 a) c v r) s
             = Ret l' (say (list_text rl) (ldm_state rl a s)) /\
    l_count l' = c + Z.of_nat (length rl) /\ l_res l' = (if rl is [] then r else 0).
Proof.
  intros Hq Hr Hm Hi. revert a c v r s Hq Hr Hm.
  induction rl as [|x rl IH]; intros a c v r s Hq Hr Hm Hrl Ha Hsz Hc Hc'.
  { eexists. simpl. rewrite say_nil. split; [done|]. simpl. split; [lia|done]. }
  destruct (Hrl x ltac:(by left)) as [Hx Hbit]. simpl length in *.
  destruct (Hm) as (_ & Hlen & Hlen32).
  assert (Hv : is_u32 (lsm_word x (word_at (mem s) a))) by auto with crange.
  set (s0 := say [" " +:+ fmt_d x +:+ ","] s).
  assert (Hq0 : quiet s0) by done. assert (Hr0 : regs_ok (regs s0)) by done.
  set (s1 := upd_reg x (lsm_word x (word_at (mem s) a)) s0).
  destruct (IH (a + 4) (u8 (c + 1)) (lsm_word x (word_at (mem s) a)) 0 s1) as (l' & E & El & Er);
    subst s1; auto with crange; try (intros; apply Hrl; by right).
  all: rewrite ?u8_small by (unfold is_u8; lia); simpl; try lia.
  exists l'. simpl. rewrite (bind_ret _ _ _
    (LsmLoop (u32 (a + 4)) (u8 (c + 1)) (lsm_word x (word_at (mem s) a)) 0)
    (upd_reg x (lsm_word x (word_at (mem s) a)) s0)); cycle 1.
  { unfold lsm_body. rewrite lsm_bit, Hbit by done. rewrite (u32_small a) by (unfold is_u32; lia).
    rewrite (bind_ret _ _ _ _ _ (printf_q _ _)). fold s0. cbn [l_address l_val l_count].
    rewrite (bind_ret _ _ _ (lsm_word x (word_at (mem s) a), 0)
      (upd_reg x (lsm_word x (word_at (mem s) a)) s0)); [done|].
    rewrite (bind_ret _ _ _ (0, word_at (mem s) a) s0); cycle 1.
    { apply at_line_ret; [|done..]. apply arm_read_word_q; [done|].
      apply memory_read_word_ok; [done|simpl; lia|simpl; lia]. }
    simpl. fold (lsm_word x (word_at (mem s) a)).
    rewrite (bind_ret _ _ _ tt (upd_reg x (lsm_word x (word_at (mem s) a)) s0)); [done|].
    eauto with mrun. }
  split.
  { rewrite E. f_equal. subst s0.
    change (upd_reg x ?v (say ?t s)) with (say t (upd_reg x v s)). by rewrite ldm_state_say, say_say. }
  rewrite El, Er, u8_small by (unfold is_u8; lia).
  split; [lia|]. by destruct rl.
Qed.

Lemma size_put_word mm a v : size (put_word mm a v) = size mm.
Proof. done. Qed.

Lemma stm_loop ins rl a c v r s :
  quiet s -> regs_ok (regs s) -> mem_ok (mem s) -> is_u32 ins ->
  (forall x, In x rl -> 0 <= x < 16 /\ Z.testbit ins x = true) ->
  0 <= a -> a mod 4 = 0 -> a + 4 * Z.of_nat (length rl) <= size (mem s) ->
  0 <= c -> c + Z.of_nat (length rl) <= 16 ->
  exists l', for_each rl (lsm_body ins false) (LsmLoop (u32 a) c v r) s
             = Ret l' (say (list_text rl) (set_mem (stm_mem rl a (rval s) (mem s)) s)) /\
    l_count l' = c + Z.of_nat (length rl) /\ l_res l' = (if rl is [] then r else 0).
Proof.
  intros Hq Hr Hm Hi. revert a c v r s Hq Hr Hm.
  induction rl as [|x rl IH]; intros a c v r s Hq Hr Hm Hrl Ha Hal Hsz Hc Hc'.
  { exists (LsmLoop (u32 a) c v r). simpl.
    rewrite say_nil. split_and!; [unfold ret; f_equal; by destruct s|lia|done]. }
  destruct (Hrl x ltac:(by left)) as [Hx Hbit]. simpl length in *.
  destruct (Hm) as (_ & Hlen & Hlen32).
  set (s0 := say [" " +:+ fmt_d x +:+ ","] s).
  assert (Hq0 : quiet s0) by done. assert (Hr0 : regs_ok (regs s0)) by done.
  set (s1 := set_mem (put_word (mem s) a (rval s x)) s0).
  destruct (IH (a + 4) (u8 (c + 1)) (rval s x) 0 s1) as (l' & E & El & Er);
    subst s1; auto; try (intros; apply Hrl; by right); try (simpl; auto with crange).
  all: rewrite ?u8_small by (unfold is_u8; lia); simpl; try lia.
  { rewrite <- Z.add_mod_idemp_l, Hal by lia. done. }
  exists l'. simpl. rewrite (bind_ret _ _ _ (LsmLoop (u32 (a + 4)) (u8 (c + 1)) (rval s x) 0)
    (set_mem (put_word (mem s) a (rval s x)) s0)); cycle 1.
  { unfold lsm_body. rewrite lsm_bit, Hbit by done. rewrite (u32_small a) by (unfold is_u32; lia).
    rewrite (bind_ret _ _ _ _ _ (printf_q _ _)). fold s0. cbn [l_address l_val l_count].
    rewrite (bind_ret _ _ _ (rval s x, 0) (set_mem (put_word (mem s) a (rval s x)) s0)); [done|].
    mstep. change (rval s0 x) with (rval s x).
    rewrite (bind_ret _ _ _ 0 (set_mem (put_word (mem s) a (rval s x)) s0)); [done|].
    apply at_line_ret; [|done..]. apply arm_write_word_q; [done|].
    apply memory_write_word_ok; auto with crange; simpl; lia. }
  split.
  { rewrite E. f_equal. subst s0.
    change (set_mem ?m1 (set_mem ?m2 (say ?t s))) with (say t (set_mem m1 s)). by rewrite say_say. }
  rewrite El, Er, u8_small by (unfold is_u8; lia).
  split; [lia|]. by destruct rl.
Qed.

(** The state after a multiple transfer whose loop ends in [s']. *)
Definition lsm_writeback (ins base : Z) (s' : machine) : machine :=
  if Z.testbit ins 21 then upd_reg (field ins 19 16) base s' else s'.

Lemma lsm_writeback_say ins b l s : lsm_writeback ins b (say l s) = say l (lsm_writeback ins b s).
Proof. unfold lsm_writeback. by case_match. Qed.

(** What a multiple transfer prints. *)
Definition lsm_head (ins : Z) : list string :=
  ([if Z.testbit ins 20 then "LDM" else "STM"; if Z.testbit ins 23 then "I" else "D";
    if Z.testbit ins 24 then "B " else "A "; "r" +:+ fmt_d (field ins 19 16)] ++
   (if Z.testbit ins 21 then ["!"] else []) ++ [", {"])%list.
Definition lsm_text (ins : Z) : list string :=
  (lsm_head ins ++ list_text (lsm_regs ins) ++ ["}" +:+ newline])%list.

Lemma lsm_print_q ins s :
  lsm_print (field ins 19 16) (b2z (Z.testbit ins 23)) (b2z (Z.testbit ins 24)) (Z.testbit ins 20)
    (Z.testbit ins 21) s = Ret tt (say (lsm_head ins) s).
Proof.
  unfold lsm_print, lsm_head. rewrite !nz_b2z. do 4 rewrite (bind_ret _ _ _ _ _ (printf_q _ _)).
  match goal with |- bind _ _ ?s1 = _ =>
    rewrite (bind_ret _ _ _ tt (say (if Z.testbit ins 21 then ["!"] else []) s1)) end; cycle 1.
  { destruct (Z.testbit ins 21); [apply printf_q|by rewrite say_nil]. }
  by rewrite printf_q, !say_say.
Qed.

Lemma lsm_q ins s s' :
  is_u32 ins -> quiet s -> regs_ok (regs s) -> quiet s' -> regs_ok (regs s') ->
  (forall v r, exists l', for_each (lsm_regs ins) (lsm_body ins (Z.testbit ins 20))
      (LsmLoop (lsm_low ins s) 0 v r) (say (lsm_head ins) (alloc (alloc s)))
      = Ret l' (say (list_text (lsm_regs ins)) (say (lsm_head ins) s')) /\
      l_count l' = Z.of_nat (length (lsm_regs ins)) /\ (lsm_regs ins <> [] -> l_res l' = 0)) ->
  lsm_regs ins <> [] ->
  arm_load_store_multiple ins s = Ret 0 (say (lsm_text ins) (lsm_writeback ins (lsm_base ins s) s')).
Proof.
  intros Hi Hq Hr Hq' Hr' Hloop Hne. unfold arm_load_store_multiple.
  pose proof (field_reg ins 16) as F16. change (16 + 3) with 19 in F16.
  rewrite !get_bits_field, !get_bit_testbit, !nz_b2z by (done || lia).
  rewrite !u8_small by (unfold is_u8; lia). cbv zeta.
  rewrite (bind_ret _ _ _ _ _ (uninit32_q s)), (bind_ret _ _ _ _ _ (uninit32_q (alloc s))).
  set (s2 := alloc (alloc s)) in *.
  assert (Hq2 : quiet s2) by done. assert (Hr2 : regs_ok (regs s2)) by done.
  mstep. change (rval s2) with (rval s). rewrite (bind_ret _ _ _ _ _ (lsm_print_q ins s2)).
  pose proof (lsm_start ins (rval s (field ins 19 16)) Hi (rval_range s _ Hr)) as Hstart.
  cbv zeta in Hstart. rewrite nz_b2z in Hstart. rewrite Hstart. fold (lsm_low ins s).
  destruct (Hloop (val0 s) (s32 (val0 (alloc s)))) as (l1 & E & El & Er).
  rewrite (bind_ret _ _ _ l1 (say (list_text (lsm_regs ins)) (say (lsm_head ins) s'))); cycle 1.
  { rewrite (for_each_filter (Z.testbit ins)); [done|]. intros x b s0 Hin Hx.
    pose proof (proj1 (List.Forall_forall _ _) reg_indices_range x Hin).
    unfold lsm_body. by rewrite lsm_bit, Hx by done. }
  rewrite (bind_ret _ _ _ _ _ (printf_q _ _)), !say_say. change (lsm_head ins ++ _)%list with (lsm_text ins).
  rewrite <- lsm_writeback_say. set (s3 := say (lsm_text ins) s').
  assert (Hq3 : quiet s3) by done. assert (Hr3 : regs_ok (regs s3)) by done.
  rewrite El, Er by done. unfold lsm_writeback, lsm_base, lsm_bytes.
  rewrite !(Z.mul_comm _ 4).
  rewrite (bind_ret _ _ _ tt (lsm_writeback ins (lsm_base ins s) s3)); [done|].
  unfold lsm_writeback, lsm_base, lsm_bytes.
  destruct (Z.testbit ins 21); [|done]. simpl.
  destruct (Z.testbit ins 23); eauto with mrun.
Qed.

Lemma arm_load_store_multiple_transparent ins :
  is_u32 ins -> transparent 2 (arm_load_store_multiple ins).
Proof.
  intros Hi. unfold arm_load_store_multiple, lsm_print.
  pose proof (field_reg ins 16) as F16. change (16 + 3) with 19 in F16.
  rewrite !get_bits_field by (done || lia). rewrite !u8_small by (unfold is_u8; lia).
  assert (Hf : forall load l, transparent 2 (for_each reg_indices (lsm_body ins load) l)).
  { intros load l. apply transparent_for. intros x y Hx.
    pose proof (proj1 (List.Forall_forall _ _) reg_indices_range x Hx).
    unfold lsm_body. transp. }
  transp.
Qed.
End multiple.

(** *** What the loops change *)

Lemma stm_mem_ok rl a f mm :
  mem_ok mm -> mem_ok (stm_mem rl a f mm) /\ size (stm_mem rl a f mm) = size mm /\
  length (m (stm_mem rl a f mm)) = length (m mm) /\ is_be (stm_mem rl a f mm) = is_be mm.
Proof.
  revert a mm. induction rl as [|r rl IH]; intros a mm Hm; simpl; [done|].
  destruct (IH (a + 4) (put_word mm a (f r)) ltac:(auto with crange)) as (? & -> & -> & ->).
  split_and!; try done. simpl. by rewrite !length_aset.
Qed.

Lemma stm_mem_frame rl a f mm b :
  b < a \/ a + 4 * Z.of_nat (length rl) <= b ->
  byte_at (stm_mem rl a f mm) b = byte_at mm b.
Proof.
  revert a mm. induction rl as [|r rl IH]; intros a mm Hb; simpl length in *; simpl; [done|].
  rewrite IH by lia. apply byte_at_put_word_ne. lia.
Qed.

Lemma stm_mem_word rl a f mm k r :
  (forall r, is_u32 (f r)) -> mem_ok mm -> 0 <= a ->
  a + 4 * Z.of_nat (length rl) <= Z.of_nat (length (m mm)) ->
  rl !! k = Some r -> word_at (stm_mem rl a f mm) (a + 4 * Z.of_nat k) = f r.
Proof.
  intros Hf. revert a mm k. induction rl as [|x rl IH]; intros a mm k Hm Ha Hl Hk; [done|].
  simpl length in Hl. simpl. destruct k as [|k]; simpl in Hk.
  - injection Hk as ->. rewrite Z.mul_0_r, Z.add_0_r.
    rewrite (word_at_frame (put_word mm a (f r))).
    + apply word_at_put_word; auto; lia.
    + apply stm_mem_ok. auto with crange.
    + intros j Hj. apply stm_mem_frame. lia.
  - replace (a + 4 * Z.of_nat (S k)) with (a + 4 + 4 * Z.of_nat k) by lia.
    apply IH; auto with crange; [lia|]. simpl. rewrite !length_aset. lia.
Qed.

Lemma ldm_state_ok rl a s :
  regs_ok (regs s) -> mem_ok (mem s) -> (forall r, In r rl -> 0 <= r < 16) ->
  let s' := ldm_state rl a s in
  regs_ok (regs s') /\ mem s' = mem s /\ cycle_count (arm s') = cycle_count (arm s) /\
  trace s' = trace s /\ cpsr_of (regs s') = cpsr_of (regs s).
Proof.
  revert a s. induction rl as [|r rl IH]; intros a s Hr Hm Hrl; simpl; [done|].
  destruct (IH (a + 4) (upd_reg r (lsm_word r (word_at (mem s) a)) s)) as (? & -> & -> & -> & ->);
    auto with crange.
  { intros. apply Hrl. by right. }
  rewrite cpsr_upd_reg by (apply Hrl; by left). done.
Qed.

Lemma ldm_state_other rl a s i :
  (forall r, In r rl -> 0 <= r < 16 /\ slot (mode_of (regs s)) r <> i) ->
  rget (regs (ldm_state rl a s)) i = rget (regs s) i.
Proof.
  revert a s. induction rl as [|r rl IH]; intros a s Hrl; simpl; [done|].
  destruct (Hrl r ltac:(by left)) as [Hr Hne]. pose proof (slot_range (mode_of (regs s)) r Hr) as [_ Hs].
  rewrite IH; unfold upd_reg; simpl.
  - by rewrite rget_aset_ne.
  - rewrite mode_of_aset by done. intros. apply Hrl. by right.
Qed.

Lemma ldm_state_reg rl a s k r :
  regs_ok (regs s) -> mem_ok (mem s) -> List.NoDup rl ->
  (forall r, In r rl -> 0 <= r < 16) -> rl !! k = Some r ->
  rget (regs (ldm_state rl a s)) (slot (mode_of (regs s)) r)
  = lsm_word r (word_at (mem s) (a + 4 * Z.of_nat k)).
Proof.
  revert a s k. induction rl as [|x rl IH]; intros a s k Hr Hm Hnd Hrl Hk; [done|].
  inversion Hnd; subst. pose proof (slot_range (mode_of (regs s)) x (Hrl x ltac:(by left))) as [Hs Hs'].
  destruct k as [|k]; simpl in Hk; simpl.
  - injection Hk as ->. rewrite ldm_state_other.
    + rewrite Z.mul_0_r, Z.add_0_r. unfold upd_reg. simpl. apply rget_aset_eq; [done|lia].
    + intros y Hy. unfold upd_reg. simpl. rewrite mode_of_aset by done.
      assert (0 <= y < 16) by (apply Hrl; by right). split; [done|].
      apply slot_ne; [apply mode_of_range|done|apply Hrl; by left|]. by intros ->.
  - rewrite <- (mode_of_aset (regs s) (slot (mode_of (regs s)) x)
      (lsm_word x (word_at (mem s) a))) by done.
    change (aset _ _ _) with (regs (upd_reg x (lsm_word x (word_at (mem s) a)) s)).
    replace (a + 4 * Z.of_nat (S k)) with (a + 4 + 4 * Z.of_nat k) by lia.
    rewrite IH with (k := k); auto with crange. intros. apply Hrl. by right.
Qed.

#[export] Instance ldm_state_proper rl a : Proper ((≡) ==> (≡)) (ldm_state rl a).
Proof.
  revert a. induction rl as [|r rl IH]; intros a s1 s2 Hs; simpl; [done|].
  apply IH. by rewrite (mem_proper _ _ Hs), Hs.
Qed.
#[export] Instance lsm_writeback_proper ins b : Proper ((≡) ==> (≡)) (lsm_writeback ins b).
Proof. intros s1 s2 Hs. unfold lsm_writeback. case_match; by rewrite Hs. Qed.

(** The words of the transfer lie in the memory. *)
Definition lsm_room (ins : Z) (s : machine) : Prop :=
  lsm_regs ins <> [] /\ lsm_low ins s + lsm_bytes ins <= size (mem s).

Section runs.
Context `{Host}.

Lemma lsm_low_range ins s : is_u32 (lsm_low ins s).
Proof. apply u32_range. Qed.
Lemma lsm_base_range ins s : is_u32 (lsm_base ins s).
Proof. apply u32_range. Qed.
#[local] Hint Resolve lsm_low_range lsm_base_range : crange.

Lemma lsm_writeback_ok ins b s :
  regs_ok (regs s) -> is_u32 b ->
  regs_ok (regs (lsm_writeback ins b s)) /\ mem (lsm_writeback ins b s) = mem s /\
  cycle_count (arm (lsm_writeback ins b s)) = cycle_count (arm s).
Proof. intros. unfold lsm_writeback. case_match; split_and!; auto with crange. Qed.

Lemma lsm_run ins s s2 :
  machine_ok s -> is_u32 ins ->
  arm_load_store_multiple ins (hush s) = Ret 0 (say (lsm_text ins) (lsm_writeback ins (lsm_base ins s) s2)) ->
  regs_ok (regs s2) -> mem_ok (mem s2) -> cycle_count (arm s2) = cycle_count (arm s) ->
  trace s2 = trace (hush s) ->
  exists s', arm_load_store_multiple ins s = Ret 0 s' /\ machine_ok s' /\
    s' ≡ lsm_writeback ins (lsm_base ins s) s2 /\
    console (trace s') = (console (trace s) ++ lsm_text ins)%list.
Proof.
  intros Hok Hi Eq Hr2 Hm2 Hc2 Ht2. destruct (Hok) as (_ & _ & Hc & _).
  destruct (lsm_writeback_ok ins (lsm_base ins s) s2 Hr2 (lsm_base_range _ _)) as (? & Em & Ec).
  destruct (run_prints _ s _ _ (arm_load_store_multiple_transparent ins Hi) Hok Eq)
    as (s' & E' & Heq & Hok' & Hp); [done|by rewrite mem_say, Em|by rewrite arm_say, Ec, Hc2|].
  exists s'. split; [done|]. split; [done|]. split; [by rewrite Heq, say_equiv|].
  rewrite Hp. unfold say, lsm_writeback. cbn [trace console set_trace set_console].
  replace (trace (if Z.testbit ins 21 then _ else s2)) with (trace s2) by by case_match.
  by rewrite Ht2.
Qed.

Lemma stm_run_prints ins s :
  machine_ok s -> is_u32 ins -> Z.testbit ins 20 = false -> lsm_room ins s ->
  lsm_low ins s mod 4 = 0 ->
  exists s', arm_load_store_multiple ins s = Ret 0 s' /\ machine_ok s' /\
    s' ≡ lsm_writeback ins (lsm_base ins s)
           (set_mem (stm_mem (lsm_regs ins) (lsm_low ins s) (rval s) (mem s)) (alloc (alloc s))) /\
    console (trace s') = (console (trace s) ++ lsm_text ins)%list.
Proof.
  intros Hok Hi HL (Hne & Hsz) Hal. destruct (Hok) as (Hr & Hm & Hc & _).
  pose proof (lsm_low_range ins s) as Ha. unfold is_u32 in Ha.
  set (mm := stm_mem (lsm_regs ins) (lsm_low ins s) (rval s) (mem s)).
  assert (Hmm : mem_ok mm) by by apply stm_mem_ok.
  destruct (lsm_run ins s (set_mem mm (alloc (alloc (hush s)))) Hok Hi) as (s' & E & Hok' & Heq & Hp);
    [|done..|].
  - change (lsm_base ins s) with (lsm_base ins (hush s)). apply lsm_q; try done. intros v r. rewrite HL.
    pose proof (lsm_regs_length ins). unfold lsm_bytes in Hsz.
    rewrite <- (u32_small (lsm_low ins (hush s))) by apply lsm_low_range.
    destruct (stm_loop ins (lsm_regs ins) (lsm_low ins s) 0 v r (say (lsm_head ins) (alloc (alloc (hush s)))))
      as (l' & E & El & Er); try done || lia.
    { apply lsm_regs_range. }
    exists l'. split; [done|]. split; [lia|]. intros _. by destruct (lsm_regs ins).
  - exists s'. split; [done|]. split; [done|]. split; [by rewrite Heq, hush_equiv|done].
Qed.

Lemma stm_run ins s :
  machine_ok s -> is_u32 ins -> Z.testbit ins 20 = false -> lsm_room ins s ->
  lsm_low ins s mod 4 = 0 ->
  exists s', arm_load_store_multiple ins s = Ret 0 s' /\ machine_ok s' /\
    s' ≡ lsm_writeback ins (lsm_base ins s)
           (set_mem (stm_mem (lsm_regs ins) (lsm_low ins s) (rval s) (mem s)) (alloc (alloc s))).
Proof. intros. destruct (stm_run_prints ins s) as (s' & ? & ? & ? & _); eauto. Qed.

Lemma ldm_run_prints ins s :
  machine_ok s -> is_u32 ins -> Z.testbit ins 20 = true -> lsm_room ins s ->
  exists s', arm_load_store_multiple ins s = Ret 0 s' /\ machine_ok s' /\
    s' ≡ lsm_writeback ins (lsm_base ins s)
           (ldm_state (lsm_regs ins) (lsm_low ins s) (alloc (alloc s))) /\
    console (trace s') = (console (trace s) ++ lsm_text ins)%list.
Proof.
  intros Hok Hi HL (Hne & Hsz). destruct (Hok) as (Hr & Hm & Hc & _).
  pose proof (lsm_low_range ins s) as Ha. unfold is_u32 in Ha.
  set (s2 := ldm_state (lsm_regs ins) (lsm_low ins s) (alloc (alloc (hush s)))).
  destruct (ldm_state_ok (lsm_regs ins) (lsm_low ins s) (alloc (alloc (hush s))) Hr Hm)
    as (Hr2 & Em2 & Ec2 & Et2 & _). { intros x Hx. by apply lsm_regs_range in Hx as [? _]. }
  fold s2 in Hr2, Em2, Ec2, Et2.
  destruct (lsm_run ins s s2 Hok Hi) as (s' & E & Hok' & Heq & Hp); [|done|by rewrite Em2|done|done|].
  - change (lsm_base ins s) with (lsm_base ins (hush s)). apply lsm_q; try done. { unfold quiet. by rewrite Et2. } intros v r. rewrite HL.
    pose proof (lsm_regs_length ins). unfold lsm_bytes in Hsz.
    rewrite <- (u32_small (lsm_low ins (hush s))) by apply lsm_low_range.
    destruct (ldm_loop ins (lsm_regs ins) (lsm_low ins s) 0 v r (say (lsm_head ins) (alloc (alloc (hush s)))))
      as (l' & E & El & Er); try done || lia.
    { apply lsm_regs_range. }
    exists l'. split; [by rewrite ldm_state_say in E|]. split; [lia|]. intros _. by destruct (lsm_regs ins).
  - exists s'. split; [done|]. split; [done|]. split; [|done]. rewrite Heq. subst s2. by rewrite hush_equiv.
Qed.

Lemma ldm_run ins s :
  machine_ok s -> is_u32 ins -> Z.testbit ins 20 = true -> lsm_room ins s ->
  exists s', arm_load_store_multiple ins s = Ret 0 s' /\ machine_ok s' /\
    s' ≡ lsm_writeback ins (lsm_base ins s)
           (ldm_state (lsm_regs ins) (lsm_low ins s) (alloc (alloc s))).
Proof. intros. destruct (ldm_run_prints ins s) as (s' & ? & ? & ? & _); eauto. Qed.

Definition lsm_slot (ins : Z) (s : machine) : Z := slot (mode_of (regs s)) (field ins 19 16).

Lemma lsm_writeback_regs ins b s i :
  regs_ok (regs s) ->
  rget (regs (lsm_writeback ins b s)) i =
  if Z.testbit ins 21 && (i =? lsm_slot ins s) then b else rget (regs s) i.
Proof.
  intros Hr. pose proof (field_reg ins 16) as F16. change (16 + 3) with 19 in F16.
  pose proof (slot_range (mode_of (regs s)) _ F16) as [Hs _].
  unfold lsm_writeback, lsm_slot, upd_reg. destruct (Z.testbit ins 21); [|done]. simpl.
  destruct (Z.eqb_spec i (slot (mode_of (regs s)) (field ins 19 16))) as [->|];
    [rewrite rget_aset_eq by (done || lia); done|by rewrite rget_aset_ne].
Qed.

(** C24: STM.  With a non-empty register list whose words lie in the memory at an
    aligned address, the [k]-th register of the list (in increasing order of
    numbers) is stored at the [k]-th word from the lowest address of
    addressing mode 4 (IA, IB, DA or DB); no other byte of the memory changes;
    the base register is updated exactly when the W bit is set, by four bytes
    per register, and no other register changes. *)
Theorem store_multiple s ins :
  machine_ok s -> is_u32 ins -> Z.testbit ins 20 = false -> lsm_room ins s ->
  lsm_low ins s mod 4 = 0 ->
  let a := lsm_low ins s in
  exists s', arm_load_store_multiple ins s = Ret 0 s' /\ machine_ok s' /\
    (forall k r, lsm_regs ins !! k = Some r ->
       word_at (mem s') (a + 4 * Z.of_nat k) = rval s r) /\
    (forall b, b < a \/ a + lsm_bytes ins <= b -> byte_at (mem s') b = byte_at (mem s) b) /\
    (forall i, rget (regs s') i =
       if Z.testbit ins 21 && (i =? lsm_slot ins s) then lsm_base ins s else rget (regs s) i).
Proof.
  intros Hok Hi HL Hroom Hal a. destruct (Hok) as (Hr & Hm & _).
  destruct (stm_run ins s Hok Hi HL Hroom Hal) as (s' & E & Hok' & Heq).
  destruct Hroom as (Hne & Hsz). unfold lsm_bytes in Hsz. destruct (Hm) as (_ & Hlen & _).
  pose proof (lsm_low_range ins s) as Ha. unfold is_u32 in Ha.
  exists s'. split; [done|]. split; [done|].
  assert (Em : mem s' = stm_mem (lsm_regs ins) a (rval s) (mem s)).
  { rewrite Heq. unfold lsm_writeback. by case_match. }
  rewrite Em. split_and!.
  - intros k r Hk. apply stm_mem_word; auto with crange; unfold a; lia.
  - intros b Hb. by apply stm_mem_frame.
  - intros i. rewrite (arm_proper _ _ Heq). by rewrite lsm_writeback_regs.
Qed.

(** C25: LDM.  The [k]-th register of the list receives the [k]-th word from the
    lowest address (bit 0 cleared for the PC), unless it is the base register of
    an instruction with writeback, which receives the updated base; no
    register outside the list and no memory changes. *)
Theorem load_multiple s ins :
  machine_ok s -> is_u32 ins -> Z.testbit ins 20 = true -> lsm_room ins s ->
  let a := lsm_low ins s in
  exists s', arm_load_store_multiple ins s = Ret 0 s' /\ machine_ok s' /\ mem s' = mem s /\
    (forall k r, lsm_regs ins !! k = Some r ->
       rget (regs s') (slot (mode_of (regs s)) r) =
       if Z.testbit ins 21 && (r =? field ins 19 16) then lsm_base ins s
       else lsm_word r (word_at (mem s) (a + 4 * Z.of_nat k))) /\
    (forall i, (forall r, In r (lsm_regs ins) -> slot (mode_of (regs s)) r <> i) ->
       rget (regs s') i =
       if Z.testbit ins 21 && (i =? lsm_slot ins s) then lsm_base ins s else rget (regs s) i).
Proof.
  intros Hok Hi HL Hroom a. subst a. destruct (Hok) as (Hr & Hm & _).
  destruct (ldm_run ins s Hok Hi HL Hroom) as (s' & E & Hok' & Heq).
  assert (Hrl : forall r, In r (lsm_regs ins) -> 0 <= r < 16)
    by (intros r Hx; by apply lsm_regs_range in Hx as [? _]).
  destruct (ldm_state_ok (lsm_regs ins) (lsm_low ins s) (alloc (alloc s)) Hr Hm Hrl)
    as (Hr2 & Em2 & _ & _ & Ep2).
  pose proof (field_reg ins 16) as F16. change (16 + 3) with 19 in F16.
  exists s'. split; [done|]. split; [done|]. rewrite (arm_proper _ _ Heq), (mem_proper _ _ Heq).
  assert (Es : lsm_slot ins (ldm_state (lsm_regs ins) (lsm_low ins s) (alloc (alloc s)))
               = lsm_slot ins s).
  { unfold lsm_slot, mode_of. by rewrite Ep2. }
  split_and!.
  - unfold lsm_writeback. case_match; [|done]. simpl. done.
  - intros k r Hk. rewrite lsm_writeback_regs, Es by done.
    assert (Hrr : 0 <= r < 16) by (apply Hrl, list_elem_of_In; by eapply list_elem_of_lookup_2).
    replace (slot (mode_of (regs s)) r =? lsm_slot ins s) with (r =? field ins 19 16); cycle 1.
    { unfold lsm_slot. destruct (Z.eqb_spec r (field ins 19 16)) as [->|Hne].
      - by rewrite Z.eqb_refl.
      - symmetry. apply Z.eqb_neq, slot_ne; auto using mode_of_range. }
    case_match; [done|].
    by apply (ldm_state_reg _ _ (alloc (alloc s))); auto using lsm_regs_nodup.
  - intros i Hn. rewrite lsm_writeback_regs, Es by done. case_match; [done|].
    apply (ldm_state_other _ _ (alloc (alloc s))). auto.
Qed.
Lemma rval_rget s r : 0 <= r < 15 -> rval s r = rget (regs s) (slot (mode_of (regs s)) r).
Proof. intros. unfold rval. by replace (r =? 15) with false by lia. Qed.

(** A full descending stack: STMDB and LDMIA of the same registers, both with
    writeback to the base register [b]. *)
Definition push_of (ins b : Z) : Prop :=
  is_u32 ins /\ Z.testbit ins 20 = false /\ Z.testbit ins 21 = true /\
  Z.testbit ins 23 = false /\ Z.testbit ins 24 = true /\ field ins 19 16 = b.
Definition pop_of (ins b : Z) : Prop :=
  is_u32 ins /\ Z.testbit ins 20 = true /\ Z.testbit ins 21 = true /\
  Z.testbit ins 23 = true /\ Z.testbit ins 24 = false /\ field ins 19 16 = b.

Lemma push_run s ins b :
  machine_ok s -> push_of ins b -> 0 <= b < 15 -> lsm_room ins s -> lsm_low ins s mod 4 = 0 ->
  exists s1, arm_load_store_multiple ins s = Ret 0 s1 /\ machine_ok s1 /\
    mem s1 = stm_mem (lsm_regs ins) (lsm_low ins s) (rval s) (mem s) /\
    rval s1 b = lsm_low ins s /\ lsm_low ins s = u32 (rval s b - lsm_bytes ins).
Proof.
  intros Hok (Hi & HL & HW & HU & HP & HB) Hb Hroom Hal. destruct (Hok) as (Hr & Hm & _).
  destruct (stm_run ins s Hok Hi HL Hroom Hal) as (s1 & E & Hok1 & Heq). exists s1.
  assert (Elow : lsm_low ins s = u32 (rval s b - lsm_bytes ins)).
  { unfold lsm_low. by rewrite HU, HP, HB. }
  split_and!; try done.
  - rewrite Heq. unfold lsm_writeback. by case_match.
  - rewrite (rval_proper _ _ Heq _ _ eq_refl). unfold lsm_writeback. rewrite HW, HB.
    rewrite rval_upd_reg_eq by done. unfold lsm_base. by rewrite HU, HB, Elow.
Qed.

Lemma pop_run s ins b a :
  machine_ok s -> pop_of ins b -> 0 <= b < 15 -> rval s b = a -> lsm_regs ins <> [] ->
  a + lsm_bytes ins <= size (mem s) ->
  exists s', arm_load_store_multiple ins s = Ret 0 s' /\ mem s' = mem s /\
    rval s' b = u32 (a + lsm_bytes ins) /\
    forall k r, lsm_regs ins !! k = Some r -> r <> b -> r <> 15 ->
      rval s' r = word_at (mem s) (a + 4 * Z.of_nat k).
Proof.
  intros Hok (Hi & HL & HW & HU & HP & HB) Hb Eb Hne Hsz. destruct (Hok) as (Hr & Hm & _).
  assert (Elow : lsm_low ins s = a).
  { unfold lsm_low. rewrite HU, HP, HB, Eb. apply u32_small. rewrite <- Eb. auto with crange. }
  destruct (ldm_run ins s Hok Hi HL) as (s' & E & _ & Heq); [split; by rewrite ?Elow|].
  rewrite Elow in Heq. set (s2 := ldm_state (lsm_regs ins) a (alloc (alloc s))) in *.
  assert (Hrg : forall r, In r (lsm_regs ins) -> 0 <= r < 16)
    by (intros r Hx; by apply lsm_regs_range in Hx as [? _]).
  destruct (ldm_state_ok (lsm_regs ins) a (alloc (alloc s)) Hr Hm Hrg) as (Hr2 & Em2 & _ & _ & Ep2).
  fold s2 in Hr2, Em2, Ep2. exists s'. split; [done|].
  rewrite (mem_proper _ _ Heq), (rval_proper _ _ Heq _ _ eq_refl).
  unfold lsm_writeback in *. rewrite HW, HB in *. split_and!.
  - simpl. by rewrite Em2.
  - rewrite rval_upd_reg_eq by done. unfold lsm_base. by rewrite HU, HB, Eb.
  - intros k r Hk Hrb Hr15. rewrite (rval_proper _ _ Heq _ _ eq_refl).
    assert (Hr16 : 0 <= r < 16) by (apply Hrg, list_elem_of_In; by eapply list_elem_of_lookup_2).
    rewrite rval_upd_reg_ne, rval_rget by lia.
    assert (Emo : mode_of (regs s2) = mode_of (regs (alloc (alloc s))))
      by (unfold mode_of; by rewrite Ep2).
    rewrite Emo. unfold s2. rewrite (ldm_state_reg _ _ _ k) by auto using lsm_regs_nodup.
    unfold lsm_word. by replace (r =? 15) with false by lia.
Qed.

(** C26: PUSH and POP.  After a push, a pop of the same registers in any later
    state with the same stack pointer and memory returns 0, restores the
    pushed values and the stack pointer, and keeps the memory. *)
Theorem push_pop s ins1 ins2 b :
  machine_ok s -> push_of ins1 b -> pop_of ins2 b -> 0 <= b < 15 ->
  lsm_regs ins1 = lsm_regs ins2 -> ~ In b (lsm_regs ins1) -> ~ In 15 (lsm_regs ins1) ->
  lsm_room ins1 s -> lsm_low ins1 s mod 4 = 0 ->
  exists s1, arm_load_store_multiple ins1 s = Ret 0 s1 /\
    forall s2, machine_ok s2 -> mem s2 = mem s1 -> rval s2 b = rval s1 b ->
      exists s3, arm_load_store_multiple ins2 s2 = Ret 0 s3 /\ mem s3 = mem s1 /\
        rval s3 b = rval s b /\ forall r, In r (lsm_regs ins1) -> rval s3 r = rval s r.
Proof.
  intros Hok Hpush Hpop Hb Hrl Hnb Hn15 Hroom Hal.
  destruct (Hok) as (Hr & Hm & _). destruct (Hm) as (_ & Hlen & _).
  destruct (push_run s ins1 b Hok Hpush Hb Hroom Hal) as (s1 & E1 & Hok1 & Em1 & Eb1 & Elow).
  exists s1. split; [done|]. intros s2 Hok2 Em2 Eb2.
  destruct Hroom as (Hne & Hsz). pose proof (lsm_low_range ins1 s) as Ha. unfold is_u32 in Ha.
  assert (Ebytes : lsm_bytes ins2 = lsm_bytes ins1) by (unfold lsm_bytes; by rewrite Hrl).
  destruct (stm_mem_ok (lsm_regs ins1) (lsm_low ins1 s) (rval s) (mem s) Hm) as (_ & Esz & _).
  destruct (pop_run s2 ins2 b (lsm_low ins1 s) Hok2 Hpop Hb) as (s3 & E3 & Em3 & Eb3 & Ew3).
  { by rewrite Eb2. } { by rewrite <- Hrl. } { by rewrite Ebytes, Em2, Em1, Esz. }
  exists s3. split; [done|]. split_and!; [by rewrite Em3| |].
  - rewrite Eb3, Ebytes, Elow, u32_add_l, Z.sub_add. apply u32_small. auto with crange.
  - intros r Hin. assert (r <> b) by congruence. assert (r <> 15) by congruence.
    apply list_elem_of_In, list_elem_of_lookup_1 in Hin as [k Hk].
    rewrite (Ew3 k) by (done || by rewrite <- Hrl). rewrite Em2, Em1.
    apply stm_mem_word; auto with crange; [lia|]. unfold lsm_bytes in Hsz. lia.
Qed.
End runs.

(** ** Witnesses *)

(** 64 bytes of memory, r1 = 16, sp = 48, otherwise as [machine_usr]. *)
Definition mem64 : memory_data := memory_create (Some (replicate 64 7)) 64 0.
Definition machine_ls : machine := set_mem mem64 (upd_reg 1 16 (upd_reg 13 48 machine_usr)).

Lemma mem64_ok : mem_ok mem64.
Proof.
  split_and!; [apply (bool_decide_unpack _); vm_compute; done|cbn; lia|cbn; lia|cbn; lia].
Qed.

Lemma machine_ls_ok : machine_ok machine_ls.
Proof.
  destruct machine_usr_ok as (? & _ & ? & ?). split_and!; try done; [|apply mem64_ok].
  apply regs_ok_upd_reg; [apply regs_ok_upd_reg; [done|]|]; u32_lit.
Qed.

(** STR r2, [r1, #4]! *)
Lemma store_word_witness :
  exists s', arm_load_store (H := host0) 0xE5A12004 machine_ls = Ret 0 s' /\
    mem s' = put_word mem64 20 102 /\ rget (regs s') 1 = 20.
Proof.
  destruct (store_word (H := host0) machine_ls 0xE5A12004 machine_ls_ok ltac:(u32_lit)
              eq_refl eq_refl eq_refl) as (s' & H1 & _ & H2 & H3).
  exists s'. split; [exact H1|]. split; [exact H2|]. rewrite H3. vm_compute. reflexivity.
Defined.

(** LDR r2, [r1], #4 *)
Lemma load_word_witness :
  exists s', arm_load_store (H := host0) 0xE4912004 machine_ls = Ret 0 s' /\
    rget (regs s') 2 = 0x07070707 /\ rget (regs s') 1 = 20.
Proof.
  destruct (load_word (H := host0) machine_ls 0xE4912004 machine_ls_ok ltac:(u32_lit)
              eq_refl eq_refl (or_intror eq_refl)) as (s' & H1 & _ & _ & H2).
  - vm_compute. reflexivity.
  - vm_compute. reflexivity.
  - exists s'. split; [exact H1|]. rewrite !H2. vm_compute. split; reflexivity.
Defined.

(** STR r2, [r1, #4] then LDR r3, [r1, #4] *)
Lemma store_load_roundtrip_witness :
  exists s1, arm_load_store (H := host0) 0xE5812004 machine_ls = Ret 0 s1 /\
    (ls_address (H := host0) 0xE5913004 s1 = 20 ->
     exists s2, arm_load_store (H := host0) 0xE5913004 s1 = Ret 0 s2).
Proof.
  destruct (store_load_roundtrip (H := host0) machine_ls 0xE5812004 machine_ls_ok ltac:(u32_lit)
              eq_refl eq_refl) as (s1 & H1 & H2).
  - split; [reflexivity|]. vm_compute. split; [split; [discriminate|reflexivity]|reflexivity].
  - exists s1. split; [exact H1|]. intros Ha.
    destruct (H2 0xE5913004 ltac:(u32_lit) eq_refl eq_refl (or_introl eq_refl) Ha eq_refl)
      as (s2 & H3 & _).
    exists s2. exact H3.
Defined.

(** LDRB r2, [r1], the uninitialised variable holding 0xAABBCCDD: the result is
    0xAABBCC07. *)
Lemma load_byte_upper_bits_witness :
  exists s', arm_load_store (H := x86_host (fun _ => 0xAABBCCDD)) 0xE5D12000 machine_ls = Ret 0 s' /\
    rval s' 2 mod 2 ^ 8 = 7 /\ rval s' 2 / 2 ^ 8 = 0xAABBCC.
Proof.
  destruct (load_byte_upper_bits (H := x86_host (fun _ => 0xAABBCCDD)) machine_ls 0xE5D12000
              machine_ls_ok ltac:(u32_lit) eq_refl eq_refl eq_refl eq_refl eq_refl eq_refl)
    as (s' & H1 & _ & H2 & H3).
  - vm_compute. discriminate.
  - vm_compute. reflexivity.
  - exists s'. split; [exact H1|]. split; [exact H2|exact H3].
Defined.

(** LDR r2, [r1, #0x100], outside the memory *)
Lemma load_abort_lost_witness :
  exists s', arm_load_store (H := x86_host (fun _ => 0xAABBCCDD)) 0xE5912100 machine_ls = Ret 0 s' /\
    rget (regs s') 2 = 0xAABBCCDD.
Proof.
  destruct (load_abort_lost (H := x86_host (fun _ => 0xAABBCCDD)) machine_ls 0xE5912100
              machine_ls_ok ltac:(u32_lit) eq_refl eq_refl (or_introl eq_refl))
    as (s' & H1 & _ & _ & H2).
  - vm_compute. discriminate.
  - exists s'. split; [exact H1|]. exact (H2 eq_refl).
Defined.

(** STMDB sp!, {r2, r3} *)
Lemma store_multiple_witness :
  exists s', arm_load_store_multiple (H := host0) 0xE92D000C machine_ls = Ret 0 s' /\
    word_at (mem s') 40 = 102 /\ word_at (mem s') 44 = 103 /\ rget (regs s') 13 = 40.
Proof.
  destruct (store_multiple (H := host0) machine_ls 0xE92D000C machine_ls_ok ltac:(u32_lit) eq_refl)
    as (s' & H1 & _ & H2 & _ & H3).
  - split; vm_compute; discriminate.
  - reflexivity.
  - exists s'. split; [exact H1|]. split; [exact (H2 0%nat 2 eq_refl)|].
    split; [exact (H2 1%nat 3 eq_refl)|]. rewrite H3. vm_compute. reflexivity.
Defined.

(** LDMIB r1, {r2, r3} *)
Lemma load_multiple_witness :
  exists s', arm_load_store_multiple (H := host0) 0xE991000C machine_ls = Ret 0 s' /\
    rget (regs s') 3 = 0x07070707.
Proof.
  destruct (load_multiple (H := host0) machine_ls 0xE991000C machine_ls_ok ltac:(u32_lit) eq_refl)
    as (s' & H1 & _ & _ & H2 & _).
  - split; vm_compute; discriminate.
  - exists s'. split; [exact H1|]. exact (H2 1%nat 3 eq_refl).
Defined.

(** PUSH and POP of r2, r3, lr *)
Lemma push_pop_witness :
  exists s1, arm_load_store_multiple (H := host0) 0xE92D400C machine_ls = Ret 0 s1 /\
    (machine_ok s1 -> exists s3, arm_load_store_multiple (H := host0) 0xE8BD400C s1 = Ret 0 s3 /\
      rval s3 13 = 48 /\ rval s3 2 = 102).
Proof.
  destruct (push_pop (H := host0) machine_ls 0xE92D400C 0xE8BD400C 13 machine_ls_ok)
    as (s1 & H1 & H2).
  1,2: split; [u32_lit|vm_compute; repeat split].
  - lia.
  - vm_compute. reflexivity.
  - vm_compute. intuition discriminate.
  - vm_compute. intuition discriminate.
  - split; vm_compute; discriminate.
  - reflexivity.
  - exists s1. split; [exact H1|]. intros Hok.
    destruct (H2 s1 Hok eq_refl eq_refl) as (s3 & H3 & _ & H4 & H5).
    exists s3. split; [exact H3|]. split; [exact H4|]. apply (H5 2). vm_compute. tauto.
Defined.
