(* ===== verification/Safety.v ===== *)
(** * Safety of the instruction handlers

    [safe room c Q]: run with the trace disabled in a well-formed machine whose
    memory block has [room] bytes to spare, [c] returns a value in [Q] and leaves
    such a machine, or ends the program with status 0; it never fails an
    assertion, and with at least three bytes to spare it never accesses an array
    out of bounds.  With less room the one undefined behaviour left is a read
    past the end of the memory block.  Together with [transparent], this carries
    over to every state of the trace. *)
From S2P Require Import Prelude CInt Constants Memory Registers Format Trace Core CoreFacts Exception Branch Shifter DataProcessing LoadStore.

#[local] Open Scope Z_scope.

Section spare.
Context (room : Z).

(** A memory whose size is a multiple of four and whose block extends [room]
    bytes past it.  With three of them the reads that start in the memory stay
    in the block. *)
Definition mem_roomy (mm : memory_data) : Prop :=
  mem_ok mm /\ size mm mod 4 = 0 /\ size mm + room <= Z.of_nat (length (m mm)).

Definition inv (s : machine) : Prop :=
  quiet s /\ regs_ok (regs s) /\ mem_roomy (mem s) /\ is_u32 (cycle_count (arm s)).

Definition safe {A} (c : M machine A) (Q : A -> Prop) : Prop :=
  forall s, inv s ->
    match c s with
    | Ret x s' => Q x /\ inv s'
    | Exit code _ => code = 0
    | Abort _ => False
    | Undef u => u = OutOfBounds /\ room < 3
    end.

Lemma safe_ret {A} (x : A) (Q : A -> Prop) : Q x -> safe (ret x) Q.
Proof. by intros HQ s Hs. Qed.

Lemma safe_bind {A B} (c : M machine A) (f : A -> M machine B) P Q :
  safe c P -> (forall x, P x -> safe (f x) Q) -> safe (bind c f) Q.
Proof.
  intros Hc Hf s Hs. specialize (Hc s Hs). unfold bind.
  destruct (c s) as [x s'| | |]; try done. destruct Hc as [HP Hs']. by apply Hf.
Qed.

Lemma safe_weaken {A} (c : M machine A) (P Q : A -> Prop) :
  (forall x, P x -> Q x) -> safe c P -> safe c Q.
Proof.
  intros HPQ Hc s Hs. specialize (Hc s Hs). destruct (c s); try done.
  destruct Hc. auto.
Qed.

Lemma safe_if {A} (b : bool) (c1 c2 : M machine A) Q :
  safe c1 Q -> safe c2 Q -> safe (if b then c1 else c2) Q.
Proof. by destruct b. Qed.

Lemma safe_when b (c : M machine unit) : safe c (fun _ => True) -> safe (when b c) (fun _ => True).
Proof. intros. apply safe_if; [done|]. by apply safe_ret. Qed.

Lemma safe_for {A B} (l : list A) (f : A -> B -> M machine B) (P : B -> Prop) b :
  P b -> (forall x y, In x l -> P y -> safe (f x y) P) -> safe (for_each l f b) P.
Proof.
  revert b. induction l as [|x l IH]; intros b Hb Hf; simpl; [by apply safe_ret|].
  apply safe_bind with P; [apply Hf; [by left|done]|]. intros b' Hb'. apply IH; [done|].
  intros. apply Hf; [by right|done].
Qed.

Lemma safe_at_line {A} file line (c : M machine A) Q : safe c Q -> safe (at_line file line c) Q.
Proof.
  intros Hc s Hs. specialize (Hc s Hs). rewrite at_line_q; [done|by apply Hs|].
  intros x s' E. rewrite E in Hc. by apply Hc.
Qed.

(** An operation given by an equation. *)
Lemma safe_eq {A} (c : M machine A) (Q : A -> Prop) (g : machine -> A) (f : machine -> machine) :
  (forall s, inv s -> c s = Ret (g s) (f s) /\ Q (g s) /\ inv (f s)) -> safe c Q.
Proof. intros Hc s Hs. destruct (Hc s Hs) as (-> & ? & ?). done. Qed.

Section accesses.
Context `{Host}.

Lemma safe_read_register r : 0 <= r < 16 -> safe (arm_read_register r) is_u32.
Proof.
  intros Hr. apply (safe_eq _ _ (fun s => rval s r) id). intros s Hs.
  destruct (Hs) as (Hq & Hg & _). split; [by apply arm_read_register_q|]. auto with crange.
Qed.

Lemma safe_read_usr_register r : 0 <= r < 16 -> safe (arm_read_usr_register r) is_u32.
Proof.
  intros Hr. apply (safe_eq _ _ (fun s => usr_rval s r) id). intros s Hs.
  destruct (Hs) as (Hq & Hg & _). split; [by apply arm_read_usr_register_q|]. auto with crange.
Qed.

Lemma safe_write_register r v :
  0 <= r < 16 -> is_u32 v -> safe (arm_write_register r v) (fun _ => True).
Proof.
  intros Hr Hv. apply (safe_eq _ _ (fun _ => tt) (upd_reg r v)).
  intros s (Hq & Hg & Hm & Hc). split; [by apply arm_write_register_q|].
  split; [done|]. split_and!; auto with crange.
Qed.

Lemma safe_write_usr_register r v :
  0 <= r < 16 -> is_u32 v -> safe (arm_write_usr_register r v) (fun _ => True).
Proof.
  intros Hr Hv. apply (safe_eq _ _ (fun _ => tt) (upd_usr_reg r v)).
  intros s (Hq & Hg & Hm & Hc). split; [by apply arm_write_usr_register_q|].
  split; [done|]. split_and!; auto with crange.
Qed.

Lemma safe_uninit : safe uninit32 is_u32.
Proof.
  apply (safe_eq _ _ val0 alloc). intros s Hs. split; [done|]. split; [apply u32_range|done].
Qed.

(** Memory reads. *)
Lemma rd_cases mm i :
  mem_ok mm -> (exists b, rd i mm = Ret b mm /\ is_u8 b) \/ rd i mm = Undef OutOfBounds.
Proof.
  intros Hm. destruct (decide (0 <= i < Z.of_nat (length (m mm)))) as [Hi|Hi].
  - left. exists (byte_at mm i). split; [by apply rd_ok|by apply byte_at_range].
  - right. apply rd_oob. lia.
Qed.

(** An optimistic read: it returns in [Q], or runs out of the block. *)
Definition read_or_oob {A} (c : M memory_data A) (Q : A -> Prop) (mm : memory_data) : Prop :=
  (exists x, c mm = Ret x mm /\ Q x) \/ c mm = Undef OutOfBounds.

Lemma read_ret {A} (x : A) (Q : A -> Prop) mm : Q x -> read_or_oob (ret x) Q mm.
Proof. left. by exists x. Qed.

Lemma read_bind {A} i (f : Z -> M memory_data A) Q mm :
  mem_ok mm -> (forall b, is_u8 b -> read_or_oob (f b) Q mm) -> read_or_oob (bind (rd i) f) Q mm.
Proof.
  intros Hm Hf. destruct (rd_cases mm i Hm) as [(b & E & Hb)|E]; unfold read_or_oob.
  - rewrite (bind_ret _ _ _ _ _ E). by apply Hf.
  - right. by apply bind_undef.
Qed.

Lemma read_word_cases a v mm :
  mem_ok mm -> is_u32 v ->
  read_or_oob (memory_read_word a v)
    (fun rv => is_u32 rv.2 /\ (rv.1 = 0 \/ rv.1 = DATA_ABORT)) mm.
Proof.
  intros Hm Hv. unfold memory_read_word, read_or_oob. mstep.
  case_match; [left; eexists; split; [done|]; simpl; auto|]. mstep.
  case_match; do 4 (apply read_bind; [done|intros]); apply read_ret; simpl; auto with crange.
Qed.

Lemma read_half_cases a v mm :
  mem_ok mm -> is_u16 v -> read_or_oob (memory_read_half a v) (fun rv => is_u16 rv.2) mm.
Proof.
  intros Hm Hv. unfold memory_read_half, read_or_oob. mstep.
  case_match; [left; by eexists|]. mstep.
  case_match; do 2 (apply read_bind; [done|intros]); apply read_ret; apply u16_range.
Qed.

Lemma safe_mem_read {A} (c : M memory_data A) (log : A -> M machine unit) (Q : A -> Prop) :
  (forall mm, mem_roomy mm ->
     read_or_oob c Q mm /\ (3 <= room -> exists x, c mm = Ret x mm)) ->
  (forall x s, quiet s -> log x s = Ret tt s) ->
  safe (let! x := in_mem c in log x ;;; ret x) Q.
Proof.
  intros Hc Hl s Hs. destruct (Hs) as (Hq & _ & Hm & _).
  destruct (Hc _ Hm) as [[(x & E & HQ)|E] H3].
  - rewrite (bind_ret _ _ _ x s) by by apply in_mem_read.
    rewrite (bind_ret _ _ _ tt s) by auto. done.
  - rewrite (bind_undef _ _ _ OutOfBounds) by by apply zoom_undef. split; [done|].
    destruct (Z.lt_ge_cases room 3); [done|]. destruct H3 as [x E']; [done|]. congruence.
Qed.

Lemma safe_read_word a v :
  is_u32 a -> is_u32 v ->
  safe (arm_read_word a v) (fun rv => is_u32 rv.2 /\ (rv.1 = 0 \/ rv.1 = DATA_ABORT)).
Proof.
  intros Ha Hv. apply safe_mem_read; [|intros; by apply log_memory_q].
  intros mm (Hm & H4 & Hl). split; [by apply read_word_cases|]. intros H3. unfold is_u32 in Ha.
  destruct (Z.leb_spec (size mm) a); eexists; [by apply memory_invalid|].
  apply memory_read_word_ok; done || lia.
Qed.

Lemma safe_read_half a v :
  is_u32 a -> is_u16 v -> safe (arm_read_half a v) (fun rv => is_u16 rv.2).
Proof.
  intros Ha Hv. apply safe_mem_read; [|intros; by apply log_memory_q].
  intros mm (Hm & H4 & Hl). split; [by apply read_half_cases|]. intros H3. unfold is_u32 in Ha.
  destruct (Z.leb_spec (size mm) a); eexists; [by apply memory_invalid|].
  apply memory_read_half_ok; done || lia.
Qed.

Lemma safe_read_byte a v :
  is_u32 a -> is_u8 v -> safe (arm_read_byte a v) (fun rv => is_u8 rv.2).
Proof.
  intros Ha Hv. apply safe_mem_read; [|intros; by apply log_memory_q].
  intros mm (Hm & H4 & Hl). unfold is_u32 in Ha.
  assert (Hx : exists x, memory_read_byte a v mm = Ret x mm /\ is_u8 x.2).
  { destruct (Z.leb_spec (size mm) a).
    - exists (DATA_ABORT, v). split; [by apply memory_invalid|done].
    - exists (0, byte_at mm a). split; [apply memory_read_byte_ok; done || lia|by apply byte_at_range]. }
  split; [by left|]. intros _. destruct Hx as (x & E & _). by exists x.
Qed.

(** Memory writes. *)
Lemma safe_mem_write (c : M memory_data Z) (log : M machine unit) :
  (forall mm, mem_roomy mm -> exists x mm', c mm = Ret x mm' /\ mem_roomy mm') ->
  (forall s, quiet s -> log s = Ret tt s) ->
  safe (let! x := in_mem c in log ;;; ret x) (fun _ => True).
Proof.
  intros Hc Hl s Hs. destruct (Hs) as (Hq & Hg & Hm & Hcy).
  destruct (Hc _ Hm) as (x & mm' & E & Hm'). unfold in_mem.
  rewrite (bind_ret _ _ _ _ _ (zoom_ret mem_lens _ _ _ _ E)).
  rewrite (bind_ret _ _ _ tt (set_mem mm' s)) by (apply Hl; done). by split_and!.
Qed.

Lemma roomy_put_word mm a v : mem_roomy mm -> mem_roomy (put_word mm a v).
Proof. intros (? & ? & ?). split_and!; auto with crange. simpl. by rewrite !length_aset. Qed.
Lemma roomy_put_half mm a v : mem_roomy mm -> mem_roomy (put_half mm a v).
Proof. intros (? & ? & ?). split_and!; auto with crange. simpl. by rewrite !length_aset. Qed.
Lemma roomy_put_byte mm a v : mem_roomy mm -> mem_roomy (put_byte mm a v).
Proof. intros (? & ? & ?). split_and!; auto with crange. simpl. by rewrite !length_aset. Qed.

Lemma safe_write_word a v : is_u32 a -> is_u32 v -> safe (arm_write_word a v) (fun _ => True).
Proof.
  intros Ha Hv. apply safe_mem_write; [|intros; by apply log_memory_q].
  intros mm Hmm. destruct (Hmm) as (Hm & H4 & Hl). unfold is_u32 in Ha.
  destruct (Z.leb_spec (size mm) a); [exists DATA_ABORT, mm; split; [by apply memory_invalid|done]|].
  destruct (Z.eq_dec (a mod 4) 0);
    [|exists DATA_ABORT, mm; split; [by apply memory_write_word_misaligned|done]].
  pose proof (aligned_room a (size mm) 4 ltac:(lia) ltac:(lia) ltac:(done) H4).
  destruct Hm as (? & ? & ?).
  exists 0, (put_word mm a v). split; [apply memory_write_word_ok; done || lia|].
  by apply roomy_put_word.
Qed.

Lemma safe_write_half a v : is_u32 a -> is_u16 v -> safe (arm_write_half a v) (fun _ => True).
Proof.
  intros Ha Hv. apply safe_mem_write; [|intros; by apply log_memory_q].
  intros mm Hmm. destruct (Hmm) as (Hm & H4 & Hl). unfold is_u32 in Ha.
  destruct (Z.leb_spec (size mm) a); [exists DATA_ABORT, mm; split; [by apply memory_invalid|done]|].
  destruct (Z.eq_dec (a mod 2) 0);
    [|exists DATA_ABORT, mm; split; [by apply memory_write_half_misaligned|done]].
  assert (size mm mod 2 = 0) as H2 by (Z.div_mod_to_equations; lia).
  pose proof (aligned_room a (size mm) 2 ltac:(lia) ltac:(lia) ltac:(done) H2).
  destruct Hm as (? & ? & ?).
  exists 0, (put_half mm a v). split; [apply memory_write_half_ok; done || lia|].
  by apply roomy_put_half.
Qed.

Lemma safe_write_byte a v : is_u32 a -> is_u8 v -> safe (arm_write_byte a v) (fun _ => True).
Proof.
  intros Ha Hv. apply safe_mem_write; [|intros; by apply log_memory_q].
  intros mm Hmm. destruct (Hmm) as (Hm & H4 & Hl). unfold is_u32 in Ha.
  destruct (Z.leb_spec (size mm) a); [exists DATA_ABORT, mm; split; [by apply memory_invalid|done]|].
  exists 0, (put_byte mm a v). split; [apply memory_write_byte_ok; done || lia|].
  by apply roomy_put_byte.
Qed.
End accesses.

(** ** The handlers *)

Section handlers.
Context `{Host}.

Lemma set_first_byte_range val b : is_u32 val -> is_u8 b -> is_u32 (set_first_byte val b).
Proof.
  intros Hv Hb. unfold set_first_byte. case_match; apply u32_lor; auto with crange.
  rewrite Z.shiftl_mul_pow2 by lia. unfold is_u8, is_u32 in *. lia.
Qed.
Lemma set_first_half_range val h : is_u32 val -> is_u16 h -> is_u32 (set_first_half val h).
Proof.
  intros Hv Hb. unfold set_first_half. case_match; apply u32_lor; auto with crange;
    rewrite ?Z.shiftl_mul_pow2 by lia; unfold is_u16, is_u32 in *; lia.
Qed.
Lemma first_byte_range val : is_u32 val -> is_u8 (first_byte val).
Proof.
  intros Hv. unfold first_byte. case_match; auto with crange.
  rewrite Z.shiftr_div_pow2 by lia. unfold is_u8, is_u32 in *.
  split; [apply Z.div_pos; lia|apply Z.div_lt_upper_bound; lia].
Qed.
Lemma first_half_range val : is_u32 val -> is_u16 (first_half val).
Proof.
  intros Hv. unfold first_half. case_match; auto with crange.
  rewrite Z.shiftr_div_pow2 by lia. unfold is_u16, is_u32 in *.
  split; [apply Z.div_pos; lia|apply Z.div_lt_upper_bound; lia].
Qed.

Lemma safe_addressing_mode ins : is_u32 ins -> safe (addressing_mode ins) is_u32.
Proof.
  intros Hi. apply (safe_eq _ _ (ls_offset ins) id). intros s Hs. destruct (Hs) as (Hq & Hg & _).
  split; [by apply addressing_mode_q|]. split; [by apply ls_offset_range|done].
Qed.

Lemma safe_ls_read half byte a val :
  is_u32 a -> is_u32 val -> safe (ls_read half byte a val) is_u32.
Proof.
  intros Ha Hv. unfold ls_read. repeat apply safe_if.
  - eapply safe_bind; [apply safe_at_line, safe_read_half; auto using first_half_range|].
    intros rv Hrv. by apply safe_ret, set_first_half_range.
  - eapply safe_bind; [apply safe_at_line, safe_read_byte; auto using first_byte_range|].
    intros rv Hrv. by apply safe_ret, set_first_byte_range.
  - eapply safe_bind; [apply safe_at_line, safe_read_word; auto|].
    intros rv [Hrv _]. by apply safe_ret.
Qed.

Lemma safe_ls_write half byte a val :
  is_u32 a -> is_u32 val -> safe (ls_write half byte a val) (fun _ => True).
Proof.
  intros Ha Hv. unfold ls_write. repeat apply safe_if; apply safe_at_line.
  - apply safe_write_half; auto with crange.
  - apply safe_write_byte; auto with crange.
  - by apply safe_write_word.
Qed.

Lemma safe_printf str : safe (in_trace (printf str)) (fun _ => True).
Proof. apply (safe_eq _ _ (fun _ => tt) (say [str])). intros s Hs. by split_and!. Qed.

Lemma safe_print_if b str : safe (when b (in_trace (printf str))) (fun _ => True).
Proof. apply safe_when, safe_printf. Qed.

(** Code after a line printed. *)
Lemma safe_says {A} str (c : M machine A) Q : safe c Q -> safe (in_trace (printf str) ;;; c) Q.
Proof. intros Hc. eapply safe_bind; [apply safe_printf|]. by intros _ _. Qed.

Lemma safe_ls_print ins Rd Rn v a load w : is_u32 ins -> safe (ls_print ins Rd Rn v a load w) (fun _ => True).
Proof.
  intros Hi. unfold ls_print. apply safe_says. eapply safe_bind; [by apply safe_addressing_mode|]. intros o _.
  apply safe_says. eapply safe_bind; [apply safe_print_if|]. intros _ _. apply safe_printf.
Qed.

Lemma safe_lsm_print Rn i b load w : safe (lsm_print Rn i b load w) (fun _ => True).
Proof.
  unfold lsm_print. do 4 apply safe_says. eapply safe_bind; [apply safe_print_if|]. intros _ _. apply safe_printf.
Qed.

(** [c], or the address plus an offset when [b]. *)
Lemma safe_offset (b : bool) ins a :
  is_u32 ins -> is_u32 a ->
  safe (if b then let! off := addressing_mode ins in ret (u32 (a + off)) else ret a) is_u32.
Proof.
  intros Hi Ha. apply safe_if; [|by apply safe_ret].
  eapply safe_bind; [by apply safe_addressing_mode|]. intros. apply safe_ret, u32_range.
Qed.

Lemma safe_load_store ins : is_u32 ins -> safe (arm_load_store ins) (fun _ => True).
Proof.
  intros Hi. unfold arm_load_store.
  pose proof (field_reg ins 16) as F16. pose proof (field_reg ins 12) as F12.
  change (16 + 3) with 19 in F16. change (12 + 3) with 15 in F12.
  rewrite !get_bits_field by (done || lia). rewrite !u8_small by (unfold is_u8; lia). cbv zeta.
  eapply safe_bind; [apply safe_uninit|]. intros val Hval.
  eapply safe_bind; [by apply safe_at_line, safe_read_register|]. intros base Hbase.
  eapply safe_bind; [by apply safe_offset|]. intros a Ha.
  apply (safe_bind _ _ (fun _ => True)).
  - apply safe_if.
    + eapply safe_bind; [by apply safe_ls_read|]. intros v Hv.
      apply (safe_bind _ _ (fun _ => True)); [|intros; by apply safe_ret].
      set (v' := if _ =? PC then _ else _).
      assert (is_u32 v') by (subst v'; case_match; auto with crange).
      apply safe_if; apply safe_at_line;
        [by apply safe_write_usr_register|by apply safe_write_register].
    + eapply safe_bind; [|intros v Hv; eapply safe_bind; [by apply safe_ls_write|intros; by apply safe_ret]].
      apply safe_if; apply safe_at_line;
        [by apply safe_read_usr_register|by apply safe_read_register].
  - intros r _. eapply safe_bind; [by apply safe_ls_print|]. intros _ _.
    apply (safe_bind _ _ (fun _ => True)); [|intros; by apply safe_ret].
    unfold ls_writeback. eapply safe_bind; [by apply safe_offset|]. intros b Hb.
    by apply safe_when, safe_at_line, safe_write_register.
Qed.

Lemma safe_lsm_body ins load Ri l :
  0 <= Ri < 16 -> is_u32 (l_address l) /\ is_u32 (l_val l) ->
  safe (lsm_body ins load Ri l) (fun l => is_u32 (l_address l) /\ is_u32 (l_val l)).
Proof.
  intros HR [Ha Hv]. unfold lsm_body. apply safe_if; [|by apply safe_ret]. apply safe_says.
  eapply (safe_bind _ _ (fun vr => is_u32 vr.1));
    [|intros vr Hvr; apply safe_ret; simpl; auto with crange].
  apply safe_if.
  - eapply safe_bind; [by apply safe_at_line, safe_read_word|]. intros rv [Hrv _]. cbv zeta.
    set (v' := if _ =? PC then _ else _).
    assert (is_u32 v') by (subst v'; case_match; auto with crange).
    eapply safe_bind; [by apply safe_at_line, safe_write_register|]. intros. by apply safe_ret.
  - eapply safe_bind; [by apply safe_at_line, safe_read_register|]. intros v' Hv'.
    eapply safe_bind; [by apply safe_at_line, safe_write_word|]. intros. by apply safe_ret.
Qed.

Lemma safe_load_store_multiple ins :
  is_u32 ins -> safe (arm_load_store_multiple ins) (fun _ => True).
Proof.
  intros Hi. unfold arm_load_store_multiple.
  pose proof (field_reg ins 16) as F16. change (16 + 3) with 19 in F16.
  rewrite !get_bits_field by (done || lia). rewrite !u8_small by (unfold is_u8; lia). cbv zeta.
  eapply safe_bind; [apply safe_uninit|]. intros val Hval.
  eapply safe_bind; [apply safe_uninit|]. intros res Hres.
  eapply safe_bind; [by apply safe_at_line, safe_read_register|]. intros base Hbase.
  eapply safe_bind; [apply safe_lsm_print|]. intros _ _.
  rewrite lsm_low_fold by (done || apply reg_indices_range).
  set (a := if _ =? _ then _ else _).
  assert (Ha : is_u32 a) by (subst a; repeat case_match; auto with crange).
  eapply safe_bind.
  { apply (safe_for _ _ (fun l => is_u32 (l_address l) /\ is_u32 (l_val l))); [done|].
    intros x l Hx Hl. apply safe_lsm_body; [|done].
    by apply (proj1 (List.Forall_forall _ _) reg_indices_range). }
  intros l Hl. apply safe_says. apply (safe_bind _ _ (fun _ => True)); [|intros; by apply safe_ret].
  apply safe_when, safe_if; apply safe_at_line, safe_write_register; auto with crange.
Qed.

Lemma safe_data_processing ins : is_u32 ins -> safe (arm_data_processing ins) (fun _ => True).
Proof.
  intros Hi. apply (safe_eq _ _ (fun _ => 0) (fun s => say (dp_text ins s) (dp_state ins s))).
  intros s (Hq & Hg & Hm & Hc). split; [by apply arm_data_processing_q|]. split; [done|].
  destruct (dp_state_ok ins s Hg) as (Hr' & Em & Ec). unfold inv. rewrite mem_say, arm_say, Em, Ec.
  split_and!; try done; try apply Hm. apply quiet_say. unfold quiet. by rewrite dp_state_trace.
Qed.

Lemma safe_branch ins : safe (arm_branch ins) (fun _ => True).
Proof.
  apply (safe_eq _ _ (fun _ => 0) (branch_state ins)). intros s (Hq & Hg & Hm & Hc).
  split; [by apply arm_branch_q|]. split; [done|].
  destruct (branch_state_ok ins s Hg) as (Hr' & Em & Ec). unfold inv. rewrite Em, Ec.
  split_and!; try done; try apply Hm.
  unfold quiet, branch_state in *. by destruct (Z.testbit ins 24).
Qed.

Lemma safe_swi ins : safe (arm_coprocessor_others_swi ins) (fun _ => True).
Proof.
  unfold arm_coprocessor_others_swi. repeat apply safe_if; try by apply safe_ret. done.
Qed.

Lemma safe_exception e : e <> RESET -> safe (arm_exception e) (fun _ => True).
Proof.
  intros He. apply (safe_eq _ _ (fun _ => tt) (exception_state e)). intros s (Hq & Hg & Hm & Hc).
  split; [by apply arm_exception_q|]. split; [done|].
  destruct (exception_state_regs s Hg e) as (Hr' & _).
  split_and!; try done; unfold exception_state, quiet in *; destruct (exception_cpsr _ _); done.
Qed.
End handlers.
End spare.
