(* ===== verification/Instruction.v ===== *)
(** * [arm_instruction.c]: fetch, condition, dispatch, and the step function *)
From S2P Require Import Prelude CInt Constants Memory Registers Format Trace Core CoreFacts Exception Branch Shifter DataProcessing LoadStore Safety.

#[local] Open Scope string_scope.
#[local] Open Scope Z_scope.

Definition MASK_COND : Z := u32 (Z.shiftl 15 28).
Definition MASK_N : Z := u32 (Z.shiftl 1 31).
Definition MASK_Z : Z := Z.shiftl 1 30.
Definition MASK_C : Z := Z.shiftl 1 29.
Definition MASK_V : Z := Z.shiftl 1 28.
Definition MASK_TYPE : Z := Z.shiftl 7 25.

(** Lines 60-107: whether the instruction is executed ([true]) or skipped. *)
Definition condition_passed (cond n z c v : Z) : bool :=
  if cond =? EQ then nz z else
  if cond =? NE then negb (nz z) else
  if cond =? CS then nz c else
  if cond =? CC then negb (nz c) else
  if cond =? MI then nz n else
  if cond =? PL then negb (nz n) else
  if cond =? VS then nz v else
  if cond =? VC then negb (nz v) else
  if cond =? HI then nz c && negb (nz z) else
  if cond =? LS then negb (nz c) || nz z else
  if cond =? GE then negb (negb (n =? v)) else
  if cond =? LT then negb (n =? v) else
  if cond =? GT then negb (nz z) && (n =? v) else
  if cond =? LE then nz z || negb (n =? v) else
  true.

Section with_host.
Context `{Host}.

(** Lines 110-141: the handlers' results are dropped. *)
Definition dispatch (ins : Z) : M machine Z :=
  let type := Z.shiftr (Z.land ins MASK_TYPE) 25 in
  if type =? DATA_PROCESSING_SHIFT then
    (if nz (Z.land (Z.shiftr ins 4) 1) && nz (Z.land (Z.shiftr ins 7) 1)
     then arm_load_store ins else arm_data_processing ins) ;;; ret 0
  else if type =? DATA_PROCESSING_IMMEDIATE then arm_data_processing ins ;;; ret 0
  else if type =? LOAD_STORE_IMMEDIATE then arm_load_store ins ;;; ret 0
  else if type =? LOAD_STORE_REGISTER then arm_load_store ins ;;; ret 0
  else if type =? LOAD_STORE_MULTIPLE then arm_load_store_multiple ins ;;; ret 0
  else if type =? BRANCH then arm_branch ins ;;; ret 0
  else if type =? COPROCESSOR_OTHERS_SWI then arm_coprocessor_others_swi ins ;;; ret 0
  else ret UNDEFINED_INSTRUCTION.

Definition arm_execute_instruction : M machine Z :=
  let! ins := uninit32 in
  let! cpsr := at_line instruction_file 50 arm_read_cpsr in
  let n := u8 (Z.shiftr (Z.land cpsr MASK_N) 31) in
  let z := u8 (Z.shiftr (Z.land cpsr MASK_Z) 30) in
  let c := u8 (Z.shiftr (Z.land cpsr MASK_C) 29) in
  let v := u8 (Z.shiftr (Z.land cpsr MASK_V) 28) in
  let! ri := at_line instruction_file 56 (arm_fetch ins) in
  let '(result, ins) := ri in
  if nz result then ret result else
  if negb (condition_passed (Z.shiftr (Z.land ins MASK_COND) 28) n z c v) then ret 0
  else dispatch ins.

Definition arm_step : M machine Z :=
  let! result := arm_execute_instruction in
  when (nz result) (arm_exception result) ;;;
  ret result.
End with_host.

(** ** The step as a function of the machine *)

(** The flags in the CPSR. *)
Definition flag (s : machine) (i : Z) : bool := Z.testbit (cpsr_of (regs s)) i.
Definition passes (cond : Z) (s : machine) : bool :=
  condition_passed cond (b2z (flag s FLAG_N)) (b2z (flag s FLAG_Z))
    (b2z (flag s FLAG_C)) (b2z (flag s FLAG_V)).

(** The address of the instruction fetched and the state after the fetch. *)
Definition fetch_address (s : machine) : Z := u32 (pc_read (pc_of s) - 4).
Definition fetch_state (s : machine) : machine :=
  upd_reg 15 (u32 (fetch_address s + 4)) (set_cycle (u32 (cycle_count (arm s) + 1)) s).

Lemma flag_field x i : 0 <= i -> u8 (Z.shiftr (Z.land x (Z.shiftl 1 i)) i) = b2z (Z.testbit x i).
Proof.
  intros Hi. rewrite <- mask1_bit by done. change 1 with (Z.ones 1) at 1 2.
  rewrite mask_field by lia. pose proof (field_range x (i + 1 - 1) i ltac:(lia)) as Hf.
  replace (i + 1 - 1 - i + 1) with 1 in Hf by lia. change (2 ^ 1) with 2 in Hf.
  rewrite u8_small by (unfold is_u8; lia).
  assert (E : field x (i + 1 - 1) i = 0 \/ field x (i + 1 - 1) i = 1) by lia.
  by destruct E as [-> | ->].
Qed.

Section pure.
Context `{Host}.

Lemma arm_fetch_q v rv s :
  quiet s -> regs_ok (regs s) ->
  memory_read_word (fetch_address s) v (mem s) = Ret rv (mem s) ->
  arm_fetch v s = Ret rv (fetch_state s).
Proof.
  intros Hq Hr E. unfold arm_fetch, fetch_state. 
  rewrite (bind_ret _ _ s (cycle_count (arm s)) s) by done.
  set (s1 := set_cycle (u32 (cycle_count (arm s) + 1)) s).
  rewrite (bind_ret _ _ s tt s1) by done.
  assert (Hq1 : quiet s1) by done. assert (Hr1 : regs_ok (regs s1)) by done.
  mstep. rewrite rval_15. change (pc_of s1) with (pc_of s). fold (fetch_address s).
  rewrite (bind_ret _ _ _ rv s1) by by apply in_mem_read.
  rewrite (bind_ret _ _ _ _ _ (log_memory_q _ _ _ _ _ _ Hq1)).
  assert (Hu : is_u32 (u32 (fetch_address s + 4))) by auto with crange. mstep. done.
Qed.

Lemma arm_fetch_undef_q v u s :
  quiet s -> regs_ok (regs s) ->
  memory_read_word (fetch_address s) v (mem s) = Undef u -> arm_fetch v s = Undef u.
Proof.
  intros Hq Hr E. unfold arm_fetch.
  rewrite (bind_ret _ _ s (cycle_count (arm s)) s) by done.
  set (s1 := set_cycle (u32 (cycle_count (arm s) + 1)) s).
  rewrite (bind_ret _ _ s tt s1) by done.
  assert (Hq1 : quiet s1) by done. assert (Hr1 : regs_ok (regs s1)) by done.
  mstep. rewrite rval_15. change (pc_of s1) with (pc_of s). fold (fetch_address s).
  by apply bind_undef, zoom_undef.
Qed.

Lemma fetch_state_ok s :
  regs_ok (regs s) -> regs_ok (regs (fetch_state s)) /\ mem (fetch_state s) = mem s /\
  cycle_count (arm (fetch_state s)) = u32 (cycle_count (arm s) + 1).
Proof. intros. unfold fetch_state. split_and!; auto with crange. Qed.

(** Execution up to the dispatch. *)
Lemma execute_q s ins :
  quiet s -> regs_ok (regs s) ->
  memory_read_word (fetch_address s) (val0 s) (mem s) = Ret (0, ins) (mem s) ->
  arm_execute_instruction s =
  if passes (field ins 31 28) s then dispatch ins (fetch_state (alloc s))
  else Ret 0 (fetch_state (alloc s)).
Proof.
  intros Hq Hr E. unfold arm_execute_instruction. rewrite (bind_ret _ _ _ _ _ (uninit32_q s)).
  assert (Hq1 : quiet (alloc s)) by done. assert (Hr1 : regs_ok (regs (alloc s))) by done.
  mstep. unfold MASK_Z, MASK_C, MASK_V, MASK_COND, MASK_N. 
  change (u32 (Z.shiftl 1 31)) with (Z.shiftl 1 31). change (u32 (Z.shiftl 15 28)) with (Z.shiftl 15 28).
  rewrite !flag_field by lia.
  rewrite (bind_ret _ _ _ (0, ins) (fetch_state (alloc s))); cycle 1.
  { apply at_line_ret; [by apply arm_fetch_q|done..]. }
  cbv beta iota. change (nz 0) with false. cbv iota.
  rewrite mask15_field by lia. change (28 + 3) with 31.
  change (condition_passed _ _ _ _ _) with (passes (field ins 31 28) s).
  by destruct (passes (field ins 31 28) s).
Qed.

Lemma execute_abort_q s r v :
  quiet s -> regs_ok (regs s) -> nz r = true ->
  memory_read_word (fetch_address s) (val0 s) (mem s) = Ret (r, v) (mem s) ->
  arm_execute_instruction s = Ret r (fetch_state (alloc s)).
Proof.
  intros Hq Hr Hz E. unfold arm_execute_instruction. rewrite (bind_ret _ _ _ _ _ (uninit32_q s)).
  assert (Hq1 : quiet (alloc s)) by done. assert (Hr1 : regs_ok (regs (alloc s))) by done.
  mstep. rewrite (bind_ret _ _ _ (r, v) (fetch_state (alloc s))); cycle 1.
  { apply at_line_ret; [by apply arm_fetch_q|done..]. }
  cbv beta iota. by rewrite Hz.
Qed.
End pure.

(** ** The step and the trace *)

Section transparency.
Context `{Host}.

Lemma memory_read_word_value a v mm rv mm' :
  memory_read_word a v mm = Ret rv mm' -> rv.1 = 0 -> is_u32 rv.2.
Proof.
  unfold memory_read_word. intros (bad & m1 & _ & E)%bind_inv.
  destruct bad; [by injection E as <- _|].
  apply bind_inv in E as (be & m2 & _ & E). destruct (nz be).
  all: do 4 (apply bind_inv in E as (? & ? & _ & E)).
  all: injection E as <- _; intros _; apply u32_range.
Qed.

Lemma arm_fetch_value v s rv s' : arm_fetch v s = Ret rv s' -> rv.1 = 0 -> is_u32 rv.2.
Proof.
  unfold arm_fetch. intros (? & ? & _ & E)%bind_inv.
  apply bind_inv in E as (? & ? & _ & E). apply bind_inv in E as (? & ? & _ & E).
  apply bind_inv in E as (rv' & ? & Er & E). apply bind_inv in E as (? & ? & _ & E).
  apply bind_inv in E as (? & ? & _ & E). injection E as <- _.
  apply zoom_inv in Er as (? & Er & _). by eapply memory_read_word_value.
Qed.

Lemma dispatch_transparent ins : is_u32 ins -> transparent 2 (dispatch ins).
Proof.
  intros Hi. unfold dispatch.
  pose proof (arm_load_store_transparent ins Hi).
  pose proof (arm_load_store_multiple_transparent ins Hi).
  pose proof (arm_data_processing_transparent ins Hi).
  pose proof (arm_branch_transparent ins). pose proof (arm_swi_transparent ins).
  transp.
Qed.

Lemma execute_transparent : transparent 2 arm_execute_instruction.
Proof.
  unfold arm_execute_instruction. apply transparent_bind; [transp|]. intros ins0.
  apply transparent_bind; [transp|]. intros cpsr. cbv zeta.
  apply (transparent_bind_val _ _ _ (fun rv => rv.1 = 0 -> is_u32 rv.2)); [transp| |].
  - intros s rv s' E. unfold at_line in E. apply bind_inv in E as (? & ? & _ & E).
    apply bind_inv in E as (rv' & ? & Er & E). apply bind_inv in E as (? & ? & _ & E).
    injection E as <- _. by eapply arm_fetch_value.
  - intros [r ins] Hi. simpl in Hi. unfold nz at 1. destruct (Z.eqb_spec r 0) as [->|].
    + apply transparent_if; [transp|]. apply transparent_if; [transp|].
      apply dispatch_transparent. by apply Hi.
    + apply transparent_ret.
Qed.

Lemma arm_step_transparent : transparent 2 arm_step.
Proof.
  unfold arm_step. apply transparent_bind; [apply execute_transparent|]. intros r.
  apply transparent_bind; [apply transparent_when, arm_exception_transparent|].
  intros _. apply transparent_ret.
Qed.

Context (room : Z).

Lemma safe_dispatch ins :
  is_u32 ins -> safe room (dispatch ins) (fun r => r = 0 \/ r = UNDEFINED_INSTRUCTION).
Proof.
  intros Hi. unfold dispatch.
  assert (Hseq : forall c : M machine Z, safe room c (fun _ => True) ->
            safe room (c ;;; ret 0) (fun r => r = 0 \/ r = UNDEFINED_INSTRUCTION)).
  { intros c Hc. eapply safe_bind; [done|]. intros. apply safe_ret. by left. }
  repeat lazymatch goal with |- safe _ (if _ then _ else _) _ => apply safe_if end.
  8: apply safe_ret; by right.
  all: apply Hseq. 1: apply safe_if.
  all: auto using safe_load_store, safe_data_processing, safe_load_store_multiple,
    safe_branch, safe_swi.
Qed.

Lemma safe_fetch v :
  is_u32 v -> safe room (arm_fetch v) (fun rv => is_u32 rv.2 /\ (rv.1 = 0 \/ rv.1 = DATA_ABORT)).
Proof.
  intros Hv s (Hq & Hg & Hm & Hc). destruct (fetch_state_ok s Hg) as (Hr' & Em & Ec).
  assert (Hinv : inv room (fetch_state s)).
  { split_and!; try done; try apply Hm. rewrite Ec. auto with crange. }
  destruct (read_word_cases (fetch_address s) v (mem s)) as [(rv & E & HQ)|E]; try done; try apply Hm.
  - rewrite (arm_fetch_q v rv); auto.
  - rewrite (arm_fetch_undef_q v OutOfBounds); auto. split; [done|].
    destruct (Z.lt_ge_cases room 3); [done|]. destruct Hm as (Hm & _ & Hl).
    assert (Hf : is_u32 (fetch_address s)) by apply u32_range. unfold is_u32 in Hf.
    destruct (Z.leb_spec (size (mem s)) (fetch_address s)).
    + destruct (memory_invalid (mem s) (fetch_address s) v) as (_ & _ & E' & _); congruence.
    + rewrite memory_read_word_ok in E; done || lia.
Qed.

Lemma safe_execute :
  safe room arm_execute_instruction
    (fun r => r = 0 \/ r = DATA_ABORT \/ r = UNDEFINED_INSTRUCTION).
Proof.
  unfold arm_execute_instruction. eapply safe_bind; [apply safe_uninit|]. intros ins0 Hi0.
  apply (safe_bind _ _ _ (fun _ => True)).
  { apply safe_at_line, (safe_eq _ _ _ (fun s => cpsr_of (regs s)) id).
    intros s Hs. split; [by apply arm_read_cpsr_q; apply Hs|done]. }
  intros cpsr _. cbv zeta. eapply safe_bind; [by apply safe_at_line, safe_fetch|].
  intros [r ins] [Hi Hr]. cbn [fst snd] in *. apply safe_if; [apply safe_ret; tauto|].
  apply safe_if; [apply safe_ret; tauto|].
  eapply safe_weaken; [|by apply safe_dispatch]. simpl. tauto.
Qed.

Lemma safe_step :
  safe room arm_step (fun r => r = 0 \/ r = DATA_ABORT \/ r = UNDEFINED_INSTRUCTION).
Proof.
  unfold arm_step. eapply safe_bind; [apply safe_execute|]. intros r Hr.
  apply (safe_bind _ _ _ (fun _ => True)); [|intros; by apply safe_ret].
  destruct Hr as [-> | Hr]; [by apply safe_ret|].
  apply safe_when, safe_exception. destruct Hr as [-> | ->]; done.
Qed.
End transparency.

(** ** Properties *)

#[export] Instance fetch_state_proper : Proper ((≡) ==> (≡)) fetch_state.
Proof.
  intros s1 s2 Hs. unfold fetch_state, fetch_address.
  by rewrite (pc_of_proper _ _ Hs), (arm_proper _ _ Hs), Hs.
Qed.

(** What can happen to the processor: a step, or an exception raised from
    outside (the interrupts of [arm_simulator.c]). *)
Inductive reachable `{Host} (s0 : machine) : machine -> Prop :=
| reach_start : reachable s0 s0
| reach_step s r s' : reachable s0 s -> arm_step s = Ret r s' -> reachable s0 s'
| reach_exception s e s' :
    reachable s0 s -> is_u8 e -> arm_exception e s = Ret tt s' -> reachable s0 s'.

Section properties.
Context `{Host}.

(** [safe] code in any state of the trace. *)
Lemma safe_run {A} room (c : M machine A) Q s :
  safe room c Q -> transparent 2 c -> machine_ok s -> mem_roomy room (mem s) ->
  (exists x s', c s = Ret x s' /\ Q x /\ machine_ok s' /\ mem_roomy room (mem s')) \/
  (exists s', c s = Exit 0 s') \/
  (c s = Undef OutOfBounds /\ room < 3).
Proof.
  intros Hs Ht Hok Hm. destruct (Hok) as (Hr & Hmm & Hc & Htr).
  specialize (Hs (hush s) ltac:(by split_and!; try apply Hm)).
  destruct (c (hush s)) as [x s1|code s1| |u] eqn:E; try done.
  - left. destruct Hs as [HQ (_ & Hr1 & Hm1 & Hc1)].
    destruct (transparent_run _ _ _ _ _ Ht Htr E) as (s' & E' & (E1 & E2 & _) & Hst).
    exists x, s'. unfold machine_ok. rewrite E1, E2. split_and!; try done; try apply Hm1.
    by eapply trace_ok_step.
  - right; left. subst. destruct (transparent_run_exit _ _ _ _ _ Ht Htr E) as (s' & E' & _). eauto.
  - right; right. destruct Hs as [-> H3]. split; [|done].
    by apply (transparent_run_undef _ _ _ _ Ht Htr E).
Qed.

Lemma safe_reset room : safe room (arm_exception RESET) (fun _ => True).
Proof.
  apply (safe_eq _ _ _ (fun _ => tt) reset_state). intros s (Hq & Hg & Hm & Hc).
  split; [by apply arm_reset_q|]. split; [done|]. unfold reset_state.
  split_and!; try done; try apply Hm.
  apply regs_ok_upd_usr_reg; [apply regs_ok_upd_reg; [apply regs_ok_upd_cpsr; [done|]|]|]; u32_lit.
Qed.

Lemma safe_any_exception room e : safe room (arm_exception e) (fun _ => True).
Proof. destruct (Z.eq_dec e RESET) as [->|]; [apply safe_reset|by apply safe_exception]. Qed.

Lemma reachable_inv room s0 s :
  machine_ok s0 -> mem_roomy room (mem s0) -> reachable s0 s ->
  machine_ok s /\ mem_roomy room (mem s).
Proof.
  intros Hok0 Hm0 Hreach. induction Hreach as [|s r s' _ [Hok Hm] E|s e s' _ [Hok Hm] He E]; [done| |].
  - destruct (safe_run _ _ _ s (safe_step room) arm_step_transparent Hok Hm)
      as [(x & s1 & E1 & _ & ? & ?)|[(s1 & E1)|[E1 _]]]; rewrite E in E1; [|done..].
    by injection E1 as <- <-.
  - destruct (safe_run _ _ _ s (safe_any_exception room e) (arm_exception_transparent e) Hok Hm)
      as [(x & s1 & E1 & _ & ? & ?)|[(s1 & E1)|[E1 _]]]; rewrite E in E1; [|done..].
    by injection E1 as _ <-.
Qed.


(** C8: The trace observes and never interferes: two machines that differ
    only in the state and options of the trace (file, flags, enabled or not)
    take the same step: same result, same processor and memory, same text on
    standard output, or the same abnormal end; and the trace's options and location
    stack are as before. *)
Theorem step_trace_independent s1 s2 :
  s1 ≡ s2 -> trace_ok 2 (trace s1) -> trace_ok 2 (trace s2) ->
  agree s1 s2 (arm_step s1) (arm_step s2).
Proof. apply arm_step_transparent. Qed.

(** The instruction at the program counter. *)
Definition instruction_at (s : machine) (addr ins : Z) : Prop :=
  pc_of s = addr /\ addr mod 4 = 0 /\ 0 <= addr /\
  addr < size (mem s) /\ addr + 3 < Z.of_nat (length (m (mem s))) /\ word_at (mem s) addr = ins.

Lemma instruction_at_fetch s addr ins v :
  machine_ok s -> instruction_at s addr ins ->
  fetch_address s = addr /\ is_u32 ins /\
  memory_read_word addr v (mem s) = Ret (0, ins) (mem s) /\
  pc_of (fetch_state (alloc s)) = u32 (addr + 4).
Proof.
  intros (Hr & Hm & Hc & _) (Hpc & Hal & H0 & Ha & Hl & <-). destruct (Hm) as (_ & ? & ?).
  assert (Ef : fetch_address s = addr).
  { unfold fetch_address. rewrite Hpc, pc_read_aligned, u32_sub_l by done.
    replace (addr + 4 - 4) with addr by lia. apply u32_small. unfold is_u32. lia. }
  split_and!; [done|auto with crange|apply memory_read_word_ok; done || lia|].
  unfold fetch_state. rewrite pc_upd_reg_15 by done.
  change (fetch_address (alloc s)) with (fetch_address s). by rewrite Ef.
Qed.

(** A step whose instruction is skipped. *)
Lemma step_skip_q s ins :
  quiet s -> regs_ok (regs s) -> passes (field ins 31 28) s = false ->
  memory_read_word (fetch_address s) (val0 s) (mem s) = Ret (0, ins) (mem s) ->
  arm_step s = Ret 0 (fetch_state (alloc s)).
Proof.
  intros Hq Hr Hp E. unfold arm_step. by rewrite (bind_ret _ _ _ 0 (fetch_state (alloc s)))
    by (rewrite (execute_q s ins), Hp by done; done).
Qed.

Lemma step_run r s s1 :
  machine_ok s -> arm_step (hush s) = Ret r s1 ->
  regs_ok (regs s1) -> mem_ok (mem s1) -> is_u32 (cycle_count (arm s1)) ->
  exists s', arm_step s = Ret r s' /\ s' ≡ s1 /\ machine_ok s'.
Proof. intros Hok E. by apply run_ok; [apply arm_step_transparent|..]. Qed.

(** An instruction whose condition does not hold has no effect but the
    fetch: the program counter moves to the next instruction and the cycle
    count increases; no other register, no status bit, no memory changes. *)
Theorem step_condition_false s addr ins :
  machine_ok s -> instruction_at s addr ins -> passes (field ins 31 28) s = false ->
  exists s', arm_step s = Ret 0 s' /\ machine_ok s' /\ mem s' = mem s /\
    pc_of s' = u32 (addr + 4) /\ cycle_count (arm s') = u32 (cycle_count (arm s) + 1) /\
    forall i, i <> 15 -> rget (regs s') i = rget (regs s) i.
Proof.
  intros Hok Hins Hp. destruct (Hok) as (Hr & Hm & Hc & _).
  destruct (instruction_at_fetch s addr ins (val0 s) Hok Hins) as (Ef & _ & E & Epc).
  destruct (fetch_state_ok (alloc (hush s)) Hr) as (Hr' & Em' & Ec').
  destruct (step_run 0 s (fetch_state (alloc (hush s)))) as (s' & E' & Heq & Hok');
    [done| |done|by rewrite Em'|rewrite Ec'; auto with crange|].
  { apply (step_skip_q (hush s) ins); try done.
    change (fetch_address (hush s)) with (fetch_address s). by rewrite Ef. }
  exists s'. split; [done|]. split; [done|]. rewrite hush_equiv in Heq.
  rewrite (mem_proper _ _ Heq), (pc_of_proper _ _ Heq), (arm_proper _ _ Heq).
  split_and!; try done. intros i Hi. unfold fetch_state, upd_reg. simpl.
  change (slot _ 15) with 15. by apply rget_aset_ne.
Qed.
(** Decide a boolean combination of comparisons by arithmetic. *)
Ltac compare_eqs :=
  repeat match goal with
  | |- context [?x =? ?y] => destruct (Z.eqb_spec x y); simpl; try lia
  | |- context [?x <=? ?y] => destruct (Z.leb_spec x y); simpl; try lia
  | |- context [?x <? ?y] => destruct (Z.ltb_spec x y); simpl; try lia
  end; try done.

(** What the condition codes mean after a comparison of [x] with [y]. *)
Definition compares (cond x y : Z) : bool :=
  if cond =? EQ then x =? y else
  if cond =? NE then negb (x =? y) else
  if cond =? CS then y <=? x else
  if cond =? CC then x <? y else
  if cond =? HI then y <? x else
  if cond =? LS then x <=? y else
  if cond =? GE then s32 y <=? s32 x else
  if cond =? LT then s32 x <? s32 y else
  if cond =? GT then s32 y <? s32 x else
  s32 x <=? s32 y.

Definition comparison_codes : list Z := [EQ; NE; CS; CC; HI; LS; GE; LT; GT; LE].

Lemma compare_flags cond x y n z c v :
  In cond comparison_codes -> is_u32 x -> is_u32 y ->
  n = Z.testbit (u32 (x - y)) 31 -> z = (u32 (x - y) =? 0) -> c = (y <=? x) ->
  v = signed_overflow (s32 x - s32 y) ->
  condition_passed cond (b2z n) (b2z z) (b2z c) (b2z v) = compares cond x y.
Proof.
  intros Hin Hx Hy -> -> -> ->. rewrite testbit_31, u32_diff, !s32_cases, !testbit_31
    by auto with crange.
  unfold condition_passed, compares. rewrite !nz_b2z, !b2z_eqb, !s32_cases, !testbit_31 by done.
  unfold is_u32, signed_overflow in *.
  destruct (Z.leb_spec (2 ^ 31) x), (Z.leb_spec (2 ^ 31) y), (Z.leb_spec y x).
  all: repeat (destruct Hin as [<- | Hin]; [simpl; compare_eqs|]); done.
Qed.
(** C23: Comparison and condition.  After CMP of a non-zero register with an
    operand whose shifter carry is clear (an immediate, LSL 0 to 31, LSR or ROR 1
    to 31, or RRX), each comparison condition (EQ, NE, CS,
    CC, HI, LS, GE, LT, GT, LE) holds exactly when the unsigned or signed
    comparison it is named after does. *)
Theorem compare_conditions `{!RotateHost} s ins cond :
  machine_ok s -> is_u32 ins -> Z.testbit ins 20 = true -> restores_cpsr ins s = false ->
  plain_operand ins s = true -> field ins 24 21 = CMP -> shifter_carry ins s = false ->
  let Rn := rval s (field ins 19 16) in let Op := (arch_operand ins s).1 in
  Rn <> 0 -> In cond comparison_codes ->
  exists s', arm_data_processing ins s = Ret 0 s' /\ machine_ok s' /\
    passes cond s' = compares cond Rn Op.
Proof.
  intros Hok Hi Hs Hn Hp Ho Hsc Rn Op HR0 Hin. destruct (Hok) as (Hr & _).
  destruct (dp_flags_run s ins Hok Hi Hs Hn Hp) as (s' & E & Hok' & _ & Hb). exists s'.
  split; [done|]. split; [done|]. fold Rn Op in Hb. rewrite Ho, Hsc, (nz_true Rn) in Hb by done.
  assert (HR : is_u32 Rn) by by apply rval_range.
  assert (HO : is_u32 Op) by (unfold Op; rewrite <- dp_opd_plain by done; apply dp_opd_range).
  destruct (sub_flags Rn Op HR HO) as [Sc Sv]. change (arch_result CMP Rn Op _) with (u32 (Rn - Op)) in Hb.
  change (dp_adjust CMP Op _) with Op in Hb.
  apply compare_flags; try done; unfold flag; rewrite Hb by done.
  - done.
  - done.
  - by rewrite <- Sc.
  - by rewrite <- Sv.
Qed.

(** The handler is chosen by bits 27 to 25. *)
Lemma type_field ins : Z.shiftr (Z.land ins MASK_TYPE) 25 = field ins 27 25.
Proof. unfold MASK_TYPE. change 7 with (Z.ones 3). by rewrite mask_field by lia. Qed.

Lemma dispatch_branch ins : field ins 27 25 = BRANCH -> dispatch ins = (arm_branch ins ;;; ret 0).
Proof. intros Ht. unfold dispatch. by rewrite type_field, Ht. Qed.

Lemma dispatch_swi ins :
  field ins 27 25 = COPROCESSOR_OTHERS_SWI ->
  dispatch ins = (arm_coprocessor_others_swi ins ;;; ret 0).
Proof. intros Ht. unfold dispatch. by rewrite type_field, Ht. Qed.

(** A step at a branch instruction: if its condition holds, execution
    continues at the instruction's address plus 8 plus four times the signed
    offset, and with the link bit the link register holds the address of the
    next instruction; otherwise execution continues there. *)
Theorem step_branch s addr ins :
  machine_ok s -> instruction_at s addr ins -> field ins 27 25 = BRANCH ->
  let taken := passes (field ins 31 28) s in
  exists s', arm_step s = Ret 0 s' /\ machine_ok s' /\ mem s' = mem s /\
    pc_of s' = u32 (if taken then addr + 8 + 4 * branch_words ins else addr + 4) /\
    rval s' LR = (if taken && Z.testbit ins 24 then u32 (addr + 4) else rval s LR) /\
    cpsr_of (regs s') = cpsr_of (regs s).
Proof.
  intros Hok Hins Ht taken. destruct (Hok) as (Hr & Hm & Hc & _).
  destruct (instruction_at_fetch s addr ins (val0 s) Hok Hins) as (Ef & Hi & E & Epc).
  destruct Hins as (_ & Hal & _).
  set (s1 := fetch_state (alloc (hush s))).
  destruct (fetch_state_ok (alloc (hush s)) Hr) as (Hr1 & Em1 & Ec1). fold s1 in Hr1, Em1, Ec1.
  destruct (branch_state_ok ins s1 Hr1) as (Hr2 & Em2 & Ec2).
  set (s2 := if taken then branch_state ins s1 else s1).
  assert (Eq : arm_step (hush s) = Ret 0 s2).
  { unfold arm_step. rewrite (bind_ret _ _ _ 0 s2); [done|].
    rewrite (execute_q (hush s) ins); try done; cycle 1.
    { change (fetch_address (hush s)) with (fetch_address s). by rewrite Ef. }
    fold s1. unfold s2. change (passes (field ins 31 28) (hush s)) with taken.
    destruct taken; [|done]. rewrite dispatch_branch by done.
    by rewrite (bind_ret _ _ _ _ _ (arm_branch_q ins s1 ltac:(done) Hr1)). }
  destruct (step_run 0 s s2 Hok Eq) as (s' & E' & Heq & Hok').
  1-3: unfold s2; destruct taken; rewrite ?Em2, ?Ec2, ?Em1, ?Ec1; auto with crange.
  exists s'. split; [done|]. split; [done|].
  rewrite (mem_proper _ _ Heq), (pc_of_proper _ _ Heq), (rval_proper _ _ Heq _ _ eq_refl),
    (arm_proper _ _ Heq).
  assert (H15 : rval s1 15 = u32 (addr + 8)).
  { rewrite rval_15. change (pc_of s1) with (pc_of (fetch_state (alloc s))). rewrite Epc.
    by apply pc_read_next. }
  assert (Hlr : rval s1 LR = rval s LR) by (unfold s1, fetch_state; by rewrite rval_upd_reg_ne).
  assert (Hcp : cpsr_of (regs s1) = cpsr_of (regs s)) by (unfold s1, fetch_state; by rewrite cpsr_upd_reg).
  unfold s2. destruct taken; [|split_and!; done].
  rewrite Em2. unfold branch_state. rewrite H15.
  destruct (Z.testbit ins 24); cbn [andb]; unfold LR in *;
    rewrite pc_upd_reg_15, rval_upd_reg_ne, cpsr_upd_reg by (auto with crange || lia).
  - rewrite rval_upd_reg_eq, cpsr_upd_reg by (done || lia).
    rewrite u32_add_l, u32_sub_l. split_and!; try done. f_equal. lia.
  - rewrite u32_add_l. by split_and!.
Qed.

(** When the program counter is outside the memory, the step raises a data
    abort, not a prefetch abort: it returns [DATA_ABORT] and the processor
    continues at address 0x10 in Abort mode. *)
Theorem step_fetch_abort s :
  machine_ok s -> size (mem s) <= fetch_address s ->
  exists s', arm_step s = Ret DATA_ABORT s' /\ machine_ok s' /\ mem s' = mem s /\
    pc_of s' = 0x10 /\ mode_of (regs s') = ABT.
Proof.
  intros Hok Ha. destruct (Hok) as (Hr & Hm & Hc & _).
  set (s1 := fetch_state (alloc (hush s))).
  destruct (fetch_state_ok (alloc (hush s)) Hr) as (Hr1 & Em1 & Ec1). fold s1 in Hr1, Em1, Ec1.
  set (s2 := exception_state DATA_ABORT s1).
  assert (Eq : arm_step (hush s) = Ret DATA_ABORT s2).
  { unfold arm_step. rewrite (bind_ret _ _ _ DATA_ABORT s1); cycle 1.
    { apply (execute_abort_q _ _ (val0 s)); try done. by apply memory_invalid. }
    change (nz DATA_ABORT) with true. unfold when.
    by rewrite (bind_ret _ _ _ _ _ (arm_exception_q s1 Hr1 DATA_ABORT ltac:(done) ltac:(done))). }
  destruct (exception_state_regs s1 Hr1 DATA_ABORT) as (Hr2 & Hpc & Hcp).
  assert (Esame : mem s2 = mem s /\ cycle_count (arm s2) = cycle_count (arm s1)).
  { unfold s2, exception_state. by destruct (exception_cpsr _ _). }
  destruct Esame as [Em2 Ec2].
  destruct (step_run DATA_ABORT s s2 Hok Eq) as (s' & E' & Heq & Hok');
    [done|by rewrite Em2|rewrite Ec2, Ec1; auto with crange|].
  exists s'. split; [done|]. split; [done|].
  rewrite (mem_proper _ _ Heq), (pc_of_proper _ _ Heq), (arm_proper _ _ Heq).
  split_and!; [done|done|]. unfold mode_of. fold s2 in Hcp. rewrite Hcp.
  by apply (arch_vector_cases DATA_ABORT 0x10 ABT).
Qed.

(** Software interrupts.  SWI 0x123456 ends the simulation with status 0;
    every other SWI that is executed is ignored: the step returns 0 and only
    the program counter and the cycle count change, no exception is taken. *)
Theorem step_swi s addr ins :
  machine_ok s -> instruction_at s addr ins -> field ins 27 25 = COPROCESSOR_OTHERS_SWI ->
  Z.testbit ins 24 = true -> passes (field ins 31 28) s = true ->
  if field ins 23 0 =? 0x123456 then exists s', arm_step s = Exit 0 s'
  else exists s', arm_step s = Ret 0 s' /\ mem s' = mem s /\ pc_of s' = u32 (addr + 4) /\
    forall i, i <> 15 -> rget (regs s') i = rget (regs s) i.
Proof.
  intros Hok Hins Ht H24 Hp. destruct (Hok) as (Hr & Hm & Hc & Htr).
  destruct (instruction_at_fetch s addr ins (val0 s) Hok Hins) as (Ef & Hi & E & Epc).
  set (s1 := fetch_state (alloc (hush s))).
  destruct (fetch_state_ok (alloc (hush s)) Hr) as (Hr1 & Em1 & Ec1). fold s1 in Hr1, Em1, Ec1.
  assert (Eq : arm_step (hush s) =
    if field ins 23 0 =? 0x123456 then Exit 0 s1 else Ret 0 s1).
  { unfold arm_step. unfold bind at 1. rewrite (execute_q (hush s) ins); try done; cycle 1.
    { change (fetch_address (hush s)) with (fetch_address s). by rewrite Ef. }
    fold s1. change (passes (field ins 31 28) (hush s)) with (passes (field ins 31 28) s).
    rewrite Hp, dispatch_swi by done. unfold arm_coprocessor_others_swi. rewrite get_bit_testbit, nz_b2z, H24 by (done || lia).
    change 0xFFFFFF with (Z.ones (23 + 1)). rewrite land_ones_field by lia.
    by destruct (field ins 23 0 =? 0x123456). }
  destruct (field ins 23 0 =? 0x123456).
  - destruct (transparent_run_exit _ _ _ _ _ arm_step_transparent Htr Eq) as (s' & E' & _). eauto.
  - destruct (step_run 0 s s1 Hok Eq) as (s' & E' & Heq & Hok');
      [done|by rewrite Em1|rewrite Ec1; auto with crange|].
    exists s'. split; [done|].
    rewrite (mem_proper _ _ Heq), (pc_of_proper _ _ Heq), (arm_proper _ _ Heq).
    split_and!; try done. intros i Hne. unfold s1, fetch_state, upd_reg. simpl.
    change (slot _ 15) with 15. by apply rget_aset_ne.
Qed.
End properties.

(** ** Witnesses *)

(** A program at address 0 of a 64-byte little-endian memory, in User mode with
    the flags Z and C set. *)
Definition word_bytes (w : Z) : list Z :=
  [u8 w; u8 (Z.shiftr w 8); u8 (Z.shiftr w 16); u8 (Z.shiftr w 24)].
Definition machine_prog (pc cpsr : Z) (ws : list Z) : machine :=
  let code := flat_map word_bytes ws in
  Machine (ArmCore 0 (aset (aset regs_usr CPSR cpsr) 15 pc))
    (Memory (code ++ replicate (68 - length code) 0) 64 0) trace_on 0.

Definition machine_prog_okb (pc cpsr : Z) (ws : list Z) : bool :=
  let s := machine_prog pc cpsr ws in
  bool_decide (length (regs s) = 37%nat) && bool_decide (Forall is_u32 (regs s)) &&
  bool_decide (Forall is_u8 (m (mem s))) && bool_decide (length (m (mem s)) = 68%nat).

Lemma machine_prog_ok pc cpsr ws :
  machine_prog_okb pc cpsr ws = true ->
  machine_ok (machine_prog pc cpsr ws) /\ mem_roomy 3 (mem (machine_prog pc cpsr ws)).
Proof.
  unfold machine_prog_okb. rewrite !andb_true_iff, !bool_decide_eq_true. intros [[[H1 H2] H3] H4].
  assert (Hm : mem_ok (mem (machine_prog pc cpsr ws))).
  { split; [done|]. rewrite H4. simpl. lia. }
  split.
  - split; [by split|]. split; [exact Hm|]. split; [cbn; u32_lit|apply trace_on_ok].
  - split; [exact Hm|]. rewrite H4. simpl. split; [done|lia].
Qed.

(** B 0x8; MOV r0, #1; SWI 1 *)
Definition machine_b : machine := machine_prog 0 0x60000010 [0xEA000000; 0xE3A00001; 0xEF000001].
Definition machine_b_ok := machine_prog_ok 0 0x60000010 [0xEA000000; 0xE3A00001; 0xEF000001] eq_refl.


Lemma step_trace_independent_witness :
  agree machine_b (set_trace (set_flags 0 trace_on) machine_b) (arm_step (H := host0) machine_b)
    (arm_step (H := host0) (set_trace (set_flags 0 trace_on) machine_b)).
Proof.
  apply (step_trace_independent (H := host0)).
  - split; [reflexivity|split; reflexivity].
  - apply trace_on_ok.
  - split_and!; [by eexists|reflexivity..|simpl; lia|simpl; lia].
Defined.

(** BNE with Z set *)
Definition machine_bne : machine := machine_prog 0 0x60000010 [0x1A000010].

Lemma step_condition_false_witness :
  exists s', arm_step (H := host0) machine_bne = Ret 0 s' /\ pc_of s' = 4.
Proof.
  destruct (step_condition_false (H := host0) machine_bne 0 0x1A000010
              (proj1 (machine_prog_ok 0 0x60000010 [0x1A000010] eq_refl)))
    as (s' & H1 & _ & _ & H2 & _).
  - repeat split; vm_compute; reflexivity || discriminate.
  - reflexivity.
  - exists s'. exact (conj H1 H2).
Defined.

(** CMP r1, r2 with r1 = 101, r2 = 102, carry clear: LT holds. *)
Lemma compare_conditions_witness :
  exists s', arm_data_processing (H := host0) 0xE1510002 (machine_prog 0 0x10 []) = Ret 0 s' /\
    passes LT s' = true.
Proof.
  destruct (compare_conditions (H := host0) (H0 := x86_rotate _) (machine_prog 0 0x10 [])
              0xE1510002 LT (proj1 (machine_prog_ok 0 0x10 [] eq_refl)) ltac:(u32_lit)
              eq_refl eq_refl eq_refl eq_refl eq_refl) as (s' & H1 & _ & H2).
  - vm_compute. discriminate.
  - vm_compute. tauto.
  - exists s'. exact (conj H1 H2).
Defined.

Lemma step_branch_witness :
  exists s', arm_step (H := host0) machine_b = Ret 0 s' /\ pc_of s' = 8.
Proof.
  destruct (step_branch (H := host0) machine_b 0 0xEA000000 (proj1 machine_b_ok))
    as (s' & H1 & _ & _ & H2 & _).
  - repeat split; vm_compute; reflexivity || discriminate.
  - reflexivity.
  - exists s'. exact (conj H1 H2).
Defined.

Lemma step_fetch_abort_witness :
  exists s', arm_step (H := host0) (machine_prog 0x40 0x10 []) = Ret DATA_ABORT s' /\
    pc_of s' = 0x10.
Proof.
  destruct (step_fetch_abort (H := host0) (machine_prog 0x40 0x10 [])
              (proj1 (machine_prog_ok 0x40 0x10 [] eq_refl))) as (s' & H1 & _ & _ & H2 & _).
  - vm_compute. discriminate.
  - exists s'. exact (conj H1 H2).
Defined.

(** SWI 1 and SWI 0x123456 *)
Lemma step_swi_witness :
  (exists s', arm_step (H := host0) (machine_prog 0 0x10 [0xEF000001]) = Ret 0 s' /\ pc_of s' = 4) /\
  exists s', arm_step (H := host0) (machine_prog 0 0x10 [0xEF123456]) = Exit 0 s'.
Proof.
  split.
  - destruct (step_swi (H := host0) (machine_prog 0 0x10 [0xEF000001]) 0 0xEF000001
                (proj1 (machine_prog_ok 0 0x10 [0xEF000001] eq_refl)))
      as (s' & H1 & _ & H2 & _).
    + repeat split; vm_compute; reflexivity || discriminate.
    + reflexivity.
    + reflexivity.
    + reflexivity.
    + exists s'. exact (conj H1 H2).
  - apply (step_swi (H := host0) (machine_prog 0 0x10 [0xEF123456]) 0 0xEF123456
             (proj1 (machine_prog_ok 0 0x10 [0xEF123456] eq_refl))).
    + repeat split; vm_compute; reflexivity || discriminate.
    + reflexivity.
    + reflexivity.
    + reflexivity.
Defined.
