(* ===== verification/Console.v ===== *)
(** * What the simulator prints on standard output

    The handlers of instructions print a line for the instruction they execute,
    and two more when it sets the flags.  [step_text] says what a step prints, from
    the machine before it and the CPSR after it; a step prints exactly that,
    whatever the trace options. *)
From S2P Require Import Prelude CInt Constants Memory Registers Format Trace Core CoreFacts Exception Branch Shifter DataProcessing LoadStore Safety Instruction.

#[local] Open Scope string_scope.
#[local] Open Scope Z_scope.

(** ** The text of a step

    Written from the formats of [printf] in the sources and the fields of the
    instruction, on its own: [data_text] takes the flags it shows from the bits of
    the CPSR that the step leaves. *)

Definition mnemonics : list string :=
  ["AND"; "EOR"; "SUB"; "RSB"; "ADD"; "ADC"; "SBC"; "RSC"; "TST"; "TEQ"; "CMP";
   "CMN"; "ORR"; "MOV"; "BIC"; "MVN"].

Definition digit (b : bool) : string := if b then "1" else "0".

(** N, Z, C and V are the bits 31 to 28. *)
Definition flags_line (cpsr : Z) : string :=
  " N=" +:+ digit (Z.testbit cpsr 31) +:+ "  Z=" +:+ digit (Z.testbit cpsr 30) +:+
  "  C=" +:+ digit (Z.testbit cpsr 29) +:+ "  V=" +:+ digit (Z.testbit cpsr 28) +:+ newline.

Section text.
Context `{Host}.

(** The second operand of a data-processing instruction as it is shown: the
    shifter's value, and when the flags are set one more for ADC with the carry
    flag, one less for SBC and RSB without. *)
Definition operand_shown (ins : Z) (s : machine) : Z :=
  let Op := (dp_opd ins s).1 in
  let opcode := field ins 24 21 in
  if negb (Z.testbit ins 20) || restores_cpsr ins s then Op
  else if (opcode =? 5) && carry_in s then u32 (Op + 1)
  else if ((opcode =? 6) || (opcode =? 3)) && negb (carry_in s) then u32 (Op - 1)
  else Op.

(** [cpsr] is the CPSR after the instruction. *)
Definition data_text (ins : Z) (s : machine) (cpsr : Z) : list string :=
  ((if Z.testbit ins 20 && negb (restores_cpsr ins s)
    then ["Value_Shifter = " +:+ fmt_d (operand_shown ins s) +:+ newline; flags_line cpsr] else []) ++
   [default "" (aget mnemonics (field ins 24 21))] ++ (if Z.testbit ins 20 then ["S"] else []) ++
   [" r" +:+ fmt_d (field ins 15 12) +:+ ", "] ++
   (if (field ins 24 21 =? 13) || (field ins 24 21 =? 15) then []
    else ["r" +:+ fmt_d (field ins 19 16) +:+ ", "]) ++
   ["#" +:+ fmt_d (operand_shown ins s) +:+ newline])%list.

(** The size of a single transfer, and whether a load can be made: the address is
    outside the memory, or the bytes are in its block. *)
Definition transfer_size (ins : Z) : Z := if is_half ins then 2 else if is_byte ins then 1 else 4.
Definition loadable (ins : Z) (s : machine) : bool :=
  (size (mem s) <=? ls_address ins s) ||
  (ls_address ins s + transfer_size ins <=? Z.of_nat (length (m (mem s)))).

(** What a load leaves in the variable that held [val]. *)
Definition fetched (ins val : Z) (s : machine) : Z :=
  let a := ls_address ins s in
  if size (mem s) <=? a then val
  else if is_half ins then set_first_half val (half_at (mem s) a)
  else if is_byte ins then set_first_byte val (byte_at (mem s) a)
  else word_at (mem s) a.

Definition transfer_text (ins : Z) (s : machine) : list string :=
  if Z.testbit ins 20 then load_text ins (fetched ins (val0 s) s) (alloc s)
  else store_text ins (alloc s).

(** Multiple transfers inside the memory, of one register at least. *)
Definition multiple_covered (ins : Z) (s : machine) : bool :=
  negb (bool_decide (lsm_regs ins = [])) && (lsm_low ins s + lsm_bytes ins <=? size (mem s))
  && (Z.testbit ins 20 || (lsm_low ins s mod 4 =? 0)).

(** The instructions whose text is given: all but the loads that run past the
    block, the multiple transfers that leave the memory, the SWI that ends the
    simulator and the coprocessor transfers, which are undefined instructions. *)
Definition covered (ins : Z) (s : machine) : bool :=
  let type := field ins 27 25 in
  if (type =? 0) && negb (Z.testbit ins 4 && Z.testbit ins 7) then true
  else if type =? 1 then true
  else if (type =? 0) || (type =? 2) || (type =? 3) then negb (Z.testbit ins 20) || loadable ins s
  else if type =? 4 then multiple_covered ins s
  else if type =? 5 then true
  else if type =? 7 then negb (Z.testbit ins 24 && (field ins 23 0 =? 0x123456))
  else false.

(** The text of an instruction executed in [s], the machine after the fetch, that
    leaves [cpsr]. *)
Definition handler_text (ins : Z) (s : machine) (cpsr : Z) : list string :=
  let type := field ins 27 25 in
  if (type =? 0) && negb (Z.testbit ins 4 && Z.testbit ins 7) then data_text ins s cpsr
  else if type =? 1 then data_text ins s cpsr
  else if (type =? 0) || (type =? 2) || (type =? 3) then transfer_text ins s
  else if type =? 4 then lsm_text ins
  else [].

(** The text of a step at the instruction [ins]. *)
Definition step_text (ins : Z) (s : machine) (cpsr : Z) : list string :=
  if passes (field ins 31 28) s then handler_text ins (fetch_state (alloc s)) cpsr else [].
Definition step_covered (ins : Z) (s : machine) : bool :=
  negb (passes (field ins 31 28) s) || covered ins (fetch_state (alloc s)).

(** ** The handlers print it *)

(** A run that prints [l] of the CPSR it leaves, in a well-formed machine. *)
Definition prints (r : res machine Z) (s : machine) (l : Z -> list string) : Prop :=
  exists x s', r = Ret x s' /\ machine_ok s' /\
    console (trace s') = (console (trace s) ++ l (cpsr_of (regs s')))%list.

Lemma flags_text_line cpsr : flags_text cpsr = flags_line cpsr.
Proof.
  unfold flags_text, flags_line, FLAG_N, FLAG_Z, FLAG_C, FLAG_V.
  assert (Hd : forall i, fmt_d (Z.land (Z.shiftr cpsr i) 1) = digit (Z.testbit cpsr i)).
  { intros i. change 1 with (Z.ones 1). rewrite Z.land_ones, <- Z.bit0_mod, Z.shiftr_spec, Z.add_0_l by lia.
    by destruct (Z.testbit cpsr i). }
  by rewrite !Hd.
Qed.

Lemma opcode_field ins : 0 <= field ins 24 21 < 16.
Proof. pose proof (field_reg ins 21) as F. by change (21 + 3) with 24 in F. Qed.

(** The lines of the instruction itself. *)
Lemma instruction_text_data ins v :
  instruction_text ins v =
  ([default "" (aget mnemonics (field ins 24 21))] ++ (if Z.testbit ins 20 then ["S"] else []) ++
   [" r" +:+ fmt_d (field ins 15 12) +:+ ", "] ++
   (if (field ins 24 21 =? 13) || (field ins 24 21 =? 15) then []
    else ["r" +:+ fmt_d (field ins 19 16) +:+ ", "]) ++
   ["#" +:+ fmt_d v +:+ newline])%list.
Proof. reflexivity. Qed.

Lemma dp_adjust_shown ins s :
  Z.testbit ins 20 = true -> restores_cpsr ins s = false ->
  dp_adjust (field ins 24 21) (dp_opd ins s).1 (carry_in s) = operand_shown ins s.
Proof.
  intros H20 Hn. unfold operand_shown, dp_adjust. rewrite H20, Hn. cbn [negb orb].
  change ADC with 5. change SBC with 6. change RSB with 3.
  destruct (Z.eqb_spec (field ins 24 21) 5) as [->|]; cbn [andb]; [by destruct (carry_in s)|].
  by destruct ((field ins 24 21 =? 6) || (field ins 24 21 =? 3)), (carry_in s).
Qed.

Lemma dp_text_data ins s :
  regs_ok (regs s) -> dp_text ins s = data_text ins s (cpsr_of (regs (dp_state ins s))).
Proof.
  intros Hr. unfold dp_text, data_text. rewrite !instruction_text_data.
  destruct (Z.testbit ins 20) eqn:H20; cbn [andb]; cycle 1.
  { unfold operand_shown. by rewrite H20. }
  assert (Ec : cpsr_of (regs (dp_write ins s)) = cpsr_of (regs s)).
  { pose proof (field_reg ins 12) as F12. change (12 + 3) with 15 in F12.
    unfold dp_write. rewrite H20. case_match; [done|]. by rewrite cpsr_upd_reg. }
  assert (Hs : has_spsr (dp_write ins s) = has_spsr s) by (unfold has_spsr, mode_of; by rewrite Ec).
  assert (Hc : carry_in (dp_write ins s) = carry_in s) by (unfold carry_in; by rewrite Ec).
  destruct (restores_cpsr ins s) eqn:Hn; cbn [negb].
  - unfold dp_flags_text, dp_shown. rewrite Hs. unfold operand_shown. rewrite Hn, orb_true_r.
    unfold restores_cpsr in Hn. rewrite H20 in Hn. cbn [andb] in Hn. by rewrite Hn.
  - rewrite (dp_state_cpsr ins s Hr H20 Hn). rewrite <- flags_text_line.
    rewrite <- (dp_adjust_shown ins s H20 Hn). unfold dp_flags_text, dp_shown. rewrite Hs, Hc, Ec.
    unfold restores_cpsr in Hn. rewrite H20 in Hn. cbn [andb] in Hn. by rewrite Hn.
Qed.

Lemma dp_prints ins s : machine_ok s -> is_u32 ins -> prints (arm_data_processing ins s) s (data_text ins s).
Proof.
  intros Hok Hi. destruct (dp_run_prints ins s Hok Hi) as (s' & E & Heq & Hok' & Hp). exists 0, s'.
  split; [done|]. split; [done|]. rewrite Hp, (dp_text_data ins s (proj1 Hok)). by rewrite (arm_proper _ _ Heq).
Qed.

Lemma val0_range s : is_u32 (val0 s).
Proof. apply u32_range. Qed.
#[export] Instance val0_proper : Proper ((≡) ==> eq) val0.
Proof. intros s1 s2 (_ & _ & E). unfold val0. by rewrite E. Qed.

(** Parts of a word put back where they were. *)
Lemma high_low v k :
  is_u32 v -> 0 <= k < 32 ->
  Z.lor (Z.shiftl (Z.shiftr v k) k) (Z.land v (Z.ones k)) = v /\
  Z.lor (Z.land v (Z.shiftl (Z.ones (32 - k)) k)) (v mod 2 ^ k) = v.
Proof.
  intros Hv Hk. split; apply Z.bits_inj'; intros i Hi; rewrite Z.lor_spec, Z.land_spec.
  - rewrite Z.shiftl_spec, Z.testbit_ones_nonneg by lia. destruct (Z.ltb_spec i k).
    + rewrite Z.testbit_neg_r by lia. by rewrite andb_true_r.
    + rewrite Z.shiftr_spec, Z.sub_add, andb_false_r, orb_false_r by lia. done.
  - rewrite Z.shiftl_spec, Z.testbit_ones, testbit_mod_pow2 by lia. destruct (Z.ltb_spec i k).
    + destruct (Z.leb_spec 0 (i - k)); [lia|]. by rewrite andb_false_r.
    + destruct (Z.leb_spec 0 (i - k)); [|lia]. destruct (Z.ltb_spec (i - k) (32 - k)); cbn [andb].
      * by rewrite andb_true_r, orb_false_r.
      * by rewrite (testbit_u32_high v) by (done || lia).
Qed.

Lemma set_first_half_same v : is_u32 v -> set_first_half v (first_half v) = v.
Proof. intros Hv. unfold set_first_half, first_half. case_match; by apply (high_low v 16). Qed.
Lemma set_first_byte_same v : is_u32 v -> set_first_byte v (first_byte v) = v.
Proof.
  intros Hv. unfold set_first_byte, first_byte. case_match; [by apply (high_low v 24)|by apply (high_low v 8)].
Qed.

Lemma mem_load_fetched ins val s :
  mem_ok (mem s) -> regs_ok (regs s) -> is_u32 val -> loadable ins s = true ->
  mem_load (is_half ins) (is_byte ins) (ls_address ins s) val (mem s) = Ret (fetched ins val s) (mem s) /\
  is_u32 (fetched ins val s).
Proof.
  intros Hm Hr Hv Hl. pose proof (ls_address_range ins s Hr) as Ha. unfold is_u32 in Ha.
  unfold mem_load, fetched, loadable, transfer_size in *.
  destruct (Z.leb_spec (size (mem s)) (ls_address ins s)) as [Hout|Hin]; cbn [orb] in Hl.
  - destruct (memory_invalid (mem s) (ls_address ins s) val Hout) as (_ & _ & Ew & _).
    destruct (memory_invalid (mem s) (ls_address ins s) (first_half val) Hout) as (_ & Eh & _).
    destruct (memory_invalid (mem s) (ls_address ins s) (first_byte val) Hout) as (Eb & _).
    split; [|done]. destruct (is_half ins); [|destruct (is_byte ins)].
    + rewrite (bind_ret _ _ _ _ _ Eh). cbn [snd]. unfold ret. f_equal. by apply set_first_half_same.
    + rewrite (bind_ret _ _ _ _ _ Eb). cbn [snd]. unfold ret. f_equal. by apply set_first_byte_same.
    + by rewrite (bind_ret _ _ _ _ _ Ew).
  - apply Z.leb_le in Hl. destruct (is_half ins); [|destruct (is_byte ins)].
    + rewrite (bind_ret _ _ _ _ _ (memory_read_half_ok (mem s) _ _ Hm (conj (proj1 Ha) Hin) ltac:(lia))).
      split; [done|]. by apply set_first_half_range, half_at_range.
    + rewrite (bind_ret _ _ _ _ _ (memory_read_byte_ok (mem s) _ _ Hm (conj (proj1 Ha) Hin))).
      split; [done|]. by apply set_first_byte_range, byte_at_range.
    + rewrite (bind_ret _ _ _ _ _ (memory_read_word_ok (mem s) _ _ Hm (conj (proj1 Ha) Hin) ltac:(lia))).
      split; [done|]. by apply word_at_range.
Qed.

(** A store returns, whatever the address. *)
Lemma mem_store_total half byte a v mm :
  mem_ok mm -> size mm mod 4 = 0 -> is_u32 a -> is_u32 v ->
  exists r mm', mem_store half byte a v mm = Ret r mm' /\ mem_ok mm'.
Proof.
  intros Hm H4 Ha Hv. unfold is_u32 in Ha. unfold mem_store.
  destruct (Z.ltb_spec a (size mm)) as [Hin|Hout]; cycle 1.
  { destruct half; [|destruct byte]; eexists _, _; (split; [by apply memory_invalid|done]). }
  destruct half; [|destruct byte].
  - destruct (Z.eqb_spec (a mod 2) 0); [|by eexists _, _; split; [apply memory_write_half_misaligned|]].
    assert (size mm mod 2 = 0) as H2 by (Z.div_mod_to_equations; lia).
    pose proof (aligned_room a (size mm) 2 ltac:(lia) ltac:(lia) ltac:(done) H2). destruct (Hm) as (_ & ? & _).
    eexists _, _. split; [apply memory_write_half_ok; auto with crange; lia|by apply mem_ok_put_half].
  - eexists _, _. split; [apply memory_write_byte_ok; auto; lia|by apply mem_ok_put_byte].
  - destruct (Z.eqb_spec (a mod 4) 0); [|by eexists _, _; split; [apply memory_write_word_misaligned|]].
    pose proof (aligned_room a (size mm) 4 ltac:(lia) ltac:(lia) ltac:(done) H4). destruct (Hm) as (_ & ? & _).
    eexists _, _. split; [apply memory_write_word_ok; auto; lia|by apply mem_ok_put_word].
Qed.

Lemma transfer_prints ins s :
  machine_ok s -> is_u32 ins -> size (mem s) mod 4 = 0 ->
  negb (Z.testbit ins 20) || loadable ins s = true ->
  prints (arm_load_store ins s) s (fun _ => transfer_text ins s).
Proof.
  intros Hok Hi H4 Hl. unfold transfer_text. destruct (Hok) as (Hr & Hm & _).
  destruct (Z.testbit ins 20) eqn:H20; cbn [negb orb] in Hl.
  - destruct (mem_load_fetched ins (val0 s) s Hm Hr (val0_range s) Hl) as [E Hv].
    destruct (load_run_prints ins _ s Hok Hi Hv H20 E) as (s' & E' & _ & Hok' & Hp). by exists 0, s'.
  - destruct (mem_store_total (is_half ins) (is_byte ins) (ls_address ins s) (stored_value ins s) (mem s))
      as (r & mem' & E & Hm'); auto using ls_address_range, stored_value_range.
    destruct (store_run_prints ins r mem' s Hok Hi H20 E Hm') as (s' & E' & _ & Hok' & Hp). by exists r, s'.
Qed.

Lemma multiple_prints ins s :
  machine_ok s -> is_u32 ins -> multiple_covered ins s = true ->
  prints (arm_load_store_multiple ins s) s (fun _ => lsm_text ins).
Proof.
  intros Hok Hi Hl. unfold multiple_covered in Hl.
  destruct (bool_decide_reflect (lsm_regs ins = [])) as [|Hne]; [done|].
  destruct (Z.leb_spec (lsm_low ins s + lsm_bytes ins) (size (mem s))) as [Hsz|]; [|done].
  assert (Hroom : lsm_room ins s) by done. destruct (Z.testbit ins 20) eqn:H20; cbn [negb andb orb] in Hl.
  - destruct (ldm_run_prints ins s Hok Hi H20 Hroom) as (s' & E & Hok' & _ & Hp). by exists 0, s'.
  - apply Z.eqb_eq in Hl. destruct (stm_run_prints ins s Hok Hi H20 Hroom Hl) as (s' & E & Hok' & _ & Hp).
    by exists 0, s'.
Qed.

Lemma branch_prints ins s : machine_ok s -> is_u32 ins -> prints (arm_branch ins s) s (fun _ => []).
Proof.
  intros Hok Hi. destruct (Hok) as (Hr & Hm & Hc & _).
  destruct (branch_state_ok ins (hush s) Hr) as (Hr' & Em & Ec).
  destruct (run_prints _ s _ _ (arm_branch_transparent ins) Hok
              (arm_branch_q ins (hush s) (hush_quiet s) Hr)) as (s' & E & _ & Hok' & Hp);
    [done|by rewrite Em|by rewrite Ec|].
  exists 0, s'. split; [done|]. split; [done|]. rewrite Hp, app_nil_r. unfold branch_state. by case_match.
Qed.

Lemma swi_prints ins s :
  machine_ok s -> is_u32 ins -> Z.testbit ins 24 && (field ins 23 0 =? 0x123456) = false ->
  prints (arm_coprocessor_others_swi ins s) s (fun _ => []).
Proof.
  intros Hok Hi Hn. unfold arm_coprocessor_others_swi. rewrite get_bit_testbit, nz_b2z by (done || lia).
  assert (Hr : forall x, prints (ret x s) s (fun _ => []))
    by (intros x; exists x, s; by rewrite app_nil_r).
  destruct (Z.testbit ins 24); [|apply Hr]. cbn [andb] in Hn.
  replace (Z.land ins 0xFFFFFF) with (field ins 23 0); [rewrite Hn; apply Hr|].
  change 0xFFFFFF with (Z.ones 24). rewrite Z.land_ones by lia. unfold field. by rewrite Z.div_1_r.
Qed.

Lemma dispatch_prints ins s :
  machine_ok s -> is_u32 ins -> size (mem s) mod 4 = 0 -> covered ins s = true ->
  exists s', dispatch ins s = Ret 0 s' /\ machine_ok s' /\
    console (trace s') = (console (trace s) ++ handler_text ins s (cpsr_of (regs s')))%list.
Proof.
  intros Hok Hi H4 Hcov. unfold dispatch. rewrite type_field, !bit_at by lia. unfold covered, handler_text in *.
  assert (Hd : forall c l, prints (c s) s l ->
    exists s', (c ;;; ret 0) s = Ret 0 s' /\ machine_ok s' /\
      console (trace s') = (console (trace s) ++ l (cpsr_of (regs s')))%list).
  { intros c l (x & s' & E & ? & ?). exists s'. by rewrite (bind_ret _ _ _ _ _ E). }
  change DATA_PROCESSING_SHIFT with 0. change DATA_PROCESSING_IMMEDIATE with 1.
  change LOAD_STORE_IMMEDIATE with 2. change LOAD_STORE_REGISTER with 3.
  change LOAD_STORE_MULTIPLE with 4. change BRANCH with 5. change COPROCESSOR_OTHERS_SWI with 7.
  destruct (Z.eqb_spec (field ins 27 25) 0) as [->|]; cbn [andb orb] in *.
  { change (0 =? 1) with false in *. cbn iota in *.
    destruct (Z.testbit ins 4 && Z.testbit ins 7); cbn [negb] in *;
      [apply (Hd _ (fun _ => _)); by apply transfer_prints|apply Hd; by apply dp_prints]. }
  destruct (_ =? 1); [apply Hd; by apply dp_prints|].
  destruct (_ =? 2); [apply (Hd _ (fun _ => _)); by apply transfer_prints|].
  destruct (_ =? 3); [apply (Hd _ (fun _ => _)); by apply transfer_prints|].
  destruct (_ =? 4); [apply (Hd _ (fun _ => _)); by apply multiple_prints|].
  destruct (_ =? 5); [apply (Hd _ (fun _ => _)); by apply branch_prints|].
  destruct (_ =? 7); [|done]. apply (Hd _ (fun _ => _)), swi_prints; [done..|]. by apply negb_true_iff.
Qed.

#[export] Instance handler_text_proper ins : Proper ((≡) ==> eq ==> eq) (handler_text ins).
Proof.
  intros s1 s2 Hs c _ <-. unfold handler_text, transfer_text, data_text, operand_shown, fetched, restores_cpsr.
  by rewrite (dp_opd_proper ins _ _ Hs), (has_spsr_proper _ _ Hs), (carry_in_proper _ _ Hs),
    (ls_address_proper ins _ _ Hs), (mem_proper _ _ Hs), (val0_proper _ _ Hs),
    (load_text_proper ins _ _ _ (alloc_proper _ _ Hs)), (store_text_proper ins _ _ (alloc_proper _ _ Hs)).
Qed.
#[export] Instance covered_proper ins : Proper ((≡) ==> eq) (covered ins).
Proof.
  intros s1 s2 Hs. unfold covered, loadable, multiple_covered, lsm_low.
  by rewrite (ls_address_proper ins _ _ Hs), (mem_proper _ _ Hs), (rval_proper _ _ Hs _ _ eq_refl).
Qed.

(** C9: Standard output.  A step at the instruction [ins] prints exactly
    [step_text] after what was printed before, whatever the trace options: nothing
    when the condition does not hold; for a data-processing instruction its name,
    destination, first operand (but for MOV and MVN) and second operand, after
    the operand and the flags when it sets them, and the flags shown are the bits
    31 to 28 of the CPSR it leaves; for a transfer its direction, registers,
    offset, value and address; for a multiple transfer its mode and the registers
    of its list; nothing for a branch or an SWI.  Left out by [step_covered] are
    loads that run past the block, multiple transfers with an empty list, that
    leave the memory or store at an unaligned address, the SWI that ends the
    simulator and coprocessor transfers. *)
Theorem step_prints s addr ins :
  machine_ok s -> size (mem s) mod 4 = 0 -> instruction_at s addr ins -> step_covered ins s = true ->
  exists s', arm_step s = Ret 0 s' /\ machine_ok s' /\
    console (trace s') = (console (trace s) ++ step_text ins s (cpsr_of (regs s')))%list.
Proof.
  intros Hok H4 Hins Hl. destruct (Hok) as (Hr & Hm & Hc & Ht).
  destruct (instruction_at_fetch s addr ins (val0 s) Hok Hins) as (Ef & Hi & Er & _).
  set (s1 := fetch_state (alloc (hush s))).
  destruct (fetch_state_ok (alloc (hush s)) Hr) as (Hr1 & Em1 & Ec1). fold s1 in Hr1, Em1, Ec1.
  assert (Hok1 : machine_ok s1) by (split; [done|]; rewrite Em1, Ec1; split_and!; try done; auto with crange).
  assert (Heq1 : fetch_state (alloc s) ≡ s1) by (unfold s1; by rewrite (hush_equiv s)).
  assert (Ht1 : console (trace s1) = console (trace s)) by reflexivity.
  assert (Hd : exists s', arm_step (hush s) = Ret 0 s' /\ machine_ok s' /\
                 console (trace s') = (console (trace s) ++ step_text ins s (cpsr_of (regs s')))%list).
  { unfold arm_step, step_text.
    assert (E : arm_execute_instruction (hush s) = if passes (field ins 31 28) s then dispatch ins s1 else Ret 0 s1).
    { apply (execute_q (hush s) ins); [done..|]. by change (fetch_address (hush s)) with (fetch_address s); rewrite Ef. }
    unfold step_covered in Hl. destruct (passes _ s); cbn [negb orb] in Hl.
    - rewrite (covered_proper ins _ _ Heq1) in Hl.
      destruct (dispatch_prints ins s1) as (s' & E' & Hok' & Hp); [done|done|by rewrite Em1|done|].
      exists s'. rewrite (bind_ret _ _ _ 0 s') by (by rewrite E).
      split; [done|]. split; [done|]. rewrite Hp, Ht1.
      apply (f_equal (app (console (trace s)))). symmetry. exact (handler_text_proper ins _ _ Heq1 _ _ eq_refl).
    - exists s1. rewrite (bind_ret _ _ _ 0 s1) by done. by rewrite app_nil_r. }
  destruct Hd as (s' & E & (Hr' & Hm' & Hc' & _) & Hp).
  destruct (run_prints _ s _ _ arm_step_transparent Hok E) as (s'' & E'' & Heq & Hok'' & Hp''); [done..|].
  exists s''. split; [done|]. split; [done|]. rewrite Hp'', Hp. by rewrite (arm_proper _ _ Heq).
Qed.
End text.

(** ** Witnesses *)

(** MOVS r1, #5 in a machine with the flags Z and C set *)
Definition machine_movs : machine := machine_prog 0 0x60000010 [0xE3B01005].

Lemma step_prints_witness :
  exists s', arm_step (H := host0) machine_movs = Ret 0 s' /\
    console (trace s') = ["Value_Shifter = 5" +:+ newline; flags_line (cpsr_of (regs s')); "MOV"; "S"; " r1, ";
                          "#5" +:+ newline].
Proof.
  destruct (machine_prog_ok 0 0x60000010 [0xE3B01005] eq_refl) as [Hok _].
  destruct (step_prints (H := host0) machine_movs 0 0xE3B01005 Hok eq_refl) as (s' & E & _ & Hp).
  - split_and!; vm_compute; congruence || reflexivity.
  - vm_compute. reflexivity.
  - exists s'. split; [exact E|]. rewrite Hp. generalize (cpsr_of (regs s')). intros c. vm_compute. reflexivity.
Defined.
