(* ===== verification/CString.v ===== *)
(** * C strings

    A character is its code as an [unsigned char].  A string in a buffer is the
    list of the characters before the first NUL.  The functions of the C
    library that [gdb_protocol.c] calls on strings: [sscanf] with [%x], [atoi],
    [index], [sprintf] with [%02x]. *)
From S2P Require Import Prelude CInt.
From Stdlib Require Import Ascii.

#[local] Open Scope Z_scope.

Definition chars (s : string) : list Z :=
  (fun a => Z.of_N (N_of_ascii a)) <$> String.list_ascii_of_string s.

(** The string that starts a buffer; [None] when there is no NUL in it. *)
Fixpoint until_nul (buf : list Z) : option (list Z) :=
  match buf with
  | [] => None
  | c :: buf' => if c =? 0 then Some [] else cons c <$> until_nul buf'
  end.

Definition is_space (c : Z) : bool := (c =? 32) || (9 <=? c) && (c <=? 13).

Fixpoint skip_spaces (s : list Z) : list Z :=
  match s with
  | [] => []
  | c :: s' => if is_space c then skip_spaces s' else s
  end.

Definition hex_value (c : Z) : option Z :=
  if (48 <=? c) && (c <=? 57) then Some (c - 48)
  else if (97 <=? c) && (c <=? 102) then Some (c - 87)
  else if (65 <=? c) && (c <=? 70) then Some (c - 55) else None.

(** At most [width] digits: the number, how many digits, what follows. *)
Fixpoint hex_run (width : nat) (s : list Z) (acc : Z) (n : nat) : Z * nat * list Z :=
  match width, s with
  | S w, c :: s' =>
      match hex_value c with
      | Some d => hex_run w s' (acc * 16 + d) (S n)
      | None => (acc, n, s)
      end
  | _, _ => (acc, n, s)
  end.

(** An optional sign. *)
Definition scan_sign (width : nat) (s : list Z) : bool * nat * list Z :=
  match width, s with
  | S w, c :: s' => if c =? 43 then (false, w, s') else if c =? 45 then (true, w, s')
                    else (false, width, s)
  | _, _ => (false, width, s)
  end.

(** An optional [0x]. *)
Definition scan_prefix (width : nat) (s : list Z) : nat * list Z :=
  match width, s with
  | S (S w), a :: b :: s' =>
      if (a =? 48) && ((b =? 120) || (b =? 88)) then (w, s') else (width, s)
  | _, _ => (width, s)
  end.

(** [sscanf(s, "%<width>x", ...)]: the value converted and the rest of the
    string, [None] on a matching failure.  The value saturates as an [unsigned
    long] and is stored as an [unsigned int]. *)
Definition scan_hex (width : nat) (s : list Z) : option (Z * list Z) :=
  let '(neg, w1, s1) := scan_sign width (skip_spaces s) in
  let '(w2, s2) := scan_prefix w1 s1 in
  let '(v, n, rest) := hex_run w2 s2 0 0 in
  if (n =? 0)%nat then None
  else let v := Z.min v (2 ^ 64 - 1) in Some (u32 (if neg then - v else v), rest).

(** ["%x"]: no width. *)
Definition scan_x (s : list Z) : option (Z * list Z) := scan_hex (length s) s.

(** ["%x,%x"]: what the two conversions store, if anything. *)
Definition scan_x_x (s : list Z) : option Z * option Z :=
  match scan_x s with
  | None => (None, None)
  | Some (a, rest) =>
      match rest with
      | c :: rest' =>
          if c =? 44 then (Some a, fst <$> scan_x rest') else (Some a, None)
      | [] => (Some a, None)
      end
  end.

Fixpoint dec_run (s : list Z) (acc : Z) : Z :=
  match s with
  | c :: s' => if (48 <=? c) && (c <=? 57) then dec_run s' (acc * 10 + (c - 48)) else acc
  | [] => acc
  end.

Definition atoi (s : list Z) : Z :=
  let '(neg, _, s1) := scan_sign (length s) (skip_spaces s) in
  let v := dec_run s1 0 in
  s32 (if neg then Z.max (- v) (- 2 ^ 63) else Z.min v (2 ^ 63 - 1)).

(** [index(s, c)]: the offset of the first [c]. *)
Fixpoint index (s : list Z) (c : Z) : option Z :=
  match s with
  | [] => None
  | x :: s' => if x =? c then Some 0 else Z.succ <$> index s' c
  end.

(** [sprintf(_, "%02x", v)] of an [unsigned char] *)
Definition hex_char (d : Z) : Z := if d <? 10 then 48 + d else 87 + d.
Definition hex_byte (v : Z) : list Z := [hex_char (v / 16); hex_char (v mod 16)].

(** ** Lemmas *)

Lemma hex_value_char d : 0 <= d < 16 -> hex_value (hex_char d) = Some d.
Proof.
  intros Hd. unfold hex_value, hex_char. destruct (Z.ltb_spec d 10).
  - rewrite (proj2 (Z.leb_le 48 _)), (proj2 (Z.leb_le _ 57)) by lia. simpl. f_equal. lia.
  - rewrite (proj2 (Z.leb_gt _ 57)), andb_false_r by lia.
    rewrite (proj2 (Z.leb_le 97 _)), (proj2 (Z.leb_le _ 102)) by lia. simpl. f_equal. lia.
Qed.

Lemma hex_char_range d : 0 <= d < 16 -> 48 <= hex_char d <= 57 \/ 97 <= hex_char d <= 102.
Proof. intros. unfold hex_char. destruct (Z.ltb_spec d 10); lia. Qed.

(** Two hexadecimal digits printed by ["%02x"] are read back by ["%02x"] and,
    at the end of the string, by ["%x"]. *)
Lemma scan_hex_byte v rest :
  is_u8 v -> scan_hex 2 (hex_byte v ++ rest) = Some (v, rest).
Proof.
  intros Hv. unfold is_u8 in Hv.
  assert (H1 : 0 <= v / 16 < 16) by (split; [apply Z.div_pos|apply Z.div_lt_upper_bound]; lia).
  assert (H2 : 0 <= v mod 16 < 16) by (apply Z.mod_pos_bound; lia).
  pose proof (hex_char_range _ H1). pose proof (hex_char_range _ H2).
  unfold scan_hex, hex_byte. simpl app.
  assert (Hsp : skip_spaces (hex_char (v / 16) :: hex_char (v mod 16) :: rest)
                = hex_char (v / 16) :: hex_char (v mod 16) :: rest).
  { simpl. unfold is_space. rewrite (proj2 (Z.eqb_neq _ 32)), (proj2 (Z.leb_gt _ 13)) by lia.
    by rewrite andb_false_r. }
  rewrite Hsp. unfold scan_sign. rewrite (proj2 (Z.eqb_neq _ 43)), (proj2 (Z.eqb_neq _ 45)) by lia.
  unfold scan_prefix. rewrite (proj2 (Z.eqb_neq (hex_char (v mod 16)) 120)),
    (proj2 (Z.eqb_neq (hex_char (v mod 16)) 88)), andb_false_r by lia.
  simpl. rewrite !hex_value_char by done.
  replace ((0 * 16 + v / 16) * 16 + v mod 16) with v by (rewrite (Z.div_mod v 16) at 1; lia).
  simpl. rewrite Z.min_l by lia. by rewrite u32_small by (unfold is_u32; lia).
Qed.

Lemma scan_x_byte v : is_u8 v -> scan_x (hex_byte v) = Some (v, []).
Proof. intros. unfold scan_x. rewrite <- (app_nil_r (hex_byte v)) at 2. by apply scan_hex_byte. Qed.

Lemma until_nul_snoc p : exists s rest, until_nul (p ++ [0]) = Some s /\ (p ++ [0] = s ++ 0 :: rest)%list.
Proof.
  induction p as [|c p (s & rest & E & Ep)]; simpl; [by exists [], []|].
  destruct (Z.eqb_spec c 0) as [->|]; [by eexists [], _|]. exists (c :: s), rest. by rewrite E, Ep.
Qed.

Lemma until_nul_at p i : aget p i = Some 0 -> exists s, until_nul p = Some s.
Proof.
  unfold aget. case_match; [|done]. generalize (Z.to_nat i). induction p as [|c p IH]; intros n Hn; [done|].
  simpl. destruct (Z.eqb_spec c 0); [by eexists|]. destruct n as [|n]; [by injection Hn|].
  destruct (IH n Hn) as [s ->]. by eexists.
Qed.

Lemma until_nul_app s rest :
  Forall (fun c => c <> 0) s -> until_nul (s ++ 0 :: rest) = Some s.
Proof.
  induction 1 as [|c s Hc _ IH]; simpl; [done|].
  by rewrite (proj2 (Z.eqb_neq _ _) Hc), IH.
Qed.

Lemma hex_byte_nonzero v : is_u8 v -> Forall (fun c => c <> 0) (hex_byte v).
Proof.
  intros Hv. unfold is_u8 in Hv.
  assert (H1 : 0 <= v / 16 < 16) by (split; [apply Z.div_pos|apply Z.div_lt_upper_bound]; lia).
  assert (H2 : 0 <= v mod 16 < 16) by (apply Z.mod_pos_bound; lia).
  pose proof (hex_char_range _ H1). pose proof (hex_char_range _ H2).
  repeat constructor; lia.
Qed.

(** One digit followed by a character that is neither a digit nor [x]. *)
Lemma scan_x_digit d c rest :
  0 <= d < 16 -> hex_value c = None -> c <> 120 -> c <> 88 ->
  scan_x (hex_char d :: c :: rest) = Some (d, c :: rest).
Proof.
  intros Hd Hc Hx HX. pose proof (hex_char_range d Hd). unfold scan_x, scan_hex.
  assert (Hsp : skip_spaces (hex_char d :: c :: rest) = hex_char d :: c :: rest).
  { simpl. unfold is_space. rewrite (proj2 (Z.eqb_neq _ 32)), (proj2 (Z.leb_gt _ 13)) by lia.
    by rewrite andb_false_r. }
  rewrite Hsp. unfold scan_sign. simpl length. cbv iota.
  rewrite (proj2 (Z.eqb_neq _ 43)), (proj2 (Z.eqb_neq _ 45)) by lia.
  unfold scan_prefix. rewrite (proj2 (Z.eqb_neq c 120)), (proj2 (Z.eqb_neq c 88)), andb_false_r by done.
  cbn [hex_run]. rewrite hex_value_char, Hc by done. simpl.
  rewrite Z.min_l by lia. by rewrite u32_small by (unfold is_u32; lia).
Qed.

(** A decimal digit alone; a letter, which [atoi] reads as 0. *)
Lemma atoi_digit d : 0 <= d < 16 -> atoi [hex_char d] = if d <? 10 then d else 0.
Proof.
  intros Hd. pose proof (hex_char_range d Hd). unfold atoi.
  assert (Hsp : skip_spaces [hex_char d] = [hex_char d]).
  { simpl. unfold is_space. rewrite (proj2 (Z.eqb_neq _ 32)), (proj2 (Z.leb_gt _ 13)) by lia.
    by rewrite andb_false_r. }
  rewrite Hsp. unfold scan_sign. simpl length. cbv iota.
  rewrite (proj2 (Z.eqb_neq _ 43)), (proj2 (Z.eqb_neq _ 45)) by lia. simpl. unfold hex_char.
  destruct (Z.ltb_spec d 10).
  - rewrite (proj2 (Z.leb_le 48 _)), (proj2 (Z.leb_le _ 57)) by lia. simpl.
    rewrite Z.min_l by lia. rewrite s32_small; lia.
  - rewrite (proj2 (Z.leb_gt _ 57)), andb_false_r by lia. reflexivity.
Qed.

