(* ===== verification/Debug.v ===== *)
(** * [debug.c]: the source files whose debug messages are wanted

    [add_debug_to] keeps the names given with [--debug] in an array sorted by
    [strcmp]; [__is_debugged] looks a name up by binary search.  A cell of the
    array is a pointer to a string, [None] when null.  What the messages print is
    in [DebugMessages]. *)
From S2P Require Import Prelude CInt.
From stdpp Require Import sorting.

#[local] Open Scope string_scope.
#[local] Open Scope Z_scope.

Definition MAX_FILES_NUMBER : Z := 64.

Record debug_data : Type := Debug {
  debugged_files : list (option string);
  nb_debugged_files : Z;
}.

Definition set_files fs d := Debug fs (nb_debugged_files d).
Definition set_nb n d := Debug (debugged_files d) n.

Definition files_lens : lens debug_data (list (option string)) := Lens debugged_files set_files.

#[export] Instance files_lens_laws : LensLaws files_lens.
Proof. split; [by intros ? []|by intros []|by intros ? ? []]. Qed.

(** The static variables at the start of the program. *)
Definition debug_init : debug_data := Debug (replicate 64 None) 0.

(** The C library fixes only the sign of the result. *)
Definition strcmp (a b : string) : Z :=
  match String.compare a b with Lt => -1 | Eq => 0 | Gt => 1 end.

Definition read_name (i : Z) : M debug_data (option string) := zoom files_lens (cell_read i).
Definition write_name (i : Z) (p : option string) : M debug_data unit :=
  zoom files_lens (cell_write i p).

(** [strcmp(debugged_files[i], name)] *)
Definition strcmp_name (i : Z) (name : string) : M debug_data Z :=
  let! p := read_name i in
  match p with Some s => ret (strcmp s name) | None => undef NullPointer end.

(** The [while] loop of [add_debug_to] from [i], of which [n] is the distance
    to [MAX_FILES_NUMBER]. *)
Fixpoint find_place (n : nat) (i : Z) (name : string) : M debug_data Z :=
  match n with
  | O => ret i
  | S n' =>
      let! nb := gets nb_debugged_files in
      if i <? nb then
        let! c := strcmp_name i name in
        if c <? 0 then find_place n' (i + 1) name else ret i
      else ret i
  end.

(** The [for] loop: [j] goes down from [i + k] to [i + 1]. *)
Fixpoint shift_names (k : nat) (i : Z) : M debug_data unit :=
  match k with
  | O => ret tt
  | S k' =>
      let j := i + Z.of_nat k in
      let! p := read_name (j - 1) in
      write_name j p ;;;
      shift_names k' i
  end.

Definition add_debug_to (name : string) : M debug_data unit :=
  let! i := find_place (Z.to_nat MAX_FILES_NUMBER) 0 name in
  if MAX_FILES_NUMBER <=? i then ret tt else
  let! nb := gets nb_debugged_files in
  shift_names (Z.to_nat (nb - i)) i ;;;
  write_name i (Some name) ;;;
  modify (set_nb (nb + 1)).

(** The [while] loop of [__is_debugged], and the test after it.  The interval
    shrinks in every round, so [to - from] rounds are enough: at [O] the loop's
    condition is false. *)
Fixpoint search (rounds : nat) (from to : Z) (name : string) : M debug_data Z :=
  let after :=
    if from =? to then
      let! c := strcmp_name from name in ret (b2z (c =? 0))
    else ret 0 in
  match rounds with
  | O => after
  | S rounds' =>
      if from <? to then
        let middle := Z.quot (from + to) 2 in
        let! result := strcmp_name middle name in
        if result <? 0 then search rounds' (middle + 1) to name
        else if 0 <? result then search rounds' from (middle - 1) name
        else ret 1
      else after
  end.

Definition __is_debugged (name : string) : M debug_data Z :=
  let! nb := gets nb_debugged_files in
  search (Z.to_nat (nb - 1)) 0 (nb - 1) name.

(** ** Abstract view: a sorted list of names *)

(** [d] holds the names [l]. *)
Definition holds (l : list string) (d : debug_data) : Prop :=
  length (debugged_files d) = 64%nat /\ (length l <= 64)%nat /\
  nb_debugged_files d = Z.of_nat (length l) /\
  forall k s, l !! k = Some s -> debugged_files d !! k = Some (Some s).

Definition debug_ok (l : list string) (d : debug_data) : Prop :=
  holds l d /\ StronglySorted String.le l.

(** The number of names before the place of [name]. *)
Fixpoint place (name : string) (l : list string) : nat :=
  match l with
  | [] => O
  | s :: l' => if strcmp s name <? 0 then S (place name l') else O
  end.

Definition insert_name (name : string) (l : list string) : list string :=
  take (place name l) l ++ name :: drop (place name l) l.

(** ** Lemmas *)

Lemma strcmp_eq a b : strcmp a b = 0 <-> a = b.
Proof.
  unfold strcmp. split.
  - destruct (String.compare a b) eqn:E; try done. by intros _; apply String.compare_eq_iff.
  - intros ->. pose proof (String.compare_antisym b b). by destruct (String.compare b b).
Qed.

Lemma strcmp_le a b : strcmp a b <= 0 <-> (a ≤ b)%string.
Proof.
  unfold strcmp, String.le, String.leb. destruct (String.compare a b); simpl; split; try done; lia.
Qed.

Lemma strcmp_lt_le a b : strcmp a b < 0 -> (a ≤ b)%string.
Proof. intros. apply strcmp_le. lia. Qed.

Lemma strcmp_ge_le a b : 0 <= strcmp a b -> (b ≤ a)%string.
Proof.
  rewrite <- strcmp_le. unfold strcmp. rewrite (String.compare_antisym b a).
  destruct (String.compare a b); simpl; lia.
Qed.

Lemma strcmp_gt a b : 0 < strcmp a b -> ~ (a ≤ b)%string.
Proof. rewrite <- strcmp_le. lia. Qed.
Lemma strcmp_lt a b : strcmp a b < 0 -> ~ (b ≤ a)%string.
Proof.
  rewrite <- strcmp_le. unfold strcmp. rewrite (String.compare_antisym b a).
  destruct (String.compare a b); simpl; lia.
Qed.

Section names.
Context (l : list string) (d : debug_data) (Hl : holds l d).

Lemma read_name_holds (i : Z) s :
  0 <= i -> l !! Z.to_nat i = Some s -> read_name i d = Ret (Some s) d.
Proof.
  intros Hi E. apply (zoom_read files_lens), cell_read_ret.
  unfold aget. destruct (Z.leb_spec 0 i); [|lia]. by apply Hl.
Qed.

Lemma strcmp_name_holds i s name :
  0 <= i -> l !! Z.to_nat i = Some s -> strcmp_name i name d = Ret (strcmp s name) d.
Proof.
  intros Hi E. unfold strcmp_name. by rewrite (bind_ret _ _ _ _ _ (read_name_holds i s Hi E)).
Qed.

(** A position of the list holds a name. *)
Lemma name_at i : 0 <= i < Z.of_nat (length l) -> exists s, l !! Z.to_nat i = Some s.
Proof. intros. apply lookup_lt_is_Some. lia. Qed.

Lemma find_place_holds name n i :
  0 <= i <= Z.of_nat (length l) -> i + Z.of_nat n = 64 ->
  find_place n i name d = Ret (i + Z.of_nat (place name (drop (Z.to_nat i) l))) d.
Proof.
  destruct Hl as (_ & Hlen & Hnb & _). revert i. induction n as [|n IH]; intros i Hi Hn; simpl.
  { rewrite drop_ge by lia. unfold ret. f_equal. simpl. lia. }
  rewrite (bind_ret _ _ d (nb_debugged_files d) d) by done. rewrite Hnb.
  destruct (Z.ltb_spec i (Z.of_nat (length l))); cycle 1.
  { rewrite drop_ge by lia. unfold ret. f_equal. simpl. lia. }
  destruct (name_at i) as [s Es]; [lia|]. rewrite (drop_S _ _ _ Es). simpl.
  rewrite (bind_ret _ _ _ _ _ (strcmp_name_holds i s name ltac:(lia) Es)).
  destruct (strcmp s name <? 0); [|unfold ret; f_equal; simpl; lia].
  rewrite IH by lia. replace (Z.to_nat (i + 1)) with (S (Z.to_nat i)) by lia. f_equal. lia.
Qed.
End names.

Lemma place_le name l : (place name l <= length l)%nat.
Proof. induction l as [|s l IH]; simpl; [lia|]. case_match; lia. Qed.

Lemma place_before name l s : s ∈ take (place name l) l -> (s ≤ name)%string.
Proof.
  induction l as [|s' l IH]; simpl; [by rewrite elem_of_nil|].
  destruct (Z.ltb_spec (strcmp s' name) 0); simpl; [|by rewrite elem_of_nil].
  rewrite elem_of_cons. intros [-> | Hs]; [by apply strcmp_lt_le|auto].
Qed.

Lemma place_after name l s :
  StronglySorted String.le l -> s ∈ drop (place name l) l -> (name ≤ s)%string.
Proof.
  induction l as [|s' l IH]; simpl; [by rewrite elem_of_nil|].
  intros HS. apply StronglySorted_inv in HS as [HS HF].
  destruct (Z.ltb_spec (strcmp s' name) 0); simpl; [auto|].
  rewrite elem_of_cons. apply strcmp_ge_le in H. intros [-> | Hs]; [done|].
  etrans; [done|]. by eapply (proj1 (Forall_forall _ _) HF).
Qed.

Lemma insert_name_sorted name l :
  StronglySorted String.le l -> StronglySorted String.le (insert_name name l).
Proof.
  intros HS. unfold insert_name. rewrite <- (take_drop (place name l) l) in HS.
  apply StronglySorted_app in HS as (Hx & HS1 & HS2).
  apply StronglySorted_app. split_and!; [|done|].
  - intros x1 x2 H1 [-> | H2]%elem_of_cons; [by apply (place_before _ l)|by apply Hx].
  - constructor; [done|]. apply Forall_forall. intros x Hi. apply (place_after _ l); [|done].
    rewrite <- (take_drop (place name l) l). apply StronglySorted_app. by split_and!.
Qed.

Lemma insert_name_perm name l : insert_name name l ≡ₚ name :: l.
Proof. unfold insert_name. by rewrite <- Permutation_middle, take_drop. Qed.

Lemma length_insert_name name l : length (insert_name name l) = S (length l).
Proof. by rewrite insert_name_perm. Qed.

(** The cells after the shift. *)
Lemma shift_names_ok k i d :
  0 <= i -> i + Z.of_nat k < Z.of_nat (length (debugged_files d)) ->
  exists fs, shift_names k i d = Ret tt (set_files fs d) /\
    length fs = length (debugged_files d) /\
    forall j : nat, fs !! j = if decide (i < Z.of_nat j <= i + Z.of_nat k)
                      then debugged_files d !! (j - 1)%nat else debugged_files d !! j.
Proof.
  revert d. induction k as [|k IH]; intros d Hi Hk.
  { exists (debugged_files d). split_and!; [by destruct d|done|]. intros j.
    rewrite decide_False by lia. done. }
  cbn [shift_names]. replace (i + Z.of_nat (S k) - 1) with (i + Z.of_nat k) by lia.
  destruct (aget_lt (debugged_files d) (i + Z.of_nat k)) as [p Ep]; [lia|].
  rewrite (bind_ret _ _ d p d) by by apply (zoom_read files_lens), cell_read_ret.
  set (d1 := set_files (aset (debugged_files d) (i + Z.of_nat (S k)) p) d).
  rewrite (bind_ret _ _ d tt d1); cycle 1.
  { apply (zoom_ret files_lens), cell_write_ret. simpl. lia. }
  destruct (IH d1) as (fs & E & Hlen & Hfs); [done|simpl; rewrite length_aset; lia|].
  exists fs. split_and!; [done|by rewrite Hlen; simpl; rewrite length_aset|].
  intros j. rewrite Hfs. cbn [d1 debugged_files set_files].
  unfold aset, aget in *. destruct (Z.leb_spec 0 (i + Z.of_nat (S k))); [|lia].
  destruct (Z.leb_spec 0 (i + Z.of_nat k)); [|lia].
  destruct (decide (Z.of_nat j = i + Z.of_nat (S k))) as [Ej|Ej].
  - rewrite decide_False by lia. rewrite decide_True by lia.
    replace (Z.to_nat (i + Z.of_nat (S k))) with j by lia.
    rewrite list_lookup_insert_eq by lia. rewrite <- Ep. f_equal. lia.
  - destruct (decide (i < Z.of_nat j <= i + Z.of_nat k)).
    + rewrite decide_True by lia. apply list_lookup_insert_ne. lia.
    + rewrite decide_False by lia. apply list_lookup_insert_ne. lia.
Qed.

(** Where the elements of a list are after an insertion. *)
Lemma insert_name_lookup name l k s :
  insert_name name l !! k = Some s ->
  ((k < place name l)%nat /\ l !! k = Some s) \/ (k = place name l /\ s = name) \/
  ((place name l < k <= length l)%nat /\ l !! (k - 1)%nat = Some s).
Proof.
  pose proof (place_le name l) as Hp. unfold insert_name.
  assert (Ht : length (take (place name l) l) = place name l) by (rewrite length_take; lia).
  intros [E|[Hk E]]%lookup_app_Some.
  - left. apply lookup_take_Some in E as [E Hk]. done.
  - right. rewrite Ht in *. destruct (k - place name l)%nat as [|k'] eqn:Ek; simpl in E.
    + left. split; [lia|congruence].
    + right. rewrite lookup_drop in E. pose proof (lookup_lt_Some _ _ _ E).
      split; [lia|]. rewrite <- E. f_equal. lia.
Qed.

Lemma add_debug_ok name l d :
  debug_ok l d -> (length l < 64)%nat ->
  exists d', add_debug_to name d = Ret tt d' /\ debug_ok (insert_name name l) d'.
Proof.
  intros [Hh HS] Hlt. destruct (Hh) as (Hlen & _ & Hnb & Hfs).
  pose proof (place_le name l) as Hp. unfold add_debug_to.
  rewrite (bind_ret _ _ _ _ _ (find_place_holds l d Hh name 64 0 ltac:(lia) ltac:(lia))).
  change (drop _ l) with l. set (p := place name l) in *.
  destruct (Z.leb_spec MAX_FILES_NUMBER (0 + Z.of_nat p)) as [Hm|_]; [unfold MAX_FILES_NUMBER in Hm; lia|].
  rewrite (bind_ret _ _ d (nb_debugged_files d) d) by done.
  destruct (shift_names_ok (Z.to_nat (nb_debugged_files d - (0 + Z.of_nat p))) (0 + Z.of_nat p) d)
    as (fs & E & Hl' & Hf); [lia|lia|].
  rewrite (bind_ret _ _ _ _ _ E).
  set (d2 := set_files (aset fs (0 + Z.of_nat p) (Some name)) (set_files fs d)).
  rewrite (bind_ret _ _ _ tt d2); cycle 1.
  { apply (zoom_ret files_lens), cell_write_ret. simpl. lia. }
  eexists. split; [reflexivity|]. split; [|by apply insert_name_sorted].
  unfold holds. rewrite length_insert_name. cbn. rewrite length_aset. split_and!; [lia..|].
  intros k s Hk. unfold aset. destruct (Z.leb_spec 0 (0 + Z.of_nat p)); [|lia].
  replace (Z.to_nat (0 + Z.of_nat p)) with p by lia.
  subst p. apply insert_name_lookup in Hk as [[Hk E']|[[-> ->]|[Hk E']]].
  - rewrite list_lookup_insert_ne by lia. rewrite Hf, decide_False by lia. by apply Hfs.
  - apply list_lookup_insert_eq. lia.
  - rewrite list_lookup_insert_ne by lia. rewrite Hf, decide_True by lia. by apply Hfs.
Qed.

(** A 65th name that does not come last is written behind the array. *)
Lemma add_debug_full name l d :
  debug_ok l d -> length l = 64%nat ->
  add_debug_to name d =
    if bool_decide (Forall (fun s => strcmp s name < 0) l) then Ret tt d else Undef OutOfBounds.
Proof.
  intros [Hh HS] Hfull. destruct (Hh) as (Hlen & _ & Hnb & Hfs). unfold add_debug_to.
  rewrite (bind_ret _ _ _ _ _ (find_place_holds l d Hh name 64 0 ltac:(lia) ltac:(lia))).
  change (drop _ l) with l. assert (Hpl : place name l = length l <-> Forall (fun s => strcmp s name < 0) l).
  { clear. induction l as [|s l IH]; simpl; [done|]. rewrite Forall_cons.
    destruct (Z.ltb_spec (strcmp s name) 0); [rewrite <- IH; intuition lia|]. intuition lia. }
  case_bool_decide as HF; rewrite <- Hpl in HF.
  - destruct (Z.leb_spec MAX_FILES_NUMBER (0 + Z.of_nat (place name l))) as [_|Hm]; [done|].
    unfold MAX_FILES_NUMBER in Hm. lia.
  - pose proof (place_le name l).
    destruct (Z.leb_spec MAX_FILES_NUMBER (0 + Z.of_nat (place name l))) as [Hm|_];
      [unfold MAX_FILES_NUMBER in Hm; lia|].
    rewrite (bind_ret _ _ d (nb_debugged_files d) d) by done. apply bind_undef.
    destruct (Z.to_nat _) as [|k] eqn:Ek; [lia|]. cbn [shift_names].
    destruct (aget_lt (debugged_files d) (0 + Z.of_nat (place name l) + Z.of_nat (S k) - 1))
      as [q Eq]; [lia|].
    rewrite (bind_ret _ _ d q d) by by apply (zoom_read files_lens), cell_read_ret.
    apply bind_undef, zoom_undef. unfold cell_write. rewrite aget_None; [done|]. simpl. lia.
Qed.

(** ** The binary search *)

Section search.
Context (l : list string) (d : debug_data) (Hok : debug_ok l d) (name : string).

Definition found_in (from to : Z) : Prop :=
  exists k : nat, from <= Z.of_nat k <= to /\ l !! k = Some name.

(** The interval may be cut at a position whose name differs. *)
Lemma sorted_le i j s s' :
  (i <= j)%nat -> l !! i = Some s -> l !! j = Some s' -> (s ≤ s')%string.
Proof.
  intros Hij Hi Hj. destruct (decide (i = j)) as [->|]; [by simplify_eq|].
  destruct Hok as [_ HS]. rewrite <- (take_drop_middle _ _ _ Hi) in HS.
  apply StronglySorted_app in HS as (_ & _ & [_ HF]%StronglySorted_inv).
  rewrite Forall_forall in HF. apply HF.
  apply list_elem_of_lookup. exists (j - S i)%nat. rewrite lookup_drop, <- Hj. f_equal. lia.
Qed.

Lemma cut_left from to k s :
  l !! k = Some s -> strcmp s name < 0 ->
  found_in from to <-> found_in (Z.max from (Z.of_nat k + 1)) to.
Proof.
  intros Ek Hs. split; intros (i & Hi & Ei); exists i; split; try done; try lia.
  destruct (Nat.le_gt_cases i k) as [Hle|]; [|lia].
  destruct (strcmp_lt _ _ Hs). by eapply sorted_le.
Qed.

Lemma cut_right from to k s :
  l !! k = Some s -> 0 < strcmp s name ->
  found_in from to <-> found_in from (Z.min to (Z.of_nat k - 1)).
Proof.
  intros Ek Hs. split; intros (i & Hi & Ei); exists i; split; try done; try lia.
  destruct (Nat.le_gt_cases k i) as [Hle|]; [|lia].
  destruct (strcmp_gt _ _ Hs). by eapply sorted_le.
Qed.

Definition answers (from to : Z) (r : res debug_data Z) : Prop :=
  (r = Ret 1 d /\ found_in from to) \/ (r = Ret 0 d /\ ~ found_in from to).

Lemma answers_iff from to from' to' r :
  (found_in from to <-> found_in from' to') -> answers from' to' r -> answers from to r.
Proof. unfold answers. tauto. Qed.

(** The test after the loop. *)
Lemma search_after from to :
  0 <= from -> to < Z.of_nat (length l) -> to <= from ->
  answers from to ((if from =? to then let! c := strcmp_name from name in ret (b2z (c =? 0))
                    else ret 0) d).
Proof.
  intros Hf Ht Hle. destruct (Z.eqb_spec from to) as [<-|Hne]; cycle 1.
  { right. split; [done|]. intros (k & Hk & _). lia. }
  destruct (name_at l from) as [s Es]; [lia|].
  rewrite (bind_ret _ _ _ _ _ (strcmp_name_holds l d (proj1 Hok) from s name Hf Es)).
  destruct (Z.eqb_spec (strcmp s name) 0) as [->%strcmp_eq|Hs].
  - left. split; [done|]. exists (Z.to_nat from). split; [lia|done].
  - right. split; [done|]. intros (k & Hk & Ek). apply Hs, strcmp_eq.
    replace k with (Z.to_nat from) in Ek by lia. congruence.
Qed.

Lemma search_ok n from to :
  0 <= from -> to < Z.of_nat (length l) -> to - from <= Z.of_nat n ->
  answers from to (search n from to name d).
Proof.
  revert from to. induction n as [|n IH]; intros from to Hf Ht Hn; cbn [search].
  { apply search_after; lia. }
  destruct (Z.ltb_spec from to); [|apply search_after; lia].
  rewrite Z.quot_div_nonneg by lia. set (mid := (from + to) / 2).
  assert (Hmid : from <= mid < to) by (subst mid; Z.div_mod_to_equations; lia).
  destruct (name_at l mid) as [s Es]; [lia|].
  rewrite (bind_ret _ _ _ _ _ (strcmp_name_holds l d (proj1 Hok) mid s name ltac:(lia) Es)).
  destruct (Z.ltb_spec (strcmp s name) 0).
  { eapply answers_iff; [by eapply cut_left|].
    replace (Z.max from (Z.of_nat (Z.to_nat mid) + 1)) with (mid + 1) by lia. apply IH; lia. }
  destruct (Z.ltb_spec 0 (strcmp s name)).
  { eapply answers_iff; [by eapply cut_right|].
    replace (Z.min to (Z.of_nat (Z.to_nat mid) - 1)) with (mid - 1) by lia. apply IH; lia. }
  left. split; [done|]. exists (Z.to_nat mid). split; [lia|]. rewrite Es. f_equal.
  apply strcmp_eq. lia.
Qed.

Lemma is_debugged_ok : __is_debugged name d = Ret (b2z (bool_decide (name ∈ l))) d.
Proof.
  destruct (proj1 Hok) as (_ & _ & Hnb & _). unfold __is_debugged.
  rewrite (bind_ret _ _ d (nb_debugged_files d) d) by done. rewrite Hnb.
  destruct (search_ok (Z.to_nat (Z.of_nat (length l) - 1)) 0 (Z.of_nat (length l) - 1))
    as [[-> (k & Hk & Ek)]|[-> Hno]]; try lia.
  - rewrite bool_decide_true; [done|]. apply list_elem_of_lookup. eauto.
  - rewrite bool_decide_false; [done|]. intros (k & Ek)%list_elem_of_lookup.
    apply Hno. exists k. split; [|done]. apply lookup_lt_Some in Ek. lia.
Qed.
End search.

Fixpoint add_all (names : list string) : M debug_data unit :=
  match names with
  | [] => ret tt
  | s :: names' => add_debug_to s ;;; add_all names'
  end.

Lemma debug_init_ok : debug_ok [] debug_init.
Proof. split; [|constructor]. split_and!; [done|simpl; lia|done|done]. Qed.

Lemma add_all_ok names l d :
  debug_ok l d -> (length names + length l <= 64)%nat ->
  exists l' d', add_all names d = Ret tt d' /\ debug_ok l' d' /\ l' ≡ₚ names ++ l.
Proof.
  revert l d. induction names as [|s names IH]; intros l d Hok Hlen; simpl in *.
  { by exists l, d. }
  destruct (add_debug_ok s l d) as (d1 & E1 & Hok1); [done|lia|].
  rewrite (bind_ret _ _ _ _ _ E1).
  destruct (IH (insert_name s l) d1) as (l' & d' & E' & Hok' & Hp);
    [done|rewrite length_insert_name; lia|].
  exists l', d'. split_and!; [done..|]. rewrite Hp, insert_name_perm. by rewrite <- Permutation_middle.
Qed.

(** ** Properties *)

(** Debug messages are selected by file.  After up to 64 [--debug]
    options, in any order and with repetitions, the options have been accepted
    and the binary search of [__is_debugged] answers 1 for exactly the names
    given. *)
Theorem debug_selection names name :
  (length names <= 64)%nat ->
  exists d, add_all names debug_init = Ret tt d /\
    __is_debugged name d = Ret (b2z (bool_decide (name ∈ names))) d.
Proof.
  intros Hlen. destruct (add_all_ok names [] debug_init debug_init_ok) as (l & d & E & Hok & Hp);
    [simpl; lia|].
  exists d. split; [done|]. rewrite (is_debugged_ok l d Hok). do 2 f_equal.
  rewrite app_nil_r in Hp. apply bool_decide_ext. by rewrite Hp.
Qed.

(** C40: The array's limit.  With room left a new name takes its place in the
    sorted array; once 64 names are there, a name that sorts after all of them
    is ignored, and any other is an access past the end of the array. *)
Theorem debug_capacity name l d :
  debug_ok l d ->
  if (length l <? 64)%nat then
    exists d', add_debug_to name d = Ret tt d' /\ debug_ok (insert_name name l) d' /\
      insert_name name l ≡ₚ name :: l
  else
    add_debug_to name d =
      if bool_decide (Forall (fun s => strcmp s name < 0) l) then Ret tt d else Undef OutOfBounds.
Proof.
  intros Hok. destruct (Nat.ltb_spec (length l) 64).
  - destruct (add_debug_ok name l d) as (d' & ? & ?); [done..|].
    exists d'. split_and!; [done..|apply insert_name_perm].
  - apply add_debug_full; [done|]. destruct Hok as [(_ & ? & _) _]. lia.
Qed.

(** ** Witnesses *)

Lemma debug_selection_witness :
  exists d, add_all ["memory.c"; "arm.c"; "trace.c"] debug_init = Ret tt d /\
    __is_debugged "arm.c" d = Ret 1 d.
Proof. apply (debug_selection ["memory.c"; "arm.c"; "trace.c"] "arm.c"). simpl. lia. Defined.

Lemma debug_capacity_witness :
  exists d', add_debug_to "arm.c" debug_init = Ret tt d' /\ debug_ok ["arm.c"] d'.
Proof.
  destruct (debug_capacity "arm.c" [] debug_init debug_init_ok) as (d' & H1 & H2 & _).
  exists d'. exact (conj H1 H2).
Defined.
