(* ===== verification/DebugMessages.v ===== *)
(** * [debug.h] and [__debug_raw_binary]: the debug messages

    The macros of [debug.h] in a source file compiled with [DEBUG].  With
    [CACHE_DEBUG_FLAG] (the parameter [cached]) a source file asks once and keeps
    the answer in static variables.  The state is that of [debug.c], the static
    variables of the source file, and the characters printed on standard error;
    [format] and its arguments are the text they give. *)
From S2P Require Import Prelude CInt Format CString Debug.

#[local] Open Scope string_scope.
#[local] Open Scope Z_scope.
#[local] Open Scope list_scope.

Record messages : Type := Messages {
  files : debug_data;
  is_debugged_first : Z;
  is_debugged_result : Z;
  printed : list Z;
}.

Definition set_first x m := Messages (files m) x (is_debugged_result m) (printed m).
Definition set_result x m := Messages (files m) (is_debugged_first m) x (printed m).
Definition set_printed x m := Messages (files m) (is_debugged_first m) (is_debugged_result m) x.
Definition messages_lens : lens messages debug_data :=
  Lens files (fun d m => Messages d (is_debugged_first m) (is_debugged_result m) (printed m)).

#[export] Instance messages_lens_laws : LensLaws messages_lens.
Proof. split; [by intros ? []|by intros []|by intros ? ? []]. Qed.

Definition messages_init (d : debug_data) : messages := Messages d 1 0 [].

(** [fprintf(stderr, ...)] *)
Definition print_err (text : list Z) : M messages unit :=
  modify (fun m => set_printed (printed m ++ text) m).

(** [isprint] in the C locale. *)
Definition isprint (c : Z) : bool := (32 <=? c) && (c <=? 126).

(** The loop [while (len--)] for a length that is not negative. *)
Fixpoint raw_binary_loop (len : nat) (data : list Z) : M messages unit :=
  match len with
  | O => ret tt
  | S len' =>
      match data with
      | [] => undef OutOfBounds
      | c :: data' => print_err [if isprint c then c else 46] ;;; raw_binary_loop len' data'
      end
  end.

(** With a negative length the loop runs on past the end of the data. *)
Definition __debug_raw_binary (data : list Z) (len : Z) : M messages Z :=
  (if len <? 0 then undef OutOfBounds else raw_binary_loop (Z.to_nat len) data) ;;;
  ret 0.

Section macros.
Context (cached : bool).

Definition is_debugged (x : string) : M messages Z :=
  if cached then
    let! first := gets is_debugged_first in
    let! asked :=
      (if nz first then
         modify (set_first 0) ;;;
         let! r := zoom messages_lens (__is_debugged x) in
         modify (set_result r) ;;;
         ret (nz r)
       else ret false) in
    if asked then ret 1
    else let! r := gets is_debugged_result in ret (b2z (nz r))
  else zoom messages_lens (__is_debugged x).

(** The macros in code on a state [S] that contains the messages.  [__FILE__] and
    [__LINE__] are the arguments [file] and [line]; [args] computes the text of the
    format and its arguments, which C evaluates only if the file is selected. *)
Context {S : Type} (L : lens S messages).

Definition debug_raw (file : string) (args : M S (list Z)) : M S unit :=
  let! b := zoom L (is_debugged file) in
  when (nz b) (let! text := args in zoom L (print_err text)).

Definition debug_head (file : string) (line : Z) : list Z :=
  chars ("[DEBUG] " +:+ file +:+ "," +:+ fmt_d line +:+ ": ").

Definition debug (file : string) (line : Z) (args : M S (list Z)) : M S unit :=
  let! b := zoom L (is_debugged file) in
  when (nz b) (let! text := args in zoom L (print_err (debug_head file line ++ text))).

Definition debug_raw_binary (file : string) (args : M S (list Z * Z)) : M S unit :=
  let! b := zoom L (is_debugged file) in
  when (nz b) (let! x := args in zoom L (__debug_raw_binary x.1 x.2 ;;; ret tt)).
End macros.

(** ** Properties *)

(** Each character, or a dot. *)
Definition shown (c : Z) : Z := if isprint c then c else 46.

Lemma raw_binary_loop_ok len data m :
  (len <= length data)%nat ->
  raw_binary_loop len data m = Ret tt (set_printed (printed m ++ (shown <$> take len data)) m).
Proof.
  revert data m. induction len as [|len IH]; intros data m Hl; simpl.
  { rewrite app_nil_r. by destruct m. }
  destruct data as [|c data]; [simpl in Hl; lia|]. simpl.
  erewrite bind_ret by reflexivity. rewrite IH by (simpl in Hl; lia). unfold set_printed. simpl. by rewrite <- app_assoc.
Qed.

Lemma raw_binary_ok data len m :
  0 <= len <= Z.of_nat (length data) ->
  __debug_raw_binary data len m =
    Ret 0 (set_printed (printed m ++ (shown <$> take (Z.to_nat len) data)) m).
Proof.
  intros Hl. unfold __debug_raw_binary. destruct (Z.ltb_spec len 0); [lia|].
  by rewrite (bind_ret _ _ _ _ _ (raw_binary_loop_ok (Z.to_nat len) data m ltac:(lia))).
Qed.

(** What the cache holds: nothing yet, or an answer. *)
Definition cache_of (m : messages) : option bool :=
  if nz (is_debugged_first m) then None else Some (nz (is_debugged_result m)).

(** The answer of [is_debugged]: without the cache, whether the file is selected
    now; with it, the answer of the first time. *)
Lemma is_debugged_answer cached l x m :
  debug_ok l (files m) ->
  exists m', is_debugged cached x m =
    Ret (b2z (default (bool_decide (x ∈ l)) (if cached then cache_of m else None))) m' /\
    files m' = files m /\ printed m' = printed m /\
    (cached = true -> cache_of m' = Some (default (bool_decide (x ∈ l)) (cache_of m))).
Proof.
  intros Hok. unfold is_debugged, cache_of. destruct cached; cycle 1.
  { exists m. split; [|done]. apply (zoom_read messages_lens). by apply is_debugged_ok. }
  erewrite bind_ret by reflexivity. destruct (nz (is_debugged_first m)) eqn:Ef; simpl.
  - set (b := bool_decide (x ∈ l)).
    exists (set_result (b2z b) (set_first 0 m)). rewrite bind_assoc. erewrite bind_ret by reflexivity.
    rewrite bind_assoc. erewrite bind_ret; cycle 1.
    { apply (zoom_read messages_lens). simpl. apply (is_debugged_ok l _ Hok x). }
    rewrite bind_assoc. erewrite bind_ret by reflexivity. fold b. by destruct b.
  - exists m. rewrite Ef. split; [reflexivity|done].
Qed.

(** ** Messages without the cache *)

(** The array of the selected files is in order. *)
Definition log_ok (m : messages) : Prop := exists l, debug_ok l (files m).

Definition selected (m : messages) (x : string) : bool :=
  match __is_debugged x (files m) with Ret r _ => nz r | _ => false end.

(** [m] after the message [text] of the file [x]. *)
Definition said (x : string) (text : list Z) (m : messages) : messages :=
  if selected m x then set_printed (printed m ++ text) m else m.

Lemma is_debugged_selected x m : log_ok m -> is_debugged false x m = Ret (b2z (selected m x)) m.
Proof.
  intros [l Hok]. unfold is_debugged, selected. apply (zoom_read messages_lens). simpl.
  rewrite (is_debugged_ok l _ Hok x). by destruct (bool_decide _).
Qed.

Lemma files_said x text m : files (said x text m) = files m.
Proof. unfold said. by destruct (selected m x). Qed.
Lemma log_ok_said x text m : log_ok m -> log_ok (said x text m).
Proof. unfold log_ok. by rewrite files_said. Qed.
#[export] Hint Resolve log_ok_said : core.

Lemma selected_said x y text m : selected (said x text m) y = selected m y.
Proof. unfold selected. by rewrite files_said. Qed.

Lemma said_said x t1 t2 m : said x t2 (said x t1 m) = said x (t1 ++ t2) m.
Proof.
  unfold said at 1. rewrite selected_said. unfold said. destruct (selected m x); [|done].
  unfold set_printed. simpl. by rewrite app_assoc.
Qed.

Lemma said_nil x m : said x [] m = m.
Proof. unfold said. destruct m. unfold set_printed. simpl. rewrite app_nil_r. by destruct (selected _ _). Qed.

Section said.
Context {S : Type} (L : lens S messages) `{!LensLaws L} (x : string) (s : S).
Hypothesis Hlog : log_ok (lget L s).

(** The three macros have one shape. *)
Lemma said_shape {A} (args : M S A) (out : A -> M messages unit) a text :
  (selected (lget L s) x = true ->
     args s = Ret a s /\ out a (lget L s) = Ret tt (set_printed (printed (lget L s) ++ text) (lget L s))) ->
  (let! b := zoom L (is_debugged false x) in
   when (nz b) (let! y := args in zoom L (out y))) s = Ret tt (lset L (said x text (lget L s)) s).
Proof.
  intros Ha. erewrite bind_ret by (apply (zoom_read L), is_debugged_selected, Hlog).
  unfold said. destruct (selected (lget L s) x) eqn:E; [|by rewrite lset_lget].
  destruct (Ha eq_refl) as [E1 E2]. simpl. rewrite (bind_ret _ _ _ _ _ E1). by apply zoom_ret.
Qed.

Lemma debug_said line args text :
  (selected (lget L s) x = true -> args s = Ret text s) ->
  debug false L x line args s = Ret tt (lset L (said x (debug_head x line ++ text) (lget L s)) s).
Proof. intros Ha. apply said_shape with text. by split; [apply Ha|]. Qed.

Lemma debug_raw_said args text :
  (selected (lget L s) x = true -> args s = Ret text s) ->
  debug_raw false L x args s = Ret tt (lset L (said x text (lget L s)) s).
Proof. intros Ha. apply said_shape with text. by split; [apply Ha|]. Qed.

Lemma debug_raw_binary_said args data len :
  (selected (lget L s) x = true -> args s = Ret (data, len) s) -> 0 <= len <= Z.of_nat (length data) ->
  debug_raw_binary false L x args s =
    Ret tt (lset L (said x (shown <$> take (Z.to_nat len) data) (lget L s)) s).
Proof.
  intros Ha Hl. apply said_shape with (data, len). split; [by apply Ha|]. simpl.
  by rewrite (bind_ret _ _ _ _ _ (raw_binary_ok data len (lget L s) Hl)).
Qed.
End said.

(** C18: Debug messages.  After up to 64 [--debug] options, a message of a source
    file is printed exactly if the file is one of those named, whichever variant of
    the macro was compiled in, and its arguments are evaluated in this case only.
    With the cached variant the first answer is final: it stays whatever options are
    added later, so that a file that asked while the options were read can be left
    without its messages. *)
Theorem debug_messages {S} (L : lens S messages) `{!LensLaws L} (s : S) args names more x line text cached :
  (length names + length more <= 64)%nat ->
  (x ∈ names -> forall m, args (lset L m s) = Ret text (lset L m s)) ->
  exists d m1 d2 m2, add_all names debug_init = Ret tt d /\
    debug cached L x line args (lset L (messages_init d) s) = Ret tt (lset L m1 s) /\
    printed m1 = (if bool_decide (x ∈ names)
                  then chars ("[DEBUG] " +:+ x +:+ "," +:+ fmt_d line +:+ ": ") ++ text else []) /\
    add_all more (files m1) = Ret tt d2 /\
    is_debugged cached x (lset messages_lens d2 m1) =
      Ret (b2z (bool_decide (x ∈ if cached then names else names ++ more))) m2.
Proof.
  intros Hlen Ha. destruct (add_all_ok names [] debug_init debug_init_ok) as (l & d & E & Hok & Hp);
    [simpl; lia|]. rewrite app_nil_r in Hp.
  assert (Hx : bool_decide (x ∈ l) = bool_decide (x ∈ names)) by (apply bool_decide_ext; by rewrite Hp).
  destruct (is_debugged_answer cached l x (messages_init d) Hok) as (m & Em & Ef & Ep & Ec).
  replace (default _ _) with (bool_decide (x ∈ names)) in Em by (rewrite Hx; by destruct cached).
  destruct (add_all_ok more l d Hok) as (l2 & d2 & E2 & Hok2 & Hp2); [rewrite Hp; lia|].
  set (m1 := if bool_decide (x ∈ names) then set_printed (debug_head x line ++ text) m else m).
  assert (Em1 : debug cached L x line args (lset L (messages_init d) s) = Ret tt (lset L m1 s)).
  { unfold debug. erewrite bind_ret by (apply zoom_ret; rewrite lget_lset; exact Em).
    subst m1. simpl in Ep. rewrite lset_lset. destruct (bool_decide_reflect (x ∈ names)); [|done]. simpl.
    rewrite (bind_ret _ _ _ _ _ (Ha ltac:(done) m)). erewrite zoom_ret by reflexivity.
    by rewrite lget_lset, lset_lset, Ep. }
  assert (Hm1 : files m1 = d /\ cache_of m1 = cache_of m) by (subst m1; by case_match).
  destruct (is_debugged_answer cached l2 x (lset messages_lens d2 m1) Hok2) as (m2 & Em2 & _).
  exists d, m1, d2, m2. split; [done|]. split; [done|]. split; [subst m1; simpl in Ep; by case_match|].
  destruct Hm1 as [-> Hc]. split; [done|]. rewrite Em2. do 2 f_equal. destruct cached; simpl.
  - change (cache_of _) with (cache_of m1). rewrite Hc, (Ec eq_refl). simpl. by rewrite Hx.
  - apply bool_decide_ext. rewrite Hp2, Hp. by rewrite (comm (++)).
Qed.

(** ** Witnesses *)

(** A state that is nothing but the messages. *)
Definition all_messages : lens messages messages := Lens id (fun m _ => m).
#[export] Instance all_messages_laws : LensLaws all_messages.
Proof. by split. Qed.

Lemma debug_messages_witness :
  exists d m, add_all ["arm.c"] debug_init = Ret tt d /\
    debug true all_messages "arm.c" 12 (ret (chars "reset")) (messages_init d) = Ret tt m /\
    printed m = chars "[DEBUG] arm.c,12: reset".
Proof.
  destruct (debug_messages all_messages (messages_init debug_init) (ret (chars "reset")) ["arm.c"] ["trace.c"]
              "arm.c" 12 (chars "reset") true) as (d & m & _ & _ & H1 & H2 & H3 & _).
  - simpl. lia.
  - intros _ m. reflexivity.
  - exists d, m. split; [exact H1|]. split; [exact H2|]. rewrite H3. vm_compute. reflexivity.
Defined.
