(* ===== verification/GdbProtocol.v ===== *)
(** * [gdb_protocol.c]: the server side of the gdb remote protocol

    The static functions of the source that share a name with a function of
    another file carry the prefix [gdb_].  The descriptor [fd] is the list of
    the blocks written to it, oldest first; whether the connection accepts a
    block is decided by the environment ([Wire]).  [BIG_ENDIAN_SIMULATOR] is
    defined, as in the build.  A received packet is the list of its characters,
    the scanner's terminating NUL included; a handler's [data] is a suffix of
    it.  The debug messages of the file go to the field [log] when the file is
    selected ([DebugMessages]); the build does not cache the selection.  The lock
    around the handler's call is in [Simulator]. *)
From S2P Require Import Prelude CInt Constants Memory Registers Format Trace Core CoreFacts Exception Branch Shifter DataProcessing LoadStore Safety Instruction CString Debug DebugMessages.

#[local] Open Scope string_scope.
#[local] Open Scope Z_scope.

Definition gdb_file : string := "gdb_protocol.c".
Definition MAX_PACKET_SIZE : Z := 1024.

Record gdb_protocol_data : Type := Gdb {
  machine_of : machine;           (* arm and mem *)
  target_exception : Z;
  fd : list (list Z);
  fd_open : bool;
  packet : list Z;
  len : Z;
  log : messages;                 (* the debug messages *)
}.

Definition set_machine s g :=
  Gdb s (target_exception g) (fd g) (fd_open g) (packet g) (len g) (log g).
Definition set_exception e g := Gdb (machine_of g) e (fd g) (fd_open g) (packet g) (len g) (log g).
Definition set_fd w g := Gdb (machine_of g) (target_exception g) w (fd_open g) (packet g) (len g) (log g).
Definition set_open b g := Gdb (machine_of g) (target_exception g) (fd g) b (packet g) (len g) (log g).
Definition set_packet p g := Gdb (machine_of g) (target_exception g) (fd g) (fd_open g) p (len g) (log g).
Definition set_len n g := Gdb (machine_of g) (target_exception g) (fd g) (fd_open g) (packet g) n (log g).
Definition set_log m g :=
  Gdb (machine_of g) (target_exception g) (fd g) (fd_open g) (packet g) (len g) m.

Definition machine_lens : lens gdb_protocol_data machine := Lens machine_of set_machine.
Definition packet_lens : lens gdb_protocol_data (list Z) := Lens packet set_packet.
Definition log_lens : lens gdb_protocol_data messages := Lens log set_log.

#[export] Instance machine_lens_laws : LensLaws machine_lens.
Proof. split; [by intros ? []|by intros []|by intros ? ? []]. Qed.
#[export] Instance packet_lens_laws : LensLaws packet_lens.
Proof. split; [by intros ? []|by intros []|by intros ? ? []]. Qed.
#[export] Instance log_lens_laws : LensLaws log_lens.
Proof. split; [by intros ? []|by intros []|by intros ? ? []]. Qed.

Definition in_machine {A} (c : M machine A) : M gdb_protocol_data A := zoom machine_lens c.
Definition peek (i : Z) : M gdb_protocol_data Z := zoom packet_lens (cell_read i).
Definition poke (i c : Z) : M gdb_protocol_data unit := zoom packet_lens (cell_write i c).

(** The macros [debug], [debug_raw] and [debug_raw_binary] in this file. *)
Definition gdb_debug (line : Z) (args : M gdb_protocol_data (list Z)) : M gdb_protocol_data unit :=
  debug false log_lens gdb_file line args.
Definition gdb_debug_raw (args : M gdb_protocol_data (list Z)) : M gdb_protocol_data unit :=
  debug_raw false log_lens gdb_file args.
Definition gdb_debug_raw_binary (args : M gdb_protocol_data (list Z * Z)) : M gdb_protocol_data unit :=
  debug_raw_binary false log_lens gdb_file args.

(** The string at the start of a buffer. *)
Definition cstring (buf : list Z) : M gdb_protocol_data (list Z) :=
  match until_nul buf with Some s => ret s | None => undef OutOfBounds end.

(** Does the peer accept [data] after the blocks [w]? *)
Class Wire : Type := accepts : list (list Z) -> list Z -> bool.

Section gdb.
Context `{Host} `{Wire}.

(** [csapp.c]: [Rio_writen] writes everything or ends the process, as
    the theorems of [Csapp] show, and makes no call when there is nothing to
    write; after the [shutdown] of [kill_request] nothing can be written.  The end of
    the process is [Exit 0], that of [unix_error]; where the peer is gone the signal of
    the system may come before it. *)
Definition Rio_writen (data : list Z) : M gdb_protocol_data unit :=
  let! w := gets fd in
  let! up := gets fd_open in
  if bool_decide (data = []) then ret tt
  else if up && accepts w data then modify (set_fd (w ++ [data])) else c_exit 0.

Definition gdb_send_ack : M gdb_protocol_data unit := Rio_writen (chars "+").

Definition gdb_transmit_packet : M gdb_protocol_data unit :=
  gdb_debug 447
    (let! p := gets packet in
     let! s := cstring p in
     ret (chars "Transmitting packet: " ++ s ++ chars newline)%list) ;;;
  let! p := gets packet in
  let! n := gets len in
  Rio_writen (take (Z.to_nat n) p).

(** [sprintf(gdb->packet+i, ...)] of the characters [s] *)
Fixpoint put_chars (i : Z) (s : list Z) : M gdb_protocol_data unit :=
  match s with
  | [] => ret tt
  | c :: s' => poke i c ;;; put_chars (i + 1) s'
  end.
Definition sprintf_at (i : Z) (s : list Z) : M gdb_protocol_data unit := put_chars i (s ++ [0]).

(** Lines 59-62; the position is in the packet for at most [fuel] rounds. *)
Fixpoint checksum_loop (fuel : nat) (i check : Z) : M gdb_protocol_data (Z * Z) :=
  match fuel with
  | O => undef OutOfBounds
  | S fuel' =>
      let! c := peek i in
      if c =? 0 then ret (i, check) else checksum_loop fuel' (i + 1) (u8 (check + c))
  end.

Definition gdb_send_buffer : M gdb_protocol_data unit :=
  poke 0 36 ;;;                                   (* '$' *)
  let! n := gets (fun g => length (packet g)) in
  let! ic := checksum_loop (S n) 1 0 in
  let '(i, check) := ic in
  poke i 35 ;;;                                   (* '#' *)
  sprintf_at (i + 1) (hex_byte check) ;;;
  poke (i + 3) 0 ;;;
  modify (set_len (i + 3)) ;;;
  gdb_transmit_packet.

Definition gdb_send_data (data : list Z) : M gdb_protocol_data unit :=
  sprintf_at 1 data ;;;
  gdb_send_buffer.

(** The bytes of a [uint32_t] in the host's memory order, and back. *)
Definition host_bytes (v : Z) : list Z :=
  let le := [u8 v; u8 (Z.shiftr v 8); u8 (Z.shiftr v 16); u8 (Z.shiftr v 24)] in
  if host_big_endian then rev le else le.
Definition host_word (bs : list Z) : Z :=
  of_bytes (if host_big_endian then bs else rev bs).

(** The values of [i] in the loops of [read_uint32] and [write_uint32]. *)
Definition byte_order : list Z :=
  let target_big_endian := 1 in
  if is_big_endian =? target_big_endian then [0; 1; 2; 3] else [3; 2; 1; 0].

(** The loop's variables: what is left of [data], [value], [mem.bytes]. *)
Definition read_uint32 (data : list Z) : M gdb_protocol_data Z :=
  let! value := in_machine uninit32 in
  let! integer := in_machine uninit32 in
  let! l := for_each byte_order
    (fun i l =>
       let '(data, value, bytes) := l in
       let! s := cstring data in
       let value := match scan_hex 2 s with Some (x, _) => x | None => value end in
       ret (drop 2 data, value, aset bytes i (u8 value)))
    (data, value, host_bytes integer) in
  ret (host_word l.2).

(** [data] is the position [i] of the packet. *)
Definition write_uint32 (i value : Z) : M gdb_protocol_data unit :=
  let! i := for_each byte_order
    (fun k i => sprintf_at i (hex_byte (default 0 (aget (host_bytes value) k))) ;;; ret (i + 2)) i in
  poke i 0.

Definition gdb_send_stop_reason : M gdb_protocol_data unit :=
  let! e := gets target_exception in
  if e =? UNDEFINED_INSTRUCTION then gdb_send_data (chars "S04")
  else if (e =? PREFETCH_ABORT) || (e =? DATA_ABORT) then gdb_send_data (chars "S10")
  else gdb_send_data (chars "S05").

(** [trace_disable()] and [trace_enable()] *)
Definition traceless {A} (c : M gdb_protocol_data A) : M gdb_protocol_data A :=
  in_machine (in_trace trace_disable) ;;;
  let! x := c in
  in_machine (in_trace trace_enable) ;;;
  ret x.

Definition step_target : M gdb_protocol_data unit :=
  let! r := in_machine arm_step in
  modify (set_exception r) ;;;
  in_machine trace_arm_state.

(** The loop of [cont], run for at most [fuel] rounds; the result tells whether
    a breakpoint was met. *)
Fixpoint cont_loop (fuel : nat) (instruction : Z) : M gdb_protocol_data bool :=
  match fuel with
  | O => ret false
  | S fuel' =>
      let! instruction := traceless
        (let! pc := in_machine (at_line gdb_file 169 (arm_read_register 15)) in
         let r15 := u32 (pc - 4) in
         let! rv := in_machine (at_line gdb_file 170 (arm_read_word r15 instruction)) in
         ret rv.2) in
      if Z.land instruction 0xFFF000F0 =? 0xE7F000F0 then ret true
      else step_target ;;; cont_loop fuel' instruction
  end.

Definition cont (fuel : nat) (data : list Z) : M gdb_protocol_data unit :=
  let! instruction := in_machine uninit32 in
  let! ended := cont_loop fuel instruction in
  when ended gdb_send_stop_reason.

Definition kill_request (data : list Z) : M gdb_protocol_data unit := modify (set_open false).

Definition query (data : list Z) : M gdb_protocol_data unit :=
  let! s := cstring data in
  if bool_decide (s = chars "Offsets") then gdb_send_data (chars "Text=0;Data=0;Bss=0")
  else if bool_decide (take 9 s = chars "Supported") then gdb_send_data (chars "PacketSize=400")
  else if bool_decide (s = chars "TStatus") then gdb_send_data (chars "T0;tnotrun:0")
  else if bool_decide (s = chars "Symbol::") then gdb_send_data (chars "")
  else gdb_send_data (chars "").

Definition read_general_registers (data : list Z) : M gdb_protocol_data unit :=
  traceless
    (let! position := for_each (Z.of_nat <$> seq 0 15)
       (fun i position =>
          let! v := in_machine (at_line gdb_file 217 (arm_read_register i)) in
          write_uint32 position v ;;;
          ret (position + 8)) 1 in
     let! pc := in_machine (at_line gdb_file 221 (arm_read_register 15)) in
     write_uint32 position (u32 (pc - 4)) ;;;
     let! position := for_each (Z.of_nat <$> seq 0 24)
       (fun _ position => sprintf_at position (chars "xxxxxxxx") ;;; ret (position + 8))
       (position + 8) in
     sprintf_at position (chars "xxxxxxxx") ;;;
     let! cpsr := in_machine (at_line gdb_file 235 arm_read_cpsr) in
     write_uint32 (position + 8) cpsr) ;;;
  gdb_send_buffer.

(** The loop of [read_memory]; [size] counts down to 0 unless a read returns
    -1. *)
Fixpoint read_memory_loop (size : nat) (address position value : Z) : M gdb_protocol_data unit :=
  match size with
  | O => ret tt
  | S size' =>
      let! rv := in_machine (in_mem (memory_read_byte address value)) in
      if rv.1 =? -1 then ret tt
      else
        sprintf_at position (hex_byte rv.2) ;;;
        read_memory_loop size' (u32 (address + 1)) (position + 2) rv.2
  end.

(** The variables a conversion of [sscanf] leaves untouched stay
    uninitialised. *)
Definition stored (o : option Z) (old : Z) : Z := default old o.

Definition read_memory (data : list Z) : M gdb_protocol_data unit :=
  let! address := in_machine uninit32 in
  let! size := in_machine uninit32 in
  let! value := in_machine uninit32 in
  let! s := cstring data in
  let '(oa, os) := scan_x_x s in
  poke 1 0 ;;;
  read_memory_loop (Z.to_nat (stored os size)) (stored oa address) 1 (u8 value) ;;;
  gdb_send_buffer.

Definition gdb_read_register (data : list Z) : M gdb_protocol_data unit :=
  let! s := cstring data in
  let reg := u32 (atoi s) in
  c_assert (reg <? 16) ;;;
  traceless
    (let! v := in_machine (at_line gdb_file 260 (arm_read_register (u8 reg))) in
     write_uint32 1 (u32 (v - (if reg =? 15 then 4 else 0)))) ;;;
  gdb_send_buffer.

Definition reason (data : list Z) : M gdb_protocol_data unit := gdb_send_stop_reason.

Definition set_thread (data : list Z) : M gdb_protocol_data unit :=
  match data with
  | [] => undef OutOfBounds
  | type :: rest =>
      let! s := cstring rest in
      let value := atoi s in
      if ((type =? 99) || (type =? 103)) && (value <? 1) && (-2 <? value)
      then gdb_send_data (chars "OK") else gdb_send_data (chars "E01")
  end.

Definition step (data : list Z) : M gdb_protocol_data unit :=
  step_target ;;;
  gdb_send_stop_reason.

Definition write_general_registers (data : list Z) : M gdb_protocol_data unit :=
  traceless
    (let! position := for_each (Z.of_nat <$> seq 0 16)
       (fun i position =>
          let! value := read_uint32 (drop (Z.to_nat position) data) in
          in_machine (at_line gdb_file 297 (arm_write_register i value)) ;;;
          gdb_debug 298 (ret (chars ("r" +:+ fmt_02d i +:+ " = " +:+ fmt_08x value +:+ "   "))) ;;;
          when (i mod 4 =? 3) (gdb_debug_raw (ret (chars newline))) ;;;
          ret (position + 8)) 0 in
     let! position := for_each (Z.of_nat <$> seq 0 24)
       (fun _ position =>
          read_uint32 (drop (Z.to_nat position) data) ;;; ret (position + 8)) position in
     read_uint32 (drop (Z.to_nat position) data) ;;;
     let! value := read_uint32 (drop (Z.to_nat (position + 8)) data) in
     in_machine (at_line gdb_file 322 (arm_write_cpsr value)) ;;;
     gdb_debug 323 (ret (chars ("cpsr = " +:+ fmt_08x value +:+ newline)))) ;;;
  gdb_send_data (chars "OK").

(** The loop of [write_memory_binary] on the [content] of the packet, for [size]
    values of [i] from [i] on, and [write_ok] at its end. *)
Fixpoint write_memory_loop (size : nat) (i address : Z) (content : list Z) (write_ok : bool)
    : M gdb_protocol_data bool :=
  match size with
  | O => ret write_ok
  | S size' =>
      if negb write_ok then ret write_ok else
      match content with
      | [] => undef OutOfBounds
      | c :: content' =>
          if c =? 0x7d then
            match content' with
            | [] => undef OutOfBounds
            | c' :: content'' =>
                let value := Z.lxor c' 0x20 in
                let! r := in_machine (in_mem (memory_write_byte address value)) in
                when (i <? 32) (gdb_debug_raw (ret (chars (fmt_02x value)))) ;;;
                write_memory_loop size' (i + 1) (u32 (address + 1)) content'' (r =? 0)
            end
          else
            let! r := in_machine (in_mem (memory_write_byte address c)) in
            when (i <? 32) (gdb_debug_raw (ret (chars (fmt_02x c)))) ;;;
            write_memory_loop size' (i + 1) (u32 (address + 1)) content' (r =? 0)
      end
  end.

Definition write_memory_binary (data : list Z) : M gdb_protocol_data unit :=
  let! address := in_machine uninit32 in
  let! size := in_machine uninit32 in
  let! s := cstring data in
  let '(oa, os) := scan_x_x s in
  let address := stored oa address in
  let size := stored os size in
  match index s 58 with                           (* ':' *)
  | None => undef NullPointer
  | Some k =>
      gdb_debug 336
        (ret (chars ("Writing " +:+ fmt_d size +:+ " bytes at address " +:+ fmt_08x address +:+ " : "))) ;;;
      let! sz := in_machine (in_mem memory_get_size) in
      let! write_ok := write_memory_loop (Z.to_nat size) 0 address
                         (drop (Z.to_nat (k + 1)) data) (address <? sz) in
      gdb_debug_raw (ret (chars ("..." +:+ newline))) ;;;
      if write_ok then gdb_send_data (chars "OK") else gdb_send_data (chars "E02")
  end.

Definition gdb_write_register (data : list Z) : M gdb_protocol_data unit :=
  let! reg := in_machine uninit32 in
  let! s := cstring data in
  let reg := stored (fst <$> scan_x s) reg in
  match index s 61 with                           (* '=' *)
  | None => undef NullPointer
  | Some k =>
      let! value := read_uint32 (drop (Z.to_nat (k + 1)) data) in
      c_assert (reg <? 16) ;;;
      traceless (in_machine (at_line gdb_file 365 (arm_write_register (u8 reg) value))) ;;;
      gdb_debug 367
        (ret (chars ("Writing " +:+ fmt_d value +:+ " to register " +:+ fmt_d reg +:+ newline))) ;;;
      gdb_send_data (chars "OK")
  end.

(** The table of the handlers that [gdb_init] fills, by the code of the command. *)
Definition handler (fuel : nat) (index : Z) : option (list Z -> M gdb_protocol_data unit) :=
  if index =? 99 then Some (cont fuel) else
  if index =? 107 then Some kill_request else
  if index =? 113 then Some query else
  if index =? 103 then Some read_general_registers else
  if index =? 109 then Some read_memory else
  if index =? 112 then Some gdb_read_register else
  if index =? 63 then Some reason else
  if index =? 72 then Some set_thread else
  if index =? 115 then Some step else
  if index =? 71 then Some write_general_registers else
  if index =? 88 then Some write_memory_binary else
  if index =? 80 then Some gdb_write_register else None.

(** [gdb_init] also announces itself; [handler] is the table it leaves. *)
Definition gdb_init : M messages unit :=
  debug false all_messages gdb_file 393
    (ret (chars ("gdb protocol handlers initialization" +:+ newline))).

(** [gdb_init_data]: [block] is what [malloc] leaves in the packet, [m] the debug
    messages until now. *)
Definition gdb_init_data (s : machine) (block : list Z) (m : messages) : gdb_protocol_data :=
  Gdb s 0 [] true block 0 m.

Definition gdb_require_retransmission : M gdb_protocol_data unit := Rio_writen (chars "-").

(** The sum of the characters [1 .. i - 1] of the packet. *)
Definition packet_sum (packet : list Z) (i : Z) : Z :=
  fold_left (fun check c => u8 (check + c)) (take (Z.to_nat (i - 1)) (drop 1 packet)) 0.

(** [packet] is what the scanner matched, of length [length]; the scanner puts a
    NUL after it. *)
Definition gdb_packet_analysis (fuel : nat) (packet : list Z) : M gdb_protocol_data unit :=
  let length := Z.of_nat (length packet) in
  let i := Z.max 1 (length - 3) in
  let check := packet_sum packet i in
  let! given := in_machine uninit32 in
  let! s := cstring (drop (Z.to_nat (i + 1)) (packet ++ [0])) in
  let given := stored (fst <$> scan_x s) given in
  gdb_debug 423 (ret (chars "Received packet : ")) ;;;
  gdb_debug_raw_binary
    (let! p := cstring (packet ++ [0]) in
     ret (packet ++ [0], Z.min 16 (Z.of_nat (List.length p)))%list) ;;;
  if check =? given then
    gdb_debug_raw (ret (chars (", checksum ok" +:+ newline))) ;;;
    gdb_send_ack ;;;
    let packet := aset (packet ++ [0]) i 0 in
    match aget packet 1 with
    | None => undef OutOfBounds
    | Some index =>
        match handler fuel index with
        | Some h => h (drop 2 packet)
        | None =>
            gdb_debug 441 (ret (chars ("Unsupported request, sending empty answer" +:+ newline))) ;;;
            gdb_send_data (chars "")
        end
    end
  else
    gdb_debug_raw
      (ret (chars (", checksum failed, expected " +:+ fmt_02x_int given +:+ " got " +:+ fmt_02x check +:+ newline))) ;;;
    gdb_debug 430 (ret (chars ("Requiring retransmission" +:+ newline))) ;;;
    gdb_require_retransmission.
End gdb.

(** ** Writing characters *)

Section writing.
Variables (g : gdb_protocol_data) (l1 : list Z) (i : Z).
Hypothesis (Hi : i = Z.of_nat (length l1)).

Lemma poke_mid y l2 c :
  packet g = (l1 ++ y :: l2)%list -> poke i c g = Ret tt (set_packet (l1 ++ c :: l2)%list g).
Proof.
  intros Hp. rewrite <- (aset_mid l1 y l2 i c Hi), <- Hp.
  apply (zoom_ret packet_lens), cell_write_ret. simpl. rewrite Hp, length_app. simpl. lia.
Qed.

Lemma peek_mid y l2 : packet g = (l1 ++ y :: l2)%list -> peek i g = Ret y g.
Proof.
  intros Hp. apply (zoom_read packet_lens), cell_read_ret. simpl. rewrite Hp.
  by apply aget_mid.
Qed.

Lemma poke_end c : packet g = l1 -> poke i c g = Undef OutOfBounds.
Proof.
  intros Hp. apply zoom_undef. unfold cell_write. simpl. by rewrite Hp, aget_None by lia.
Qed.
End writing.

Lemma set_packet_twice p q g : set_packet p (set_packet q g) = set_packet p g.
Proof. done. Qed.

(** Characters [s] written over [old]. *)
Lemma put_chars_mid g l1 old s l2 i :
  i = Z.of_nat (length l1) -> packet g = (l1 ++ old ++ l2)%list -> length old = length s ->
  put_chars i s g = Ret tt (set_packet (l1 ++ s ++ l2)%list g).
Proof.
  revert g l1 old i. induction s as [|c s IH]; intros g l1 old i Hi Hp Hl;
    destruct old as [|y old]; try done.
  - simpl in *. rewrite <- Hp. by destruct g.
  - simpl in *. rewrite (bind_ret _ _ _ _ _ (poke_mid g l1 i Hi y (old ++ l2) c Hp)).
    rewrite (IH _ (l1 ++ [c])%list old); [by rewrite <- !app_assoc| |by rewrite <- !app_assoc|lia].
    rewrite length_app. simpl. lia.
Qed.

(** Characters written past the end of the packet. *)
Lemma put_chars_over g l1 l2 s i :
  i = Z.of_nat (length l1) -> packet g = (l1 ++ l2)%list -> (length l2 < length s)%nat ->
  put_chars i s g = Undef OutOfBounds.
Proof.
  revert g l1 l2 i. induction s as [|c s IH]; intros g l1 l2 i Hi Hp Hl; [simpl in Hl; lia|].
  destruct l2 as [|y l2]; simpl in *.
  - rewrite app_nil_r in Hp. apply bind_undef. by apply (poke_end g l1).
  - rewrite (bind_ret _ _ _ _ _ (poke_mid g l1 i Hi y l2 c Hp)).
    apply (IH _ (l1 ++ [c])%list l2); [rewrite length_app; simpl; lia|by rewrite <- app_assoc|lia].
Qed.

(** ** Framing *)

(** A packet: the characters, their sum modulo 256 in two digits. *)
Definition sum_from (check : Z) (s : list Z) : Z := fold_left (fun check c => u8 (check + c)) s check.
Definition checksum (s : list Z) : Z := sum_from 0 s.
Definition frame (s : list Z) : list Z := 36 :: s ++ 35 :: hex_byte (checksum s).

Lemma sum_from_range s c : is_u8 c -> is_u8 (sum_from c s).
Proof. revert c. induction s as [|x s IH]; intros c Hc; simpl; auto with crange. Qed.

Lemma checksum_range s : is_u8 (checksum s).
Proof. apply sum_from_range. unfold is_u8. lia. Qed.

Lemma checksum_loop_mid fuel g l1 s l2 i check :
  i = Z.of_nat (length l1) -> packet g = (l1 ++ s ++ 0 :: l2)%list ->
  Forall (fun c => c <> 0) s -> (length s < fuel)%nat ->
  checksum_loop fuel i check g = Ret (i + Z.of_nat (length s), sum_from check s) g.
Proof.
  intros Hi Hp Hs. revert fuel l1 i check Hi Hp.
  induction Hs as [|c s Hc Hs IH]; intros fuel l1 i check Hi Hp Hf;
    (destruct fuel as [|fuel]; [simpl in Hf; lia|]); simpl in *.
  - rewrite (bind_ret _ _ _ _ _ (peek_mid g l1 i Hi 0 l2 Hp)). simpl. by rewrite Z.add_0_r.
  - rewrite (bind_ret _ _ _ _ _ (peek_mid g l1 i Hi c (s ++ 0 :: l2) Hp)).
    rewrite (proj2 (Z.eqb_neq _ _) Hc).
    rewrite (IH fuel (l1 ++ [c])%list); [do 2 f_equal; lia| |by rewrite <- app_assoc|lia].
    rewrite length_app. simpl. lia.
Qed.

(** The connection works. *)
Definition gdb_ok `{Wire} (g : gdb_protocol_data) : Prop :=
  length (packet g) = 1024%nat /\ fd_open g = true /\ (forall w d, accepts w d = true) /\ log_ok (log g).

(** [g'] is [g] after the packet [s] was sent. *)
Definition replied (g g' : gdb_protocol_data) (s : list Z) : Prop :=
  fd g' = (fd g ++ [frame s])%list /\ fd_open g' = fd_open g /\
  length (packet g') = length (packet g) /\
  machine_of g' = machine_of g /\ target_exception g' = target_exception g /\
  files (log g') = files (log g).

(** [g] after the debug message [text]. *)
Definition tell (text : list Z) (g : gdb_protocol_data) : gdb_protocol_data :=
  set_log (said gdb_file text (log g)) g.

Lemma gdb_debug_q line args text g :
  log_ok (log g) -> (selected (log g) gdb_file = true -> args g = Ret text g) ->
  gdb_debug line args g = Ret tt (tell (debug_head gdb_file line ++ text) g).
Proof. intros Hl Ha. by apply (debug_said log_lens). Qed.

Lemma gdb_debug_raw_q args text g :
  log_ok (log g) -> (selected (log g) gdb_file = true -> args g = Ret text g) ->
  gdb_debug_raw args g = Ret tt (tell text g).
Proof. intros Hl Ha. by apply (debug_raw_said log_lens). Qed.

Lemma log_ok_tell text g : log_ok (log g) -> log_ok (log (tell text g)).
Proof. apply log_ok_said. Qed.
#[local] Hint Resolve log_ok_tell : core.

Lemma tell_tell t1 t2 g : tell t2 (tell t1 g) = tell (t1 ++ t2) g.
Proof. unfold tell. destruct g. cbn. by rewrite said_said. Qed.

Lemma tell_nil g : tell [] g = g.
Proof. unfold tell. rewrite said_nil. by destruct g. Qed.

Lemma when_debug_raw_q (b : bool) text g :
  log_ok (log g) -> when b (gdb_debug_raw (ret text)) g = Ret tt (tell (if b then text else []) g).
Proof. intros Hl. destruct b; [by apply gdb_debug_raw_q|]. by rewrite tell_nil. Qed.

Section sending.
Context `{Host} `{Wire}.

Lemma gdb_ok_tell text g : gdb_ok g -> gdb_ok (tell text g).
Proof. intros (? & ? & ? & ?). split_and!; try done. auto. Qed.

Lemma Rio_writen_q g data :
  gdb_ok g -> data <> [] -> Rio_writen data g = Ret tt (set_fd (fd g ++ [data])%list g).
Proof.
  intros (_ & Ho & Ha & _) Hd. unfold Rio_writen. rewrite (bind_ret _ _ _ (fd g) g) by done.
  rewrite (bind_ret _ _ _ (fd_open g) g) by done. by rewrite bool_decide_false, Ho, Ha.
Qed.

Lemma gdb_transmit_packet_q g s rest :
  gdb_ok g -> Forall (fun c => c <> 0) s -> s <> [] -> packet g = (s ++ 0 :: rest)%list ->
  len g = Z.of_nat (length s) ->
  gdb_transmit_packet g =
    Ret tt (set_fd (fd g ++ [s])%list
      (tell (debug_head gdb_file 447 ++ chars "Transmitting packet: " ++ s ++ chars newline) g)).
Proof.
  intros Hg Hs Hne Hp Hl. unfold gdb_transmit_packet. set (text := (_ ++ _ ++ s ++ _)%list).
  rewrite (bind_ret _ _ _ tt (tell text g)); cycle 1.
  { apply gdb_debug_q; [apply Hg|]. intros _. rewrite (bind_ret _ _ _ (packet g) g) by done.
    unfold cstring. rewrite Hp, until_nul_app by done. done. }
  rewrite (bind_ret _ _ _ (packet g) (tell text g)) by done.
  rewrite (bind_ret _ _ _ (len g) (tell text g)) by done.
  rewrite Hl, Nat2Z.id, Hp, take_app_length. by rewrite (Rio_writen_q (tell text g)) by (try apply gdb_ok_tell; done).
Qed.

Lemma gdb_send_buffer_q g x s rest :
  gdb_ok g -> Forall (fun c => c <> 0) s -> packet g = (x :: s ++ 0 :: rest)%list ->
  (3 <= length rest)%nat ->
  exists g', gdb_send_buffer g = Ret tt g' /\ replied g g' s.
Proof.
  intros (Hl & Ho & Ha & Hlog) Hs Hp Hr. unfold gdb_send_buffer.
  destruct rest as [|a [|b [|c rest]]]; simpl in Hr; try lia.
  rewrite (bind_ret _ _ _ _ _ (poke_mid g [] 0 eq_refl x _ 36 Hp)). simpl app.
  set (g1 := set_packet _ g).
  rewrite (bind_ret _ _ _ (length (packet g1)) g1) by done.
  rewrite (bind_ret _ _ _ _ _ (checksum_loop_mid (S (length (packet g1))) g1 [36] s (a :: b :: c :: rest) 1 0
    eq_refl eq_refl Hs ltac:(simpl; rewrite length_app; simpl; lia))).
  fold (checksum s). set (n := Z.of_nat (length s)).
  rewrite (bind_ret _ _ _ _ _ (poke_mid g1 (36 :: s) (1 + n) ltac:(simpl; lia) 0
    (a :: b :: c :: rest) 35 eq_refl)).
  unfold g1. rewrite set_packet_twice. set (g2 := set_packet _ g).
  rewrite (bind_ret _ _ _ _ _ (put_chars_mid g2 (36 :: s ++ [35]) [a; b; c]
    (hex_byte (checksum s) ++ [0]) rest (1 + n + 1)
    ltac:(simpl; rewrite length_app; simpl; lia)
    ltac:(simpl; by rewrite <- app_assoc) eq_refl)).
  unfold g2. rewrite set_packet_twice. set (g3 := set_packet _ g).
  assert (E3 : packet g3 = (frame s ++ 0 :: rest)%list).
  { unfold g3, frame. simpl. by rewrite <- !app_assoc. }
  assert (Ef : Z.of_nat (length (frame s)) = 1 + n + 3).
  { unfold frame. simpl. rewrite length_app. simpl. lia. }
  rewrite (bind_ret _ _ _ _ _ (poke_mid g3 (frame s) (1 + n + 3) ltac:(lia) 0 rest 0 E3)).
  set (g4 := set_packet _ g3). rewrite (bind_ret _ _ _ tt (set_len (1 + n + 3) g4)) by done.
  assert (L4 : length (frame s ++ 0 :: rest) = 1024%nat).
  { rewrite <- Hl, Hp. unfold frame. simpl. rewrite !length_app. simpl. rewrite ?length_app.
    simpl. lia. }
  eexists. split.
  - apply (gdb_transmit_packet_q _ (frame s) rest); [by split_and!| |done|done|done].
    constructor; [done|]. apply Forall_app_2; [done|].
    constructor; [done|]. apply hex_byte_nonzero, checksum_range.
  - split_and!; try done; [|apply files_said]. transitivity 1024%nat; [exact L4|by rewrite Hl].
Qed.

Lemma gdb_send_data_q g s :
  gdb_ok g -> Forall (fun c => c <> 0) s -> (length s <= 1019)%nat ->
  exists g', gdb_send_data s g = Ret tt g' /\ replied g g' s.
Proof.
  intros Hg Hs Hn. destruct (Hg) as (Hl & Ho & Ha & Hlog). unfold gdb_send_data, sprintf_at.
  destruct (packet g) as [|x p] eqn:Ep; [done|]. simpl in Hl.
  assert (Hd : p = (take (length s + 1) p ++ drop (length s + 1) p)%list) by by rewrite take_drop.
  rewrite (bind_ret _ _ _ _ _ (put_chars_mid g [x] (take (length s + 1) p) (s ++ [0])
    (drop (length s + 1) p) 1 eq_refl ltac:(simpl; by rewrite Ep, <- Hd)
    ltac:(rewrite length_take, length_app; simpl; lia))).
  set (g1 := set_packet _ g).
  assert (L1 : length (packet g1) = 1024%nat).
  { simpl. rewrite !length_app, length_drop. simpl. lia. }
  destruct (gdb_send_buffer_q g1 x s (drop (length s + 1) p)) as (g' & E & Hr); try done.
  { simpl. by rewrite <- !app_assoc. } { rewrite length_drop. lia. }
  exists g'. split; [done|]. destruct Hr as (? & ? & L & ? & ? & ?). split_and!; try done.
  rewrite L, L1, Ep. simpl. lia.
Qed.

Lemma replied_ok g g' s : gdb_ok g -> replied g g' s -> gdb_ok g'.
Proof. 
  intros (Hl & Ho & Ha & [l Hlog]) (_ & Eo & El & _ & _ & Ef). split; [by rewrite El|]. split; [by rewrite Eo|].
  split; [done|]. exists l. by rewrite Ef.
 Qed.

(** ** Words in hexadecimal *)

(** The eight digits of a word, most significant byte first. *)
Definition hex_word (v : Z) : list Z :=
  hex_byte (u8 (Z.shiftr v 24)) ++ hex_byte (u8 (Z.shiftr v 16)) ++
  hex_byte (u8 (Z.shiftr v 8)) ++ hex_byte (u8 v).

Lemma hex_word_nonzero v : Forall (fun c => c <> 0) (hex_word v).
Proof. unfold hex_word. repeat apply Forall_app_2; apply hex_byte_nonzero, u8_range. Qed.

(** A loop that prints bytes one after the other. *)
Lemma hex_loop (f : Z -> Z) ks g l1 old y l2 i :
  i = Z.of_nat (length l1) -> packet g = (l1 ++ old ++ y :: l2)%list ->
  length old = (2 * length ks)%nat ->
  exists y', for_each ks (fun k i => sprintf_at i (hex_byte (f k)) ;;; ret (i + 2)) i g
    = Ret (i + 2 * Z.of_nat (length ks))
        (set_packet (l1 ++ flat_map (fun k => hex_byte (f k)) ks ++ y' :: l2)%list g).
Proof.
  revert g l1 old y i. induction ks as [|k ks IH]; intros g l1 old y i Hi Hp Hl.
  - destruct old; [|done]. exists y. simpl in *. rewrite <- Hp, Z.add_0_r. by destruct g.
  - destruct old as [|a [|b old]]; simpl in Hl; try lia.
    unfold for_each; fold (@for_each gdb_protocol_data Z Z).
    destruct old as [|c old].
    + destruct ks; [|simpl in Hl; lia]. exists 0. rewrite bind_assoc.
      rewrite (bind_ret _ _ _ _ _ (put_chars_mid g l1 [a; b; y] (hex_byte (f k) ++ [0]) l2 i Hi Hp eq_refl)).
      simpl. unfold bind, ret. by rewrite <- ?app_assoc.
    + rewrite bind_assoc.
      rewrite (bind_ret _ _ _ _ _ (put_chars_mid g l1 [a; b; c] (hex_byte (f k) ++ [0])
        (old ++ y :: l2) i Hi Hp eq_refl)).
      rewrite (bind_ret _ _ _ (i + 2) _ eq_refl).
      destruct (IH (set_packet (l1 ++ (hex_byte (f k) ++ [0]) ++ old ++ y :: l2)%list g)
        (l1 ++ hex_byte (f k))%list (0 :: old) y (i + 2)) as [y' E].
      * rewrite length_app. simpl. lia.
      * simpl. by rewrite <- !app_assoc.
      * simpl in *. lia.
      * exists y'. rewrite E. simpl length. f_equal; [lia|]. rewrite set_packet_twice. f_equal.
        simpl. by rewrite <- !app_assoc.
Qed.

Lemma byte_order_host :
  byte_order = if host_big_endian then [0; 1; 2; 3] else [3; 2; 1; 0].
Proof. unfold byte_order, is_big_endian. by destruct host_big_endian. Qed.

Lemma write_uint32_q g l1 old y l2 i v :
  i = Z.of_nat (length l1) -> packet g = (l1 ++ old ++ y :: l2)%list -> length old = 8%nat ->
  write_uint32 i v g = Ret tt (set_packet (l1 ++ hex_word v ++ 0 :: l2)%list g).
Proof.
  intros Hi Hp Hl. unfold write_uint32.
  destruct (hex_loop (fun k => default 0 (aget (host_bytes v) k)) byte_order g l1 old y l2 i Hi Hp)
    as [y' E]. { rewrite Hl, byte_order_host. by destruct host_big_endian. }
  rewrite (bind_ret _ _ _ _ _ E).
  replace (flat_map _ byte_order) with (hex_word v); cycle 1.
  { rewrite byte_order_host. unfold hex_word, host_bytes. by destruct host_big_endian. }
  erewrite (poke_mid _ (l1 ++ hex_word v)); [by rewrite set_packet_twice, <- app_assoc| |].
  - rewrite length_app, byte_order_host. by destruct host_big_endian; simpl; lia.
  - simpl. by rewrite <- app_assoc.
Qed.

Lemma until_nul_hex b rest s :
  is_u8 b -> until_nul rest = Some s ->
  until_nul (hex_byte b ++ rest) = Some (hex_byte b ++ s)%list.
Proof.
  intros Hb Hr. pose proof (hex_byte_nonzero b Hb) as Hz.
  inversion Hz as [|? ? Hz1 Hz2]; subst. inversion Hz2; subst. simpl.
  by rewrite !(proj2 (Z.eqb_neq _ _)), Hr by done.
Qed.

(** A loop that reads bytes one after the other. *)
Lemma read_loop ks bs rest s value bytes g :
  length ks = length bs -> Forall is_u8 bs -> until_nul rest = Some s ->
  exists value', for_each ks
    (fun i l =>
       let '(data, value, bytes) := l in
       let! s := cstring data in
       let value := match scan_hex 2 s with Some (x, _) => x | None => value end in
       ret (drop 2 data, value, aset bytes i (u8 value)))
    (flat_map hex_byte bs ++ rest, value, bytes)%list g
  = Ret (rest, value', fold_left (fun l kb => aset l kb.1 kb.2) (zip ks bs) bytes) g.
Proof.
  intros Hl Hbs Hs. revert ks value bytes Hl.
  induction Hbs as [|b bs Hb Hbs IH]; intros [|k ks] value bytes Hl; try done; [by eexists|].
  assert (Hn : exists s', until_nul (flat_map hex_byte bs ++ rest) = Some s').
  { clear IH Hl. induction Hbs as [|b' bs Hb' _ [s' IH]]; cbn [flat_map app]; [by exists s|].
    rewrite <- app_assoc. eexists. by apply until_nul_hex. }
  destruct Hn as [s' Hn]. destruct (IH ks b (aset bytes k b)) as [value' E]; [simpl in Hl; lia|].
  exists value'. cbn [for_each flat_map]. rewrite <- app_assoc.
  rewrite (bind_ret _ _ _ (flat_map hex_byte bs ++ rest, b, aset bytes k b)%list g); [done|].
  unfold cstring. rewrite (until_nul_hex _ _ _ Hb Hn). unfold bind at 1, ret at 1.
  rewrite scan_hex_byte by done. by rewrite u8_small.
Qed.

(** The words of a packet in hexadecimal are read back, whatever the byte order
    of the host. *)
Lemma read_uint32_q g v rest s :
  is_u32 v -> until_nul rest = Some s ->
  read_uint32 (hex_word v ++ rest) g = Ret v (set_machine (alloc (alloc (machine_of g))) g).
Proof.
  intros Hv Hs. unfold read_uint32.
  rewrite (bind_ret _ _ _ (val0 (machine_of g)) (set_machine (alloc (machine_of g)) g)) by done.
  rewrite (bind_ret _ _ _ (val0 (alloc (machine_of g)))
    (set_machine (alloc (alloc (machine_of g))) g)) by done.
  set (bs := [u8 (Z.shiftr v 24); u8 (Z.shiftr v 16); u8 (Z.shiftr v 8); u8 v]).
  destruct (read_loop byte_order bs rest s (val0 (machine_of g))
    (host_bytes (val0 (alloc (machine_of g)))) (set_machine (alloc (alloc (machine_of g))) g))
    as [value' E]; [rewrite byte_order_host; by destruct host_big_endian| |done|].
  { repeat constructor; apply u8_range. }
  replace (hex_word v) with (flat_map hex_byte bs) by (simpl; by rewrite <- ?app_assoc).
  rewrite (bind_ret _ _ _ _ _ E). unfold ret. f_equal. rewrite byte_order_host.
  transitivity (of_bytes bs); [|by apply of_bytes_word].
  unfold host_word, host_bytes. destruct host_big_endian; reflexivity.
Qed.
End sending.

(** ** Properties *)

Section properties.
Context `{Host} `{Wire}.

(** The handlers run on the machine with the trace switched off and back on. *)
Definition trace_off (s : machine) : machine := set_trace (set_enabled 0 (trace s)) s.
Definition trace_back (s : machine) : machine := set_trace (set_enabled 1 (trace s)) s.

Lemma traceless_q {A} (c : M gdb_protocol_data A) g x g' :
  c (set_machine (trace_off (machine_of g)) g) = Ret x g' ->
  traceless c g = Ret x (set_machine (trace_back (machine_of g')) g').
Proof.
  intros E. unfold traceless.
  rewrite (bind_ret _ _ _ tt (set_machine (trace_off (machine_of g)) g)) by done.
  rewrite (bind_ret _ _ _ _ _ E). by rewrite (bind_ret _ _ _ tt (set_machine (trace_back (machine_of g')) g')).
Qed.

Lemma in_machine_q {A} (c : M machine A) g x s' :
  c (machine_of g) = Ret x s' -> in_machine c g = Ret x (set_machine s' g).
Proof. intros E. by apply (zoom_ret machine_lens). Qed.

Lemma gdb_log g : gdb_ok g -> log_ok (log g).
Proof. by intros (_ & _ & _ & ?). Qed.

Lemma gdb_ok_machine s g : gdb_ok g -> gdb_ok (set_machine s g).
Proof. done. Qed.

Lemma packet_sum_frame s k :
  packet_sum (36 :: s ++ 35 :: hex_byte k) (Z.of_nat (length s) + 1) = checksum s.
Proof.
  unfold packet_sum. replace (Z.to_nat (Z.of_nat (length s) + 1 - 1)) with (length s) by lia.
  change (drop 1 (36 :: s ++ 35 :: hex_byte k)) with (s ++ 35 :: hex_byte k)%list. by rewrite take_app_length.
Qed.

(** What is printed of a packet before its checksum is compared. *)
Definition received (packet : list Z) : list Z :=
  debug_head gdb_file 423 ++ chars "Received packet : " ++
  (shown <$> take 16 (default [] (until_nul (packet ++ [0])))).

Lemma received_q packet g :
  log_ok (log g) ->
  (gdb_debug 423 (ret (chars "Received packet : ")) ;;;
   gdb_debug_raw_binary
     (let! p := cstring (packet ++ [0]) in
      ret (packet ++ [0], Z.min 16 (Z.of_nat (length p)))%list)) g = Ret tt (tell (received packet) g).
Proof.
  intros Hl. rewrite (bind_ret _ _ _ _ _ (gdb_debug_q 423 _ (chars "Received packet : ") g Hl (fun _ => eq_refl))).
  destruct (until_nul_snoc packet) as (s & rest & E & Ep).
  set (g1 := tell _ g). assert (Hl1 : log_ok (log g1)) by by apply log_ok_tell.
  unfold gdb_debug_raw_binary.
  rewrite (debug_raw_binary_said log_lens gdb_file g1 Hl1 _ (packet ++ [0])%list (Z.min 16 (Z.of_nat (length s)))).
  - unfold received. rewrite E. simpl default.
    transitivity (Ret (A := unit) tt (tell (shown <$> take (Z.to_nat (Z.min 16 (Z.of_nat (length s)))) (packet ++ [0])) g1));
      [done|].
    unfold g1. rewrite tell_tell, <- !app_assoc. do 5 f_equal. rewrite Ep.
    rewrite take_app_le by lia. by rewrite Z2Nat.inj_min, Nat2Z.id, <- take_take, firstn_all.
  - intros _. unfold cstring. by rewrite E.
  - rewrite Ep, length_app. lia.
Qed.

(** What the analysis of a packet [$s#kk] computes before it decides. *)
Lemma analysis_q fuel s k g :
  log_ok (log g) -> is_u8 k ->
  gdb_packet_analysis fuel (36 :: s ++ 35 :: hex_byte k) g =
  (if checksum s =? k then
     gdb_send_ack ;;;
     match aget (36 :: s ++ 0 :: hex_byte k ++ [0]) 1 with
     | None => undef OutOfBounds
     | Some index =>
         match handler fuel index with
         | Some h => h (drop 2 (36 :: s ++ 0 :: hex_byte k ++ [0]))
         | None =>
             gdb_debug 441 (ret (chars ("Unsupported request, sending empty answer" +:+ newline))) ;;;
             gdb_send_data (chars "")
         end
     end
   else
     gdb_debug 430 (ret (chars ("Requiring retransmission" +:+ newline))) ;;;
     gdb_require_retransmission)
  (tell (received (36 :: s ++ 35 :: hex_byte k) ++
         chars (if checksum s =? k then ", checksum ok" +:+ newline
                else ", checksum failed, expected " +:+ fmt_02x_int k +:+ " got " +:+ fmt_02x (checksum s) +:+ newline))
     (set_machine (alloc (machine_of g)) g)).
Proof.
  intros Hl Hk. unfold gdb_packet_analysis.
  assert (Ei : Z.max 1 (Z.of_nat (length (36 :: s ++ 35 :: hex_byte k)) - 3) = Z.of_nat (length s) + 1).
  { simpl. rewrite length_app. simpl. lia. }
  rewrite Ei, packet_sum_frame. set (g1 := set_machine (alloc (machine_of g)) g).
  rewrite (bind_ret _ _ _ (val0 (machine_of g)) g1) by done.
  assert (Ed : drop (Z.to_nat (Z.of_nat (length s) + 1 + 1)) ((36 :: s ++ 35 :: hex_byte k) ++ [0])
               = (hex_byte k ++ [0])%list).
  { replace (Z.to_nat (Z.of_nat (length s) + 1 + 1)) with (S (length s + 1)) by lia. simpl.
    rewrite <- app_assoc, drop_app_add'; [done|lia]. }
  rewrite Ed. rewrite (bind_ret _ _ _ (hex_byte k) g1); cycle 1.
  { unfold cstring. by rewrite (until_nul_app (hex_byte k) [] (hex_byte_nonzero k Hk)). }
  rewrite scan_x_byte by done. change (stored (fst <$> Some (k, [])) (val0 (machine_of g))) with k.
  rewrite <- bind_assoc, (bind_ret _ _ _ _ _ (received_q (36 :: s ++ 35 :: hex_byte k) g1 Hl)).
  assert (Hl1 : forall t, log_ok (log (tell t g1))) by (intros; by apply log_ok_tell).
  destruct (checksum s =? k); rewrite (bind_ret _ _ _ _ _ (gdb_debug_raw_q _ _ _ (Hl1 _) (fun _ => eq_refl)));
    rewrite tell_tell; [|done].
  replace (aset ((36 :: s ++ 35 :: hex_byte k) ++ [0]) (Z.of_nat (length s) + 1) 0)
    with (36 :: s ++ 0 :: hex_byte k ++ [0])%list; [done|].
  pose proof (aset_mid (36 :: s) 35 (hex_byte k ++ [0]) (Z.of_nat (length s) + 1) 0
    ltac:(simpl; lia)) as Em.
  simpl app in *. rewrite <- Em. by rewrite <- !app_assoc.
Qed.

(** C32: Framing.  What [gdb_send_data] sends is the packet [$s#kk] with [kk] the
    sum of the characters modulo 256; a received packet of that form is
    acknowledged and given to the handler of its first character, with the rest
    of the characters; with any other checksum only a retransmission is
    requested and neither the processor nor the memory changes.  What is printed of
    it, if this file is debugged, says so. *)
Theorem gdb_framing g fuel c s k :
  gdb_ok g -> Forall (fun c => c <> 0) (c :: s) -> (length (c :: s) <= 1019)%nat -> is_u8 k ->
  (exists g', gdb_send_data (c :: s) g = Ret tt g' /\ replied g g' (c :: s)) /\
  gdb_packet_analysis fuel (frame (c :: s)) g =
    (gdb_send_ack ;;;
     match handler fuel c with
     | Some h => h (s ++ 0 :: hex_byte (checksum (c :: s)) ++ [0])%list
     | None =>
         gdb_debug 441 (ret (chars ("Unsupported request, sending empty answer" +:+ newline))) ;;;
         gdb_send_data []
     end)
    (tell (received (frame (c :: s)) ++ chars (", checksum ok" +:+ newline))
       (set_machine (alloc (machine_of g)) g)) /\
  (k <> checksum (c :: s) ->
   exists g', gdb_packet_analysis fuel (36 :: (c :: s) ++ 35 :: hex_byte k) g = Ret tt g' /\
     fd g' = (fd g ++ [chars "-"])%list /\
     arm (machine_of g') = arm (machine_of g) /\ mem (machine_of g') = mem (machine_of g) /\
     log g' = said gdb_file (received (36 :: (c :: s) ++ 35 :: hex_byte k) ++
       chars (", checksum failed, expected " +:+ fmt_02x_int k +:+ " got " +:+ fmt_02x (checksum (c :: s)) +:+ newline) ++
       debug_head gdb_file 430 ++ chars ("Requiring retransmission" +:+ newline)) (log g)).
Proof.
  intros Hg Hs Hl Hk. pose proof (gdb_log g Hg) as Hlog. split; [by apply gdb_send_data_q|]. split.
  - unfold frame. rewrite analysis_q by (done || apply checksum_range). by rewrite Z.eqb_refl.
  - intros Hne. rewrite analysis_q by done. rewrite (proj2 (Z.eqb_neq _ k)) by done.
    erewrite bind_ret by (apply gdb_debug_q; [by apply log_ok_tell|reflexivity]). rewrite tell_tell, <- app_assoc.
    eexists. split; [by apply Rio_writen_q; [apply gdb_ok_tell|]|]. done.
Qed.

(** Words in packets.  On hosts of either byte order, [write_uint32] prints
    the eight hexadecimal digits of a word most significant byte first, and
    [read_uint32] reads the word back from them. *)
Theorem gdb_word_text g l1 old y l2 i v :
  i = Z.of_nat (length l1) -> packet g = (l1 ++ old ++ y :: l2)%list -> length old = 8%nat ->
  is_u32 v ->
  exists g', write_uint32 i v g = Ret tt g' /\
    packet g' = (l1 ++ hex_word v ++ 0 :: l2)%list /\
    exists g'', read_uint32 (drop (Z.to_nat i) (packet g')) g' = Ret v g'' /\
      packet g'' = packet g' /\ arm (machine_of g'') = arm (machine_of g) /\
      mem (machine_of g'') = mem (machine_of g).
Proof.
  intros Hi Hp Hl Hv. eexists. split; [by apply (write_uint32_q g l1 old y l2)|]. split; [done|].
  simpl packet. rewrite Hi, Nat2Z.id, drop_app_length.
  eexists. split; [by apply (read_uint32_q _ _ _ [])|]. done.
Qed.

(** [u] is what the received buffer holds after the data's NUL. *)
Lemma cstring_nul s u g : Forall (fun c => c <> 0) s -> cstring (s ++ 0 :: u) g = Ret s g.
Proof. intros Hs. unfold cstring. by rewrite until_nul_app. Qed.

Lemma hex_char_nonzero d : 0 <= d < 16 -> hex_char d <> 0 /\ hex_char d <> 61.
Proof. intros Hd. pose proof (hex_char_range d Hd). lia. Qed.

(** The command P.  [Pn=vvvvvvvv] with a register number of one hexadecimal
    digit writes the value to that register of the current mode and answers
    OK; no other register, no status bit and no memory changes. *)
Lemma gdb_write_register_effect g r v u :
  gdb_ok g -> regs_ok (regs (machine_of g)) -> 0 <= r < 16 -> is_u32 v ->
  exists g', gdb_write_register ((hex_char r :: 61 :: hex_word v) ++ 0 :: u) g = Ret tt g' /\
    fd g' = (fd g ++ [frame (chars "OK")])%list /\ gdb_ok g' /\
    machine_of g' = trace_back (upd_reg r v (trace_off (alloc (alloc (alloc (machine_of g)))))).
Proof.
  intros Hg Hr Hrr Hv. destruct (hex_char_nonzero r Hrr) as [Hz H61]. unfold gdb_write_register.
  set (g1 := set_machine (alloc (machine_of g)) g).
  rewrite (bind_ret _ _ _ (val0 (machine_of g)) g1) by done.
  assert (Hs : Forall (fun c => c <> 0) (hex_char r :: 61 :: hex_word v)).
  { constructor; [done|]. constructor; [done|]. apply hex_word_nonzero. }
  rewrite (bind_ret _ _ _ _ _ (cstring_nul _ u g1 Hs)).
  assert (Ei : index (hex_char r :: 61 :: hex_word v) 61 = Some 1).
  { cbn [index]. by rewrite (proj2 (Z.eqb_neq _ _) H61). }
  rewrite Ei, scan_x_digit by done.
  change (drop (Z.to_nat (1 + 1)) ((hex_char r :: 61 :: hex_word v) ++ 0 :: u))
    with (hex_word v ++ 0 :: u)%list.
  rewrite (bind_ret _ _ _ _ _ (read_uint32_q g1 v (0 :: u) [] Hv eq_refl)).
  set (g2 := set_machine _ g1). change (stored (fst <$> Some (r, 61 :: hex_word v)) _) with r.
  rewrite (bind_ret _ _ _ tt g2) by (unfold c_assert; by rewrite (proj2 (Z.ltb_lt _ _)) by lia).
  rewrite (u8_small r) by (unfold is_u8; lia).
  set (s3 := upd_reg r v (trace_off (machine_of g2))).
  rewrite (bind_ret _ _ _ tt (set_machine (trace_back s3) g2)); cycle 1.
  { apply (traceless_q _ g2 tt (set_machine s3 g2)). 
    apply (in_machine_q _ (set_machine (trace_off (machine_of g2)) g2)).
    apply at_line_ret; [|done..]. by apply arm_write_register_q. }
  assert (Hg3 : gdb_ok (set_machine (trace_back s3) g2)) by done.
  erewrite bind_ret by (apply gdb_debug_q; [exact (gdb_log _ Hg)|reflexivity]).
  set (g4 := tell _ (set_machine (trace_back s3) g2)).
  assert (Hg4 : gdb_ok g4) by by apply gdb_ok_tell.
  destruct (gdb_send_data_q g4 (chars "OK")) as (g' & E & Hrep); [done| |simpl; lia|].
  { repeat constructor; done. }
  exists g'. split; [done|]. destruct (Hrep) as (Ef & _ & _ & Em & _). split; [done|].
  split; [by apply (replied_ok _ _ _ Hg4 Hrep)|done].
Qed.

(** The command p.  With one decimal digit it answers with the value of
    that register; but the number is read in decimal where gdb sends it in
    hexadecimal: for the registers 10 to 15, sent as [a] to [f], the answer is
    the value of r0. *)
Theorem gdb_read_register_decimal g r u :
  gdb_ok g -> regs_ok (regs (machine_of g)) -> 0 <= r < 16 ->
  exists g', gdb_read_register (hex_char r :: 0 :: u) g = Ret tt g' /\
    fd g' = (fd g ++ [frame (hex_word (rval (machine_of g) (if r <? 10 then r else 0)))])%list /\
    arm (machine_of g') = arm (machine_of g) /\ mem (machine_of g') = mem (machine_of g).
Proof.
  intros Hg Hr Hrr. destruct (hex_char_nonzero r Hrr) as [Hz _]. unfold gdb_read_register.
  rewrite (bind_ret _ _ _ [hex_char r] g) by (apply (cstring_nul [hex_char r]); by repeat constructor).
  rewrite atoi_digit by done. set (n := if r <? 10 then r else 0).
  assert (Hn : 0 <= n < 10) by (subst n; destruct (Z.ltb_spec r 10); lia).
  rewrite (u32_small n) by (unfold is_u32; lia).
  rewrite (bind_ret _ _ _ tt g) by (unfold c_assert; by rewrite (proj2 (Z.ltb_lt _ _)) by lia).
  rewrite (proj2 (Z.eqb_neq n 15)), (u8_small n) by (unfold is_u8; lia).
  destruct (Hg) as (Hl & Ho & Ha & Hlog). destruct (packet g) as [|x p] eqn:Ep; [done|].
  do 8 (destruct p as [|?c p]; [done|]). destruct p as [|y p]; [done|].
  set (v := rval (machine_of g) n).
  set (g1 := set_packet (x :: hex_word v ++ 0 :: p)%list (set_machine (trace_off (machine_of g)) g)).
  rewrite (bind_ret _ _ _ tt (set_machine (trace_back (machine_of g1)) g1)); cycle 1.
  { apply traceless_q. rewrite (bind_ret _ _ _ v (set_machine (trace_off (machine_of g)) g)); cycle 1.
    { apply (in_machine_q _ (set_machine (trace_off (machine_of g)) g)). apply at_line_ret; [|done..].
      apply (arm_read_register_q (trace_off (machine_of g))); done || lia. }
    rewrite Z.sub_0_r, u32_small by by apply rval_range.
    by apply (write_uint32_q _ [x] [c; c0; c1; c2; c3; c4; c5; c6] y p). }
  destruct (gdb_send_buffer_q (set_machine (trace_back (machine_of g1)) g1) x (hex_word v) p)
    as (g' & E & Ef & _ & _ & Em & _); [|apply hex_word_nonzero|done| |].
  { split_and!; [|done|done|done]. simpl in *. lia. } { simpl in Hl. lia. }
  exists g'. split; [done|]. split; [done|]. by rewrite Em.
Qed.

(** *** Binary memory writes *)

(** The bytes [bs] written from address [a] on. *)
Fixpoint put_bytes (mm : memory_data) (a : Z) (bs : list Z) : memory_data :=
  match bs with
  | [] => mm
  | b :: bs' => put_bytes (put_byte mm a b) (a + 1) bs'
  end.

(** The escaping of a binary packet: the characters [esc] chooses, [}] among
    them, are sent as [}] and the character with bit 5 inverted. *)
Definition escape (esc : Z -> bool) (b : Z) : list Z :=
  if esc b then [0x7d; Z.lxor b 0x20] else [b].

Lemma put_bytes_ok mm a bs :
  mem_ok mm -> mem_ok (put_bytes mm a bs) /\ size (put_bytes mm a bs) = size mm.
Proof.
  revert mm a. induction bs as [|b bs IH]; intros mm a Hm; simpl; [done|].
  destruct (IH (put_byte mm a b) (a + 1)) as [? ->]; auto with crange.
Qed.

Lemma put_bytes_at mm a bs x :
  mem_ok mm -> 0 <= a -> a + Z.of_nat (length bs) <= size mm -> Forall is_u8 bs ->
  byte_at (put_bytes mm a bs) x =
  if (a <=? x) && (x <? a + Z.of_nat (length bs)) then default 0 (bs !! Z.to_nat (x - a))
  else byte_at mm x.
Proof.
  revert mm a. induction bs as [|b bs IH]; intros mm a Hm Ha Hl Hb; simpl length in *; simpl put_bytes.
  { by rewrite (proj2 (andb_false_iff _ _)) by (rewrite Z.leb_gt, Z.ltb_ge; lia). }
  inversion Hb; subst. destruct (Hm) as (_ & Hs & _).
  rewrite IH by (auto with crange; simpl; lia). rewrite byte_at_put_byte by lia.
  destruct (Z.eqb_spec x a) as [->|Hne].
  - rewrite (proj2 (Z.leb_gt (a + 1) a)), Z.leb_refl,
      (proj2 (Z.ltb_lt a (a + Z.of_nat (S (length bs))))) by lia.
    rewrite Z.sub_diag. simpl. by apply u8_small.
  - replace (a + 1 <=? x) with (a <=? x) by (destruct (Z.leb_spec a x), (Z.leb_spec (a + 1) x); lia).
    replace (a + Z.of_nat (S (length bs))) with (a + 1 + Z.of_nat (length bs)) by lia.
    destruct (Z.leb_spec a x); [|done]. destruct (Z.ltb_spec x (a + 1 + Z.of_nat (length bs))); [|done].
    simpl. by replace (Z.to_nat (x - a)) with (S (Z.to_nat (x - (a + 1)))) by lia.
Qed.

Lemma lxor_twice b : Z.lxor (Z.lxor b 0x20) 0x20 = b.
Proof. by rewrite Z.lxor_assoc, Z.lxor_nilpotent, Z.lxor_0_r. Qed.

Definition set_memory (mm : memory_data) (g : gdb_protocol_data) : gdb_protocol_data :=
  set_machine (set_mem mm (machine_of g)) g.

Lemma mem_write_q g a b r mm :
  memory_write_byte a b (mem (machine_of g)) = Ret r mm ->
  in_machine (in_mem (memory_write_byte a b)) g = Ret r (set_memory mm g).
Proof. intros E. apply in_machine_q. by apply (zoom_ret mem_lens). Qed.

(** The messages about the bytes [bs], from the round [i] on. *)
Definition dumped (i : Z) (bs : list Z) : list Z :=
  flat_map (fun b => chars (fmt_02x b)) (take (Z.to_nat (32 - i)) bs).

Lemma dumped_nil i : dumped i [] = [].
Proof. unfold dumped. by rewrite take_nil. Qed.

Lemma dumped_cons i b bs :
  dumped i (b :: bs) = ((if i <? 32 then chars (fmt_02x b) else []) ++ dumped (i + 1) bs)%list.
Proof.
  unfold dumped. destruct (Z.ltb_spec i 32).
  - by replace (Z.to_nat (32 - i)) with (S (Z.to_nat (32 - (i + 1)))) by lia.
  - replace (Z.to_nat (32 - i)) with 0%nat by lia. by replace (Z.to_nat (32 - (i + 1))) with 0%nat by lia.
Qed.

(** One round of the loop, on an escaped or a plain character. *)
Lemma write_memory_step esc n i a b rest g :
  esc 0x7d = true ->
  write_memory_loop (S n) i a (escape esc b ++ rest) true g =
  (let! r := in_machine (in_mem (memory_write_byte a b)) in
   when (i <? 32) (gdb_debug_raw (ret (chars (fmt_02x b)))) ;;;
   write_memory_loop n (i + 1) (u32 (a + 1)) rest (r =? 0)) g.
Proof.
  intros He. unfold escape. destruct (esc b) eqn:Eb; simpl.
  - by rewrite lxor_twice.
  - destruct (Z.eqb_spec b 0x7d) as [->|]; [congruence|]. done.
Qed.

(** The write that fails is the last, and its byte is printed. *)
Lemma write_memory_loop_q esc bs i a rest g :
  esc 0x7d = true -> log_ok (log g) -> mem_ok (mem (machine_of g)) -> size (mem (machine_of g)) < 2 ^ 32 ->
  0 <= a <= size (mem (machine_of g)) ->
  write_memory_loop (length bs) i a (flat_map (escape esc) bs ++ rest) true g =
  Ret (a + Z.of_nat (length bs) <=? size (mem (machine_of g)))
      (tell (dumped i (take (S (Z.to_nat (size (mem (machine_of g)) - a))) bs))
        (set_memory (put_bytes (mem (machine_of g)) a
           (take (Z.to_nat (size (mem (machine_of g)) - a)) bs)) g)).
Proof.
  intros He. revert i a g. induction bs as [|b bs IH]; intros i a g Hl Hm Hsz Ha.
  { rewrite !take_nil, (proj2 (Z.leb_le _ _)) by (simpl; lia).
    rewrite dumped_nil, tell_nil. by destruct g as [[] ? ? ? ? ?]. }
  cbn [flat_map length]. rewrite <- app_assoc, write_memory_step by done.
  destruct (Z.eq_dec a (size (mem (machine_of g)))) as [->|Hne].
  - erewrite bind_ret by (apply mem_write_q, memory_invalid; lia).
    erewrite bind_ret by (apply when_debug_raw_q; exact Hl).
    rewrite Z.sub_diag, (proj2 (Z.leb_gt _ _)) by lia. change (Z.to_nat 0) with O. cbn [take put_bytes].
    rewrite dumped_cons, dumped_nil, app_nil_r.
    by destruct (length bs).
  - erewrite bind_ret by (apply mem_write_q, memory_write_byte_ok; done || lia).
    erewrite bind_ret by (apply when_debug_raw_q; exact Hl).
    rewrite u32_small by (unfold is_u32; lia). change (0 =? 0) with true.
    rewrite IH by (first [by apply log_ok_tell|simpl; auto with crange; lia]). simpl mem. simpl size.
    replace (Z.to_nat (size (mem (machine_of g)) - a))
      with (S (Z.to_nat (size (mem (machine_of g)) - (a + 1)))) by lia.
    replace (a + 1 + Z.of_nat (length bs)) with (a + Z.of_nat (S (length bs))) by lia.
    f_equal. cbn [take put_bytes]. rewrite (dumped_cons i b), <- tell_tell. done.
Qed.

(** The command X, for bytes that begin inside the memory or not. *)
Lemma write_memory_binary_q g data s a esc bs rest k :
  gdb_ok g -> mem_ok (mem (machine_of g)) -> size (mem (machine_of g)) < 2 ^ 32 ->
  until_nul data = Some s -> scan_x_x s = (Some a, Some (Z.of_nat (length bs))) ->
  index s 58 = Some k -> drop (Z.to_nat (k + 1)) data = (flat_map (escape esc) bs ++ rest)%list ->
  esc 0x7d = true -> 0 <= a ->
  let sz := size (mem (machine_of g)) in
  exists g', write_memory_binary data g = Ret tt g' /\
    fd g' = (fd g ++ [frame (chars (if (a <? sz) && (a + Z.of_nat (length bs) <=? sz)
                                    then "OK" else "E02"))])%list /\ gdb_ok g' /\
    machine_of g' = set_mem (put_bytes (mem (machine_of g)) a (take (Z.to_nat (sz - a)) bs))
                      (alloc (alloc (machine_of g))).
Proof.
  intros Hg Hm Hsz Hs Hx Hk Hd He Ha sz. unfold write_memory_binary.
  set (g2 := set_machine (alloc (alloc (machine_of g))) g).
  rewrite (bind_ret _ _ _ (val0 (machine_of g)) (set_machine (alloc (machine_of g)) g)) by done.
  rewrite (bind_ret _ _ _ (val0 (alloc (machine_of g))) g2) by done.
  unfold cstring. rewrite Hs. rewrite (bind_ret _ _ _ s g2) by done. rewrite Hx, Hk.
  simpl stored. pose proof (gdb_log g Hg) as Hlog.
  erewrite bind_ret by (apply gdb_debug_q; [exact Hlog|reflexivity]).
  set (g2' := tell _ g2). assert (Hlog' : log_ok (log g2')) by by apply log_ok_tell.
  rewrite (bind_ret _ _ _ sz g2'); [|by destruct g as [[] ? ? ? ? ?]].
  rewrite Nat2Z.id, Hd.
  set (bs' := take (Z.to_nat (sz - a)) bs).
  set (g3 := set_memory (put_bytes (mem (machine_of g)) a bs') g2').
  assert (Hloop : exists t, write_memory_loop (length bs) 0 a (flat_map (escape esc) bs ++ rest) (a <? sz) g2' =
    Ret ((a <? sz) && (a + Z.of_nat (length bs) <=? sz)) (tell t g3)).
  { destruct (Z.ltb_spec a sz).
    - eexists. rewrite (write_memory_loop_q esc bs 0 a rest g2'); [done|done|done|done|done|fold sz; simpl; fold sz; lia].
    - exists []. rewrite tell_nil. unfold g3, bs'. replace (Z.to_nat (sz - a)) with 0%nat by lia.
      destruct bs; simpl; by destruct g as [[] ? ? ? ? ?]. }
  destruct Hloop as [t Eloop]. rewrite (bind_ret _ _ _ _ _ Eloop).
  erewrite bind_ret by (apply gdb_debug_raw_q; [by apply log_ok_tell|reflexivity]). set (g4 := tell _ (tell t g3)).
  assert (Hg4 : gdb_ok g4) by (apply gdb_ok_tell, gdb_ok_tell; by split_and!; try apply Hg).
  set (reply := chars (if (a <? sz) && (a + Z.of_nat (length bs) <=? sz) then "OK" else "E02")).
  destruct (gdb_send_data_q g4 reply) as (g' & E & Hrep).
  { done. } { unfold reply. case_match; repeat constructor; done. }
  { unfold reply. case_match; simpl; lia. }
  destruct (Hrep) as (Ef & _ & _ & Em & _). exists g'. split; [unfold reply in E; by case_match|].
  split; [done|]. split; [|done]. by apply (replied_ok g4 g' reply).
Qed.

(** C34: The command X.  For a packet that announces [n] bytes at address [a]
    followed by the bytes [bs] with any escaping, the bytes are written from
    [a] on, as many as fit in the memory; the answer is OK exactly when all of
    them fit, and E02 otherwise; nothing else in the memory changes. *)
Theorem gdb_write_memory g data s a esc bs rest k :
  gdb_ok g -> mem_ok (mem (machine_of g)) -> size (mem (machine_of g)) < 2 ^ 32 ->
  until_nul data = Some s -> scan_x_x s = (Some a, Some (Z.of_nat (length bs))) ->
  index s 58 = Some k -> drop (Z.to_nat (k + 1)) data = (flat_map (escape esc) bs ++ rest)%list ->
  esc 0x7d = true -> Forall is_u8 bs -> 0 <= a ->
  let sz := size (mem (machine_of g)) in
  let n := Z.min (Z.of_nat (length bs)) (Z.max 0 (sz - a)) in
  exists g', write_memory_binary data g = Ret tt g' /\
    fd g' = (fd g ++ [frame (chars (if (a <? sz) && (a + Z.of_nat (length bs) <=? sz)
                                    then "OK" else "E02"))])%list /\
    arm (machine_of g') = arm (machine_of g) /\
    forall x, byte_at (mem (machine_of g')) x =
      if (a <=? x) && (x <? a + n) then default 0 (bs !! Z.to_nat (x - a))
      else byte_at (mem (machine_of g)) x.
Proof.
  intros Hg Hm Hsz Hs Hx Hk Hd He Hb Ha sz n.
  destruct (write_memory_binary_q g data s a esc bs rest k) as (g' & E & Ef & _ & Em); try done.
  exists g'. split; [done|]. split; [done|]. rewrite Em. split; [done|].
  fold sz. set (bs' := take (Z.to_nat (sz - a)) bs). simpl mem.
  intros x. assert (Hlen : Z.of_nat (length bs') = n).
  { unfold bs', n. rewrite length_take. lia. }
  destruct (Z.leb_spec sz a) as [Hge|Hlt].
  - assert (n = 0) by (unfold n; lia). destruct bs'; [|simpl in Hlen; lia]. simpl.
    rewrite (proj2 (andb_false_iff _ _)); [done|]. rewrite Z.leb_gt, Z.ltb_ge. lia.
  - rewrite put_bytes_at; [|done|done|fold sz; lia|by apply Forall_take]. rewrite Hlen.
    destruct ((a <=? x) && (x <? a + n)) eqn:Eb; [|done].
    apply andb_true_iff in Eb as [?%Z.leb_le ?%Z.ltb_lt]. unfold bs'.
    rewrite lookup_take_lt; [done|]. unfold n in *. lia.
Qed.

(** *** Memory reads *)

(** The bytes the loop prints: past the end of the memory, the last value
    again. *)
Fixpoint read_values (n : nat) (mm : memory_data) (a v : Z) : list Z :=
  match n with
  | O => []
  | S n' => let v' := if a <? size mm then byte_at mm a else v in
            v' :: read_values n' mm (u32 (a + 1)) v'
  end.

Lemma mem_read_q g a v :
  mem_ok (mem (machine_of g)) -> 0 <= a ->
  exists code, code <> -1 /\
    in_machine (in_mem (memory_read_byte a v)) g =
    Ret (code, if a <? size (mem (machine_of g)) then byte_at (mem (machine_of g)) a else v) g.
Proof.
  intros Hm Ha.
  assert (Hq : forall x, memory_read_byte a v (mem (machine_of g)) = Ret x (mem (machine_of g)) ->
    in_machine (in_mem (memory_read_byte a v)) g = Ret x g).
  { intros x E. apply (zoom_read machine_lens), (zoom_read mem_lens). done. }
  destruct (Z.ltb_spec a (size (mem (machine_of g)))).
  - exists 0. split; [lia|]. by apply Hq, memory_read_byte_ok.
  - exists DATA_ABORT. split; [done|]. by apply Hq, memory_invalid.
Qed.

(** The loop prints [n] bytes when they fit in the packet ... *)
Lemma read_memory_loop_q n g l1 old y l2 i a v :
  mem_ok (mem (machine_of g)) -> 0 <= a -> i = Z.of_nat (length l1) ->
  packet g = (l1 ++ old ++ y :: l2)%list -> length old = (2 * n)%nat ->
  read_memory_loop n a i v g =
  Ret tt (set_packet (l1 ++ flat_map hex_byte (read_values n (mem (machine_of g)) a v)
                      ++ (if n is O then y else 0) :: l2)%list g).
Proof.
  revert g l1 old i a v. induction n as [|n IH]; intros g l1 old i a v Hm Ha Hi Hp Hl.
  { destruct old; [|done]. simpl in *. rewrite <- Hp. by destruct g. }
  destruct old as [|b0 [|b1 old]]; simpl in Hl; try lia. cbn [read_memory_loop read_values].
  destruct (mem_read_q g a v Hm Ha) as (code & Hc & E). rewrite (bind_ret _ _ _ _ _ E).
  cbn [fst snd]. rewrite (proj2 (Z.eqb_neq _ _) Hc). set (v' := if a <? _ then _ else v).
  destruct old as [|b2 old].
  - destruct n; [|simpl in Hl; lia].
    rewrite (bind_ret _ _ _ _ _ (put_chars_mid g l1 [b0; b1; y] (hex_byte v' ++ [0]) l2 i Hi Hp eq_refl)).
    cbn [read_memory_loop flat_map read_values]. unfold ret. by rewrite <- !app_assoc.
  - rewrite (bind_ret _ _ _ _ _ (put_chars_mid g l1 [b0; b1; b2] (hex_byte v' ++ [0])
      (old ++ y :: l2) i Hi Hp eq_refl)).
    rewrite (IH _ (l1 ++ hex_byte v')%list (0 :: old)); [|done|apply u32_range| | |].
    + rewrite set_packet_twice. cbn [flat_map]. rewrite <- !app_assoc.
      destruct n; [simpl in Hl; lia|]. done.
    + rewrite length_app. simpl. lia.
    + simpl. by rewrite <- !app_assoc.
    + simpl in *. lia.
Qed.

(** ... and overruns it when they do not. *)
Lemma read_memory_loop_over n g l1 l2 i a v :
  mem_ok (mem (machine_of g)) -> 0 <= a -> i = Z.of_nat (length l1) ->
  packet g = (l1 ++ l2)%list -> (length l2 < 2 * n + 1)%nat -> (0 < n)%nat ->
  read_memory_loop n a i v g = Undef OutOfBounds.
Proof.
  revert g l1 l2 i a v. induction n as [|n IH]; intros g l1 l2 i a v Hm Ha Hi Hp Hl Hn; [lia|].
  cbn [read_memory_loop].
  destruct (mem_read_q g a v Hm Ha) as (code & Hc & E). rewrite (bind_ret _ _ _ _ _ E).
  cbn [fst snd]. rewrite (proj2 (Z.eqb_neq _ _) Hc). set (v' := if a <? _ then _ else v).
  destruct (decide (length l2 < 3)%nat) as [Hs|Hs].
  { apply bind_undef. by apply (put_chars_over g l1 l2). }
  destruct l2 as [|b0 [|b1 [|b2 l2]]]; simpl in Hs; try lia.
  rewrite (bind_ret _ _ _ _ _ (put_chars_mid g l1 [b0; b1; b2] (hex_byte v' ++ [0]) l2 i Hi Hp eq_refl)).
  apply (IH _ (l1 ++ hex_byte v')%list (0 :: l2)); [done|apply u32_range| | | |].
  - rewrite length_app. simpl. lia.
  - simpl. by rewrite <- !app_assoc.
  - simpl in *. lia.
  - simpl in *. lia.
Qed.

Lemma gdb_send_buffer_over g x s rest :
  Forall (fun c => c <> 0) s -> packet g = (x :: s ++ 0 :: rest)%list -> (length rest < 3)%nat ->
  gdb_send_buffer g = Undef OutOfBounds.
Proof.
  intros Hs Hp Hr. unfold gdb_send_buffer.
  rewrite (bind_ret _ _ _ _ _ (poke_mid g [] 0 eq_refl x _ 36 Hp)). simpl app.
  set (g1 := set_packet _ g). rewrite (bind_ret _ _ _ (length (packet g1)) g1) by done.
  rewrite (bind_ret _ _ _ _ _ (checksum_loop_mid (S (length (packet g1))) g1 [36] s rest 1 0
    eq_refl eq_refl Hs ltac:(simpl; rewrite length_app; simpl; lia))).
  rewrite (bind_ret _ _ _ _ _ (poke_mid g1 (36 :: s) (1 + Z.of_nat (length s)) ltac:(simpl; lia) 0
    rest 35 eq_refl)).
  apply bind_undef. apply (put_chars_over _ (36 :: s ++ [35]) rest).
  - simpl. rewrite length_app. simpl. lia.
  - simpl. by rewrite <- app_assoc.
  - simpl. lia.
Qed.

Lemma read_values_u8 n mm a v : mem_ok mm -> is_u8 v -> Forall is_u8 (read_values n mm a v).
Proof.
  intros Hm. revert a v. induction n as [|n IH]; intros a v Hv; cbn [read_values]; [done|].
  assert (is_u8 (if a <? size mm then byte_at mm a else v)) by (case_match; auto with crange).
  constructor; [done|]. by apply IH.
Qed.

Lemma flat_hex_nonzero l : Forall is_u8 l -> Forall (fun c => c <> 0) (flat_map hex_byte l).
Proof.
  induction 1; cbn [flat_map]; [done|]. apply Forall_app_2; [by apply hex_byte_nonzero|done].
Qed.

Lemma read_text_length n mm a v :
  length (flat_map hex_byte (read_values n mm a v)) = (2 * n)%nat.
Proof.
  revert a v. induction n as [|n IH]; intros a v; [done|].
  cbn [read_values flat_map]. rewrite length_app, IH. simpl. lia.
Qed.

(** The loop from the start of the buffer. *)
Lemma read_memory_text n g x p a v :
  mem_ok (mem (machine_of g)) -> 0 <= a -> packet g = (x :: 0 :: p)%list ->
  (2 * n <= length p)%nat ->
  read_memory_loop n a 1 v g =
  Ret tt (set_packet (x :: flat_map hex_byte (read_values n (mem (machine_of g)) a v)
                      ++ 0 :: drop (2 * n) p)%list g).
Proof.
  intros Hm Ha Hp Hn. set (l := (0 :: p)%list).
  assert (Esp : exists y', l = (take (2 * n) l ++ y' :: drop (2 * n) p)%list /\ (n = 0%nat -> y' = 0)).
  { destruct n as [|n']; [exists 0; by split|].
    destruct (lookup_lt_is_Some_2 l (2 * S n')) as [y' Hy']; [simpl in *; lia|].
    exists y'. split; [|done]. rewrite <- (take_drop (2 * S n') l) at 1. f_equal.
    by rewrite (drop_S _ _ _ Hy'). }
  destruct Esp as (y' & Esp & Hy').
  rewrite (read_memory_loop_q n g [x] (take (2 * n) l) y' (drop (2 * n) p) 1);
    [|done|done|done|by rewrite <- Esp|rewrite length_take; simpl in *; lia].
  destruct n; [by rewrite Hy'|done].
Qed.

(** The handler up to its loop. *)
Lemma read_memory_start g data s a n x y p :
  until_nul data = Some s -> scan_x_x s = (Some a, Some (Z.of_nat n)) ->
  packet g = (x :: y :: p)%list ->
  read_memory data g =
  (read_memory_loop n a 1 (u8 (val0 (alloc (alloc (machine_of g))))) ;;; gdb_send_buffer)
    (set_packet (x :: 0 :: p) (set_machine (alloc (alloc (alloc (machine_of g)))) g)).
Proof.
  intros Hs Hx Hp. unfold read_memory. set (g3 := set_machine _ g).
  rewrite (bind_ret _ _ _ (val0 (machine_of g)) (set_machine (alloc (machine_of g)) g)) by done.
  rewrite (bind_ret _ _ _ (val0 (alloc (machine_of g)))
    (set_machine (alloc (alloc (machine_of g))) g)) by done.
  rewrite (bind_ret _ _ _ (val0 (alloc (alloc (machine_of g)))) g3) by done.
  unfold cstring. rewrite Hs. rewrite (bind_ret _ _ _ s g3) by done. rewrite Hx. simpl stored.
  rewrite (bind_ret _ _ _ _ _ (poke_mid g3 [x] 1 eq_refl y p 0 Hp)). by rewrite Nat2Z.id.
Qed.

(** C35: The command m.  A request for at most 509 bytes is answered with their
    hexadecimal digits (past the end of the memory, where the read returns
    [DATA_ABORT] and not the -1 the loop waits for, the last value is
    repeated); a request for 510 bytes or more, which the announced packet size
    permits, writes outside the packet buffer. *)
Theorem gdb_read_memory g data s a n :
  gdb_ok g -> mem_ok (mem (machine_of g)) ->
  until_nul data = Some s -> scan_x_x s = (Some a, Some (Z.of_nat n)) -> 0 <= a ->
  let v := u8 (val0 (alloc (alloc (machine_of g)))) in
  ((n <= 509)%nat ->
   exists g', read_memory data g = Ret tt g' /\
     fd g' = (fd g ++ [frame (flat_map hex_byte (read_values n (mem (machine_of g)) a v))])%list /\
     arm (machine_of g') = arm (machine_of g) /\ mem (machine_of g') = mem (machine_of g)) /\
  ((510 <= n)%nat -> read_memory data g = Undef OutOfBounds).
Proof.
  intros Hg Hm Hs Hx Ha v. destruct (Hg) as (Hl & Ho & Hw & Hlog).
  destruct (packet g) as [|x [|y p]] eqn:Ep; [done|done|]. simpl in Hl.
  rewrite (read_memory_start g data s a n x y p Hs Hx Ep). fold v.
  set (g4 := set_packet (x :: 0 :: p) _). assert (Hm4 : mem_ok (mem (machine_of g4))) by done.
  assert (Hv8 : is_u8 v) by apply u8_range.
  pose proof (flat_hex_nonzero _ (read_values_u8 n (mem (machine_of g)) a v Hm Hv8)) as Hnz.
  pose proof (read_memory_text n g4 x p a v Hm4 Ha eq_refl) as Hloop.
  pose proof (read_text_length n (mem (machine_of g)) a v) as Ht.
  change (mem (machine_of g4)) with (mem (machine_of g)) in Hloop.
  set (text := flat_map hex_byte (read_values n (mem (machine_of g)) a v)) in *.
  split; intros Hn.
  - rewrite (bind_ret _ _ _ _ _ (Hloop ltac:(lia))).
    destruct (gdb_send_buffer_q (set_packet (x :: text ++ 0 :: drop (2 * n) p)%list g4) x text
      (drop (2 * n) p)) as (g' & Eg & Ef & _ & _ & Em & _); [|done|done|rewrite length_drop; lia|].
    { split_and!; [simpl; rewrite length_app; simpl; rewrite length_drop; lia|done|done|done]. }
    exists g'. split; [done|]. split; [done|]. by rewrite Em.
  - destruct (decide (2 * n <= length p)%nat) as [Hfit|Hover].
    + rewrite (bind_ret _ _ _ _ _ (Hloop Hfit)).
      apply (gdb_send_buffer_over _ x text (drop (2 * n) p)); [done|done|]. rewrite length_drop. lia.
    + apply bind_undef. apply (read_memory_loop_over _ _ [x] (0 :: p)%list); try done || lia.
      simpl. lia.
Qed.
End properties.

(** ** Witnesses *)

#[local] Instance wire_up : Wire := fun _ _ => true.

(** Nothing is debugged. *)
Definition no_messages : messages := messages_init debug_init.
Lemma no_messages_ok : log_ok no_messages.
Proof. exists []. apply debug_init_ok. Qed.

Definition gdb_ex : gdb_protocol_data := gdb_init_data machine_ls (replicate 1024 0) no_messages.

Lemma gdb_ex_ok : gdb_ok gdb_ex.
Proof. split_and!; [reflexivity|reflexivity|done|apply no_messages_ok]. Qed.

Ltac nonzero := apply (bool_decide_unpack _); vm_compute; done.

(** The command [?]. *)
Lemma gdb_framing_witness :
  exists g', gdb_send_data (H0 := wire_up) [63] gdb_ex = Ret tt g' /\
    fd g' = [[36; 63; 35; 51; 102]].
Proof.
  destruct (gdb_framing (H := host0) gdb_ex 0 63 [] 0 gdb_ex_ok) as ((g' & H1 & H2) & _).
  - nonzero.
  - simpl. lia.
  - unfold is_u8. lia.
  - exists g'. split; [exact H1|]. exact (proj1 H2).
Defined.

Lemma gdb_word_text_witness :
  exists g', write_uint32 (H := host0) 1 0x12345678 gdb_ex = Ret tt g' /\
    take 8 (drop 1 (packet g')) = chars "12345678".
Proof.
  destruct (gdb_word_text (H := host0) gdb_ex [0] (replicate 8 0) 0 (replicate 1014 0) 1 0x12345678)
    as (g' & H1 & H2 & _).
  - reflexivity.
  - vm_compute. reflexivity.
  - reflexivity.
  - u32_lit.
  - exists g'. split; [exact H1|]. rewrite H2. vm_compute. reflexivity.
Defined.

Lemma gdb_write_register_effect_witness :
  exists g', gdb_write_register (H := host0) (chars "a=12345678" ++ [0])%list gdb_ex = Ret tt g' /\
    rget (regs (machine_of g')) 10 = 0x12345678.
Proof.
  destruct (gdb_write_register_effect (H := host0) gdb_ex 10 0x12345678 [] gdb_ex_ok)
    as (g' & H1 & _ & _ & H2).
  - apply machine_ls_ok.
  - lia.
  - u32_lit.
  - exists g'. split; [exact H1|]. rewrite H2. vm_compute. reflexivity.
Defined.

(** Register 10, asked for as [a]: the answer is r0, here 100 = 0x64. *)
Lemma gdb_read_register_decimal_witness :
  exists g', gdb_read_register (H := host0) (chars "a" ++ [0])%list gdb_ex = Ret tt g' /\
    fd g' = [frame (chars "00000064")].
Proof.
  destruct (gdb_read_register_decimal (H := host0) gdb_ex 10 [] gdb_ex_ok)
    as (g' & H1 & H2 & _).
  - apply machine_ls_ok.
  - lia.
  - exists g'. split; [exact H1|]. rewrite H2. vm_compute. reflexivity.
Defined.

(** [X10,2:] and the bytes 0x7d (escaped) and 5. *)
Lemma gdb_write_memory_witness :
  exists g', write_memory_binary (H := host0) (chars "10,2:}]" ++ [5; 0])%list gdb_ex = Ret tt g' /\
    byte_at (mem (machine_of g')) 16 = 0x7d /\ byte_at (mem (machine_of g')) 17 = 5.
Proof.
  destruct (gdb_write_memory (H := host0) gdb_ex (chars "10,2:}]" ++ [5; 0])%list
              (chars "10,2:}]" ++ [5])%list 16 (fun b => b =? 0x7d) [0x7d; 5] [0] 4 gdb_ex_ok mem64_ok)
    as (g' & H1 & _ & _ & H2).
  - vm_compute. reflexivity.
  - vm_compute. reflexivity.
  - vm_compute. reflexivity.
  - vm_compute. reflexivity.
  - vm_compute. reflexivity.
  - reflexivity.
  - nonzero.
  - lia.
  - exists g'. split; [exact H1|]. rewrite !H2. vm_compute. split; reflexivity.
Defined.

(** [m10,2] is answered, [m0,1fe] overruns the buffer. *)
Lemma gdb_read_memory_witness :
  (exists g', read_memory (H := host0) (chars "10,2" ++ [0])%list gdb_ex = Ret tt g' /\
    fd g' = [frame (chars "0707")]) /\
  read_memory (H := host0) (chars "0,1fe" ++ [0])%list gdb_ex = Undef OutOfBounds.
Proof.
  split.
  - destruct (gdb_read_memory (H := host0) gdb_ex (chars "10,2" ++ [0])%list (chars "10,2") 16 2
                gdb_ex_ok mem64_ok eq_refl eq_refl ltac:(lia)) as [H1 _].
    destruct (H1 ltac:(lia)) as (g' & H2 & H3 & _).
    exists g'. split; [exact H2|exact H3].
  - apply (gdb_read_memory (H := host0) gdb_ex (chars "0,1fe" ++ [0])%list (chars "0,1fe") 0 510
             gdb_ex_ok mem64_ok eq_refl eq_refl ltac:(lia)). lia.
Defined.
