(* ===== verification/Csapp.v ===== *)
(** * [csapp.c]: the robust I/O package

    The operating system is a schedule of what the coming calls of [read] and
    [write] do: transfer at most some number of bytes, return 0 and leave [errno]
    as it is, or fail with an error code, [EINTR] when a signal interrupts the
    call.  After the schedule, which is as long as one likes but finite, every
    call transfers all it can.  [input] is what is left to read from the
    descriptor, [sent] what was written to it.

    The loops run for as many rounds as bytes are left and events are scheduled;
    each round uses up one or the other.  Should the rounds run out, the model
    ends in [Abort]; the theorems show that this never happens. *)
From S2P Require Import Prelude CInt.

#[local] Open Scope Z_scope.

Definition EINTR : Z := 4.
Definition RIO_BUFSIZE : Z := 8192.

Inductive event : Type :=
| Transfer (k : nat)     (** at most [k + 1] bytes *)
| Nothing                (** the call returns 0 *)
| Error (errno : Z).     (** the call returns -1 *)

#[export] Instance event_eq_dec : EqDecision event.
Proof. solve_decision. Defined.

Record descriptor : Type := Descriptor {
  schedule : list event;
  input : list Z;
  sent : list Z;
  errno : Z;
}.

(** What the next call does, [None] when the schedule does not say; the schedule
    moves on and an error sets [errno]. *)
Definition next_event : M descriptor (option event) := fun s =>
  match schedule s with
  | [] => Ret None s
  | Error e :: sch => Ret (Some (Error e)) (Descriptor sch (input s) (sent s) e)
  | ev :: sch => Ret (Some ev) (Descriptor sch (input s) (sent s) (errno s))
  end.

(** How many of [n] bytes the call transfers, [None] when it fails. *)
Definition amount (o : option event) (n : nat) : option nat :=
  match o with
  | None => Some n
  | Some (Transfer k) => Some (Nat.min n (S k))
  | Some Nothing => Some O
  | Some (Error _) => None
  end.

(** The system calls: the result and, for [read], the bytes read. *)
Definition sys_read (n : Z) : M descriptor (Z * list Z) :=
  let! o := next_event in
  match amount o (Z.to_nat n) with
  | None => ret (-1, [])
  | Some k =>
      let! inp := gets input in
      modify (fun s => Descriptor (schedule s) (drop k inp) (sent s) (errno s)) ;;;
      ret (Z.of_nat (length (take k inp)), take k inp)
  end.

Definition sys_write (bytes : list Z) : M descriptor Z :=
  let! o := next_event in
  match amount o (length bytes) with
  | None => ret (-1)
  | Some k =>
      modify (fun s => Descriptor (schedule s) (input s) (sent s ++ take k bytes) (errno s)) ;;;
      ret (Z.of_nat k)
  end.

(** The number of rounds a loop over [n] bytes may take. *)
Definition rounds (n : Z) (s : descriptor) : nat := S (Z.to_nat n + length (schedule s)).

(** [usrbuf] is the list of the bytes stored so far. *)
Fixpoint rio_readn_loop (fuel : nat) (n nleft : Z) (usrbuf : list Z) : M descriptor (Z * list Z) :=
  match fuel with
  | O => c_assert false ;;; ret (-1, usrbuf)
  | S fuel' =>
      if 0 <? nleft then
        let! r := sys_read nleft in
        let '(nread, bytes) := r in
        if nread <? 0 then
          let! e := gets errno in
          if e =? EINTR then rio_readn_loop fuel' n nleft usrbuf else ret (-1, usrbuf)
        else if nread =? 0 then ret (n - nleft, usrbuf)
        else rio_readn_loop fuel' n (nleft - nread) (usrbuf ++ bytes)
      else ret (n - nleft, usrbuf)
  end.

Definition rio_readn (n : Z) : M descriptor (Z * list Z) :=
  let! fuel := gets (rounds n) in
  rio_readn_loop fuel n n [].

(** [bufp] is what is left of the buffer, [nleft] bytes. *)
Fixpoint rio_writen_loop (fuel : nat) (n nleft : Z) (bufp : list Z) : M descriptor Z :=
  match fuel with
  | O => c_assert false ;;; ret (-1)
  | S fuel' =>
      if 0 <? nleft then
        let! nwritten := sys_write (take (Z.to_nat nleft) bufp) in
        if nwritten <=? 0 then
          let! e := gets errno in
          if e =? EINTR then rio_writen_loop fuel' n nleft bufp else ret (-1)
        else rio_writen_loop fuel' n (nleft - nwritten) (drop (Z.to_nat nwritten) bufp)
      else ret n
  end.

Definition rio_writen (usrbuf : list Z) (n : Z) : M descriptor Z :=
  let! fuel := gets (rounds n) in
  rio_writen_loop fuel n n usrbuf.

(** ** Buffered input *)

Record rio_t : Type := Rio {
  rio_fd : descriptor;
  rio_cnt : Z;
  rio_bufptr : Z;           (* an index into rio_buf *)
  rio_buf : list Z;
}.

Definition fd_lens : lens rio_t descriptor :=
  Lens rio_fd (fun d rp => Rio d (rio_cnt rp) (rio_bufptr rp) (rio_buf rp)).
Definition set_cnt n rp := Rio (rio_fd rp) n (rio_bufptr rp) (rio_buf rp).
Definition set_bufptr i rp := Rio (rio_fd rp) (rio_cnt rp) i (rio_buf rp).
Definition set_buf b rp := Rio (rio_fd rp) (rio_cnt rp) (rio_bufptr rp) b.

#[export] Instance fd_lens_laws : LensLaws fd_lens.
Proof. split; [by intros ? []|by intros []|by intros ? ? []]. Qed.

(** The buffer after [read] stored [bytes] at its start. *)
Definition overwrite (bytes buf : list Z) : list Z := bytes ++ drop (length bytes) buf.

(** The loop of [rio_read]: 1 when the buffer holds data, else the value
    [rio_read] returns. *)
Fixpoint rio_refill (fuel : nat) : M rio_t Z :=
  match fuel with
  | O => c_assert false ;;; ret (-1)
  | S fuel' =>
      let! cnt := gets rio_cnt in
      if cnt <=? 0 then
        let! r := zoom fd_lens (sys_read RIO_BUFSIZE) in
        let '(nread, bytes) := r in
        modify (fun rp => set_cnt nread (set_buf (overwrite bytes (rio_buf rp)) rp)) ;;;
        if nread <? 0 then
          let! e := gets (fun rp => errno (rio_fd rp)) in
          if negb (e =? EINTR) then ret (-1) else rio_refill fuel'
        else if nread =? 0 then ret 0
        else modify (set_bufptr 0) ;;; rio_refill fuel'
      else ret 1
  end.

(** [memcpy] from the buffer: the bytes it copies. *)
Definition copy_from (i cnt : Z) : M rio_t (list Z) :=
  let! buf := gets rio_buf in
  if (0 <=? i) && (0 <=? cnt) && (i + cnt <=? Z.of_nat (length buf))
  then ret (take (Z.to_nat cnt) (drop (Z.to_nat i) buf))
  else undef OutOfBounds.

Definition rio_read (n : Z) : M rio_t (Z * list Z) :=
  let! fuel := gets (fun rp => S (S (length (schedule (rio_fd rp))))) in
  let! r := rio_refill fuel in
  if r <=? 0 then ret (r, []) else
  let! have := gets rio_cnt in
  let cnt := if have <? n then have else s32 n in
  let! p := gets rio_bufptr in
  let! bytes := copy_from p cnt in
  modify (fun rp => set_cnt (rio_cnt rp - cnt) (set_bufptr (p + cnt) rp)) ;;;
  ret (cnt, bytes).

(** [block] is what the structure's buffer holds before. *)
Definition rio_readinitb (block : list Z) (fd : descriptor) : rio_t := Rio fd 0 0 block.
Definition Rio_readinitb (block : list Z) (fd : descriptor) : rio_t := rio_readinitb block fd.

Definition buffered_rounds (n : Z) (rp : rio_t) : nat := rounds n (rio_fd rp).

Fixpoint rio_readnb_loop (fuel : nat) (n nleft : Z) (usrbuf : list Z) : M rio_t (Z * list Z) :=
  match fuel with
  | O => c_assert false ;;; ret (-1, usrbuf)
  | S fuel' =>
      if 0 <? nleft then
        let! r := rio_read nleft in
        let '(nread, bytes) := r in
        if nread <? 0 then
          let! e := gets (fun rp => errno (rio_fd rp)) in
          if e =? EINTR then rio_readnb_loop fuel' n nleft usrbuf else ret (-1, usrbuf)
        else if nread =? 0 then ret (n - nleft, usrbuf)
        else rio_readnb_loop fuel' n (nleft - nread) (usrbuf ++ bytes)
      else ret (n - nleft, usrbuf)
  end.

Definition rio_readnb (n : Z) : M rio_t (Z * list Z) :=
  let! fuel := gets (buffered_rounds n) in
  rio_readnb_loop fuel n n [].

(** The [for] loop of [rio_readlineb] with the counter [n]; [k] rounds are left
    before [n] reaches [maxlen].  The result is the value returned and the
    characters stored, the final NUL included. *)
Fixpoint rio_readlineb_loop (k : nat) (n : Z) (usrbuf : list Z) : M rio_t (Z * list Z) :=
  match k with
  | O => ret (n, usrbuf ++ [0])
  | S k' =>
      let! r := rio_read 1 in
      let '(rc, bytes) := r in
      if rc =? 1 then
        let c := default 0 (head bytes) in
        if c =? 10 then ret (n, (usrbuf ++ [c]) ++ [0])
        else rio_readlineb_loop k' (n + 1) (usrbuf ++ [c])
      else if rc =? 0 then
        if n =? 1 then ret (0, usrbuf) else ret (n, usrbuf ++ [0])
      else ret (-1, usrbuf)
  end.

Definition rio_readlineb (maxlen : Z) : M rio_t (Z * list Z) :=
  rio_readlineb_loop (Z.to_nat (maxlen - 1)) 1 [].

(** ** The wrappers: [unix_error] ends the program with status 0 *)

Definition or_unix_error {S A} (failed : bool) (x : A) : M S A :=
  if failed then c_exit 0 else ret x.

Definition Rio_readn (n : Z) : M descriptor (Z * list Z) :=
  let! r := rio_readn n in or_unix_error (r.1 <? 0) r.
Definition Rio_writen (usrbuf : list Z) (n : Z) : M descriptor unit :=
  let! r := rio_writen usrbuf n in or_unix_error (negb (r =? n)) tt.
Definition Rio_readnb (n : Z) : M rio_t (Z * list Z) :=
  let! r := rio_readnb n in or_unix_error (r.1 <? 0) r.
Definition Rio_readlineb (maxlen : Z) : M rio_t (Z * list Z) :=
  let! r := rio_readlineb maxlen in or_unix_error (r.1 <? 0) r.

(** ** Lemmas *)

(** An event that ends a transfer from the stream before its end: an error
    other than [EINTR], or a [read] that gives nothing. *)
Definition fatal (e : event) : bool :=
  match e with Error e => negb (e =? EINTR) | Nothing => true | Transfer _ => false end.

(** A call fails, or transfers [k] bytes, and the schedule moves on.  It
    transfers none only at the end of the input, or when the schedule says so. *)
Lemma sys_read_cases n s :
  0 < n ->
  (exists e sch, schedule s = Error e :: sch /\
     sys_read n s = Ret (-1, []) (Descriptor sch (input s) (sent s) e)) \/
  (exists k, (k <= Z.to_nat n)%nat /\ (k <= length (input s))%nat /\
     (k = O -> input s = [] \/ existsb fatal (schedule s) = true) /\
     sys_read n s = Ret (Z.of_nat k, take k (input s))
       (Descriptor (tail (schedule s)) (drop k (input s)) (sent s) (errno s))).
Proof.
  intros Hn.
  assert (Hread : forall j sch, (j <= Z.to_nat n)%nat ->
    (j = O -> existsb fatal (schedule s) = true) -> exists k, (k <= Z.to_nat n)%nat /\
    (k <= length (input s))%nat /\ (k = O -> input s = [] \/ existsb fatal (schedule s) = true) /\
    @Ret descriptor _ (Z.of_nat (length (take j (input s))), take j (input s))
       (Descriptor sch (drop j (input s)) (sent s) (errno s)) =
    Ret (Z.of_nat k, take k (input s)) (Descriptor sch (drop k (input s)) (sent s) (errno s))).
  { intros j sch Hj H0. exists (length (take j (input s))). rewrite length_take. split_and!; [lia..| |].
    - destruct j; [by right; apply H0|]. destruct (input s); [by left|simpl; lia].
    - destruct (Nat.le_gt_cases j (length (input s))); [by rewrite Nat.min_l by lia|].
      rewrite Nat.min_r by lia. by rewrite !take_ge, !drop_ge by lia. }
  unfold sys_read, next_event, bind. destruct (schedule s) as [|[k| |e] sch] eqn:Es; simpl.
  - right. rewrite Es. apply (Hread (Z.to_nat n)); lia.
  - right. apply (Hread (Nat.min (Z.to_nat n) (S k))); lia.
  - right. apply (Hread O); [lia|done].
  - left. by exists e, sch.
Qed.

Lemma fatal_tail sch : existsb fatal (tail sch) = true -> existsb fatal sch = true.
Proof. destruct sch as [|e sch]; simpl; [done|]. intros ->. apply orb_true_r. Qed.

Lemma length_tail {A} (l : list A) : (length (tail l) <= length l)%nat.
Proof. destruct l; simpl; lia. Qed.

(** What a read of [n] bytes from the stream [inp] gives: the value returned, the
    bytes, the rest of the stream; [failed] is what explains fewer bytes than
    there are. *)
Definition read_result (n r : Z) (inp bytes rest : list Z) (failed : Prop) : Prop :=
  bytes ++ rest = inp /\ Z.of_nat (length bytes) <= n /\
  ((r = Z.of_nat (length bytes) /\
    (Z.of_nat (length bytes) = Z.min n (Z.of_nat (length inp)) \/ failed)) \/
   (r = -1 /\ failed)).

Lemma read_result_done inp (failed : Prop) : read_result 0 0 inp [] inp failed.
Proof. split; [done|]. simpl. lia. Qed.
Lemma read_result_eof n inp (failed : Prop) :
  0 <= n -> inp = [] \/ failed -> read_result n 0 inp [] inp failed.
Proof. intros Hn [->|Hf]; (split; [done|]); simpl; [lia|]. split; [lia|]. auto. Qed.
Lemma read_result_fail n inp (failed : Prop) :
  0 <= n -> failed -> read_result n (-1) inp [] inp failed.
Proof. split; [done|]. simpl. split; [lia|by right]. Qed.

(** One more block of bytes in front. *)
Lemma read_result_more n r block inp bytes rest failed :
  read_result (n - Z.of_nat (length block)) r inp bytes rest failed ->
  read_result n (if r =? -1 then -1 else Z.of_nat (length block) + r) (block ++ inp)
    (block ++ bytes) rest failed.
Proof.
  intros (E & Hle & Hr). unfold read_result. rewrite !length_app, <- app_assoc, E.
  split_and!; [done|lia|].
  destruct Hr as [[-> Hb]|[-> Hf]]; [left|by right].
  destruct (Z.eqb_spec (Z.of_nat (length bytes)) (-1)); [lia|]. split; [lia|].
  destruct Hb; [left; lia|by right].
Qed.

Lemma rio_readn_loop_ok fuel n nleft usrbuf s :
  0 <= nleft <= n -> nleft + Z.of_nat (length (schedule s)) < Z.of_nat fuel ->
  exists r bytes s', rio_readn_loop fuel n nleft usrbuf s =
      Ret (if r =? -1 then -1 else n - nleft + r, usrbuf ++ bytes) s' /\
    read_result nleft r (input s) bytes (input s') (existsb fatal (schedule s) = true) /\
    sent s' = sent s.
Proof.
  revert nleft usrbuf s. induction fuel as [|fuel IH]; intros nleft usrbuf s Hn Hf; [lia|].
  cbn [rio_readn_loop]. destruct (Z.ltb_spec 0 nleft); cycle 1.
  { exists 0, [], s. assert (nleft = 0) as -> by lia. rewrite app_nil_r, Z.add_0_r.
    split; [done|]. split; [apply read_result_done|done]. }
  destruct (sys_read_cases nleft s) as [(e & sch & Es & E)|(k & Hk & Hki & H0 & E)]; [lia| |];
    rewrite (bind_ret _ _ _ _ _ E); cbv beta iota; set (s1 := Descriptor _ _ _ _) in *.
  - rewrite Es in *. change (-1 <? 0) with true. cbv iota.
    rewrite (bind_ret _ _ s1 e s1) by done. simpl in Hf.
    destruct (Z.eqb_spec e EINTR) as [->|He]; [apply (IH nleft usrbuf s1); simpl; lia|].
    exists (-1), [], s1. rewrite app_nil_r. split; [done|]. split; [|done].
    apply read_result_fail; [lia|]. simpl. by rewrite (proj2 (Z.eqb_neq _ _) He).
  - destruct (Z.ltb_spec (Z.of_nat k) 0); [lia|]. destruct (Z.eqb_spec (Z.of_nat k) 0) as [E0|E0].
    + assert (k = O) as -> by lia. exists 0, [], s1. rewrite app_nil_r, Z.add_0_r.
      split; [done|]. split; [|done]. simpl. rewrite drop_0. apply read_result_eof; [lia|auto].
    + pose proof (length_tail (schedule s)).
      destruct (IH (nleft - Z.of_nat k) (usrbuf ++ take k (input s)) s1) as (r & bytes & s' & -> & Hr & Hs');
        [lia|simpl; lia|].
      exists (if r =? -1 then -1 else Z.of_nat k + r), (take k (input s) ++ bytes), s'.
      rewrite <- app_assoc. split_and!; [| |done].
      * f_equal. f_equal. destruct Hr as (_ & _ & [[-> _]|[-> _]]); [|done].
        destruct (Z.eqb_spec (Z.of_nat (length bytes)) (-1)); [lia|].
        destruct (Z.eqb_spec (Z.of_nat k + Z.of_nat (length bytes)) (-1)); lia.
      * rewrite <- (take_drop k (input s)) at 1. rewrite <- (length_take_le (input s) k) at 1 by lia.
        apply read_result_more. rewrite length_take_le by lia. destruct Hr as (? & ? & Hr). split_and!; [done..|].
        destruct Hr as [[? [?|?%fatal_tail]]|[? ?%fatal_tail]]; auto.
Qed.

(** ** Writing *)

(** The first call of a schedule at which a writer gives up, when [errno] is
    [err] before: an error other than [EINTR], or a result of 0 while [errno] is
    not [EINTR]. *)
Fixpoint gives_up (err : Z) (sch : list event) : option nat :=
  match sch with
  | [] => None
  | Transfer _ :: sch => S <$> gives_up err sch
  | Nothing :: sch => if err =? EINTR then S <$> gives_up err sch else Some O
  | Error e :: sch => if e =? EINTR then S <$> gives_up e sch else Some O
  end.

(** The bytes the calls of a schedule can transfer. *)
Fixpoint moved (sch : list event) : nat :=
  match sch with
  | [] => O
  | Transfer k :: sch => S k + moved sch
  | _ :: sch => moved sch
  end.

(** Writing [buf] uses the calls [used] and leaves the schedule [rest]: no call is
    made with nothing left to send.  Either the writer never gives up and all of
    [buf] is [out]; or it gives up at the last of these calls, with a proper prefix
    out. *)
Definition write_result (err : Z) (buf : list Z) (used rest : list event) (ok : bool)
    (out : list Z) : Prop :=
  (forall l e l', used = l ++ e :: l' -> (moved l < length buf)%nat) /\
  if ok then gives_up err used = None /\ out = buf /\ (rest = [] \/ (length buf <= moved used)%nat)
  else S <$> gives_up err used = Some (length used) /\ out = take (moved used) buf /\
       (moved used < length buf)%nat.

Lemma write_result_done err rest : write_result err [] [] rest true [].
Proof. split; [by intros []|]. split_and!; [done..|right; simpl; lia]. Qed.

Lemma write_result_all err buf : write_result err buf [] [] true buf.
Proof. split; [by intros []|]. by split_and!; [..|left]. Qed.

Lemma write_result_give_up err ev buf rest :
  buf <> [] -> gives_up err [ev] = Some O -> moved [ev] = O ->
  write_result err buf [ev] rest false [].
Proof.
  intros Hb Hg Hm. assert (0 < length buf)%nat by (destruct buf; [done|simpl; lia]).
  split; [by intros [|? []]; intros; simplify_list_eq; simpl; lia|]. rewrite Hg, Hm. done.
Qed.

(** An interrupted call in front. *)
Lemma write_result_again err err' ev buf used rest ok out :
  buf <> [] -> gives_up err (ev :: used) = S <$> gives_up err' used -> moved [ev] = O ->
  write_result err' buf used rest ok out -> write_result err buf (ev :: used) rest ok out.
Proof.
  intros Hb Hg Hm [Hu Hr]. assert (Hmv : forall l, moved (ev :: l) = moved l) by (by destruct ev).
  split.
  - intros [|e0 l] e l' E; simplify_list_eq.
    + destruct buf; [done|simpl; lia].
    + rewrite Hmv. by eapply Hu.
  - rewrite Hmv, Hg. destruct ok; destruct Hr as (Hr & ? & ?).
    + rewrite Hr. done.
    + split; [|done]. destruct (gives_up err' used); [|done]. simpl in *. congruence.
Qed.

(** A call in front that sends [j] bytes. *)
Lemma write_result_more err k buf used rest ok out :
  buf <> [] -> let j := Nat.min (length buf) (S k) in
  write_result err (drop j buf) used rest ok out ->
  write_result err buf (Transfer k :: used) rest ok (take j buf ++ out).
Proof.
  intros Hb j [Hu Hr]. assert (0 < length buf)%nat by (destruct buf; [done|simpl; lia]).
  assert (Hj : j = Nat.min (length buf) (S k)) by done. clearbody j. rewrite length_drop in *. split.
  - intros [|e0 l] e l' E; simplify_list_eq; [lia|]. specialize (Hu _ _ _ eq_refl). lia.
  - simpl. destruct ok; destruct Hr as (Hr & Ho & Hm).
    + rewrite Hr, Ho, take_drop. split_and!; [done..|]. destruct Hm; [by left|right; lia].
    + rewrite Ho. assert (j = S k) as -> by lia. split_and!; [|by rewrite take_take_drop|lia].
      destruct (gives_up err used); [|done]. simpl in *. congruence.
Qed.

Lemma rio_writen_loop_ok fuel n nleft bufp s :
  nleft = Z.of_nat (length bufp) -> nleft + Z.of_nat (length (schedule s)) < Z.of_nat fuel ->
  exists (ok : bool) used out s',
    rio_writen_loop fuel n nleft bufp s = Ret (if ok then n else -1) s' /\
    schedule s = used ++ schedule s' /\ sent s' = sent s ++ out /\ input s' = input s /\
    write_result (errno s) bufp used (schedule s') ok out.
Proof.
  revert nleft bufp s. induction fuel as [|fuel IH]; intros nleft bufp s Hn Hf; [lia|].
  cbn [rio_writen_loop]. destruct (Z.ltb_spec 0 nleft); cycle 1.
  { assert (bufp = []) as -> by (destruct bufp; [done|simpl in *; lia]).
    exists true, [], [], s. rewrite app_nil_r. split_and!; try done. apply write_result_done. }
  assert (Hb : bufp <> []) by (by intros ->; simpl in *; lia).
  rewrite take_ge by lia.
  destruct s as [[|[k| |e] sch] inp snt err]; cbn [schedule input sent errno] in *;
    erewrite (bind_ret (sys_write bufp)) by reflexivity; cbn [schedule input sent errno].
  - destruct (Z.leb_spec (Z.of_nat (length bufp)) 0); [lia|]. rewrite Nat2Z.id, firstn_all, drop_all.
    destruct fuel as [|fuel]; [simpl in *; lia|]. cbn [rio_writen_loop].
    destruct (Z.ltb_spec 0 (nleft - Z.of_nat (length bufp))); [lia|].
    eexists true, [], bufp, _. split; [reflexivity|]. split_and!; try done. apply write_result_all.
  - set (j := Nat.min (length bufp) (S k)).
    destruct (Z.leb_spec (Z.of_nat j) 0); [lia|]. rewrite Nat2Z.id.
    destruct (IH (nleft - Z.of_nat j) (drop j bufp) (Descriptor sch inp (snt ++ take j bufp) err))
      as (ok & used & out & s' & -> & Es & Ho & Hi & Hr); [rewrite length_drop; lia|simpl in *; lia|].
    exists ok, (Transfer k :: used), (take j bufp ++ out), s'. cbn [schedule sent input errno] in *.
    rewrite Ho, Hi, Es, <- app_assoc. split_and!; try done. by apply write_result_more.
  - change (Z.of_nat 0 <=? 0) with true. cbv iota.
    erewrite (bind_ret (gets errno)) by reflexivity. cbn [errno].
    rewrite app_nil_r. destruct (Z.eqb_spec err EINTR) as [->|He].
    + destruct (IH nleft bufp (Descriptor sch inp snt EINTR))
        as (ok & used & out & s' & -> & Es & Ho & Hi & Hr); [done|simpl in *; lia|].
      exists ok, (Nothing :: used), out, s'. cbn [schedule sent input errno] in *. rewrite Es.
      split_and!; try done. by eapply write_result_again.
    + eexists false, [Nothing], [], _. split; [reflexivity|]. rewrite app_nil_r. split_and!; try done.
      apply write_result_give_up; [done| |done]. simpl. by destruct (Z.eqb_spec err EINTR).
  - change (-1 <=? 0) with true. cbv iota.
    erewrite (bind_ret (gets errno)) by reflexivity. cbn [errno].
    destruct (Z.eqb_spec e EINTR) as [->|He].
    + destruct (IH nleft bufp (Descriptor sch inp snt EINTR))
        as (ok & used & out & s' & -> & Es & Ho & Hi & Hr); [done|simpl in *; lia|].
      exists ok, (Error EINTR :: used), out, s'. cbn [schedule sent input errno] in *. rewrite Es.
      split_and!; try done. by eapply write_result_again.
    + eexists false, [Error e], [], _. split; [reflexivity|]. rewrite app_nil_r. split_and!; try done.
      apply write_result_give_up; [done| |done]. simpl. by destruct (Z.eqb_spec e EINTR).
Qed.

(** ** Buffered input: the buffer and the descriptor are one stream *)

Definition rio_ok (rp : rio_t) : Prop :=
  Z.of_nat (length (rio_buf rp)) = RIO_BUFSIZE /\ rio_cnt rp <= RIO_BUFSIZE /\
  (0 < rio_cnt rp -> 0 <= rio_bufptr rp /\ rio_bufptr rp + rio_cnt rp <= RIO_BUFSIZE).

Definition unread (rp : rio_t) : list Z :=
  take (Z.to_nat (rio_cnt rp)) (drop (Z.to_nat (rio_bufptr rp)) (rio_buf rp)).
Definition stream (rp : rio_t) : list Z := unread rp ++ input (rio_fd rp).

Definition will_fail (rp : rio_t) : Prop := existsb fatal (schedule (rio_fd rp)) = true.

Lemma stream_empty_buffer rp : rio_cnt rp <= 0 -> stream rp = input (rio_fd rp).
Proof. intros. unfold stream, unread. by replace (Z.to_nat (rio_cnt rp)) with O by lia. Qed.

Lemma rio_ok_empty rp :
  Z.of_nat (length (rio_buf rp)) = RIO_BUFSIZE -> rio_cnt rp <= 0 -> rio_ok rp.
Proof. intros. unfold rio_ok, RIO_BUFSIZE in *. lia. Qed.

Lemma length_overwrite bytes buf :
  (length bytes <= length buf)%nat -> length (overwrite bytes buf) = length buf.
Proof. intros. unfold overwrite. rewrite length_app, length_drop. lia. Qed.

(** The buffer after a successful refill. *)
Lemma rio_filled fd bytes buf :
  Z.of_nat (length buf) = RIO_BUFSIZE -> (length bytes <= length buf)%nat ->
  let rp := Rio fd (Z.of_nat (length bytes)) 0 (overwrite bytes buf) in
  rio_ok rp /\ unread rp = bytes.
Proof.
  intros Hb Hl. split.
  - unfold rio_ok, RIO_BUFSIZE in *. simpl. rewrite length_overwrite by done. lia.
  - unfold unread, overwrite. simpl. by rewrite Nat2Z.id, drop_0, take_app_length.
Qed.

Lemma rio_refill_ok fuel rp :
  rio_ok rp -> (S (length (schedule (rio_fd rp))) < fuel)%nat ->
  exists r rp', rio_refill fuel rp = Ret r rp' /\ rio_ok rp' /\ stream rp' = stream rp /\
    (will_fail rp' -> will_fail rp) /\
    ((r = 1 /\ 0 < rio_cnt rp') \/ (r = 0 /\ (stream rp = [] \/ will_fail rp)) \/
     (r = -1 /\ errno (rio_fd rp') <> EINTR /\ will_fail rp)).
Proof.
  revert rp. induction fuel as [|fuel IH]; intros rp Hok Hf; [lia|]. cbn [rio_refill].
  rewrite (bind_ret _ _ rp (rio_cnt rp) rp) by done.
  destruct (Z.leb_spec (rio_cnt rp) 0) as [Hc|Hc]; cycle 1.
  { exists 1, rp. split_and!; try done. by left. }
  rewrite (stream_empty_buffer rp Hc).
  destruct (sys_read_cases RIO_BUFSIZE (rio_fd rp)) as [(e & sch & Es & E)|(k & Hk & Hki & H0 & E)];
    [done| |]; rewrite (bind_ret _ _ _ _ _ (zoom_ret fd_lens _ rp _ _ E)); cbv beta iota.
  - set (rp1 := Rio (Descriptor sch (input (rio_fd rp)) (sent (rio_fd rp)) e) (-1)
                  (rio_bufptr rp) (rio_buf rp)).
    rewrite (bind_ret _ _ _ tt rp1) by done. change (-1 <? 0) with true. cbv iota.
    rewrite (bind_ret _ _ rp1 e rp1) by done.
    assert (Hok1 : rio_ok rp1) by (apply rio_ok_empty; [apply Hok|done]).
    unfold will_fail. rewrite Es in *. destruct (Z.eqb_spec e EINTR) as [->|He]; simpl negb; cbv iota.
    + destruct (IH rp1) as (r & rp' & E' & Hok' & Hs & Hw & Hr); [done|simpl in *; lia|].
      exists r, rp'. by rewrite Hs in *.
    + exists (-1), rp1. split_and!; [done..| |].
      * simpl. rewrite (proj2 (Z.eqb_neq _ _) He). done.
      * right; right. simpl. by rewrite (proj2 (Z.eqb_neq _ _) He).
  - set (fd1 := Descriptor _ _ _ _) in *.
    set (rp1 := Rio fd1 (Z.of_nat k) (rio_bufptr rp)
                  (overwrite (take k (input (rio_fd rp))) (rio_buf rp))).
    rewrite (bind_ret _ _ _ tt rp1) by done.
    destruct (Z.ltb_spec (Z.of_nat k) 0); [lia|].
    assert (Hw : existsb fatal (schedule fd1) = true -> will_fail rp) by apply fatal_tail.
    destruct Hok as (Hb & _). destruct (rio_filled fd1 (take k (input (rio_fd rp))) (rio_buf rp))
      as [Hok2 Hu]; [done|rewrite length_take; unfold RIO_BUFSIZE in *; lia|].
    rewrite length_take_le in Hok2, Hu by done.
    destruct (Z.eqb_spec (Z.of_nat k) 0) as [E0|E0].
    + assert (k = O) as -> by lia. exists 0, rp1. split; [done|]. split; [by apply rio_ok_empty|].
      split; [by rewrite stream_empty_buffer|]. split; [done|]. right; left. auto.
    + set (rp2 := set_bufptr 0 rp1). rewrite (bind_ret _ _ _ tt rp2) by done.
      exists 1, rp2. destruct fuel as [|fuel]; [lia|]. cbn [rio_refill].
      rewrite (bind_ret _ _ rp2 (Z.of_nat k) rp2) by done.
      destruct (Z.leb_spec (Z.of_nat k) 0); [lia|]. split; [done|]. split; [exact Hok2|].
      split; [unfold stream; change (unread rp2) with (unread (Rio fd1 (Z.of_nat k) 0
        (overwrite (take k (input (rio_fd rp))) (rio_buf rp)))); rewrite Hu; apply take_drop|].
      split; [done|]. left. simpl. lia.
Qed.

Lemma rio_read_ok n rp :
  rio_ok rp -> 0 < n ->
  exists r bytes rp', rio_read n rp = Ret (r, bytes) rp' /\ rio_ok rp' /\
    bytes ++ stream rp' = stream rp /\ (will_fail rp' -> will_fail rp) /\
    ((r = Z.of_nat (length bytes) /\ 0 < r <= n) \/ (r = 0 /\ bytes = [] /\ (stream rp = [] \/ will_fail rp)) \/
     (r = -1 /\ bytes = [] /\ errno (rio_fd rp') <> EINTR /\ will_fail rp)).
Proof.
  intros Hok Hn. unfold rio_read.
  rewrite (bind_ret _ _ rp (S (S (length (schedule (rio_fd rp))))) rp) by done.
  destruct (rio_refill_ok (S (S (length (schedule (rio_fd rp))))) rp Hok)
    as (r & rp1 & E & Hok1 & Hs & Hw & Hr); [lia|]. rewrite (bind_ret _ _ _ _ _ E).
  destruct (Z.leb_spec r 0) as [Hle|Hgt].
  { exists r, [], rp1. split_and!; try done. destruct Hr as [?|[?|?]]; [lia|tauto..]. }
  destruct Hr as [[-> Hc]|?]; [|lia].
  rewrite (bind_ret _ _ rp1 (rio_cnt rp1) rp1) by done.
  destruct (Hok1) as (Hb & Hmax & Hin). specialize (Hin Hc). unfold RIO_BUFSIZE in *.
  set (cnt := if rio_cnt rp1 <? n then rio_cnt rp1 else s32 n).
  assert (Hcnt : 0 < cnt <= n /\ cnt <= rio_cnt rp1).
  { subst cnt. destruct (Z.ltb_spec (rio_cnt rp1) n); [lia|]. rewrite s32_small by lia. lia. }
  rewrite (bind_ret _ _ rp1 (rio_bufptr rp1) rp1) by done.
  set (bytes := take (Z.to_nat cnt) (drop (Z.to_nat (rio_bufptr rp1)) (rio_buf rp1))).
  rewrite (bind_ret _ _ rp1 bytes rp1); cycle 1.
  { unfold copy_from. rewrite (bind_ret _ _ rp1 (rio_buf rp1) rp1) by done.
    rewrite !(proj2 (Z.leb_le _ _)) by lia. done. }
  rewrite bind_ret with (a := tt)
    (s' := Rio (rio_fd rp1) (rio_cnt rp1 - cnt) (rio_bufptr rp1 + cnt) (rio_buf rp1)) by done.
  eexists cnt, bytes, _. split; [reflexivity|].
  split; [split; [done|]; unfold RIO_BUFSIZE; simpl; lia|]. split; [|split; [exact Hw|]].
  - rewrite <- Hs. unfold stream, unread. simpl. rewrite app_assoc. f_equal. subst bytes.
    replace (Z.to_nat (rio_bufptr rp1 + cnt)) with (Z.to_nat (rio_bufptr rp1) + Z.to_nat cnt)%nat by lia.
    replace (Z.to_nat (rio_cnt rp1)) with (Z.to_nat cnt + Z.to_nat (rio_cnt rp1 - cnt))%nat by lia.
    by rewrite <- drop_drop, take_take_drop.
  - left. subst bytes. rewrite length_take, length_drop. lia.
Qed.

Lemma rio_readnb_loop_ok fuel n nleft usrbuf rp :
  rio_ok rp -> 0 <= nleft <= n -> nleft < Z.of_nat fuel ->
  exists r bytes rp', rio_readnb_loop fuel n nleft usrbuf rp =
      Ret (if r =? -1 then -1 else n - nleft + r, usrbuf ++ bytes) rp' /\ rio_ok rp' /\
    read_result nleft r (stream rp) bytes (stream rp') (will_fail rp).
Proof.
  revert nleft usrbuf rp. induction fuel as [|fuel IH]; intros nleft usrbuf rp Hok Hn Hf; [lia|].
  cbn [rio_readnb_loop]. destruct (Z.ltb_spec 0 nleft); cycle 1.
  { exists 0, [], rp. assert (nleft = 0) as -> by lia. rewrite app_nil_r, Z.add_0_r.
    split; [done|]. split; [done|apply read_result_done]. }
  destruct (rio_read_ok nleft rp) as (r & bytes & rp1 & E & Hok1 & Hs & Hw & Hr); [done..|].
  rewrite (bind_ret _ _ _ _ _ E). cbv beta iota.
  destruct Hr as [[Er Hr]|[(-> & -> & Hnil)|(-> & -> & He & Hfail)]].
  - destruct (Z.ltb_spec r 0); [lia|]. destruct (Z.eqb_spec r 0); [lia|].
    destruct (IH (nleft - r) (usrbuf ++ bytes) rp1) as (r' & bytes' & rp' & -> & Hok' & Hr');
      [done|lia..|].
    exists (if r' =? -1 then -1 else r + r'), (bytes ++ bytes'), rp'.
    rewrite <- app_assoc. split_and!; [|done|].
    + f_equal. f_equal. destruct Hr' as (_ & _ & [[-> _]|[-> _]]); [|done].
      destruct (Z.eqb_spec (Z.of_nat (length bytes')) (-1)); [lia|].
      destruct (Z.eqb_spec (r + Z.of_nat (length bytes')) (-1)); lia.
    + rewrite <- Hs, Er. apply read_result_more. rewrite <- Er.
      destruct Hr' as (? & ? & Hr'). split_and!; [done..|]. tauto.
  - change (0 <? 0) with false. cbv iota. change (0 =? 0) with true. cbv iota.
    exists 0, [], rp1. rewrite app_nil_r, Z.add_0_r. simpl in Hs. rewrite Hs.
    split; [done|]. split; [done|]. apply read_result_eof; [lia|done].
  - change (-1 <? 0) with true. cbv iota. rewrite (bind_ret _ _ rp1 (errno (rio_fd rp1)) rp1) by done.
    rewrite (proj2 (Z.eqb_neq _ _) He). exists (-1), [], rp1. rewrite app_nil_r.
    simpl in Hs. rewrite Hs. split; [done|]. split; [done|]. apply read_result_fail; [lia|done].
Qed.

(** The first line of a stream, its newline included, cut after [k]
    characters. *)
Fixpoint first_line (k : nat) (s : list Z) : list Z :=
  match k, s with
  | S k', c :: s' => if c =? 10 then [c] else c :: first_line k' s'
  | _, _ => []
  end.

Definition ends_line (line : list Z) : bool := bool_decide (last line = Some 10).

Lemma ends_line_cons c line : c <> 10 -> ends_line (c :: line) = ends_line line.
Proof.
  intros Hc. unfold ends_line. apply bool_decide_ext. destruct line; [|done].
  simpl. split; [by intros [= ->]|done].
Qed.

Lemma rio_readlineb_loop_ok k n usrbuf rp :
  rio_ok rp -> ~ will_fail rp -> 1 <= n ->
  let line := first_line k (stream rp) in
  exists rp', rio_ok rp' /\ stream rp' = drop (length line) (stream rp) /\
    rio_readlineb_loop k n usrbuf rp =
      if (n =? 1) && bool_decide (stream rp = []) && bool_decide (k <> O) then Ret (0, usrbuf) rp'
      else Ret (n + Z.of_nat (length line) - b2z (ends_line line), usrbuf ++ line ++ [0]) rp'.
Proof.
  revert n usrbuf rp. induction k as [|k IH]; intros n usrbuf rp Hok Hnf Hn; cbn [rio_readlineb_loop].
  { exists rp. split_and!; [done..|]. rewrite (bool_decide_false (O <> O)) by tauto.
    rewrite andb_false_r. unfold ret. simpl. f_equal. f_equal. lia. }
  destruct (rio_read_ok 1 rp) as (r & bytes & rp1 & E & Hok1 & Hs & Hw & Hr); [done..|].
  rewrite (bind_ret _ _ _ _ _ E). cbv beta iota.
  destruct Hr as [[Er Hr]|[(-> & -> & Hnil)|(_ & _ & _ & Hfail)]]; [| |done].
  - assert (r = 1) as -> by lia. destruct bytes as [|c [|]]; simpl in Er; try lia.
    change (1 =? 1) with true. cbv iota. change (default 0 (head [c])) with c. rewrite <- Hs. simpl app.
    rewrite (bool_decide_false (c :: stream rp1 = [])) by done.
    rewrite andb_false_r. simpl andb. cbv iota. cbn [first_line].
    destruct (Z.eqb_spec c 10) as [->|Hc].
    + exists rp1. split_and!; [done..|]. rewrite <- app_assoc. unfold ret. simpl. f_equal. f_equal. lia.
    + destruct (IH (n + 1) (usrbuf ++ [c]) rp1) as (rp' & Hok' & Hs' & E'); [done|tauto|lia|].
      exists rp'. split; [done|]. split; [done|]. rewrite E'. destruct (Z.eqb_spec (n + 1) 1); [lia|]. simpl andb. cbv iota.
      rewrite <- app_assoc, ends_line_cons by done. simpl length. f_equal. f_equal. lia.
  - change (0 =? 1) with false. cbv iota. change (0 =? 0) with true. cbv iota.
    simpl in Hs. destruct Hnil as [Hnil|]; [|done]. exists rp1. rewrite Hs, Hnil. split_and!; [done..|].
    rewrite !bool_decide_true by done. rewrite !andb_true_r.
    destruct (Z.eqb_spec n 1); unfold ret; simpl; [done|]. f_equal. f_equal. lia.
Qed.

(** ** Properties *)

(** C37: Writing is all or nothing for the caller.  [rio_writen] of a buffer makes
    calls of [write] as long as there is something left to send.  Interrupted
    finitely often it ends: it returns [n] after sending exactly the [n] bytes of
    the buffer; or -1, having sent a proper prefix, and this exactly at the first
    call that fails with an error other than [EINTR] or gives 0 while [errno] is
    not [EINTR].  [Rio_writen] ends the program with status 0 in the second case,
    so that whenever it returns everything was sent. *)
Theorem rio_writen_complete usrbuf s :
  let n := Z.of_nat (length usrbuf) in
  exists (ok : bool) used out s',
    rio_writen usrbuf n s = Ret (if ok then n else -1) s' /\
    Rio_writen usrbuf n s = (if ok then Ret tt s' else Exit 0 s') /\
    schedule s = used ++ schedule s' /\ sent s' = sent s ++ out /\ input s' = input s /\
    write_result (errno s) usrbuf used (schedule s') ok out.
Proof.
  intros n.
  destruct (rio_writen_loop_ok (rounds n s) n n usrbuf s) as (ok & used & out & s' & E & H);
    [done|unfold rounds; lia|].
  assert (Ew : rio_writen usrbuf n s = Ret (if ok then n else -1) s') by exact E.
  exists ok, used, out, s'. unfold Rio_writen. rewrite (bind_ret _ _ _ _ _ Ew).
  split; [exact Ew|]. split; [|exact H]. unfold or_unix_error.
  destruct ok; [by rewrite Z.eqb_refl|]. by destruct (Z.eqb_spec (-1) n); [lia|].
Qed.

(** Interrupted without end it never returns: while every call so far was
    interrupted, each is followed by another. *)
Corollary rio_writen_endless usrbuf s m rest :
  usrbuf <> [] -> schedule s = replicate m (Error EINTR) ++ rest ->
  exists r s' used, rio_writen usrbuf (Z.of_nat (length usrbuf)) s = Ret r s' /\
    schedule s = used ++ schedule s' /\ ((m <= length used)%nat).
Proof.
  intros Hb Hs.
  destruct (rio_writen_loop_ok (rounds (Z.of_nat (length usrbuf)) s) (Z.of_nat (length usrbuf))
    (Z.of_nat (length usrbuf)) usrbuf s) as (ok & used & out & s' & E & Es & _ & _ & Hu & Hr);
    [done|unfold rounds; lia|].
  exists (if ok then Z.of_nat (length usrbuf) else -1), s', used. split; [exact E|]. split; [done|].
  destruct (Nat.le_gt_cases m (length used)) as [|Hlt]; [done|exfalso].
  assert (Hused : used = replicate (length used) (Error EINTR)).
  { rewrite Hs in Es. apply (f_equal (take (length used))) in Es.
    rewrite take_app_length, take_app_le, take_replicate in Es by (rewrite length_replicate; lia).
    rewrite <- Es at 1. f_equal. lia. }
  assert (Hg : forall k err, gives_up err (replicate k (Error EINTR)) = None).
  { induction k as [|k IH]; intros; [done|]. simpl. by rewrite IH. }
  assert (Hm : forall k, moved (replicate k (Error EINTR)) = O) by (by induction k).
  rewrite Hused, Hg, Hm in Hr.
  destruct ok; [|by destruct Hr]. destruct Hr as (_ & _ & [Hr|Hr]).
  - rewrite Hr, app_nil_r in Es. rewrite <- Es, Hs, length_app, length_replicate in Hlt. lia.
  - destruct usrbuf; [done|simpl in Hr; lia].
Qed.

(** Reading gives the next bytes of the stream.  Unbuffered and buffered
    reads of [n] bytes end when the calls of [read] are interrupted finitely
    often, however they are split; without an error other than [EINTR] (and
    without a result of 0 before the end) they return the first [n] bytes, or all
    there are, and leave the rest; otherwise they return -1 or fewer bytes, and no
    byte of the stream is lost or repeated. *)
Theorem rio_reads_stream n s rp :
  0 <= n -> rio_ok rp ->
  (exists r bytes s', rio_readn n s = Ret (r, bytes) s' /\ sent s' = sent s /\
     read_result n r (input s) bytes (input s') (existsb fatal (schedule s) = true)) /\
  (exists r bytes rp', rio_readnb n rp = Ret (r, bytes) rp' /\ rio_ok rp' /\
     read_result n r (stream rp) bytes (stream rp') (will_fail rp)).
Proof.
  intros Hn Hok.
  assert (Hv : forall r l b rest f, read_result n r l b rest f -> (if r =? -1 then -1 else n - n + r) = r).
  { intros r l b rest f _. rewrite Z.sub_diag. destruct (Z.eqb_spec r (-1)); lia. }
  split.
  - destruct (rio_readn_loop_ok (rounds n s) n n [] s) as (r & bytes & s' & E & Hr & Hs);
      [lia|unfold rounds; lia|].
    erewrite Hv in E by done. by exists r, bytes, s'.
  - destruct (rio_readnb_loop_ok (buffered_rounds n rp) n n [] rp) as (r & bytes & rp' & E & Hok' & Hr);
      [done|lia|unfold buffered_rounds, rounds; lia|].
    erewrite Hv in E by done. by exists r, bytes, rp'.
Qed.

(** Reading a line.  Unless a call fails for good ([fatal]), [rio_readlineb]
    stores the first line of the stream, its newline included, cut after
    [maxlen - 1] characters, and a NUL; at the end of the stream it stores nothing
    and returns 0.  The value returned is the length of a line that ends in a
    newline, but one more than the number of characters for a line cut short or
    ended by the end of the stream. *)
Theorem rio_readlineb_line maxlen rp :
  rio_ok rp -> ~ will_fail rp -> 2 <= maxlen ->
  let line := first_line (Z.to_nat (maxlen - 1)) (stream rp) in
  exists rp', rio_ok rp' /\ stream rp' = drop (length line) (stream rp) /\
    rio_readlineb maxlen rp =
      if bool_decide (stream rp = []) then Ret (0, []) rp'
      else Ret (Z.of_nat (length line) + b2z (negb (ends_line line)), line ++ [0]) rp'.
Proof.
  intros Hok Hnf Hm line.
  destruct (rio_readlineb_loop_ok (Z.to_nat (maxlen - 1)) 1 [] rp) as (rp' & Hok' & Hs & E); [done..|].
  exists rp'. split; [done|]. split; [done|]. unfold rio_readlineb. rewrite E.
  rewrite (bool_decide_true (Z.to_nat _ <> O)) by lia. rewrite andb_true_r. change (1 =? 1) with true.
  simpl andb. case_bool_decide; [done|]. fold line. f_equal. f_equal.
  destruct (ends_line line); simpl; lia.
Qed.

(** ** Witnesses *)

(** A connection that delivers "OK", newline, "+" in pieces. *)
Definition piecewise : descriptor :=
  Descriptor [Error 4; Transfer 0; Transfer 5; Error 4] [79; 75; 10; 43] [] 0.
Definition rio_new : rio_t := rio_readinitb (replicate (Z.to_nat RIO_BUFSIZE) 0) piecewise.

Lemma rio_new_ok : rio_ok rio_new.
Proof. apply rio_ok_empty; [vm_compute; reflexivity|done]. Qed.

Lemma rio_reads_stream_witness :
  exists r bytes s', rio_readn 3 piecewise = Ret (r, bytes) s' /\ bytes ++ input s' = [79; 75; 10; 43].
Proof.
  destruct (rio_reads_stream 3 piecewise rio_new ltac:(lia) rio_new_ok)
    as [(r & bytes & s' & H1 & _ & H2 & _) _].
  exists r, bytes, s'. exact (conj H1 H2).
Defined.

Lemma rio_readlineb_line_witness :
  exists rp', rio_readlineb 80 rio_new = Ret (3, [79; 75; 10; 0]) rp' /\ stream rp' = [43].
Proof.
  destruct (rio_readlineb_line 80 rio_new rio_new_ok) as (rp' & _ & H1 & H2).
  - unfold will_fail. simpl. discriminate.
  - lia.
  - exists rp'. split; [exact H2|exact H1].
Defined.
