(* ===== verification/Scanner.v ===== *)
(** * [scanner.l]: the scanner of the connection to gdb

    The scanner that flex generates is not in the repository; its behaviour is
    that of the rules: the longest match wins and, among matches of the same
    length, the first rule; a character no rule matches (the newline) is copied
    to standard output.  The characters of a connection, up to its end, are a
    list; [lex] cuts it into tokens and [yylex] runs their actions.  In the debug
    messages [__FILE__] is [scanner.l], from flex's [#line] directives, and
    [__LINE__] the line of the macro's name. *)
From S2P Require Import Prelude CInt Constants Memory Registers Format Trace Core CoreFacts Exception Branch Shifter DataProcessing LoadStore Safety Instruction CString Debug DebugMessages GdbProtocol.
From Stdlib Require Import Ascii.

#[local] Open Scope string_scope.
#[local] Open Scope Z_scope.

Definition MAX_ERROR_SIZE : Z := 1024.

Record parser_data : Type := Parser {
  gdb : gdb_protocol_data;
  buffer : list Z;
  err_len : Z;                    (* len *)
}.

Definition set_gdb g p := Parser g (buffer p) (err_len p).
Definition set_buffer b p := Parser (gdb p) b (err_len p).
Definition set_err_len n p := Parser (gdb p) (buffer p) n.

Definition gdb_lens : lens parser_data gdb_protocol_data := Lens gdb set_gdb.
Definition buffer_lens : lens parser_data (list Z) := Lens buffer set_buffer.

#[export] Instance gdb_lens_laws : LensLaws gdb_lens.
Proof. split; [by intros ? []|by intros []|by intros ? ? []]. Qed.
#[export] Instance buffer_lens_laws : LensLaws buffer_lens.
Proof. split; [by intros ? []|by intros []|by intros ? ? []]. Qed.

(** ** Tokens *)

Inductive token : Type :=
| TPlus
| TMinus
| TPacket (text : list Z)
| TChar (c : Z)          (** the rule [.] *)
| TEcho (c : Z).         (** no rule *)

#[export] Instance token_eq_dec : EqDecision token.
Proof. solve_decision. Defined.

Definition is_hex (c : Z) : bool := bool_decide (is_Some (hex_value c)).

(** How many characters [[^$#]*"#"{HEX}{HEX}] matches. *)
Fixpoint packet_end (s : list Z) : option nat :=
  match s with
  | [] => None
  | c :: s' =>
      if c =? 36 then None
      else if c =? 35 then
        match s' with
        | a :: b :: _ => if is_hex a && is_hex b then Some 3%nat else None
        | _ => None
        end
      else S <$> packet_end s'
  end.

Definition next_token (c : Z) (s : list Z) : token * list Z :=
  if c =? 43 then (TPlus, s) else
  if c =? 45 then (TMinus, s) else
  if c =? 10 then (TEcho c, s) else
  if c =? 36 then
    match packet_end s with
    | Some n => (TPacket (c :: take n s), drop n s)
    | None => (TChar c, s)
    end
  else (TChar c, s).

(** Every token takes at least one character, so that [length s] tokens are
    enough. *)
Fixpoint lex (fuel : nat) (s : list Z) : list token :=
  match fuel, s with
  | S fuel', c :: s' => let '(t, rest) := next_token c s' in t :: lex fuel' rest
  | _, _ => []
  end.

(** ** Actions *)

Section actions.
Context `{Host} `{Wire}.

Definition in_gdb {A} (c : M gdb_protocol_data A) : M parser_data A := zoom gdb_lens c.

(** The macro [debug] in this file. *)
Definition scanner_file : string := "scanner.l".
Definition scanner_debug (line : Z) (args : M gdb_protocol_data (list Z)) : M gdb_protocol_data unit :=
  debug false log_lens scanner_file line args.

Definition handle_error : M parser_data unit :=
  let! n := gets err_len in
  when (nz n)
    (zoom buffer_lens (cell_write n 0) ;;;
     let! b := gets buffer in
     in_gdb (scanner_debug 43
       (let! s := cstring b in
        ret (chars "gdb protocol error, invalid data : " ++ s ++
             chars (", requiring retransmission" +:+ newline))%list)) ;;;
     in_gdb gdb_require_retransmission ;;;
     modify (set_err_len 0)).

Definition add_character_to_error (c : Z) : M parser_data unit :=
  let! n := gets err_len in
  when (MAX_ERROR_SIZE - 2 <? n) handle_error ;;;
  let! n := gets err_len in
  zoom buffer_lens (cell_write n c) ;;;
  modify (set_err_len (n + 1)).

(** The actions; [fuel] bounds the rounds of the continue command. *)
Definition action (fuel : nat) (t : token) : M parser_data unit :=
  match t with
  | TPlus =>
      handle_error ;;; in_gdb (scanner_debug 61 (ret (chars ("Received ack" +:+ newline))))
  | TMinus =>
      handle_error ;;;
      in_gdb (scanner_debug 64 (ret (chars ("Received request for retransmission" +:+ newline))) ;;;
              gdb_transmit_packet)
  | TPacket text => handle_error ;;; in_gdb (gdb_packet_analysis fuel text)
  | TChar c => add_character_to_error c
  | TEcho c => in_gdb (in_machine (in_trace (printf (String (ascii_of_N (Z.to_N c)) ""))))
  end.

Fixpoint run_tokens (fuel : nat) (ts : list token) : M parser_data unit :=
  match ts with
  | [] => ret tt
  | t :: ts' => action fuel t ;;; run_tokens fuel ts'
  end.

Definition yylex (fuel : nat) (s : list Z) : M parser_data unit :=
  run_tokens fuel (lex (length s) s) ;;; handle_error.

(** [gdb_scanner]: [packet_block] and [buffer_block] are what the blocks of
    [gdb_init_data] and of the local [data] hold before; [m] has what was printed until
    now; [failed] is the text of [errno] if [fdopen] fails, which [perror] prints. *)
Definition gdb_scanner (fuel : nat) (packet_block buffer_block : list Z) (failed : option string)
    (input : list Z) (m : messages) (s : machine) : res parser_data unit :=
  let data := Parser (gdb_init_data s packet_block m) buffer_block 0 in
  match failed with
  | None => yylex fuel input data
  | Some error =>
      in_gdb (zoom log_lens (print_err
        (chars ("Cannot open input stream from gdb: " +:+ error +:+ newline)))) data
  end.
End actions.

(** ** Lemmas *)

Definition text (t : token) : list Z :=
  match t with
  | TPlus => [43]
  | TMinus => [45]
  | TPacket s => s
  | TChar c => [c]
  | TEcho c => [c]
  end.

(** The tokens whose text determines them, whatever comes next. *)
Definition plain (t : token) : Prop :=
  match t with
  | TPlus | TMinus => True
  | TPacket s => exists body a b, s = (36 :: body ++ [35; a; b])%list /\
      Forall (fun c => c <> 35 /\ c <> 36) body /\ is_hex a = true /\ is_hex b = true
  | TChar c => c <> 43 /\ c <> 45 /\ c <> 10 /\ c <> 36
  | TEcho c => c = 10
  end.

Lemma packet_end_body body a b rest :
  Forall (fun c => c <> 35 /\ c <> 36) body -> is_hex a = true -> is_hex b = true ->
  packet_end (body ++ [35; a; b] ++ rest)%list = Some (length body + 3)%nat.
Proof.
  intros Hb Ha Hb'. induction Hb as [|c body [H1 H2] _ IH]; simpl.
  - by rewrite Ha, Hb'.
  - rewrite (proj2 (Z.eqb_neq c 36)), (proj2 (Z.eqb_neq c 35)) by done.
    simpl in IH. by rewrite IH.
Qed.

Lemma next_token_plain t c s rest :
  plain t -> text t = c :: s -> next_token c (s ++ rest) = (t, rest).
Proof.
  destruct t as [| |txt|x|x]; simpl; intros Hp E.
  1,2: by injection E as <- <-.
  - destruct Hp as (body & a & b & -> & Hb & Ha & Hb'). injection E as <- <-.
    unfold next_token. simpl. rewrite <- app_assoc, packet_end_body by done.
    rewrite app_assoc. replace (length body + 3)%nat with (length (body ++ [35; a; b])%list)
      by (rewrite length_app; simpl; lia).
    by rewrite take_app_length, drop_app_length.
  - injection E as <- <-. unfold next_token.
    by rewrite !(proj2 (Z.eqb_neq _ _)) by tauto.
  - injection E as <- <-. by subst.
Qed.

Lemma text_nonempty t : plain t -> exists c s, text t = c :: s.
Proof. destruct t; simpl; eauto. intros (? & ? & ? & -> & _). eauto. Qed.

Lemma lex_plain ts fuel :
  Forall plain ts -> (length (concat (text <$> ts)) <= fuel)%nat ->
  lex fuel (concat (text <$> ts)) = ts.
Proof.
  intros Hts. revert fuel. induction Hts as [|t ts Ht _ IH]; intros fuel Hf; [by destruct fuel|].
  destruct (text_nonempty t Ht) as (c & s & E). simpl in *. rewrite E in *. simpl in *.
  destruct fuel as [|fuel]; [lia|]. cbn [lex]. rewrite (next_token_plain t c s _ Ht E).
  f_equal. change (list_fmap token (list Z) text ts) with (text <$> ts) in *.
  apply IH. rewrite length_app in Hf. lia.
Qed.

Lemma packet_end_le s n : packet_end s = Some n -> (n <= length s)%nat.
Proof.
  revert n. induction s as [|c s IH]; simpl; [done|]. intros n.
  destruct (c =? 36); [done|]. destruct (c =? 35).
  - destruct s as [|a [|b s]]; try done. case_match; [|done]. intros [= <-]. simpl. lia.
  - destruct (packet_end s) as [k|]; [|done]. intros [= <-]. specialize (IH k eq_refl). lia.
Qed.

Lemma next_token_text c s t rest :
  next_token c s = (t, rest) -> (text t ++ rest)%list = c :: s /\ (length rest <= length s)%nat.
Proof.
  unfold next_token. repeat case_match; intros [= <- <-]; simpl;
    repeat match goal with E : (_ =? _) = true |- _ => apply Z.eqb_eq in E; subst end;
    rewrite ?take_drop, ?length_drop; split; done || lia.
Qed.

Lemma lex_text s fuel : (length s <= fuel)%nat -> concat (text <$> lex fuel s) = s.
Proof.
  revert s. induction fuel as [|fuel IH]; intros [|c s] Hf; simpl in *; try done; try lia.
  destruct (next_token c s) as [t rest] eqn:E. apply next_token_text in E as [E Hl].
  simpl. rewrite IH by lia. done.
Qed.

Section properties.
Context `{Host} `{Wire}.

Lemma handle_error_none p : err_len p = 0 -> handle_error p = Ret tt p.
Proof. intros E. unfold handle_error. rewrite (bind_ret _ _ p 0 p) by (by rewrite <- E). done. Qed.

(** [g] after the debug message [text] of the scanner. *)
Definition scanner_tell (text : list Z) (g : gdb_protocol_data) : gdb_protocol_data :=
  set_log (said scanner_file text (log g)) g.

Lemma scanner_debug_q line args text g :
  log_ok (log g) -> (selected (log g) scanner_file = true -> args g = Ret text g) ->
  scanner_debug line args g = Ret tt (scanner_tell (debug_head scanner_file line ++ text) g).
Proof. intros Hl Ha. by apply (debug_said log_lens). Qed.

Lemma gdb_ok_scanner_tell text g : gdb_ok g -> gdb_ok (scanner_tell text g).
Proof. intros (? & ? & ? & ?). split_and!; try done. by apply log_ok_said. Qed.

(** What is printed of the characters in the error buffer. *)
Definition invalid_data (b : list Z) : list Z :=
  debug_head scanner_file 43 ++ chars "gdb protocol error, invalid data : " ++ default [] (until_nul b) ++
  chars (", requiring retransmission" +:+ newline).

Lemma handle_error_some p :
  gdb_ok (gdb p) -> 0 < err_len p < Z.of_nat (length (buffer p)) ->
  handle_error p =
    let b := aset (buffer p) (err_len p) 0 in
    Ret tt (Parser (set_fd (fd (gdb p) ++ [chars "-"])%list (scanner_tell (invalid_data b) (gdb p))) b 0).
Proof.
  intros Hg Hn. cbv zeta. unfold handle_error. rewrite (bind_ret _ _ p (err_len p) p) by done.
  assert (nz (err_len p) = true) as -> by (unfold nz; by rewrite (proj2 (Z.eqb_neq _ 0)) by lia).
  cbv beta iota delta [when].
  set (b := aset (buffer p) (err_len p) 0). set (p1 := set_buffer b p).
  rewrite (bind_ret _ _ p tt p1); cycle 1.
  { apply (zoom_ret buffer_lens), cell_write_ret. simpl. lia. }
  rewrite (bind_ret _ _ p1 b p1) by done.
  destruct (until_nul_at b (err_len p)) as [s Es]; [unfold b; apply aget_aset_eq; lia|].
  set (g1 := scanner_tell (invalid_data b) (gdb p)).
  rewrite (bind_ret _ _ p1 tt (set_gdb g1 p1)); cycle 1.
  { apply (zoom_ret gdb_lens). apply scanner_debug_q; [exact (gdb_log _ Hg)|]. intros _.
    unfold cstring. by rewrite Es. }
  assert (Hg1 : gdb_ok g1) by by apply gdb_ok_scanner_tell.
  unfold in_gdb, gdb_require_retransmission.
  rewrite (bind_ret _ _ _ _ _ (zoom_ret gdb_lens _ (set_gdb g1 p1) _ _ (Rio_writen_q g1 (chars "-") Hg1 ltac:(done)))).
  done.
Qed.

Lemma run_tokens_app fuel ts ts' p :
  run_tokens fuel (ts ++ ts') p = (run_tokens fuel ts ;;; run_tokens fuel ts') p.
Proof.
  revert p. induction ts as [|t ts IH]; intros p; simpl; [done|].
  unfold bind in *. destruct (action fuel t p); [apply IH|done..].
Qed.

(** What gdb sends: acknowledgements, requests to send again, and commands. *)
Inductive message : Type :=
| Ack
| Nack
| Command (s : list Z).

Definition encode (x : message) : list Z :=
  match x with Ack => [43] | Nack => [45] | Command s => frame s end.

Definition message_ok (x : message) : Prop :=
  match x with Command s => Forall (fun c => c <> 35 /\ c <> 36) s | _ => True end.

Definition obey (fuel : nat) (x : message) : M gdb_protocol_data unit :=
  match x with
  | Ack => scanner_debug 61 (ret (chars ("Received ack" +:+ newline)))
  | Nack =>
      scanner_debug 64 (ret (chars ("Received request for retransmission" +:+ newline))) ;;;
      gdb_transmit_packet
  | Command s => gdb_packet_analysis fuel (frame s)
  end.

Fixpoint obey_all (fuel : nat) (xs : list message) : M gdb_protocol_data unit :=
  match xs with
  | [] => ret tt
  | x :: xs' => obey fuel x ;;; obey_all fuel xs'
  end.

Definition token_of (x : message) : token :=
  match x with Ack => TPlus | Nack => TMinus | Command s => TPacket (frame s) end.

Lemma is_hex_char d : 0 <= d < 16 -> is_hex (hex_char d) = true.
Proof. intros. unfold is_hex. rewrite hex_value_char by done. by apply bool_decide_true. Qed.

Lemma token_of_plain x : message_ok x -> plain (token_of x).
Proof.
  destruct x as [| |s]; simpl; try done. intros Hs.
  pose proof (checksum_range s) as Hc. unfold is_u8 in Hc.
  exists s, (hex_char (checksum s / 16)), (hex_char (checksum s mod 16)).
  split_and!; [done..| |]; apply is_hex_char; Z.div_mod_to_equations; lia.
Qed.

Lemma text_token_of x : text (token_of x) = encode x.
Proof. by destruct x. Qed.

Lemma run_obey fuel xs p :
  err_len p = 0 ->
  run_tokens fuel (token_of <$> xs) p = in_gdb (obey_all fuel xs) p.
Proof.
  revert p. induction xs as [|x xs IH]; intros p E0; simpl; [by destruct p|].
  assert (Ea : action fuel (token_of x) p = in_gdb (obey fuel x) p).
  { destruct x; simpl; by rewrite (bind_ret _ _ _ _ _ (handle_error_none p E0)). }
  unfold in_gdb, zoom, bind in *. rewrite Ea. cbn [lget gdb_lens].
  destruct (obey fuel x (gdb p)) as [[] g| | |]; try done.
  rewrite IH by done. simpl. by destruct (obey_all fuel xs g).
Qed.

(** The state after [n] stray characters. *)
Record strayed (g : gdb_protocol_data) (n : Z) (p : parser_data) : Prop := {
  st_gdb : exists k : nat, 1023 * Z.of_nat k + err_len p = n /\
           exists m, files m = files (log g) /\
             gdb p = set_log m (set_fd (fd g ++ replicate k (chars "-"))%list g);
  st_len : 0 <= err_len p <= 1023;
  st_zero : err_len p = 0 -> n = 0;
  st_buffer : length (buffer p) = 1024%nat;
}.

Lemma gdb_ok_fd g w m : gdb_ok g -> files m = files (log g) -> gdb_ok (set_log m (set_fd w g)).
Proof. intros (? & ? & ? & [l Hl]) Em. split_and!; try done. exists l. simpl. by rewrite Em. Qed.

Lemma write_buffer p n c :
  0 <= n < Z.of_nat (length (buffer p)) ->
  zoom buffer_lens (cell_write n c) p = Ret tt (set_buffer (aset (buffer p) n c) p).
Proof. intros. by apply (zoom_ret buffer_lens), cell_write_ret. Qed.

Lemma stray_step g n p c :
  gdb_ok g -> strayed g n p ->
  exists p', add_character_to_error c p = Ret tt p' /\ strayed g (n + 1) p'.
Proof.
  intros Hg [(k & Hk & m & Em & Eg) Hl Hz Hb]. unfold add_character_to_error.
  rewrite (bind_ret _ _ p (err_len p) p) by done.
  destruct (Z.ltb_spec (MAX_ERROR_SIZE - 2) (err_len p)) as [Hfull|Hfull];
    unfold MAX_ERROR_SIZE in Hfull; cbv beta iota delta [when].
  - rewrite (bind_ret _ _ _ _ _ (handle_error_some p ltac:(rewrite Eg; by apply gdb_ok_fd) ltac:(lia))).
    set (p1 := Parser _ _ _). rewrite (bind_ret _ _ p1 0 p1) by done.
    rewrite (bind_ret _ _ _ _ _ (write_buffer p1 0 c ltac:(simpl; rewrite length_aset; lia))).
    eexists. split; [reflexivity|]. split; simpl; rewrite ?length_aset; try lia.
    exists (S k). split; [lia|]. eexists. split; [|rewrite Eg; unfold set_fd, scanner_tell, set_log; simpl;
      by rewrite <- app_assoc, <- (replicate_cons_app k)]. by rewrite files_said.
  - rewrite (bind_ret _ _ p tt p) by done. rewrite (bind_ret _ _ p (err_len p) p) by done.
    rewrite (bind_ret _ _ _ _ _ (write_buffer p (err_len p) c ltac:(lia))).
    eexists. split; [reflexivity|]. split; simpl; rewrite ?length_aset; try lia.
    exists k. split; [lia|]. by exists m.
Qed.

Lemma stray_run g fuel cs n p :
  gdb_ok g -> strayed g n p -> 0 <= n ->
  exists p', run_tokens fuel (TChar <$> cs) p = Ret tt p' /\
    strayed g (n + Z.of_nat (length cs)) p'.
Proof.
  intros Hg. revert n p. induction cs as [|c cs IH]; intros n p Hp Hn; simpl.
  { exists p. by rewrite Z.add_0_r. }
  destruct (stray_step g n p c Hg Hp) as (p1 & E1 & Hp1). rewrite (bind_ret _ _ _ _ _ E1).
  destruct (IH (n + 1) p1 Hp1) as (p' & E' & Hp'); [lia|]. exists p'. split; [done|].
  by replace (n + Z.of_nat (S (length cs))) with (n + 1 + Z.of_nat (length cs)) by lia.
Qed.

(** The scanner cuts its input into tokens without losing a character, and
    a sequence of acknowledgements, packets and stray characters other than [$]
    is recovered exactly from its text, also when stray characters come between
    packets. *)
Theorem scanner_tokens s ts :
  concat (text <$> lex (length s) s) = s /\
  (Forall plain ts -> let s := concat (text <$> ts) in lex (length s) s = ts).
Proof. split; [by apply lex_text|]. intros Hts. by apply lex_plain. Qed.

Lemma yylex_session fuel xs p :
  Forall message_ok xs -> err_len p = 0 ->
  yylex fuel (concat (encode <$> xs)) p = in_gdb (obey_all fuel xs) p.
Proof.
  intros Hxs E0. unfold yylex.
  replace (concat (encode <$> xs)) with (concat (text <$> (token_of <$> xs))); cycle 1.
  { f_equal. rewrite <- list_fmap_compose. apply list_fmap_ext. intros. apply text_token_of. }
  rewrite lex_plain; [|by apply Forall_fmap; eapply Forall_impl; [|apply token_of_plain]|done].
  unfold bind. rewrite run_obey by done. unfold in_gdb, zoom.
  destruct (obey_all fuel xs (lget gdb_lens p)) as [[] g| | |]; try done.
  by apply handle_error_none.
Qed.

(** C36: A session.  On the characters of a sequence of gdb's messages, the
    scanner has the server obey each message in order, each command through the
    analysis of its packet, and does nothing else. *)
Theorem scanner_session fuel xs p :
  Forall message_ok xs -> err_len p = 0 ->
  yylex fuel (concat (encode <$> xs)) p = in_gdb (obey_all fuel xs) p.
Proof. apply yylex_session. Qed.

(** Stray characters.  Input without packets never overruns the error
    buffer: [n] stray characters are answered with a request to send again for
    every 1023 of them, begun groups included, and change neither the processor
    nor the memory. *)
Theorem scanner_stray fuel cs g buf :
  gdb_ok g -> length buf = 1024%nat ->
  Forall (fun c => c <> 43 /\ c <> 45 /\ c <> 10 /\ c <> 36) cs ->
  exists p m, yylex fuel cs (Parser g buf 0) = Ret tt p /\ err_len p = 0 /\
    gdb p = set_log m (set_fd (fd g ++
      replicate (Z.to_nat ((Z.of_nat (length cs) + 1022) / 1023)) (chars "-"))%list g).
Proof.
  intros Hg Hb Hcs. unfold yylex.
  assert (El : lex (length cs) cs = TChar <$> cs).
  { assert (Ec : concat (text <$> (TChar <$> cs)) = cs).
    { clear. induction cs as [|c cs IH]; [done|]. simpl. by f_equal. }
    rewrite <- Ec at 1 2. apply lex_plain; [by apply Forall_fmap|done]. }
  rewrite El.
  destruct (stray_run g fuel cs 0 (Parser g buf 0) Hg) as (p & E & [(k & Hk & m & Em & Eg) Hl Hz Hb']); [|done|].
  { split; [|simpl; lia|done|done]. exists O. split; [done|]. exists (log g). split; [done|]. simpl.
    rewrite app_nil_r. by destruct g. }
  rewrite (bind_ret _ _ _ _ _ E). destruct (Z.eq_dec (err_len p) 0) as [E0|E0].
  - rewrite handle_error_none by done. exists p, m. split; [done|]. split; [done|].
    specialize (Hz E0). assert (k = O) as -> by lia. rewrite Eg.
    replace (Z.of_nat (length cs)) with 0 by lia. done.
  - rewrite handle_error_some; [|rewrite Eg; by apply gdb_ok_fd|lia]. eexists _, _. split; [reflexivity|].
    split; [done|]. simpl. rewrite Eg. unfold set_fd, scanner_tell, set_log. simpl.
    replace (Z.to_nat ((Z.of_nat (length cs) + 1022) / 1023)) with (S k)
      by (Z.div_mod_to_equations; lia).
    by rewrite <- app_assoc, <- (replicate_cons_app k).
Qed.
End properties.

(** ** Witnesses *)

#[local] Existing Instance wire_up.

Definition parser_ex : parser_data := Parser gdb_ex (replicate 1024 0) 0.

Lemma scanner_tokens_witness :
  lex 7 (concat (text <$> [TPlus; TChar 63; TPacket (chars "$?#3f")])) =
    [TPlus; TChar 63; TPacket (chars "$?#3f")].
Proof.
  apply (scanner_tokens [] [TPlus; TChar 63; TPacket (chars "$?#3f")]).
  repeat constructor; try done.
  exists [63], 51, 102. repeat split; try reflexivity. repeat constructor; done.
Defined.

(** "+$?#3f" is answered with "+" and "$S05#b8". *)
Lemma scanner_session_witness :
  exists p, yylex (H := host0) 0 (chars "+$?#3f") parser_ex = Ret tt p /\
    fd (gdb p) = [chars "+"; chars "$S05#b8"].
Proof.
  eexists. split.
  - refine (eq_trans (scanner_session (H := host0) 0 [Ack; Command [63]] parser_ex _ eq_refl) _).
    + repeat constructor; done.
    + vm_compute. reflexivity.
  - vm_compute. reflexivity.
Defined.

Lemma scanner_stray_witness :
  exists p, yylex (H := host0) 0 (chars "garbage") parser_ex = Ret tt p /\
    fd (gdb p) = [chars "-"].
Proof.
  destruct (scanner_stray (H := host0) 0 (chars "garbage") gdb_ex (replicate 1024 0) gdb_ex_ok eq_refl)
    as (p & m & H1 & _ & H2).
  - repeat constructor; done.
  - exists p. split; [exact H1|]. rewrite H2. reflexivity.
Defined.
