(* ===== verification/Session.v ===== *)
(** * What the network can do to the simulated machine

    [kept I c Q]: whenever [c] returns from a state in [I], the value is in [Q]
    and the state is in [I] again.  The invariant is that the machine is well
    formed.  Every handler of [gdb_protocol.c] keeps it, hence so does the
    scanner on any input at all.  That they do return is in [SessionSafety]. *)
From S2P Require Import Prelude CInt Constants Memory Registers Format Trace Core CoreFacts Exception Branch Shifter DataProcessing LoadStore Safety Instruction CString Debug DebugMessages GdbProtocol Scanner.

#[local] Open Scope string_scope.
#[local] Open Scope Z_scope.

(** ** Rules *)

Section rules.
Context {S : Type} (I : S -> Prop).

Definition kept {A} (c : M S A) (Q : A -> Prop) : Prop :=
  forall s x s', I s -> c s = Ret x s' -> Q x /\ I s'.

Definition any {A} (x : A) : Prop := True.

Lemma kept_ret {A} (x : A) (Q : A -> Prop) : Q x -> kept (ret x) Q.
Proof. intros HQ s y s' Hs [= <- <-]. done. Qed.

Lemma kept_bind {A B} (c : M S A) (f : A -> M S B) P Q :
  kept c P -> (forall x, P x -> kept (f x) Q) -> kept (bind c f) Q.
Proof.
  intros Hc Hf s y s' Hs (x & s1 & E1 & E2)%bind_inv.
  destruct (Hc _ _ _ Hs E1) as [HP Hs1]. by eapply (Hf x HP).
Qed.

Lemma kept_seq {A B} (c : M S A) (f : A -> M S B) Q :
  kept c any -> (forall x, kept (f x) Q) -> kept (bind c f) Q.
Proof. intros Hc Hf. by apply (kept_bind _ _ any). Qed.

Lemma kept_if {A} (b : bool) (c1 c2 : M S A) Q : kept c1 Q -> kept c2 Q -> kept (if b then c1 else c2) Q.
Proof. by destruct b. Qed.

Lemma kept_when b (c : M S unit) : kept c any -> kept (when b c) any.
Proof. intros. apply kept_if; [done|by apply kept_ret]. Qed.

Lemma kept_undef {A} u (Q : A -> Prop) : kept (undef u) Q.
Proof. by intros s x s' _ [=]. Qed.
Lemma kept_exit {A} code (Q : A -> Prop) : kept (c_exit code) Q.
Proof. by intros s x s' _ [=]. Qed.
Lemma kept_assert b : kept (c_assert b) any.
Proof. intros s x s' Hs. unfold c_assert. destruct b; [|done]. by intros [= <- <-]. Qed.

Lemma kept_gets {A} (f : S -> A) : kept (gets f) any.
Proof. by intros s x s' Hs [= <- <-]. Qed.

Lemma kept_modify f : (forall s, I s -> I (f s)) -> kept (modify f) any.
Proof. intros Hf s x s' Hs [= <- <-]. split; [done|by apply Hf]. Qed.

Lemma kept_weaken {A} (c : M S A) (P Q : A -> Prop) : (forall x, P x -> Q x) -> kept c P -> kept c Q.
Proof. intros HPQ Hc s x s' Hs E. destruct (Hc _ _ _ Hs E). auto. Qed.

Lemma kept_any {A} (c : M S A) (P : A -> Prop) : kept c P -> kept c any.
Proof. by apply kept_weaken. Qed.

Lemma kept_for {A B} (l : list A) (f : A -> B -> M S B) (P : B -> Prop) b :
  P b -> (forall x y, In x l -> P y -> kept (f x y) P) -> kept (for_each l f b) P.
Proof.
  revert b. induction l as [|x l IH]; intros b Hb Hf; simpl; [by apply kept_ret|].
  apply kept_bind with P; [apply Hf; [by left|done]|]. intros b' Hb'. apply IH; [done|].
  intros. apply Hf; [by right|done].
Qed.
End rules.

(** A component's operation, when the invariant is about the component, and when
    it is not. *)
Lemma kept_zoom {S T A} (l : lens S T) `{!LensLaws l} (I : T -> Prop) (c : M T A) Q :
  kept I c Q -> kept (fun s => I (lget l s)) (zoom l c) Q.
Proof.
  intros Hc s x s' Hs (t & E & ->)%zoom_inv. rewrite lget_lset. by eapply Hc.
Qed.

Lemma kept_zoom_other {S T A} (l : lens S T) (I : S -> Prop) (c : M T A) :
  (forall t s, I s -> I (lset l t s)) -> kept I (zoom l c) any.
Proof. intros Hl s x s' Hs (t & E & ->)%zoom_inv. split; [done|by apply Hl]. Qed.

(** ** The machine *)

Section machine.
Context `{Host} (room : Z).

Definition sound (s : machine) : Prop := machine_ok s /\ mem_roomy room (mem s).

Lemma kept_safe {A} (c : M machine A) Q : safe room c Q -> transparent 2 c -> kept sound c Q.
Proof.
  intros Hs Ht s x s' [Hok Hm] E.
  destruct (safe_run _ _ _ s Hs Ht Hok Hm) as [(y & s1 & E1 & ? & ? & ?)|[(s1 & E1)|[E1 _]]];
    rewrite E in E1; [|done..]. injection E1 as <- <-. by split.
Qed.

Lemma kept_read_register r f line :
  0 <= r < 16 -> kept sound (at_line f line (arm_read_register r)) is_u32.
Proof.
  intros. apply kept_safe; [by apply safe_at_line, safe_read_register|].
  apply transparent_at_line; auto using transparent_read_register with lia.
Qed.

Lemma kept_write_register r v f line :
  0 <= r < 16 -> is_u32 v -> kept sound (at_line f line (arm_write_register r v)) any.
Proof.
  intros. apply kept_safe; [by apply safe_at_line, safe_write_register|].
  apply transparent_at_line; auto using transparent_write_register with lia.
Qed.

Lemma kept_read_word a v f line :
  is_u32 a -> is_u32 v -> kept sound (at_line f line (arm_read_word a v)) (fun rv => is_u32 rv.2).
Proof.
  intros. apply kept_safe; [|apply transparent_at_line; auto using transparent_read_word with lia].
  eapply safe_weaken; [|by apply safe_at_line, safe_read_word]. by intros rv [? _].
Qed.

Lemma kept_read_cpsr f line : kept sound (at_line f line arm_read_cpsr) is_u32.
Proof.
  apply kept_safe; [|apply transparent_at_line; auto using transparent_read_cpsr with lia].
  apply safe_at_line, (safe_eq _ _ _ (fun s => cpsr_of (regs s)) id).
  intros s Hs. split; [by apply arm_read_cpsr_q; apply Hs|]. split; [|done].
  destruct Hs as (_ & Hr & _). auto with crange.
Qed.

Lemma kept_write_cpsr v f line : is_u32 v -> kept sound (at_line f line (arm_write_cpsr v)) any.
Proof.
  intros. apply kept_safe; [|apply transparent_at_line; auto using transparent_write_cpsr with lia].
  apply safe_at_line, (safe_eq _ _ _ (fun _ => tt) (upd_cpsr v)).
  intros s (Hq & Hg & Hm & Hc). split; [by apply arm_write_cpsr_q|]. split; [done|].
  split_and!; auto with crange; apply Hm.
Qed.

Lemma kept_uninit : kept sound uninit32 is_u32.
Proof. apply kept_safe; [apply safe_uninit|]. apply transparent_uninit. Qed.

Lemma kept_step : kept sound arm_step any.
Proof. apply (kept_any _ _ _ (kept_safe _ _ (safe_step room) arm_step_transparent)). Qed.

Lemma kept_exception e : kept sound (arm_exception e) any.
Proof. apply kept_safe; [apply safe_any_exception|apply arm_exception_transparent]. Qed.

Lemma kept_mem_read_byte a v :
  is_u8 v -> kept sound (in_mem (memory_read_byte a v)) (fun rv => is_u8 rv.2).
Proof.
  intros Hv s x s' Hs (mm & E & ->)%zoom_inv. simpl in E. unfold memory_read_byte in E.
  rewrite (bind_ret _ _ _ _ _ (valid_ok (mem s) a)) in E. destruct (size (mem s) <=? a).
  { injection E as <- <-. split; [done|]. by destruct s. }
  apply bind_inv in E as (b & m1 & Eb & E). injection E as <- <-.
  destruct (rd_cases (mem s) a) as [(b' & Eb' & Hb)|Eb']; [apply Hs| |congruence].
  rewrite Eb' in Eb. injection Eb as <- <-. split; [done|]. by destruct s.
Qed.

Lemma kept_mem_write_byte a v : is_u32 a -> kept sound (in_mem (memory_write_byte a v)) any.
Proof.
  intros Ha s x s' [Hok Hm] (mm & E & ->)%zoom_inv. simpl in E. split; [done|].
  assert (Hmm : mem_roomy room mm).
  { unfold is_u32 in Ha. destruct (Z.leb_spec (size (mem s)) a).
    - destruct (memory_invalid (mem s) a v) as (_ & _ & _ & E' & _); [done|]. congruence.
    - rewrite memory_write_byte_ok in E; [|apply Hm|lia]. injection E as _ <-.
      by apply roomy_put_byte. }
  destruct Hok as (? & _ & ? & ?). split; [|done]. split_and!; done || apply Hmm.
Qed.

Lemma kept_mem_size : kept sound (in_mem memory_get_size) any.
Proof.
  intros s x s' Hs (mm & E & ->)%zoom_inv. injection E as <- <-. by destruct s.
Qed.

(** The trace may be switched and written to. *)
Lemma kept_trace {A} (c : M trace_data A) :
  (forall t x t', trace_ok 2 t -> c t = Ret x t' -> trace_ok 2 t') -> kept sound (in_trace c) any.
Proof.
  intros Hc s x s' [(? & ? & ? & Ht) Hm] (t & E & ->)%zoom_inv. split; [done|].
  split; [|done]. split_and!; try done. all: by eapply Hc.
Qed.

Lemma kept_trace_switch : kept sound (in_trace trace_disable) any /\ kept sound (in_trace trace_enable) any.
Proof. by split; apply kept_trace; intros t x t' Ht [= <- <-]. Qed.

Lemma kept_printf str : kept sound (in_trace (printf str)) any.
Proof. apply kept_trace. by intros t x t' Ht [= <- <-]. Qed.

Lemma kept_print str : kept sound (print str) any.
Proof.
  apply kept_trace. intros t x t' Ht E. destruct (fprintf_logs str t) as (t1 & E1 & Hs & _).
  { eapply trace_ok_le; [|done]. lia. }
  rewrite E in E1. injection E1 as _ <-. by eapply trace_ok_step.
Qed.

Lemma kept_arm_read_register r : 0 <= r < 16 -> kept sound (arm_read_register r) any.
Proof.
  intros. eapply kept_any, kept_safe; [by apply safe_read_register|].
  apply transparent_read_register; lia.
Qed.
Lemma kept_arm_read_usr_register r : 0 <= r < 16 -> kept sound (arm_read_usr_register r) any.
Proof.
  intros. eapply kept_any, kept_safe; [by apply safe_read_usr_register|].
  apply transparent_read_usr_register; lia.
Qed.
Lemma kept_arm_read_cpsr : kept sound arm_read_cpsr any.
Proof.
  eapply kept_any, kept_safe; [|apply transparent_read_cpsr; lia].
  apply (safe_eq _ _ is_u32 (fun s => cpsr_of (regs s)) id). intros s Hs.
  split; [by apply arm_read_cpsr_q; apply Hs|]. split; [|done].
  destruct Hs as (_ & Hr & _). auto with crange.
Qed.

Lemma kept_table {A} (l : list A) i : kept sound (table_read l i) any.
Proof. unfold table_read. case_match; [by apply kept_ret|apply kept_undef]. Qed.

Lemma kept_print_mode mode name : kept sound (print_mode mode name) any.
Proof.
  unfold print_mode.
  apply kept_seq; [by apply kept_when, kept_print|]. intros _.
  apply kept_seq.
  { apply (kept_for _ _ _ any); [done|]. intros r y (n & <- & Hn)%in_map_iff _.
    apply in_seq in Hn. unfold print_register. apply kept_seq; [apply kept_table|]. intros rn.
    apply kept_if; (apply kept_seq; [by apply kept_when, kept_print|]; intros _;
      apply kept_seq; [|intros v; apply kept_seq; [apply kept_print|]; intros _; by apply kept_ret]).
    - apply kept_arm_read_usr_register. lia.
    - apply kept_arm_read_register. lia. }
  intros _. apply kept_seq.
  { apply kept_when, kept_seq; [apply kept_arm_read_cpsr|]. intros. apply kept_print. }
  intros _. repeat apply kept_if; try apply kept_print. by apply kept_ret.
Qed.

Lemma kept_trace_arm_state : kept sound trace_arm_state any.
Proof.
  unfold trace_arm_state. apply kept_seq; [apply kept_gets|]. intros e.
  apply kept_seq; [apply kept_gets|]. intros fl. apply kept_when. unfold arm_print_state.
  apply (kept_for _ _ _ any); [done|]. intros mode _ _ _.
  apply kept_seq; [apply kept_table|]. intros [n|]; [apply kept_print_mode|by apply kept_ret].
Qed.
End machine.

(** ** The handlers of the gdb protocol *)

Section handlers.
Context `{Host} `{Wire} (room : Z).

Definition gdb_sound (g : gdb_protocol_data) : Prop := sound room (machine_of g).

Lemma keeps_machine {A} (c : M machine A) Q : kept (sound room) c Q -> kept gdb_sound (in_machine c) Q.
Proof. apply (kept_zoom machine_lens). Qed.

Lemma keeps_packet {A} (c : M (list Z) A) : kept gdb_sound (zoom packet_lens c) any.
Proof. by apply kept_zoom_other. Qed.

Lemma keeps_Rio_writen data : kept gdb_sound (Rio_writen data) any.
Proof.
  unfold Rio_writen. apply kept_seq; [apply kept_gets|]. intros w.
  apply kept_seq; [apply kept_gets|]. intros up.
  apply kept_if; [by apply kept_ret|]. apply kept_if; [by apply kept_modify|apply kept_exit].
Qed.

Lemma keeps_cstring buf : kept gdb_sound (cstring buf) any.
Proof. unfold cstring. case_match; [by apply kept_ret|apply kept_undef]. Qed.

(** The debug messages. *)
Lemma keeps_message {A} file (args : M gdb_protocol_data A) (out : A -> M messages unit) :
  kept gdb_sound args any ->
  kept gdb_sound (let! b := zoom log_lens (is_debugged false file) in
                  when (nz b) (let! x := args in zoom log_lens (out x))) any.
Proof.
  intros Ha. apply kept_seq; [by apply kept_zoom_other|]. intros b. apply kept_when.
  apply kept_seq; [done|]. intros x. by apply kept_zoom_other.
Qed.

Lemma keeps_debug file line args : kept gdb_sound args any -> kept gdb_sound (debug false log_lens file line args) any.
Proof. apply keeps_message. Qed.
Lemma keeps_debug_raw args : kept gdb_sound args any -> kept gdb_sound (gdb_debug_raw args) any.
Proof. apply keeps_message. Qed.
Lemma keeps_debug_raw_binary args : kept gdb_sound args any -> kept gdb_sound (gdb_debug_raw_binary args) any.
Proof. apply (keeps_message gdb_file). Qed.

Lemma keeps_transmit : kept gdb_sound gdb_transmit_packet any.
Proof.
  unfold gdb_transmit_packet. apply kept_seq.
  { apply keeps_debug. apply kept_seq; [apply kept_gets|]. intros p.
    apply kept_seq; [apply keeps_cstring|]. intros s. by apply kept_ret. }
  intros _. do 2 (apply kept_seq; [apply kept_gets|]; intros ?). apply keeps_Rio_writen.
Qed.

(** A constant message, then the rest. *)
Ltac said := apply kept_seq; [first [apply keeps_debug_raw|apply keeps_debug|apply kept_when, keeps_debug_raw]; by apply kept_ret|intros _].

Lemma keeps_sprintf i s : kept gdb_sound (sprintf_at i s) any.
Proof.
  unfold sprintf_at. generalize (s ++ [0])%list as l. intros l. revert i.
  induction l as [|c l IH]; intros i; simpl; [by apply kept_ret|].
  apply kept_seq; [apply keeps_packet|]. auto.
Qed.

Lemma keeps_send_buffer : kept gdb_sound gdb_send_buffer any.
Proof.
  unfold gdb_send_buffer. apply kept_seq; [apply keeps_packet|]. intros _.
  apply kept_seq; [apply kept_gets|]. intros n. apply kept_seq.
  { generalize (S n) as k, 1 as i, 0 as c. induction k as [|k IH]; intros i c; simpl; [apply kept_undef|].
    apply kept_seq; [apply keeps_packet|]. intros x. apply kept_if; [by apply kept_ret|auto]. }
  intros [i check]. apply kept_seq; [apply keeps_packet|]. intros _.
  apply kept_seq; [apply keeps_sprintf|]. intros _. apply kept_seq; [apply keeps_packet|]. intros _.
  apply kept_seq; [by apply kept_modify|]. intros _. apply keeps_transmit.
Qed.

Lemma keeps_send_data s : kept gdb_sound (gdb_send_data s) any.
Proof. apply kept_seq; [apply keeps_sprintf|]. intros _. apply keeps_send_buffer. Qed.

Lemma keeps_uninit : kept gdb_sound (in_machine uninit32) is_u32.
Proof. apply keeps_machine, kept_uninit. Qed.

Lemma keeps_traceless {A} (c : M gdb_protocol_data A) Q : kept gdb_sound c Q -> kept gdb_sound (traceless c) Q.
Proof.
  intros Hc. unfold traceless. apply kept_seq; [apply keeps_machine, kept_trace_switch|]. intros _.
  apply kept_bind with Q; [done|]. intros x Hx.
  apply kept_seq; [apply keeps_machine, kept_trace_switch|]. intros _. by apply kept_ret.
Qed.

Lemma keeps_write_uint32 i v : kept gdb_sound (write_uint32 i v) any.
Proof.
  unfold write_uint32. apply kept_seq; [|intros; apply keeps_packet].
  apply (kept_for _ _ _ any); [done|]. intros. apply kept_seq; [apply keeps_sprintf|].
  intros. by apply kept_ret.
Qed.

(** Four bytes of the host make a word. *)
Lemma host_word_range bs : length bs = 4%nat -> Forall is_u8 bs -> is_u32 (host_word bs).
Proof.
  intros Hl Hb. unfold host_word.
  assert (Hw : forall l, length l = 4%nat -> Forall is_u8 l -> is_u32 (of_bytes l)).
  { intros l Hl' HF. destruct l as [|a [|b [|c [|d [|]]]]]; try done.
    rewrite !Forall_cons in HF. unfold is_u8, is_u32 in *. rewrite of_bytes_4. lia. }
  destruct host_big_endian; apply Hw; rewrite ?length_rev; auto. by apply List.Forall_rev.
Qed.

Lemma keeps_read_uint32 data : kept gdb_sound (read_uint32 data) is_u32.
Proof.
  unfold read_uint32. eapply kept_bind; [apply keeps_uninit|]. intros value _.
  eapply kept_bind; [apply keeps_uninit|]. intros integer Hi.
  apply kept_bind with (fun l => length l.2 = 4%nat /\ Forall is_u8 l.2);
    [|intros l [Hl HF]; by apply kept_ret, host_word_range].
  apply kept_for.
  - simpl. unfold host_bytes. split; [by destruct host_big_endian|].
    assert (Forall is_u8 [u8 integer; u8 (Z.shiftr integer 8); u8 (Z.shiftr integer 16); u8 (Z.shiftr integer 24)])
      by (repeat constructor; apply u8_range).
    destruct host_big_endian; [by apply List.Forall_rev|done].
  - intros i [[d v] bytes] _ [Hl HF]. simpl in *. apply kept_seq; [apply keeps_cstring|]. intros s.
    apply kept_ret. simpl. rewrite length_aset. split; [done|]. apply Forall_aset; [done|apply u8_range].
Qed.

Lemma keeps_stop_reason : kept gdb_sound gdb_send_stop_reason any.
Proof.
  unfold gdb_send_stop_reason. apply kept_seq; [apply kept_gets|]. intros e.
  repeat apply kept_if; apply keeps_send_data.
Qed.

Lemma keeps_step_target : kept gdb_sound step_target any.
Proof.
  unfold step_target. apply kept_seq; [apply keeps_machine, kept_step|]. intros r.
  apply kept_seq; [by apply kept_modify|]. intros _. apply keeps_machine, kept_trace_arm_state.
Qed.

Lemma keeps_cont_loop fuel instruction :
  is_u32 instruction -> kept gdb_sound (cont_loop fuel instruction) any.
Proof.
  revert instruction. induction fuel as [|fuel IH]; intros ins Hi; simpl; [by apply kept_ret|].
  apply kept_bind with is_u32.
  - apply keeps_traceless. eapply kept_bind; [apply keeps_machine, kept_read_register; lia|].
    intros pc Hpc. eapply kept_bind; [apply keeps_machine, kept_read_word; [apply u32_range|done]|].
    intros rv Hrv. by apply kept_ret.
  - intros ins' Hi'. apply kept_if; [by apply kept_ret|].
    apply kept_seq; [apply keeps_step_target|]. auto.
Qed.

Lemma keeps_cont fuel data : kept gdb_sound (cont fuel data) any.
Proof.
  unfold cont. eapply kept_bind; [apply keeps_uninit|]. intros ins Hi.
  apply kept_seq; [by apply keeps_cont_loop|]. intros b. apply kept_when, keeps_stop_reason.
Qed.

Lemma keeps_step data : kept gdb_sound (step data) any.
Proof. apply kept_seq; [apply keeps_step_target|]. intros _. apply keeps_stop_reason. Qed.

Lemma keeps_query data : kept gdb_sound (query data) any.
Proof.
  unfold query. apply kept_seq; [apply keeps_cstring|]. intros s.
  repeat apply kept_if; apply keeps_send_data.
Qed.

Lemma keeps_read_general_registers data : kept gdb_sound (read_general_registers data) any.
Proof.
  unfold read_general_registers. apply kept_seq; [|intros; apply keeps_send_buffer].
  apply keeps_traceless. apply kept_seq.
  { apply (kept_for _ _ _ any); [done|]. intros i p (n & <- & Hn)%in_map_iff _. apply in_seq in Hn.
    apply kept_seq; [eapply kept_any, keeps_machine, kept_read_register; lia|]. intros v.
    apply kept_seq; [apply keeps_write_uint32|]. intros. by apply kept_ret. }
  intros p. apply kept_seq; [eapply kept_any, keeps_machine, kept_read_register; lia|]. intros pc.
  apply kept_seq; [apply keeps_write_uint32|]. intros _. apply kept_seq.
  { apply (kept_for _ _ _ any); [done|]. intros. apply kept_seq; [apply keeps_sprintf|].
    intros. by apply kept_ret. }
  intros p'. apply kept_seq; [apply keeps_sprintf|]. intros _.
  apply kept_seq; [eapply kept_any, keeps_machine, kept_read_cpsr|]. intros.
  apply keeps_write_uint32.
Qed.

Lemma keeps_read_memory_loop n a p v :
  is_u8 v -> kept gdb_sound (read_memory_loop n a p v) any.
Proof.
  revert a p v. induction n as [|n IH]; intros a p v Hv; simpl; [by apply kept_ret|].
  eapply kept_bind; [by apply keeps_machine, kept_mem_read_byte|]. intros rv Hrv.
  apply kept_if; [by apply kept_ret|]. apply kept_seq; [apply keeps_sprintf|]. auto.
Qed.

Lemma keeps_read_memory data : kept gdb_sound (read_memory data) any.
Proof.
  unfold read_memory. do 3 (eapply kept_bind; [apply keeps_uninit|]; intros ? ?).
  apply kept_seq; [apply keeps_cstring|]. intros s. destruct (scan_x_x s) as [oa os].
  apply kept_seq; [apply keeps_packet|]. intros _.
  apply kept_seq; [apply keeps_read_memory_loop, u8_range|]. intros _. apply keeps_send_buffer.
Qed.

Lemma keeps_assert_reg {A} r (c : M gdb_protocol_data A) Q :
  is_u32 r -> (0 <= u8 r < 16 -> kept gdb_sound c Q) -> kept gdb_sound (c_assert (r <? 16) ;;; c) Q.
Proof.
  intros Hr Hc s x s' Hs (y & s1 & E1 & E2)%bind_inv. unfold c_assert in E1.
  destruct (Z.ltb_spec r 16) as [Hlt|]; [|done]. injection E1 as _ <-.
  apply (Hc ltac:(rewrite u8_small; unfold is_u8, is_u32 in *; lia) _ _ _ Hs E2).
Qed.

Lemma keeps_read_register_command data : kept gdb_sound (gdb_read_register data) any.
Proof.
  unfold gdb_read_register. apply kept_seq; [apply keeps_cstring|]. intros s. cbv zeta.
  apply keeps_assert_reg; [apply u32_range|]. intros Hr.
  apply kept_seq; [|intros; apply keeps_send_buffer]. apply keeps_traceless.
  apply kept_seq; [by eapply kept_any, keeps_machine, kept_read_register|]. intros v.
  apply keeps_write_uint32.
Qed.

Lemma keeps_set_thread data : kept gdb_sound (set_thread data) any.
Proof.
  unfold set_thread. destruct data as [|ty rest]; [apply kept_undef|].
  apply kept_seq; [apply keeps_cstring|]. intros s. cbv zeta. apply kept_if; apply keeps_send_data.
Qed.

Lemma keeps_write_general_registers data : kept gdb_sound (write_general_registers data) any.
Proof.
  unfold write_general_registers. apply kept_seq; [|intros; apply keeps_send_data].
  apply keeps_traceless. apply kept_seq.
  { apply (kept_for _ _ _ any); [done|]. intros i p (n & <- & Hn)%in_map_iff _. apply in_seq in Hn.
    eapply kept_bind; [apply keeps_read_uint32|]. intros v Hv.
    apply kept_seq; [apply keeps_machine, kept_write_register; [lia|done]|]. intros.
    said. said. by apply kept_ret. }
  intros p. apply kept_seq.
  { apply (kept_for _ _ _ any); [done|]. intros.
    apply kept_seq; [eapply kept_any, keeps_read_uint32|]. intros. by apply kept_ret. }
  intros p'. apply kept_seq; [eapply kept_any, keeps_read_uint32|]. intros _.
  eapply kept_bind; [apply keeps_read_uint32|]. intros v Hv.
  apply kept_seq; [by apply keeps_machine, kept_write_cpsr|]. intros _. by apply keeps_debug, kept_ret.
Qed.

Lemma keeps_write_memory_loop n i a content ok :
  is_u32 a -> kept gdb_sound (write_memory_loop n i a content ok) any.
Proof.
  revert i a content ok. induction n as [|n IH]; intros i a content ok Ha; simpl; [by apply kept_ret|].
  apply kept_if; [by apply kept_ret|].
  destruct content as [|c content]; [apply kept_undef|]. apply kept_if.
  - destruct content as [|c' content]; [apply kept_undef|].
    apply kept_seq; [by apply keeps_machine, kept_mem_write_byte|]. intros. said. apply IH, u32_range.
  - apply kept_seq; [by apply keeps_machine, kept_mem_write_byte|]. intros. said. apply IH, u32_range.
Qed.

Lemma scan_x_range s v rest : scan_x s = Some (v, rest) -> is_u32 v.
Proof.
  unfold scan_x, scan_hex. destruct (scan_sign _ _) as [[neg w1] s1].
  destruct (scan_prefix w1 s1) as [w2 s2]. destruct (hex_run w2 s2 0 0) as [[x n] r].
  case_match; [done|]. intros [= <- _]. apply u32_range.
Qed.

Lemma stored_x_range s old : is_u32 old -> is_u32 (stored (fst <$> scan_x s) old).
Proof.
  intros Ho. destruct (scan_x s) as [[v rest]|] eqn:E; simpl; [|done]. by eapply scan_x_range.
Qed.

Lemma stored_x_x_range s old : is_u32 old -> is_u32 (stored (scan_x_x s).1 old).
Proof.
  intros Ho. unfold scan_x_x. destruct (scan_x s) as [[v rest]|] eqn:E; simpl; [|done].
  apply scan_x_range in E. by destruct rest as [|c rest]; [|case_match].
Qed.

Lemma keeps_write_memory_binary data : kept gdb_sound (write_memory_binary data) any.
Proof.
  unfold write_memory_binary. eapply kept_bind; [apply keeps_uninit|]. intros a Ha.
  eapply kept_bind; [apply keeps_uninit|]. intros size _.
  apply kept_seq; [apply keeps_cstring|]. intros s. pose proof (stored_x_x_range s a Ha) as Hr.
  destruct (scan_x_x s) as [oa os]. cbv zeta. destruct (index s 58) as [k|]; [|apply kept_undef].
  said. apply kept_seq; [apply keeps_machine, kept_mem_size|]. intros sz.
  apply kept_seq; [by apply keeps_write_memory_loop|]. intros ok. said.
  apply kept_if; apply keeps_send_data.
Qed.

Lemma keeps_write_register_command data : kept gdb_sound (gdb_write_register data) any.
Proof.
  unfold gdb_write_register. eapply kept_bind; [apply keeps_uninit|]. intros r Hr.
  apply kept_seq; [apply keeps_cstring|]. intros s. cbv zeta.
  destruct (index s 61) as [k|]; [|apply kept_undef].
  eapply kept_bind; [apply keeps_read_uint32|]. intros v Hv.
  apply keeps_assert_reg; [by apply stored_x_range|]. intros Hreg.
  apply kept_seq; [by apply keeps_traceless, keeps_machine, kept_write_register|]. intros _.
  said. apply keeps_send_data.
Qed.

Lemma keeps_handler fuel c h data : handler fuel c = Some h -> kept gdb_sound (h data) any.
Proof.
  unfold handler. repeat case_match; intros [= <-];
    first [ apply keeps_cont | by apply kept_modify | apply keeps_query
          | apply keeps_read_general_registers | apply keeps_read_memory
          | apply keeps_read_register_command | apply keeps_stop_reason | apply keeps_set_thread
          | apply keeps_step | apply keeps_write_general_registers
          | apply keeps_write_memory_binary | apply keeps_write_register_command ].
Qed.

Lemma keeps_packet_analysis fuel packet : kept gdb_sound (gdb_packet_analysis fuel packet) any.
Proof.
  unfold gdb_packet_analysis. cbv zeta. eapply kept_bind; [apply keeps_uninit|]. intros g _.
  apply kept_seq; [apply keeps_cstring|]. intros s. said.
  apply kept_seq; [apply keeps_debug_raw_binary, kept_seq; [apply keeps_cstring|]; intros; by apply kept_ret|]. intros _.
  apply kept_if; [|said; said; apply keeps_Rio_writen].
  said. apply kept_seq; [apply keeps_Rio_writen|]. intros _.
  destruct (aget _ 1) as [c|]; [|apply kept_undef].
  destruct (handler fuel c) as [h|] eqn:E; [by eapply keeps_handler|said; apply keeps_send_data].
Qed.
End handlers.

(** ** The scanner *)

Section session.
Context `{Host} `{Wire} (room : Z).

Definition parser_sound (p : parser_data) : Prop := gdb_sound room (gdb p).

Lemma kept_in_gdb {A} (c : M gdb_protocol_data A) Q :
  kept (gdb_sound room) c Q -> kept parser_sound (in_gdb c) Q.
Proof. apply (kept_zoom gdb_lens). Qed.

Lemma kept_handle_error : kept parser_sound handle_error any.
Proof.
  unfold handle_error. apply kept_seq; [apply kept_gets|]. intros n. apply kept_when.
  apply kept_seq; [by apply kept_zoom_other|]. intros _.
  apply kept_seq; [apply kept_gets|]. intros b.
  apply kept_seq; [apply kept_in_gdb, keeps_debug, kept_seq; [apply keeps_cstring|]; intros; by apply kept_ret|]. intros _.
  apply kept_seq; [apply kept_in_gdb, keeps_Rio_writen|]. intros _. by apply kept_modify.
Qed.

Lemma kept_action fuel t : kept parser_sound (action fuel t) any.
Proof.
  destruct t as [| |txt|c|c]; simpl.
  - apply kept_seq; [apply kept_handle_error|]. intros _. by apply kept_in_gdb, keeps_debug, kept_ret.
  - apply kept_seq; [apply kept_handle_error|]. intros _. apply kept_in_gdb.
    apply kept_seq; [by apply keeps_debug, kept_ret|]. intros _. apply keeps_transmit.
  - apply kept_seq; [apply kept_handle_error|]. intros _. apply kept_in_gdb, keeps_packet_analysis.
  - unfold add_character_to_error. apply kept_seq; [apply kept_gets|]. intros n.
    apply kept_seq; [apply kept_when, kept_handle_error|]. intros _.
    apply kept_seq; [apply kept_gets|]. intros n'.
    apply kept_seq; [by apply kept_zoom_other|]. intros _. by apply kept_modify.
  - apply kept_in_gdb, keeps_machine, kept_printf.
Qed.

Lemma kept_yylex fuel s : kept parser_sound (yylex fuel s) any.
Proof.
  unfold yylex. apply kept_seq; [|intros; apply kept_handle_error].
  induction (lex (length s) s) as [|t ts IH]; simpl; [by apply kept_ret|].
  apply kept_seq; [apply kept_action|]. by intros _.
Qed.

(** Whatever arrives on the connection: when the scanner and the handlers it calls
    return, the machine is well formed: registers of 32 bits, bytes of 8 bits, the
    memory block of the same size, the trace's location stack balanced. *)
Lemma session_keeps fuel input packet_block buffer_block failed m s p :
  machine_ok s -> mem_roomy room (mem s) ->
  gdb_scanner fuel packet_block buffer_block failed input m s = Ret tt p ->
  machine_ok (machine_of (gdb p)) /\ mem_roomy room (mem (machine_of (gdb p))).
Proof.
  intros Hok Hm E. unfold gdb_scanner in E. destruct failed; [by injection E as <-|].
  by destruct (kept_yylex fuel input (Parser (gdb_init_data s packet_block m) buffer_block 0) tt p
                 (conj Hok Hm) E).
Qed.
End session.
