(* ===== verification/GdbMessages.v ===== *)
(** * The debug messages of the gdb connection change nothing else

    Two runs of the scanner that differ in the files to debug, and in what was
    printed before, are the same but for the messages: the same outcome, processor,
    memory and answers ([alike]).  The rules are those of a relational logic, as
    those of [transparent] for the trace.  One condition is needed: the message of
    [gdb_transmit_packet] prints the packet as a string, which must end. *)
From S2P Require Import Prelude CInt Constants Memory Registers Format Trace Core CoreFacts Exception Branch Shifter DataProcessing LoadStore Safety Instruction CString Debug DebugMessages GdbProtocol Scanner Session.

#[local] Open Scope string_scope.
#[local] Open Scope Z_scope.

(** ** Related runs *)

Section related.
Context {S : Type} (R : S -> S -> Prop).

(** Equal results in related states. *)
Definition related {A} (r1 r2 : res S A) : Prop :=
  match r1, r2 with
  | Ret x1 s1, Ret x2 s2 => x1 = x2 /\ R s1 s2
  | Exit c1 s1, Exit c2 s2 => c1 = c2 /\ R s1 s2
  | Abort s1, Abort s2 => R s1 s2
  | Undef u1, Undef u2 => u1 = u2
  | _, _ => False
  end.

(** [c] run in related states in [P]. *)
Definition respects_if {A} (P : S -> Prop) (c : M S A) : Prop :=
  forall s1 s2, R s1 s2 -> P s1 -> P s2 -> related (c s1) (c s2).

Definition respects {A} (c : M S A) : Prop := forall s1 s2, R s1 s2 -> related (c s1) (c s2).

Lemma respects_always {A} P (c : M S A) : respects c -> respects_if P c.
Proof. intros Hc s1 s2 Hs _ _. by apply Hc. Qed.

(** Sequencing, when the first part always ends in [P]. *)
Lemma respects_bind_if {A B} (Q P : S -> Prop) (c : M S A) (f : A -> M S B) :
  respects_if Q c -> (forall s x s', Q s -> c s = Ret x s' -> P s') -> (forall x, respects_if P (f x)) ->
  respects_if Q (bind c f).
Proof.
  intros Hc HP Hf s1 s2 Hs H1 H2. specialize (Hc s1 s2 Hs H1 H2). unfold related, bind in *.
  destruct (c s1) as [x1 t1| | |] eqn:E1, (c s2) as [x2 t2| | |] eqn:E2; try done.
  destruct Hc as [-> Ht]. apply Hf; [done|by eapply HP, E1|by eapply HP, E2].
Qed.

Lemma respects_bind {A B} (c : M S A) (f : A -> M S B) :
  respects c -> (forall x, respects (f x)) -> respects (bind c f).
Proof.
  intros Hc Hf s1 s2 Hs.
  apply (respects_bind_if (fun _ => True) (fun _ => True)); try done; [by apply respects_always|].
  intros x. by apply respects_always.
Qed.

Lemma respects_ret {A} (x : A) : respects (ret x).
Proof. done. Qed.
Lemma respects_undef {A} u : respects (undef (A := A) u).
Proof. done. Qed.
Lemma respects_exit {A} code : respects (c_exit (A := A) code).
Proof. done. Qed.
Lemma respects_assert b : respects (c_assert b).
Proof. intros s1 s2 Hs. by destruct b. Qed.
Lemma respects_when b c : respects c -> respects (when b c).
Proof. intros Hc. by destruct b. Qed.
Lemma respects_gets {A} (f : S -> A) : (forall s1 s2, R s1 s2 -> f s1 = f s2) -> respects (gets f).
Proof. intros Hf s1 s2 Hs. split; [by apply Hf|done]. Qed.
Lemma respects_modify f : (forall s1 s2, R s1 s2 -> R (f s1) (f s2)) -> respects (modify f).
Proof. intros Hf s1 s2 Hs. split; [done|by apply Hf]. Qed.

Lemma respects_for {A B} (l : list A) (f : A -> B -> M S B) b :
  (forall x y, respects (f x y)) -> respects (for_each l f b).
Proof.
  intros Hf. revert b. induction l as [|x l IH]; intros b; simpl; [apply respects_ret|].
  by apply respects_bind.
Qed.

(** A component on which related states agree. *)
Lemma respects_zoom {T A} (l : lens S T) (c : M T A) :
  (forall s1 s2, R s1 s2 -> lget l s1 = lget l s2 /\ forall t, R (lset l t s1) (lset l t s2)) ->
  respects (zoom l c).
Proof.
  intros Hl s1 s2 Hs. destruct (Hl s1 s2 Hs) as [E Ht]. unfold zoom, related. rewrite E.
  destruct (c (lget l s2)); auto.
Qed.
End related.

(** A component whose runs are related. *)
Lemma respects_in {S T A} (R : S -> S -> Prop) (RT : T -> T -> Prop) (Q : T -> Prop) (l : lens S T) (c : M T A) :
  (forall s1 s2, R s1 s2 -> RT (lget l s1) (lget l s2) /\
     forall t1 t2, RT t1 t2 -> R (lset l t1 s1) (lset l t2 s2)) ->
  respects_if RT Q c -> respects_if R (fun s => Q (lget l s)) (zoom l c).
Proof.
  intros Hl Hc s1 s2 Hs H1 H2. destruct (Hl s1 s2 Hs) as [E Ht]. specialize (Hc _ _ E H1 H2). unfold zoom, related in *.
  destruct (c (lget l s1)), (c (lget l s2)); try done; [destruct Hc; auto..|auto].
Qed.

(** ** The handlers *)

(** Equal but for the messages; the files to debug are in order. *)
Definition alike (g1 g2 : gdb_protocol_data) : Prop :=
  g2 = set_log (log g2) g1 /\ log_ok (log g1) /\ log_ok (log g2).

Lemma alike_set_log m1 m2 g1 g2 :
  alike g1 g2 -> log_ok m1 -> log_ok m2 -> alike (set_log m1 g1) (set_log m2 g2).
Proof. intros (E & _ & _) H1 H2. split; [by rewrite E|done]. Qed.

Lemma alike_fd g1 g2 : alike g1 g2 -> fd g2 = fd g1.
Proof. by intros (-> & _). Qed.

Lemma blind_machine {A} (c : M machine A) : respects alike (in_machine c).
Proof.
  apply respects_zoom. intros g1 g2 (E & H1 & H2). rewrite E. split; [done|]. intros t. by split_and!.
Qed.
Lemma blind_packet {A} (c : M (list Z) A) : respects alike (zoom packet_lens c).
Proof.
  apply respects_zoom. intros g1 g2 (E & H1 & H2). rewrite E. split; [done|]. intros t. by split_and!.
Qed.

Create HintDb blind.
#[export] Hint Resolve respects_ret respects_undef respects_exit respects_assert respects_when
  blind_machine blind_packet : blind.
#[export] Hint Extern 2 (respects _ (bind _ _)) => apply respects_bind; [|intros ?] : blind.
#[export] Hint Extern 2 (respects _ (for_each _ _ _)) => apply respects_for; intros ? ? : blind.
#[export] Hint Extern 2 (respects _ (match ?x with _ => _ end)) => destruct x : blind.
#[export] Hint Extern 2 (respects alike (gets _)) =>
  apply respects_gets; intros ? ? (-> & _ & _); reflexivity : blind.
#[export] Hint Extern 2 (respects alike (modify _)) =>
  apply respects_modify; intros ? ? (-> & ? & ?); by split_and! : blind.

(** A message whose arguments can be evaluated, on states in [P]. *)
Lemma blind_message {A} (P : gdb_protocol_data -> Prop) file (args : M gdb_protocol_data A) (out : A -> M messages unit) :
  (forall g, P g -> exists x text, args g = Ret x g /\ out x (log g) = Ret tt (set_printed (printed (log g) ++ text) (log g))) ->
  respects_if alike P (let! b := zoom log_lens (is_debugged false file) in
                       when (nz b) (let! x := args in zoom log_lens (out x))).
Proof.
  intros Ha g1 g2 Hg P1 P2. destruct (Hg) as (_ & H1 & H2).
  destruct (Ha g1 P1) as (x1 & t1 & E1), (Ha g2 P2) as (x2 & t2 & E2).
  rewrite (said_shape log_lens file g1 H1 args out x1 t1 (fun _ => E1)).
  rewrite (said_shape log_lens file g2 H2 args out x2 t2 (fun _ => E2)).
  split; [done|]. apply alike_set_log; auto using log_ok_said.
Qed.

Lemma blind_debug file line text : respects alike (debug false log_lens file line (ret text)).
Proof.
  intros g1 g2 Hg. apply (blind_message (fun _ => True)); try done. intros g _. by eexists _, _.
Qed.
Lemma blind_debug_raw text : respects alike (gdb_debug_raw (ret text)).
Proof.
  intros g1 g2 Hg. apply (blind_message (fun _ => True)); try done. intros g _. by eexists _, _.
Qed.
#[export] Hint Resolve blind_debug blind_debug_raw : blind.

(** The packet ends. *)
Definition ended (g : gdb_protocol_data) : Prop := exists s, until_nul (packet g) = Some s.

Section handlers.
Context `{Host} `{Wire}.

Lemma blind_Rio_writen data : respects alike (Rio_writen data).
Proof. unfold Rio_writen. auto 8 with blind. Qed.

Lemma blind_cstring buf : respects alike (cstring buf).
Proof. unfold cstring. auto with blind. Qed.

Lemma blind_transmit : respects_if alike ended gdb_transmit_packet.
Proof.
  apply (respects_bind_if _ _ (fun _ => True)); [|done|intros _; apply respects_always].
  - apply blind_message. intros g [s E]. eexists _, _. split; [|reflexivity].
    rewrite (bind_ret _ _ _ (packet g) g) by done. unfold cstring. by rewrite E.
  - apply respects_bind; [auto with blind|]. intros p. apply respects_bind; [auto with blind|].
    intros n. apply blind_Rio_writen.
Qed.

Lemma blind_put_chars i s : respects alike (put_chars i s).
Proof. revert i. induction s as [|c s IH]; intros i; simpl; unfold poke; auto with blind. Qed.
Lemma blind_sprintf i s : respects alike (sprintf_at i s).
Proof. apply blind_put_chars. Qed.

Lemma blind_checksum_loop fuel i check : respects alike (checksum_loop fuel i check).
Proof. revert i check. induction fuel as [|fuel IH]; intros i check; simpl; unfold peek; auto with blind. Qed.

(** A NUL in the packet. *)
Lemma poke_ended i g g' : poke i 0 g = Ret tt g' -> ended g'.
Proof.
  unfold poke. intros (t & E & ->)%zoom_inv. unfold cell_write in E. cbn [lget packet_lens] in E.
  destruct (aget (packet g) i) eqn:Ei; [|done]. injection E as <-. apply (until_nul_at _ i). simpl.
  apply aget_Some_lt in Ei. pose proof (aget_aset_eq (packet g) i 0 Ei) as E. unfold aset in E.
  by destruct (Z.leb_spec 0 i); [|lia].
Qed.

Lemma blind_send_buffer : respects alike gdb_send_buffer.
Proof.
  unfold gdb_send_buffer, poke. apply respects_bind; [auto with blind|]. intros _.
  apply respects_bind; [auto with blind|]. intros n. apply respects_bind; [apply blind_checksum_loop|].
  intros [i check]. apply respects_bind; [auto with blind|]. intros _.
  apply respects_bind; [apply blind_sprintf|]. intros _ g1 g2 Hg.
  apply (respects_bind_if _ (fun _ => True) ended); try done.
  - apply respects_always, blind_packet.
  - intros s [] s' _ E. by eapply poke_ended.
  - intros _. apply (respects_bind_if _ _ ended); [apply respects_always; auto with blind| |].
    + intros s [] s' He [= <-]. exact He.
    + intros _. apply blind_transmit.
Qed.

Lemma blind_send_data s : respects alike (gdb_send_data s).
Proof. apply respects_bind; [apply blind_sprintf|]. intros _. apply blind_send_buffer. Qed.
#[local] Hint Resolve blind_Rio_writen blind_cstring blind_sprintf blind_send_buffer blind_send_data : blind.

Lemma blind_traceless {A} (c : M gdb_protocol_data A) : respects alike c -> respects alike (traceless c).
Proof. intros. unfold traceless. auto with blind. Qed.
#[local] Hint Resolve blind_traceless : blind.

Lemma blind_read_uint32 data : respects alike (read_uint32 data).
Proof. unfold read_uint32. auto 8 with blind. Qed.
Lemma blind_write_uint32 i v : respects alike (write_uint32 i v).
Proof. unfold write_uint32, poke. auto 8 with blind. Qed.
Lemma blind_stop_reason : respects alike gdb_send_stop_reason.
Proof. unfold gdb_send_stop_reason. auto with blind. Qed.
#[local] Hint Resolve blind_read_uint32 blind_write_uint32 blind_stop_reason : blind.

Lemma blind_step_target : respects alike step_target.
Proof. unfold step_target. auto with blind. Qed.
#[local] Hint Resolve blind_step_target : blind.

Lemma blind_cont_loop fuel ins : respects alike (cont_loop fuel ins).
Proof. revert ins. induction fuel as [|fuel IH]; intros ins; simpl; auto 10 with blind. Qed.

Lemma blind_read_memory_loop n a p v : respects alike (read_memory_loop n a p v).
Proof. revert a p v. induction n as [|n IH]; intros a p v; simpl; auto 8 with blind. Qed.

Lemma blind_write_memory_loop n i a content ok : respects alike (write_memory_loop n i a content ok).
Proof. revert i a content ok. induction n as [|n IH]; intros i a content ok; simpl; auto 12 with blind. Qed.
#[local] Hint Resolve blind_cont_loop blind_read_memory_loop blind_write_memory_loop : blind.

Lemma blind_cont fuel data : respects alike (cont fuel data).
Proof. unfold cont. auto 20 with blind. Qed.
Lemma blind_query data : respects alike (query data).
Proof. unfold query. auto 20 with blind. Qed.
Lemma blind_read_general_registers data : respects alike (read_general_registers data).
Proof. unfold read_general_registers. auto 20 with blind. Qed.
Lemma blind_read_memory data : respects alike (read_memory data).
Proof. unfold read_memory, poke. auto 20 with blind. Qed.
Lemma blind_gdb_read_register data : respects alike (gdb_read_register data).
Proof. unfold gdb_read_register. auto 20 with blind. Qed.
Lemma blind_set_thread data : respects alike (set_thread data).
Proof. unfold set_thread. auto 20 with blind. Qed.
Lemma blind_step data : respects alike (step data).
Proof. unfold step. auto 20 with blind. Qed.
Lemma blind_write_general_registers data : respects alike (write_general_registers data).
Proof. unfold write_general_registers, gdb_debug. auto 20 with blind. Qed.
Lemma blind_write_memory_binary data : respects alike (write_memory_binary data).
Proof. unfold write_memory_binary, gdb_debug. auto 20 with blind. Qed.
Lemma blind_gdb_write_register data : respects alike (gdb_write_register data).
Proof. unfold gdb_write_register, gdb_debug. auto 20 with blind. Qed.
#[local] Hint Resolve blind_cont blind_query blind_read_general_registers blind_read_memory blind_gdb_read_register blind_set_thread blind_step blind_write_general_registers blind_write_memory_binary blind_gdb_write_register : blind.

Lemma blind_handler fuel c h data : handler fuel c = Some h -> respects alike (h data).
Proof. unfold handler. repeat case_match; intros [= <-]; unfold kill_request, reason; auto with blind. Qed.

Lemma blind_packet_analysis fuel packet : respects alike (gdb_packet_analysis fuel packet).
Proof.
  unfold gdb_packet_analysis, gdb_send_ack, gdb_require_retransmission, gdb_debug. cbv zeta.
  apply respects_bind; [auto with blind|]. intros given0. apply respects_bind; [auto with blind|]. intros s.
  apply respects_bind; [auto with blind|]. intros _. apply respects_bind.
  { intros g1 g2 Hg. apply (blind_message (fun _ => True)); try done. intros g _.
    destruct (until_nul_snoc packet) as (p & rest & E & Ep). unfold cstring. rewrite E.
    eexists _, _. split; [reflexivity|]. erewrite bind_ret; [reflexivity|].
    apply raw_binary_ok. simpl. rewrite Ep, length_app. lia. }
  intros _. destruct (_ =? _); [|auto 8 with blind].
  do 2 (apply respects_bind; [auto with blind|]; intros _). destruct (aget _ 1) as [c|]; [|auto with blind].
  destruct (handler fuel c) as [h|] eqn:E; [by eapply blind_handler|auto with blind].
Qed.
End handlers.

(** ** The packet after a command *)

Section packets.
Context `{Host} `{Wire}.

(** Whatever the packet was, it ends after an answer. *)
Definition finishes {A} (c : M gdb_protocol_data A) : Prop := forall g x g', c g = Ret x g' -> ended g'.

Lemma finishes_bind {A B} (c : M gdb_protocol_data A) (f : A -> M gdb_protocol_data B) :
  (forall x, finishes (f x)) -> finishes (bind c f).
Proof. intros Hf g y g' (x & g1 & _ & E)%bind_inv. by eapply Hf. Qed.

Lemma finishes_kept {A} (c : M gdb_protocol_data A) : finishes c -> kept ended c any.
Proof. intros Hc g x g' _ E. split; [done|by eapply Hc]. Qed.

Lemma kept_log {A} (c : M messages A) : kept ended (zoom log_lens c) any.
Proof. by apply kept_zoom_other. Qed.
Lemma kept_machine {A} (c : M machine A) : kept ended (in_machine c) any.
Proof. by apply kept_zoom_other. Qed.
Lemma kept_cstring buf : kept ended (cstring buf) any.
Proof. unfold cstring. case_match; [by apply kept_ret|apply kept_undef]. Qed.

Create HintDb packets.
#[local] Hint Resolve kept_log kept_machine kept_cstring kept_gets kept_undef kept_exit : packets.
#[local] Hint Extern 1 (kept _ (ret _) _) => by apply kept_ret : packets.
#[local] Hint Extern 1 (kept _ (modify _) _) => by apply kept_modify : packets.
#[local] Hint Extern 2 (kept _ (bind _ _) _) => apply kept_seq; [|intros ?] : packets.
#[local] Hint Extern 2 (kept _ (when _ _) _) => apply kept_when : packets.
#[local] Hint Extern 2 (kept _ (match ?x with _ => _ end) _) => destruct x : packets.

Lemma kept_debug file line args : kept ended args any -> kept ended (debug false log_lens file line args) any.
Proof. intros. unfold debug. auto with packets. Qed.
Lemma kept_debug_raw args : kept ended args any -> kept ended (gdb_debug_raw args) any.
Proof. intros. unfold gdb_debug_raw, debug_raw. auto with packets. Qed.
Lemma kept_debug_raw_binary args : kept ended args any -> kept ended (gdb_debug_raw_binary args) any.
Proof. intros. unfold gdb_debug_raw_binary, debug_raw_binary. auto with packets. Qed.
Lemma kept_Rio_writen data : kept ended (Rio_writen data) any.
Proof. unfold Rio_writen. auto with packets. Qed.
#[local] Hint Resolve kept_debug kept_debug_raw kept_debug_raw_binary kept_Rio_writen : packets.

Lemma kept_transmit : kept ended gdb_transmit_packet any.
Proof. unfold gdb_transmit_packet, gdb_debug. auto 8 with packets. Qed.

Lemma finishes_send_buffer : finishes gdb_send_buffer.
Proof.
  unfold gdb_send_buffer. do 3 (apply finishes_bind; intros ?). destruct x1 as [i check].
  do 2 (apply finishes_bind; intros _). intros g [] g' ([] & g1 & E1%poke_ended & E)%bind_inv.
  refine (proj2 (_ : any tt /\ _)). revert E. apply (kept_seq ended); [by apply kept_modify| |exact E1].
  intros _. apply kept_transmit.
Qed.

Lemma finishes_send_data s : finishes (gdb_send_data s).
Proof. apply finishes_bind. intros _. apply finishes_send_buffer. Qed.

Lemma finishes_stop_reason : finishes gdb_send_stop_reason.
Proof.
  unfold gdb_send_stop_reason. apply finishes_bind. intros e. repeat case_match; apply finishes_send_data.
Qed.

Create HintDb finishing.
#[local] Hint Resolve finishes_send_buffer finishes_send_data finishes_stop_reason : finishing.
#[local] Hint Extern 2 (finishes (bind _ _)) => apply finishes_bind; intros ? : finishing.
#[local] Hint Extern 2 (finishes (match ?x with _ => _ end)) => destruct x : finishing.
#[local] Hint Extern 1 (finishes (undef _)) => by intros ? ? ? : finishing.

Lemma kept_cont fuel data : kept ended (cont fuel data) any.
Proof.
  unfold cont. apply kept_seq; [apply kept_machine|]. intros ins. apply kept_seq.
  - revert ins. induction fuel as [|fuel IH]; intros ins; simpl; unfold traceless, step_target; auto 12 with packets.
  - intros b. apply kept_when, finishes_kept, finishes_stop_reason.
Qed.

Lemma kept_handler fuel c h data : handler fuel c = Some h -> kept ended (h data) any.
Proof.
  unfold handler. repeat case_match; intros [= <-]; try apply kept_cont; try by apply kept_modify.
  all: apply finishes_kept; unfold reason, query, read_general_registers, read_memory, gdb_read_register, set_thread,
    step, write_general_registers, write_memory_binary, gdb_write_register; auto 12 with finishing.
Qed.

Lemma kept_packet_analysis fuel packet : kept ended (gdb_packet_analysis fuel packet) any.
Proof.
  unfold gdb_packet_analysis, gdb_send_ack, gdb_require_retransmission, gdb_debug. cbv zeta.
  do 3 (apply kept_seq; [auto with packets|]; intros ?). apply kept_seq; [auto 8 with packets|]. intros _.
  apply kept_if; [|auto 8 with packets]. do 2 (apply kept_seq; [auto with packets|]; intros _).
  destruct (aget _ 1) as [c|]; [|auto with packets].
  destruct (handler fuel c) as [h|] eqn:E; [by eapply kept_handler|].
  apply finishes_kept. auto with finishing.
Qed.
End packets.

(** ** Files that are not debugged *)

Section unselected.
Context `{Host} `{Wire} (m : messages).
Hypotheses (Hm : log_ok m) (Hgdb : selected m gdb_file = false) (Hscanner : selected m scanner_file = false).

(** Nothing has been printed since [m]. *)
Definition unprinted (g : gdb_protocol_data) : Prop := log g = m.

Lemma unprinted_message {A} file (args : M gdb_protocol_data A) (out : A -> M messages unit) :
  selected m file = false ->
  kept unprinted (let! b := zoom log_lens (is_debugged false file) in
                  when (nz b) (let! x := args in zoom log_lens (out x))) any.
Proof.
  intros Hf g [] g' Hg. unfold unprinted in Hg.
  erewrite bind_ret by (apply (zoom_read log_lens), is_debugged_selected; simpl; by rewrite Hg).
  simpl. rewrite Hg, Hf. by intros [= <-].
Qed.

Lemma unprinted_debug line args : kept unprinted (gdb_debug line args) any.
Proof. by apply unprinted_message. Qed.
Lemma unprinted_debug_raw args : kept unprinted (gdb_debug_raw args) any.
Proof. by apply unprinted_message. Qed.
Lemma unprinted_debug_raw_binary args : kept unprinted (gdb_debug_raw_binary args) any.
Proof. by apply (unprinted_message gdb_file). Qed.
Lemma unprinted_scanner_debug line args : kept unprinted (scanner_debug line args) any.
Proof. by apply unprinted_message. Qed.
Lemma unprinted_machine {A} (c : M machine A) : kept unprinted (in_machine c) any.
Proof. by apply kept_zoom_other. Qed.
Lemma unprinted_packet {A} (c : M (list Z) A) : kept unprinted (zoom packet_lens c) any.
Proof. by apply kept_zoom_other. Qed.

Lemma kept_for_any {S A B} (I : S -> Prop) (l : list A) (f : A -> B -> M S B) b :
  (forall x y, kept I (f x y) any) -> kept I (for_each l f b) any.
Proof. intros Hf. by apply kept_for. Qed.

Create HintDb unprinted.
#[local] Hint Resolve unprinted_debug unprinted_debug_raw unprinted_debug_raw_binary unprinted_scanner_debug
  unprinted_machine unprinted_packet kept_gets kept_undef kept_exit kept_assert kept_for_any : unprinted.
#[local] Hint Extern 1 (kept _ (ret _) _) => by apply kept_ret : unprinted.
#[local] Hint Extern 1 (kept _ (modify _) _) => by apply kept_modify : unprinted.
#[local] Hint Extern 2 (kept _ (bind _ _) _) => apply kept_seq; [|intros ?] : unprinted.
#[local] Hint Extern 2 (kept _ (when _ _) _) => apply kept_when : unprinted.
#[local] Hint Extern 2 (kept _ (match ?x with _ => _ end) _) => destruct x : unprinted.

Lemma unprinted_cstring buf : kept unprinted (cstring buf) any.
Proof. unfold cstring. auto with unprinted. Qed.
Lemma unprinted_Rio_writen data : kept unprinted (Rio_writen data) any.
Proof. unfold Rio_writen. auto with unprinted. Qed.
Lemma unprinted_put_chars i s : kept unprinted (put_chars i s) any.
Proof. revert i. induction s as [|c s IH]; intros i; simpl; unfold poke; auto with unprinted. Qed.
Lemma unprinted_checksum_loop fuel i check : kept unprinted (checksum_loop fuel i check) any.
Proof. revert i check. induction fuel as [|fuel IH]; intros i check; simpl; unfold peek; auto with unprinted. Qed.
#[local] Hint Resolve unprinted_cstring unprinted_Rio_writen unprinted_put_chars unprinted_checksum_loop : unprinted.

Lemma unprinted_transmit : kept unprinted gdb_transmit_packet any.
Proof. unfold gdb_transmit_packet. auto with unprinted. Qed.
#[local] Hint Resolve unprinted_transmit : unprinted.
Lemma unprinted_send_buffer : kept unprinted gdb_send_buffer any.
Proof. unfold gdb_send_buffer, poke, sprintf_at. auto 12 with unprinted. Qed.
Lemma unprinted_send_data s : kept unprinted (gdb_send_data s) any.
Proof. apply kept_seq; [apply unprinted_put_chars|]. intros _. apply unprinted_send_buffer. Qed.
#[local] Hint Resolve unprinted_send_buffer unprinted_send_data : unprinted.

Lemma unprinted_read_uint32 data : kept unprinted (read_uint32 data) any.
Proof. unfold read_uint32. auto 8 with unprinted. Qed.
Lemma unprinted_write_uint32 i v : kept unprinted (write_uint32 i v) any.
Proof. unfold write_uint32, poke, sprintf_at. auto 8 with unprinted. Qed.
Lemma unprinted_stop_reason : kept unprinted gdb_send_stop_reason any.
Proof. unfold gdb_send_stop_reason. auto with unprinted. Qed.
#[local] Hint Resolve unprinted_read_uint32 unprinted_write_uint32 unprinted_stop_reason : unprinted.

Lemma unprinted_cont_loop fuel ins : kept unprinted (cont_loop fuel ins) any.
Proof. revert ins. induction fuel as [|fuel IH]; intros ins; simpl; unfold traceless, step_target; auto 12 with unprinted. Qed.
Lemma unprinted_read_memory_loop n a p v : kept unprinted (read_memory_loop n a p v) any.
Proof. revert a p v. induction n as [|n IH]; intros a p v; simpl; unfold sprintf_at; auto 8 with unprinted. Qed.
Lemma unprinted_write_memory_loop n i a content ok : kept unprinted (write_memory_loop n i a content ok) any.
Proof. revert i a content ok. induction n as [|n IH]; intros i a content ok; simpl; auto 12 with unprinted. Qed.
#[local] Hint Resolve unprinted_cont_loop unprinted_read_memory_loop unprinted_write_memory_loop : unprinted.

Lemma unprinted_handler fuel c h data : handler fuel c = Some h -> kept unprinted (h data) any.
Proof.
  unfold handler. repeat case_match; intros [= <-];
    unfold cont, kill_request, query, read_general_registers, read_memory, gdb_read_register, reason, set_thread,
      step, write_general_registers, write_memory_binary, gdb_write_register, traceless, step_target, poke, sprintf_at;
    auto 24 with unprinted.
Qed.

Lemma unprinted_packet_analysis fuel packet : kept unprinted (gdb_packet_analysis fuel packet) any.
Proof.
  unfold gdb_packet_analysis, gdb_send_ack, gdb_require_retransmission. cbv zeta.
  do 3 (apply kept_seq; [auto with unprinted|]; intros ?). apply kept_seq; [auto with unprinted|]. intros _.
  apply kept_if; [|auto with unprinted]. do 2 (apply kept_seq; [auto with unprinted|]; intros _).
  destruct (aget _ 1) as [c|]; [|auto with unprinted].
  destruct (handler fuel c) as [h|] eqn:E; [by eapply unprinted_handler|auto with unprinted].
Qed.

Definition unprinted_parser (p : parser_data) : Prop := unprinted (gdb p).

Lemma unprinted_in_gdb {A} (c : M gdb_protocol_data A) : kept unprinted c any -> kept unprinted_parser (in_gdb c) any.
Proof. apply (kept_zoom gdb_lens). Qed.
Lemma unprinted_buffer {A} (c : M (list Z) A) : kept unprinted_parser (zoom buffer_lens c) any.
Proof. by apply kept_zoom_other. Qed.
#[local] Hint Resolve unprinted_in_gdb unprinted_buffer unprinted_packet_analysis : unprinted.

Lemma unprinted_handle_error : kept unprinted_parser handle_error any.
Proof. unfold handle_error, gdb_require_retransmission. auto 10 with unprinted. Qed.
#[local] Hint Resolve unprinted_handle_error : unprinted.

Lemma unprinted_yylex fuel s : kept unprinted_parser (yylex fuel s) any.
Proof.
  unfold yylex. apply kept_seq; [|intros; apply unprinted_handle_error].
  induction (lex (length s) s) as [|t ts IH]; simpl; [by apply kept_ret|].
  apply kept_seq; [|by intros _]. destruct t; simpl; unfold add_character_to_error; auto 8 with unprinted.
Qed.
End unselected.

(** ** The scanner *)

Definition alike_parsers (p1 p2 : parser_data) : Prop :=
  alike (gdb p1) (gdb p2) /\ buffer p1 = buffer p2 /\ err_len p1 = err_len p2.

Definition ended_parser (p : parser_data) : Prop := ended (gdb p).

Section scanner.
Context `{Host} `{Wire}.

Lemma blind_in_gdb_if {A} P (c : M gdb_protocol_data A) :
  respects_if alike P c -> respects_if alike_parsers (fun p => P (gdb p)) (in_gdb c).
Proof. apply (respects_in _ _ _ gdb_lens). intros p1 p2 (Hg & E1 & E2). split; [done|]. intros g1 g2 Hg'. done. Qed.

Lemma blind_in_gdb {A} (c : M gdb_protocol_data A) : respects alike c -> respects alike_parsers (in_gdb c).
Proof.
  intros Hc p1 p2 Hp. by apply (blind_in_gdb_if (fun _ => True) c (respects_always _ _ _ Hc) p1 p2 Hp).
Qed.

Lemma blind_buffer {A} (c : M (list Z) A) : respects alike_parsers (zoom buffer_lens c).
Proof. apply respects_zoom. intros p1 p2 (Hg & E1 & E2). split; [done|]. intros b. done. Qed.

Lemma blind_err_len n : respects alike_parsers (modify (set_err_len n)).
Proof. apply respects_modify. intros p1 p2 (Hg & E1 & E2). done. Qed.

Lemma blind_get_err_len : respects alike_parsers (gets err_len).
Proof. apply respects_gets. by intros p1 p2 (_ & _ & E). Qed.

Lemma cell_write_ended n p p' :
  zoom buffer_lens (cell_write n 0) p = Ret tt p' -> exists s, until_nul (buffer p') = Some s.
Proof.
  intros (b & E & ->)%zoom_inv. unfold cell_write in E. cbn [lget buffer_lens] in E.
  destruct (aget (buffer p) n) eqn:Ei; [|done]. injection E as <-. apply (until_nul_at _ n). simpl.
  apply aget_Some_lt in Ei. pose proof (aget_aset_eq (buffer p) n 0 Ei) as E. unfold aset in E.
  by destruct (Z.leb_spec 0 n); [|lia].
Qed.

Lemma blind_handle_error : respects alike_parsers handle_error.
Proof.
  apply respects_bind; [apply blind_get_err_len|]. intros n. apply respects_when. intros p1 p2 Hp.
  apply (respects_bind_if _ (fun _ => True) (fun p => exists s, until_nul (buffer p) = Some s)); try done.
  { apply respects_always, blind_buffer. }
  { intros p [] p' _. apply cell_write_ended. }
  clear. intros _ p1 p2 Hp [s Es] _. destruct (Hp) as (_ & Eb & _).
  rewrite (bind_ret _ _ p1 (buffer p1) p1), (bind_ret _ _ p2 (buffer p1) p2) by (unfold gets; by rewrite ?Eb).
  revert p1 p2 Hp Es Eb. intros p1 p2 Hp Es _. generalize dependent (buffer p1). intros b Es. revert p1 p2 Hp.
  apply respects_bind; [|intros _; apply respects_bind; [apply blind_in_gdb, blind_Rio_writen|intros _; apply blind_err_len]].
  apply blind_in_gdb. intros g1 g2 Hg. apply (blind_message (fun _ => True)); try done. intros g _.
  unfold cstring. rewrite Es. by eexists _, _.
Qed.

Lemma kept_handle_error_ended : kept ended_parser handle_error any.
Proof.
  unfold handle_error. apply kept_seq; [apply kept_gets|]. intros n. apply kept_when.
  apply kept_seq; [by apply kept_zoom_other|]. intros _. apply kept_seq; [apply kept_gets|]. intros b.
  apply kept_seq; [apply (kept_zoom gdb_lens), kept_debug, kept_seq; [apply kept_cstring|]; intros; by apply kept_ret|].
  intros _. apply kept_seq; [apply (kept_zoom gdb_lens), kept_Rio_writen|]. intros _. by apply kept_modify.
Qed.

Lemma kept_action_ended fuel t : kept ended_parser (action fuel t) any.
Proof.
  destruct t as [| |txt|c|c]; simpl.
  - apply kept_seq; [apply kept_handle_error_ended|]. intros _. by apply (kept_zoom gdb_lens), kept_debug, kept_ret.
  - apply kept_seq; [apply kept_handle_error_ended|]. intros _. apply (kept_zoom gdb_lens).
    apply kept_seq; [by apply kept_debug, kept_ret|]. intros _. apply kept_transmit.
  - apply kept_seq; [apply kept_handle_error_ended|]. intros _. apply (kept_zoom gdb_lens), kept_packet_analysis.
  - unfold add_character_to_error. apply kept_seq; [apply kept_gets|]. intros n.
    apply kept_seq; [apply kept_when, kept_handle_error_ended|]. intros _. apply kept_seq; [apply kept_gets|]. intros n'.
    apply kept_seq; [by apply kept_zoom_other|]. intros _. by apply kept_modify.
  - apply (kept_zoom gdb_lens), kept_machine.
Qed.

Lemma blind_action fuel t : respects_if alike_parsers ended_parser (action fuel t).
Proof.
  destruct t as [| |txt|c|c]; simpl; cycle 1.
  { apply (respects_bind_if _ _ ended_parser); [apply respects_always, blind_handle_error| |].
    - intros p [] p' Hp E. by apply (kept_handle_error_ended p tt p').
    - intros _. apply (blind_in_gdb_if ended), (respects_bind_if _ _ ended); [apply respects_always, blind_debug| |].
      + intros g [] g' Hg E. refine (proj2 (kept_debug scanner_file 64 _ _ g tt g' Hg E)). by apply kept_ret.
      + intros _. apply blind_transmit. }
  all: apply respects_always.
  - apply respects_bind; [apply blind_handle_error|]. intros _. apply blind_in_gdb, blind_packet_analysis.
  - unfold add_character_to_error. apply respects_bind; [apply blind_get_err_len|]. intros n.
    apply respects_bind; [apply respects_when, blind_handle_error|]. intros _.
    apply respects_bind; [apply blind_get_err_len|]. intros n'.
    apply respects_bind; [apply blind_buffer|]. intros _. apply blind_err_len.
  - apply blind_in_gdb, blind_machine.
  - apply respects_bind; [apply blind_handle_error|]. intros _. apply blind_in_gdb, blind_debug.
Qed.

Lemma blind_yylex fuel s : respects_if alike_parsers ended_parser (yylex fuel s).
Proof.
  unfold yylex. apply (respects_bind_if _ _ (fun _ => True)); [|done|intros _; apply respects_always, blind_handle_error].
  induction (lex (length s) s) as [|t ts IH]; simpl; [by apply respects_always, respects_ret|].
  apply (respects_bind_if _ _ ended_parser); [apply blind_action| |by intros ?].
  intros p [] p' Hp E. by apply (kept_action_ended fuel t p tt p').
Qed.

(** C11: Debug messages change nothing else.  Two runs of the gdb connection on the
    same input, with any files to debug and any messages before, have the same
    outcome, with the same processor, memory, trace, answers and buffers: only the
    messages differ.  And when neither [gdb_protocol.c] nor [scanner.l] is debugged a
    connection prints none at all.  The packet must be a string at the start, since a
    request for retransmission before the first answer prints it. *)
Theorem messages_do_not_interfere fuel input packet_block buffer_block failed m1 m2 s t :
  log_ok m1 -> log_ok m2 -> until_nul packet_block = Some t ->
  related alike_parsers (gdb_scanner fuel packet_block buffer_block failed input m1 s)
                        (gdb_scanner fuel packet_block buffer_block failed input m2 s) /\
  (selected m1 gdb_file = false -> selected m1 scanner_file = false ->
   forall p, gdb_scanner fuel packet_block buffer_block None input m1 s = Ret tt p -> log (gdb p) = m1).
Proof.
  intros H1 H2 Ht. split; cycle 1.
  { intros F1 F2 p E. refine (proj2 (unprinted_yylex m1 H1 F1 F2 fuel input _ _ _ _ E)). done. }
  unfold gdb_scanner. set (p1 := Parser (gdb_init_data s packet_block m1) buffer_block 0).
  set (p2 := Parser (gdb_init_data s packet_block m2) buffer_block 0).
  assert (Hp : alike_parsers p1 p2) by by split_and!.
  destruct failed as [error|]; [|apply blind_yylex; [done|by exists t..]].
  split; [done|]. split; [|done]. by apply alike_set_log.
Qed.
End scanner.

(** ** Witnesses *)

#[local] Existing Instance wire_up.

(** [--debug gdb_protocol.c] *)
Definition gdb_messages : messages :=
  messages_init (match add_all [gdb_file] debug_init with Ret _ d => d | _ => debug_init end).

Lemma gdb_messages_ok : log_ok gdb_messages.
Proof.
  destruct (add_all_ok [gdb_file] [] debug_init debug_init_ok) as (l & d & E & Hok & _); [simpl; lia|].
  exists l. unfold gdb_messages. by rewrite E.
Qed.

Lemma related_fd (r1 r2 : res parser_data unit) p1 p2 :
  related alike_parsers r1 r2 -> r1 = Ret tt p1 -> r2 = Ret tt p2 -> fd (gdb p2) = fd (gdb p1).
Proof. intros Hr -> ->. destruct Hr as (_ & Hg & _). by apply alike_fd. Qed.

(** "$?#3f" is answered alike with and without messages. *)
Lemma messages_do_not_interfere_witness :
  exists p1 p2,
    gdb_scanner (H := host0) 0 (replicate 1024 0) (replicate 1024 0) None (chars "$?#3f") no_messages machine_ls = Ret tt p1 /\
    gdb_scanner (H := host0) 0 (replicate 1024 0) (replicate 1024 0) None (chars "$?#3f") gdb_messages machine_ls = Ret tt p2 /\
    fd (gdb p2) = fd (gdb p1) /\ printed (log (gdb p1)) = [] /\
    printed (log (gdb p2)) =
      chars ("[DEBUG] gdb_protocol.c,423: Received packet : $?#3f, checksum ok" +:+ newline +:+
             "[DEBUG] gdb_protocol.c,447: Transmitting packet: $S05#b8" +:+ newline).
Proof.
  pose proof (messages_do_not_interfere (H := host0) 0 (chars "$?#3f") (replicate 1024 0) (replicate 1024 0) None
    no_messages gdb_messages machine_ls [] no_messages_ok gdb_messages_ok ltac:(vm_compute; reflexivity)) as Hr.
  assert (H1 : exists p1, gdb_scanner (H := host0) 0 (replicate 1024 0) (replicate 1024 0) None (chars "$?#3f")
    no_messages machine_ls = Ret tt p1 /\ printed (log (gdb p1)) = []).
  { eexists. split; vm_compute; reflexivity. }
  assert (H2 : exists p2, gdb_scanner (H := host0) 0 (replicate 1024 0) (replicate 1024 0) None (chars "$?#3f")
    gdb_messages machine_ls = Ret tt p2 /\ printed (log (gdb p2)) =
      chars ("[DEBUG] gdb_protocol.c,423: Received packet : $?#3f, checksum ok" +:+ newline +:+
             "[DEBUG] gdb_protocol.c,447: Transmitting packet: $S05#b8" +:+ newline)).
  { eexists. split; vm_compute; reflexivity. }
  destruct H1 as (p1 & E1 & F1), H2 as (p2 & E2 & F2). exists p1, p2. split_and!; [exact E1|exact E2| |exact F1|exact F2].
  exact (related_fd _ _ _ _ (proj1 Hr) E1 E2).
Defined.

(** A request for retransmission before the first answer, with messages, reads past
    the end of a packet without a NUL; without messages nothing is sent. *)
Example early_nack :
  gdb_scanner (H := host0) 0 (replicate 1024 1) (replicate 1024 0) None (chars "-") gdb_messages machine_ls =
    Undef OutOfBounds /\
  exists p, gdb_scanner (H := host0) 0 (replicate 1024 1) (replicate 1024 0) None (chars "-") no_messages machine_ls = Ret tt p /\
    fd (gdb p) = [].
Proof. split; [vm_compute; reflexivity|]. eexists. by split; [vm_compute; reflexivity|]. Qed.
