(* ===== verification/Simulator.v ===== *)
(** * [arm_simulator.c]: start-up, interrupts and threads

    [Options] is the option loop of [main] on what [getopt_long] delivers (see
    [CommandLine]), and the creation of the memory and the processor.  [Threads] is the concurrency
    of the program: the thread of gdb runs the handlers of the commands, the
    thread of interrupts runs [arm_exception], each in a section protected by
    the lock.  What the threads do outside their sections (sockets, reading,
    acknowledging packets) touches only data of their own; it is in [Server]. *)
From S2P Require Import Prelude CInt Constants Memory Registers Format Trace Core CoreFacts Exception Branch Shifter DataProcessing LoadStore Safety Instruction CString Debug DebugMessages GdbProtocol Scanner Session.
From stdpp Require Import relations.
From Stdlib Require Import Ascii.

#[local] Open Scope string_scope.
#[local] Open Scope Z_scope.

(** ** The option loop of [main] *)

Module Options.

(** The variables of [main] and the static variables the options change. *)
Record main_data : Type := Main {
  gdb_port : Z;
  irq_port : Z;
  trace_file : option string;     (* [None] is standard output *)
  main_trace : trace_data;
  main_log : messages;            (* the files to debug and the debug messages *)
  main_stderr : list string;      (* what [main] itself prints on standard error *)
}.

Definition set_gdb_port n d :=
  Main n (irq_port d) (trace_file d) (main_trace d) (main_log d) (main_stderr d).
Definition set_irq_port n d :=
  Main (gdb_port d) n (trace_file d) (main_trace d) (main_log d) (main_stderr d).
Definition set_trace_name f d :=
  Main (gdb_port d) (irq_port d) (Some f) (main_trace d) (main_log d) (main_stderr d).
Definition set_main_trace t d :=
  Main (gdb_port d) (irq_port d) (trace_file d) t (main_log d) (main_stderr d).
Definition set_main_log b d :=
  Main (gdb_port d) (irq_port d) (trace_file d) (main_trace d) b (main_stderr d).
Definition main_print str d :=
  Main (gdb_port d) (irq_port d) (trace_file d) (main_trace d) (main_log d) (main_stderr d ++ [str])%list.

Definition main_trace_lens : lens main_data trace_data := Lens main_trace set_main_trace.
Definition main_log_lens : lens main_data messages := Lens main_log set_main_log.

Definition main_debug (d : main_data) : debug_data := files (main_log d).

Definition main_init : main_data := Main 0 0 None trace_init (messages_init debug_init) [].

Definition usage_text (name : string) : string :=
  "Usage:" +:+ newline +:+
  name +:+ " [ --help ] [ --gdb-port port ] [ --irq-port port ] " +:+
  "[ --trace-file file ] [ --trace-registers ] [ --trace-memory ] " +:+
  "[ --trace-state ] [ --trace-position ] [ --debug filename ]" +:+ newline +:+ newline +:+
  "Start an ARMv5 instruction set simulator that acts as a gdb server " +:+
  "and can receive interrupts. It is possible to specify on which ports " +:+
  "the simulator listen to gdb client or irq sending program " +:+
  "connections. Trace options have the following behavior:" +:+ newline +:+
  "- trace file: file into which trace information is stored (default is" +:+
  " stdout)" +:+ newline +:+
  "- trace registers: outputs informations about each access to" +:+
  " registers" +:+ newline +:+
  "- trace memory: outputs informations about each access to memory" +:+ newline +:+
  "- trace state: outputs the processor state after each instruction" +:+ newline +:+
  "- trace position: for each traced access, outputs the file and line" +:+
  " at which the access has been performed" +:+ newline +:+
  "The debug switch enable selective reporting of debug messages on a " +:+
  "per source file basis" +:+ newline.

Definition usage (name : string) : M main_data unit := modify (main_print (usage_text name)).

Section main.
(** The name of the program, whether [fopen] opens the file, and the text of
    [errno] when it does not. *)
Context (argv0 : string) (fopen : string -> bool) (fopen_error : string).

(** One round of the loop: the character [opt] and its argument. *)
Definition main_option (opt : Z) (optarg : string) : M main_data unit :=
  if opt =? 103 then modify (set_gdb_port (u16 (atoi (chars optarg)))) else    (* g *)
  if opt =? 105 then modify (set_irq_port (u16 (atoi (chars optarg)))) else    (* i *)
  if opt =? 104 then usage argv0 ;;; c_exit 0 else                             (* h *)
  if opt =? 116 then                                                           (* t *)
    (if fopen optarg then modify (set_trace_name optarg)
     else modify (main_print ("Trace file: " +:+ fopen_error +:+ newline)) ;;; c_exit 1) else
  if opt =? 114 then zoom main_trace_lens (trace_add REGISTERS) else           (* r *)
  if opt =? 109 then zoom main_trace_lens (trace_add MEMORY) else              (* m *)
  if opt =? 115 then zoom main_trace_lens (trace_add STATE) else               (* s *)
  if opt =? 112 then zoom main_trace_lens (trace_add POSITION) else            (* p *)
  if opt =? 100 then zoom main_log_lens (zoom messages_lens (add_debug_to optarg)) else   (* d *)
  modify (main_print ("Unrecognized option " +:+ String (ascii_of_N (Z.to_N (u8 opt))) newline)) ;;;
  usage argv0 ;;;
  c_exit 1.

Fixpoint main_options (opts : list (Z * string)) : M main_data unit :=
  match opts with
  | [] => ret tt
  | (opt, optarg) :: opts' => main_option opt optarg ;;; main_options opts'
  end.

(** The options, then [gdb_init], [arm_init] and [set_trace_file]. *)
Definition main_prepare (opts : list (Z * string)) : M main_data unit :=
  main_options opts ;;;
  zoom main_log_lens gdb_init ;;;
  zoom main_trace_lens set_trace_file.
End main.

Definition MEMORY_SIZE : Z := 0x20000.

(** The creation of the memory and the processor, with the trace as the options
    left it; [mem_block], [cycle] and [reg_block] are what [malloc] gives. *)
Definition main_create (d : main_data) (mem_block : list Z) (cycle : Z) (reg_block : list Z)
    : res machine unit :=
  let mm := memory_create (Some mem_block) MEMORY_SIZE 1 in
  arm_create cycle (Some reg_block) mm (Machine (ArmCore cycle reg_block) mm (main_trace d) 0).

(** ** Lemmas and properties *)

(** The options [main] knows; a trace file must open. *)
Definition opt_ok (fopen : string -> bool) (o : Z * string) : Prop :=
  o.1 ∈ [103; 105; 114; 109; 115; 112; 100] \/ (o.1 = 116 /\ fopen o.2 = true).

#[export] Instance opt_ok_dec fopen o : Decision (opt_ok fopen o).
Proof. unfold opt_ok. apply _. Defined.

Definition flag_of (o : Z * string) : Z :=
  if o.1 =? 114 then REGISTERS else if o.1 =? 109 then MEMORY else
  if o.1 =? 115 then STATE else if o.1 =? 112 then POSITION else 0.

Definition port_of (key : Z) (port : Z) (opts : list (Z * string)) : Z :=
  fold_left (fun p o => if o.1 =? key then u16 (atoi (chars o.2)) else p) opts port.

Definition file_of (file : option string) (opts : list (Z * string)) : option string :=
  fold_left (fun f o => if o.1 =? 116 then Some o.2 else f) opts file.

Definition debug_names (opts : list (Z * string)) : list string :=
  snd <$> filter (fun o => o.1 = 100) opts.

(** What the options do to the variables. *)
Definition effect (opts : list (Z * string)) (d d' : main_data) : Prop :=
  gdb_port d' = port_of 103 (gdb_port d) opts /\ irq_port d' = port_of 105 (irq_port d) opts /\
  trace_file d' = file_of (trace_file d) opts /\ main_stderr d' = main_stderr d /\
  printed (main_log d') = printed (main_log d) /\
  main_trace d' = set_flags (fold_left Z.lor (flag_of <$> opts) (trace_flags (main_trace d)))
                    (main_trace d).

Lemma effect_cons o opts d d1 d' :
  effect [o] d d1 -> effect opts d1 d' -> effect (o :: opts) d d'.
Proof.
  intros (E1 & E2 & E3 & E4 & E5 & E6) (F1 & F2 & F3 & F4 & F5 & F6). unfold effect, port_of, file_of in *. simpl in *.
  rewrite F1, F2, F3, F4, F5, F6, E1, E2, E3, E4, E5, E6. by destruct (main_trace d).
Qed.

Lemma main_option_ok argv0 fopen err o d l :
  opt_ok fopen o -> debug_ok l (main_debug d) -> (length (debug_names [o]) + length l <= 64)%nat ->
  exists d' l', main_option argv0 fopen err o.1 o.2 d = Ret tt d' /\ effect [o] d d' /\
    debug_ok l' (main_debug d') /\ l' ≡ₚ (debug_names [o] ++ l)%list.
Proof.
  destruct o as [k arg], d as [p1 p2 f t [b x y z] e]. intros Ho Hb Hlen.
  destruct Ho as [Hk|[Hk Hf]]; simpl in *; cycle 1.
  { subst k. eexists _, l. unfold main_option, effect. simpl. rewrite Hf.
    split_and!; try done; [|by apply Hb..]. destruct t. by rewrite Z.lor_0_r. }
  rewrite !elem_of_cons, elem_of_nil in Hk.
  destruct Hk as [-> |[-> |[-> |[-> |[-> |[-> |[-> |[]]]]]]]].
  7: { destruct (add_debug_ok arg l b Hb) as (b' & E & Hb'); [simpl in Hlen; lia|].
       eexists _, _. split_and!; [by apply (zoom_ret main_log_lens), (zoom_ret messages_lens)| |apply Hb'..|].
       - unfold effect. simpl. split_and!; try done. destruct t. by rewrite Z.lor_0_r.
       - apply insert_name_perm. }
  all: eexists _, l; (split; [reflexivity|]); split; [|done].
  all: unfold effect; simpl; split_and!; try done; destruct t; by rewrite ?Z.lor_0_r.
Qed.

Lemma debug_names_cons o opts : debug_names (o :: opts) = (debug_names [o] ++ debug_names opts)%list.
Proof. unfold debug_names. rewrite !filter_cons. by case_decide. Qed.

Lemma main_options_ok argv0 fopen err opts d l :
  Forall (opt_ok fopen) opts -> debug_ok l (main_debug d) ->
  (length (debug_names opts) + length l <= 64)%nat ->
  exists d' l', main_options argv0 fopen err opts d = Ret tt d' /\ effect opts d d' /\
    debug_ok l' (main_debug d') /\ l' ≡ₚ (debug_names opts ++ l)%list.
Proof.
  intros Ho. revert d l. induction Ho as [|o opts Ho _ IH]; intros d l Hb Hlen.
  { exists d, l. split; [done|]. split; [|done]. unfold effect. simpl. by destruct (main_trace d). }
  rewrite debug_names_cons, length_app in Hlen.
  destruct (main_option_ok argv0 fopen err o d l) as (d1 & l1 & E1 & F1 & Hb1 & P1); [done..|lia|].
  destruct (IH d1 l1) as (d' & l' & E' & F' & Hb' & P'); [done|rewrite P1, length_app; lia|].
  exists d', l'. split.
  { destruct o as [k arg]. cbn [main_options]. by rewrite (bind_ret _ _ _ _ _ E1). }
  split; [by eapply effect_cons|]. split; [done|]. rewrite P', P1, (debug_names_cons o opts).
  rewrite !app_assoc. f_equiv. apply Permutation_app_comm.
Qed.

(** The creation of the machine: whatever [malloc] leaves in its blocks, the
    processor is well formed and at its reset vector, with a big-endian memory of
    0x20000 bytes whose block has exactly that size. *)
Lemma main_create_ok d mem_block cycle reg_block :
  trace_ok 2 (main_trace d) -> Forall is_u8 mem_block ->
  Z.of_nat (length mem_block) = MEMORY_SIZE -> regs_ok reg_block ->
  exists s, main_create d mem_block cycle reg_block = Ret tt s /\
    machine_ok s /\ mem_roomy 0 (mem s) /\ pc_of s = 0 /\ mode_of (regs s) = SVC /\
    mem s = Memory mem_block MEMORY_SIZE 1.
Proof.
  intros Ht Hmem Hlen Hregs. set (mm := memory_create (Some mem_block) MEMORY_SIZE 1).
  unfold MEMORY_SIZE in *. assert (Hmm : mem_ok mm) by (split; [done|]; simpl; lia).
  destruct (arm_create_ok (Machine (ArmCore cycle reg_block) mm (main_trace d) 0) cycle reg_block mm)
    as (s & Es & Hok & Em & _ & Epc & _ & Emode & _ & _); [done..|].
  exists s. split; [exact Es|]. rewrite Em. split; [done|]. split; [|done].
  split; [done|]. simpl. split; [done|lia].
Qed.

(** What [gdb_init] prints. *)
Definition start_message (opts : list (Z * string)) : list Z :=
  if bool_decide (gdb_file ∈ debug_names opts)
  then debug_head gdb_file 393 ++ chars ("gdb protocol handlers initialization" +:+ newline) else [].

Lemma gdb_init_ok l m opts :
  debug_ok l (files m) -> l ≡ₚ debug_names opts -> printed m = [] ->
  exists m', gdb_init m = Ret tt m' /\ files m' = files m /\ printed m' = start_message opts.
Proof.
  intros Hb Hp E. unfold gdb_init. eexists. split.
  { apply (debug_said all_messages); [by exists l|reflexivity]. }
  split; [apply files_said|]. unfold start_message, said, selected. cbn [lget all_messages]. unfold id. rewrite (is_debugged_ok l _ Hb gdb_file).
  assert (Ed : bool_decide (gdb_file ∈ l) = bool_decide (gdb_file ∈ debug_names opts))
    by (apply bool_decide_ext; by rewrite Hp).
  rewrite Ed. destruct (bool_decide (gdb_file ∈ debug_names opts)); [|done].
  change (nz (b2z true)) with true. cbv iota. unfold set_printed. cbn [printed]. by rewrite E.
Qed.

(** Options that [main] knows all take effect. *)
Lemma main_prepare_ok argv0 fopen err opts :
  Forall (opt_ok fopen) opts -> (length (debug_names opts) <= 64)%nat ->
  exists d l, main_prepare argv0 fopen err opts main_init = Ret tt d /\
    gdb_port d = port_of 103 0 opts /\ irq_port d = port_of 105 0 opts /\
    trace_file d = file_of None opts /\ main_stderr d = [] /\
    trace_flags (main_trace d) = fold_left Z.lor (flag_of <$> opts) 0 /\
    debug_ok l (main_debug d) /\ l ≡ₚ debug_names opts /\
    printed (main_log d) = start_message opts /\ trace_ok 2 (main_trace d).
Proof.
  intros Ho Hn.
  destruct (main_options_ok argv0 fopen err opts main_init [])
    as (d & l & E & (E1 & E2 & E3 & E4 & E6 & E5) & Hb & Hp); [done|apply debug_init_ok|simpl; lia|].
  rewrite app_nil_r in Hp. destruct (gdb_init_ok l (main_log d) opts Hb Hp E6) as (m & Em & Ef & Epr).
  exists (set_main_trace (set_output (Some []) (main_trace d)) (set_main_log m d)), l.
  split.
  { unfold main_prepare. rewrite (bind_ret _ _ _ _ _ E). by rewrite (bind_ret _ _ _ _ _ (zoom_ret main_log_lens _ d _ _ Em)). }
  simpl. rewrite E5. do 5 (split; [done|]). unfold main_debug. simpl. rewrite Ef.
  split; [exact Hb|]. split; [exact Hp|]. split; [exact Epr|].
  split_and!; [by eexists|done|done|simpl; lia..].
Qed.

(** An option that ends the program: its exit status and what it prints. *)
Definition exit_code (o : Z * string) : Z := if o.1 =? 104 then 0 else 1.
Definition exit_message (argv0 err : string) (o : Z * string) : list string :=
  if o.1 =? 104 then [usage_text argv0]
  else if o.1 =? 116 then ["Trace file: " +:+ err +:+ newline]
  else ["Unrecognized option " +:+ String (ascii_of_N (Z.to_N (u8 o.1))) newline; usage_text argv0].

Lemma main_option_stops argv0 fopen err o d :
  ~ opt_ok fopen o -> main_stderr d = [] ->
  exists d', main_option argv0 fopen err o.1 o.2 d = Exit (exit_code o) d' /\
    main_stderr d' = exit_message argv0 err o.
Proof.
  intros Ho Hd. destruct o as [k arg]. unfold opt_ok in Ho. simpl in *.
  unfold main_option, exit_code, exit_message. simpl.
  assert (Hk : forall c, c ∈ [103; 105; 114; 109; 115; 112; 100] -> (k =? c) = false).
  { intros c Hc. apply Z.eqb_neq. intros ->. apply Ho. by left. }
  rewrite (Hk 103), (Hk 105), (Hk 114), (Hk 109), (Hk 115), (Hk 112), (Hk 100) by (repeat constructor).
  destruct (Z.eqb_spec k 104) as [-> |H104]; [eexists; split; [reflexivity|]; simpl; by rewrite Hd|].
  destruct (Z.eqb_spec k 116) as [-> |H116].
  - destruct (fopen arg); [naive_solver|]. eexists. split; [reflexivity|]. simpl. by rewrite Hd.
  - eexists. split; [reflexivity|]. simpl. by rewrite Hd.
Qed.

Lemma main_options_app argv0 fopen err pre post d d' :
  main_options argv0 fopen err pre d = Ret tt d' ->
  main_options argv0 fopen err (pre ++ post)%list d = main_options argv0 fopen err post d'.
Proof.
  revert d. induction pre as [|[k arg] pre IH]; intros d E; [by injection E as <-|].
  simpl in *. unfold bind in *. destruct (main_option _ _ _ _ _ d) as [[] d1|? ?|?|?]; try done. by apply IH.
Qed.

(** The first option that ends the program ends it, after those before it. *)
Lemma main_prepare_stops argv0 fopen err pre o post :
  Forall (opt_ok fopen) pre -> ~ opt_ok fopen o -> (length (debug_names pre) <= 64)%nat ->
  exists d, main_prepare argv0 fopen err (pre ++ o :: post)%list main_init = Exit (exit_code o) d /\
    main_stderr d = exit_message argv0 err o.
Proof.
  intros Hpre Ho Hn.
  destruct (main_options_ok argv0 fopen err pre main_init [])
    as (d & l & E & (_ & _ & _ & Hd & _) & _); [done|apply debug_init_ok|simpl; lia|].
  destruct (main_option_stops argv0 fopen err o d Ho Hd) as (d' & E' & Hd').
  exists d'. split; [|done]. unfold main_prepare. apply bind_exit. rewrite (main_options_app _ _ _ _ _ _ _ E).
  destruct o. by apply bind_exit.
Qed.

End Options.

(** ** Threads and their lock *)

Module Threads.
#[local] Open Scope list_scope.

Inductive thread : Type := GdbThread | IrqThread.

#[export] Instance thread_eq_dec : EqDecision thread.
Proof. solve_decision. Defined.

Section locked.
Context {S : Type}.

(** [pthread_mutex_lock], [pthread_mutex_unlock], an action on the shared
    data. *)
Inductive instr : Type :=
| Lock
| Unlock
| Act (c : M S unit).

(** A sequence of actions that needs the lock, and the programs that keep to it:
    the theorem on the threads has to show that theirs do. *)
Definition section : Type := list (M S unit).
Definition code (secs : list section) : list instr :=
  concat ((fun sec => Lock :: (Act <$> sec) ++ [Unlock]) <$> secs).

Record config : Type := Config {
  shared : S;
  holder : option thread;
  prog : thread -> list instr;
}.

Definition set_prog (t : thread) (p : list instr) (f : thread -> list instr) : thread -> list instr :=
  fun t' => if decide (t' = t) then p else f t'.

(** One step of one thread.  Nothing but its program keeps a thread from acting
    without the lock. *)
Inductive cstep : config -> config -> Prop :=
| step_lock t p c :
    prog c t = Lock :: p -> holder c = None ->
    cstep c (Config (shared c) (Some t) (set_prog t p (prog c)))
| step_unlock t p c :
    prog c t = Unlock :: p ->
    cstep c (Config (shared c) None (set_prog t p (prog c)))
| step_act t f p c s' :
    prog c t = Act f :: p -> f (shared c) = Ret tt s' ->
    cstep c (Config s' (holder c) (set_prog t p (prog c))).

Definition start (s : S) (programs : thread -> list instr) : config := Config s None programs.

Fixpoint run_acts (l : section) : M S unit :=
  match l with
  | [] => ret tt
  | c :: l' => c ;;; run_acts l'
  end.

(** Whole sections one after the other, each with its thread. *)
Definition run_order (order : list (thread * section)) : M S unit :=
  run_acts (run_acts ∘ snd <$> order).

(** The sections of one thread in an order. *)
Definition sections_of (t : thread) (order : list (thread * section)) : list section :=
  snd <$> filter (fun x => x.1 = t) order.
End locked.
Arguments instr : clear implicits.
Arguments section : clear implicits.
Arguments config : clear implicits.

(** ** Executions are serial *)

Section serial.
Context {S : Type} (s0 : S) (secs : thread -> list (section S)) (programs : thread -> list (instr S)).
Context (Hcode : forall t, programs t = code (secs t)).

Lemma run_acts_app (l l' : section S) s :
  run_acts (l ++ l') s = (run_acts l ;;; run_acts l') s.
Proof.
  revert s. induction l as [|c l IH]; intros s; simpl; [done|].
  unfold bind in *. by destruct (c s); [apply IH|..].
Qed.

Lemma run_acts_snoc (l : section S) c s s1 s2 :
  run_acts l s = Ret tt s1 -> c s1 = Ret tt s2 -> run_acts (l ++ [c]) s = Ret tt s2.
Proof. intros E E'. rewrite run_acts_app. unfold bind. rewrite E. simpl. unfold bind. by rewrite E'. Qed.

Lemma run_order_snoc order (x : thread * section S) s s1 s2 :
  run_order order s = Ret tt s1 -> run_acts x.2 s1 = Ret tt s2 ->
  run_order (order ++ [x]) s = Ret tt s2.
Proof. intros E E'. unfold run_order. rewrite fmap_app. by apply (run_acts_snoc _ _ _ s1). Qed.

Lemma sections_of_snoc t t' (sec : section S) order :
  sections_of t (order ++ [(t', sec)]) =
    (sections_of t order ++ if decide (t' = t) then [sec] else [])%list.
Proof.
  unfold sections_of. rewrite filter_app, fmap_app. f_equal. rewrite filter_cons. simpl.
  by destruct (decide (t' = t)).
Qed.

(** A thread outside its sections: [order] holds those it has run. *)
Definition outside (order : list (thread * section S)) (c : config S) (t : thread) : Prop :=
  exists rest, secs t = (sections_of t order ++ rest)%list /\ prog c t = code rest.

(** The actions [pre] of the current section were run, [todo] are left. *)
Definition inside (order : list (thread * section S)) (c : config S) (h : thread) (s1 : S) : Prop :=
  exists pre todo rest, run_acts pre s1 = Ret tt (shared c) /\
    secs h = (sections_of h order ++ (pre ++ todo) :: rest)%list /\
    prog c h = ((Act <$> todo) ++ Unlock :: code rest)%list.

Definition serial (c : config S) : Prop :=
  exists order s1, run_order order s0 = Ret tt s1 /\
    match holder c with
    | None => s1 = shared c /\ forall t, outside order c t
    | Some h => inside order c h s1 /\ forall t, t <> h -> outside order c t
    end.

Lemma set_prog_eq t p (f : thread -> list (instr S)) : set_prog t p f t = p.
Proof. unfold set_prog. by rewrite decide_True. Qed.
Lemma set_prog_ne t t' p (f : thread -> list (instr S)) : t' <> t -> set_prog t p f t' = f t'.
Proof. intros. unfold set_prog. by rewrite decide_False. Qed.

(** A thread outside its sections can only take the lock. *)
Lemma outside_next order c t i p :
  outside order c t -> prog c t = i :: p ->
  exists sec rest, i = Lock /\ p = ((Act <$> sec) ++ Unlock :: code rest)%list /\
    secs t = (sections_of t order ++ sec :: rest)%list.
Proof.
  intros ([|sec rest] & Es & Ep) E; rewrite Ep in E; [done|].
  cbn in E. injection E as <- <-. exists sec, rest. by rewrite <- app_assoc.
Qed.

Lemma outside_other order c s' h t u p :
  t <> u -> outside order c t -> outside order (Config s' h (set_prog u p (prog c))) t.
Proof.
  intros Hne (rest & Es & Ep). exists rest. split; [done|]. simpl. by rewrite set_prog_ne.
Qed.

Lemma serial_step c c' : serial c -> cstep c c' -> serial c'.
Proof.
  intros (order & s1 & Er & Hh) Hstep. destruct Hstep as [t p c E Eh|t p c E|t f p c s' E Ef].
  - rewrite Eh in Hh. destruct Hh as [-> Hout].
    destruct (outside_next _ _ _ _ _ (Hout t) E) as (sec & rest & _ & -> & Es).
    exists order, (shared c). split; [done|]. split; [|intros; by apply outside_other].
    exists [], sec, rest. simpl. by rewrite set_prog_eq.
  - destruct (holder c) as [h|]; cycle 1.
    { destruct Hh as [_ Hout]. destruct (outside_next _ _ _ _ _ (Hout t) E) as (? & ? & ? & _). done. }
    destruct Hh as [(pre & todo & rest & Ea & Es & Ep) Hout].
    destruct (decide (t = h)) as [->|Hne]; cycle 1.
    { destruct (outside_next _ _ _ _ _ (Hout t Hne) E) as (? & ? & ? & _). done. }
    rewrite Ep in E. destruct todo as [|a todo]; [|done]. injection E as <-. rewrite app_nil_r in Es.
    exists (order ++ [(h, pre)])%list, (shared c). split; [by apply (run_order_snoc _ _ _ s1)|].
    split; [done|]. intros t. destruct (decide (t = h)) as [->|Hne].
    + exists rest. simpl. rewrite set_prog_eq, sections_of_snoc, decide_True by done.
      by rewrite <- app_assoc.
    + destruct (Hout t Hne) as (rest' & Es' & Ep'). exists rest'. simpl.
      by rewrite set_prog_ne, sections_of_snoc, decide_False, app_nil_r by done.
  - destruct (holder c) as [h|] eqn:Eh; cycle 1.
    { destruct Hh as [_ Hout]. destruct (outside_next _ _ _ _ _ (Hout t) E) as (? & ? & ? & _). done. }
    destruct Hh as [(pre & todo & rest & Ea & Es & Ep) Hout].
    destruct (decide (t = h)) as [->|Hne]; cycle 1.
    { destruct (outside_next _ _ _ _ _ (Hout t Hne) E) as (? & ? & ? & _). done. }
    rewrite Ep in E. destruct todo as [|a todo]; [done|]. injection E as -> <-.
    exists order, s1. split; [done|]. simpl. split; [|intros; apply outside_other; auto].
    exists (pre ++ [f])%list, todo, rest. simpl. rewrite set_prog_eq, <- app_assoc.
    split_and!; [|done..]. by apply (run_acts_snoc _ _ _ (shared c)).
Qed.

Lemma serial_start : serial (start s0 programs).
Proof. exists [], s0. split; [done|]. split; [done|]. intros t. exists (secs t). by split; [|apply Hcode]. Qed.

Lemma serial_reachable c : rtc cstep (start s0 programs) c -> serial c.
Proof.
  intros Hr. apply (rtc_ind_r (R := cstep) serial (start s0 programs)); [apply serial_start| |done].
  intros c1 c2 _ Hs IH. by eapply serial_step.
Qed.

(** Only the holder of the lock acts. *)
Lemma holder_acts c t f p : serial c -> prog c t = Act f :: p -> holder c = Some t.
Proof.
  intros (order & s1 & Er & Hh) E. destruct (holder c) as [h|].
  - destruct Hh as [_ Hout]. destruct (decide (t = h)) as [->|Hne]; [done|].
    by destruct (outside_next _ _ _ _ _ (Hout t Hne) E) as (? & ? & ? & _).
  - by destruct (outside_next _ _ _ _ _ (proj2 Hh t) E) as (? & ? & ? & _).
Qed.

(** As long as a thread has something left to do some thread can take a step,
    unless the holder of the lock is at an action that does not return. *)
Lemma lock_progress c :
  serial c ->
  (forall t, prog c t = []) \/ (exists c', cstep c c') \/
  (exists t f p, holder c = Some t /\ prog c t = Act f :: p /\
     forall s', f (shared c) <> Ret tt s').
Proof.
  intros (order & s1 & Er & Hh). destruct (holder c) as [h|] eqn:Eh.
  - destruct Hh as [(pre & [|f todo] & rest & _ & _ & Ep) _]; cbn in Ep.
    + right; left. eexists. by eapply step_unlock.
    + destruct (f (shared c)) as [[] s'| | |] eqn:Ef.
      * right; left. eexists. by eapply step_act.
      * right; right. exists h, f. eexists. split_and!; [done..|]. by rewrite Ef.
      * right; right. exists h, f. eexists. split_and!; [done..|]. by rewrite Ef.
      * right; right. exists h, f. eexists. split_and!; [done..|]. by rewrite Ef.
  - destruct Hh as [_ Hout].
    assert (Hlock : forall t, prog c t = [] \/ exists c', cstep c c').
    { intros t. destruct (prog c t) as [|i p] eqn:Ep; [by left|right].
      destruct (outside_next _ _ _ _ _ (Hout t) Ep) as (? & ? & -> & _).
      eexists. by eapply step_lock. }
    destruct (Hlock GdbThread) as [EG|?]; [|by right; left].
    destruct (Hlock IrqThread) as [EI|?]; [|by right; left].
    left. by intros [].
Qed.
End serial.

(** ** Operations divided into actions *)

(** [acts] divides [op]. *)
Definition splits {S} (acts : section S) (op : M S unit) : Prop := forall s, run_acts acts s = op s.

(** [p] is the program [q] with each action divided into smaller ones. *)
Inductive divides {S} : list (instr S) -> list (instr S) -> Prop :=
| divides_nil : divides [] []
| divides_lock p q : divides p q -> divides (Lock :: p) (Lock :: q)
| divides_unlock p q : divides p q -> divides (Unlock :: p) (Unlock :: q)
| divides_act (acts : section S) op p q :
    splits acts op -> divides p q -> divides (map Act acts ++ p) (Act op :: q).

(** A program that does each of its operations under the lock still does so when
    they are divided. *)
Lemma divides_code {S} (ops : list (M S unit)) p :
  divides p (concat ((fun op => [Lock; Act op; Unlock]) <$> ops)) ->
  exists secs, p = code secs /\ Forall2 splits secs ops.
Proof.
  revert p. induction ops as [|op ops IH]; intros p Hd; cbn in Hd.
  { inversion Hd. by exists []. }
  inversion Hd as [|p1 q1 Hd1| |]; subst. inversion Hd1 as [| | |acts op' p2 q2 Hs Hd2]; subst.
  inversion Hd2 as [| |p3 q3 Hd3|]; subst. destruct (IH _ Hd3) as (secs & -> & HF).
  exists (acts :: secs). split; [|by constructor]. unfold code. simpl. by rewrite <- app_assoc.
Qed.

(** ** The two threads of the simulator *)

Section simulator.
Context `{Host} `{Wire} (room : Z).

(** What [irq_listener] does with a byte it has read. *)
Definition irq_byte (irq : Z) : list (instr gdb_protocol_data) :=
  [Lock; Act (in_machine (arm_exception irq)); Unlock].

(** How [gdb_packet_analysis] has a request [index] handled; without a handler it
    sends an empty answer, which touches nothing that the threads share. *)
Definition gdb_request (fuel : nat) (index : Z) (data : list Z) : list (instr gdb_protocol_data) :=
  match handler fuel index with
  | Some h => [Lock; Act (h data); Unlock]
  | None => []
  end.

(** The programs of the threads: requests for gdb's, bytes for the interrupts'. *)
Definition thread_program (fuel : nat) (requests : list (Z * list Z)) (irqs : list Z)
    (t : thread) : list (instr gdb_protocol_data) :=
  match t with
  | GdbThread => concat ((fun x => gdb_request fuel x.1 x.2) <$> requests)
  | IrqThread => concat (irq_byte <$> irqs)
  end.

(** The operations they consist of. *)
Definition operations (fuel : nat) (requests : list (Z * list Z)) (irqs : list Z)
    (t : thread) : list (M gdb_protocol_data unit) :=
  match t with
  | GdbThread => omap (fun x => (fun h => h x.2) <$> handler fuel x.1) requests
  | IrqThread => (fun irq => in_machine (arm_exception irq)) <$> irqs
  end.

(** The operations of a thread in an order of operations. *)
Definition of_thread {A} (t : thread) (order : list (thread * A)) : list A :=
  snd <$> filter (fun x => x.1 = t) order.

Lemma program_operations fuel requests irqs t :
  thread_program fuel requests irqs t =
  concat ((fun op => [Lock; Act op; Unlock]) <$> operations fuel requests irqs t).
Proof.
  destruct t; cbn [thread_program operations].
  - induction requests as [|[i d] l IH]; [done|]. cbn [omap list_omap]. rewrite fmap_cons. cbn [concat].
    rewrite IH. unfold gdb_request. cbn [fst snd]. by destruct (handler fuel i).
  - induction irqs as [|irq l IH]; [done|]. rewrite !fmap_cons. cbn [concat]. by rewrite IH.
Qed.

Lemma kept_run_acts {S} (I : S -> Prop) (l : list (M S unit)) :
  Forall (fun c => kept I c any) l -> kept I (run_acts l) any.
Proof.
  induction 1 as [|c l Hc _ IH]; simpl; [by apply kept_ret|]. apply kept_seq; [done|]. by intros _.
Qed.

Lemma kept_operations fuel requests irqs t op :
  op ∈ operations fuel requests irqs t -> kept (gdb_sound room) op any.
Proof.
  destruct t; simpl.
  - intros ([i d] & _ & E)%list_elem_of_omap. simpl in E.
    destruct (handler fuel i) eqn:Eh; [|done]. injection E as <-. by eapply keeps_handler.
  - intros (irq & -> & _)%list_elem_of_fmap. apply keeps_machine, kept_exception.
Qed.

(** An order of sections, as an order of the operations they divide. *)
Lemma undivided (order : list (thread * section gdb_protocol_data)) ops secs :
  (forall t, Forall2 splits (secs t) (ops t)) ->
  (forall t, exists rest, secs t = sections_of t order ++ rest) ->
  exists order' : list (thread * M gdb_protocol_data unit), (forall s, run_acts (snd <$> order') s = run_order order s) /\
    forall t, exists rest, ops t = of_thread t order' ++ rest.
Proof.
  revert ops secs. induction order as [|[u sec] order IH]; intros ops secs HF Hsecs.
  { exists []. split; [done|]. intros t. by exists (ops t). }
  pose proof (Hsecs u) as (rest & Es). unfold sections_of in Es.
  rewrite filter_cons_True in Es by done. cbn in Es.
  pose proof (HF u) as HFu. rewrite Es in HFu.
  destruct (ops u) as [|op opsu] eqn:Eo; [by inversion HFu|]. apply Forall2_cons in HFu as [Hop HFu].
  destruct (IH (fun t => if decide (t = u) then opsu else ops t)
               (fun t => if decide (t = u) then sections_of u order ++ rest else secs t))
    as (order' & Hrun & Hpre).
  - intros t. destruct (decide (t = u)) as [->|]; [exact HFu|apply HF].
  - intros t. destruct (decide (t = u)) as [->|Hne]; [by exists rest|].
    destruct (Hsecs t) as (rest' & Es'). exists rest'. rewrite Es'. unfold sections_of at 1.
    rewrite filter_cons_False by (simpl; congruence). done.
  - exists ((u, op) :: order'). split.
    + intros s. unfold run_order in *. cbn. unfold bind. rewrite <- (Hop s).
      destruct (run_acts sec s); [apply Hrun|done..].
    + intros t. destruct (Hpre t) as (rest' & E'). exists rest'. unfold of_thread in *.
      destruct (decide (t = u)) as [->|Hne].
      * rewrite filter_cons_True by done. rewrite Eo. cbn. by f_equal.
      * rewrite filter_cons_False by (simpl; congruence). done.
Qed.

(** C12: Commands and interrupts together.  The thread of gdb has any requests
    handled and the thread of interrupts raises any exceptions, each operation
    divided into smaller actions in any way.  In every interleaving, only the
    thread that holds the lock acts on the shared data; whenever the lock is free
    the shared data are those of running whole handlers and whole exceptions one
    after the other, each thread's in its own order, and the machine is well
    formed; and there is no deadlock: a thread can go on, unless all is done or
    the holder of the lock is at an action that does not return.  This is until
    [main] releases the data, which it does without the lock when the thread of
    gdb has ended. *)
Theorem interleaving_sound fuel g0 requests irqs programs c :
  machine_ok (machine_of g0) -> mem_roomy room (mem (machine_of g0)) ->
  (forall t, divides (programs t) (thread_program fuel requests irqs t)) ->
  rtc cstep (start g0 programs) c ->
  (forall t f p, prog c t = Act f :: p -> holder c = Some t) /\
  (holder c = None -> exists order : list (thread * M gdb_protocol_data unit),
     run_acts (snd <$> order) g0 = Ret tt (shared c) /\
     (forall t, exists rest, operations fuel requests irqs t = of_thread t order ++ rest) /\
     machine_ok (machine_of (shared c)) /\ mem_roomy room (mem (machine_of (shared c)))) /\
  ((forall t, prog c t = []) \/ (exists c', cstep c c') \/
   (exists t f p, holder c = Some t /\ prog c t = Act f :: p /\ forall s', f (shared c) <> Ret tt s')).
Proof.
  intros Hok Hm Hdiv Hr.
  assert (Hex : forall t, exists secs, programs t = code secs /\
    Forall2 splits secs (operations fuel requests irqs t)).
  { intros t. apply divides_code. rewrite <- program_operations. apply Hdiv. }
  destruct (Hex GdbThread) as (sg & Eg & Fg), (Hex IrqThread) as (si & Ei & Fi).
  set (secs t := match t with GdbThread => sg | IrqThread => si end).
  assert (Hcode : forall t, programs t = code (secs t)) by (by intros []).
  pose proof (serial_reachable g0 secs programs Hcode c Hr) as Hs.
  split; [intros t f p; by apply (holder_acts g0 secs)|]. split; [|by apply (lock_progress g0 secs)].
  intros Eh. destruct Hs as (order & s1 & Er & Hh). rewrite Eh in Hh. destruct Hh as [-> Hout].
  destruct (undivided order (operations fuel requests irqs) secs) as (order' & Hrun & Hpre).
  { by intros []. }
  { intros t. destruct (Hout t) as (rest & Es & _). by exists rest. }
  exists order'. rewrite Hrun. split; [exact Er|]. split; [done|].
  rewrite <- Hrun in Er.
  refine (proj2 (kept_run_acts (gdb_sound room) _ _ g0 tt _ (conj Hok Hm) Er)).
  apply Forall_fmap, Forall_forall. intros x Hx. destruct (Hpre x.1) as (rest & Ex).
  eapply (kept_operations fuel requests irqs x.1). rewrite Ex. apply elem_of_app. left.
  unfold of_thread. apply list_elem_of_fmap_2, list_elem_of_filter. done.
Qed.
End simulator.

End Threads.

(** ** Witnesses *)

(** A step of gdb's thread against an interrupt. *)
#[local] Existing Instance wire_up.

Definition gdb_b : gdb_protocol_data := gdb_init_data machine_b (replicate 1024 0) no_messages.
Definition program_ex : Threads.thread -> list (Threads.instr gdb_protocol_data) :=
  Threads.thread_program (H := host0) 3 [(115, [])] [INTERRUPT].

(** The interrupt first, the command not yet. *)
Definition config_ex : Threads.config gdb_protocol_data :=
  Threads.Config
    (match in_machine (arm_exception INTERRUPT) gdb_b with Ret _ g => g | _ => gdb_b end) None
    (Threads.set_prog Threads.IrqThread []
       (Threads.set_prog Threads.IrqThread [Threads.Unlock]
          (Threads.set_prog Threads.IrqThread
             [Threads.Act (in_machine (arm_exception INTERRUPT)); Threads.Unlock] program_ex))).

Lemma config_ex_reached : rtc Threads.cstep (Threads.start gdb_b program_ex) config_ex.
Proof.
  eapply rtc_l; [by eapply (Threads.step_lock Threads.IrqThread)|].
  eapply rtc_l; [eapply (Threads.step_act Threads.IrqThread); [reflexivity|vm_compute; reflexivity]|].
  eapply rtc_l; [by eapply (Threads.step_unlock Threads.IrqThread)|]. apply rtc_refl.
Qed.

Lemma program_ex_divides t : Threads.divides (program_ex t) (program_ex t).
Proof.
  assert (Hd : forall op : M gdb_protocol_data unit,
    Threads.divides [Threads.Lock; Threads.Act op; Threads.Unlock] [Threads.Lock; Threads.Act op; Threads.Unlock]).
  { intros op. constructor. apply (Threads.divides_act [op]); [|repeat constructor].
    intros s. simpl. unfold bind. by destruct (op s) as [[]| | |]. }
  destruct t; apply Hd.
Qed.

Lemma interleaving_sound_witness :
  exists order : list (Threads.thread * M gdb_protocol_data unit), Threads.run_acts (snd <$> order) gdb_b = Ret tt (Threads.shared config_ex) /\
    machine_ok (machine_of (Threads.shared config_ex)).
Proof.
  destruct (Threads.interleaving_sound (H := host0) 3 0 gdb_b [(115, [])] [INTERRUPT] program_ex
    config_ex (proj1 machine_b_ok) (proj2 machine_b_ok) program_ex_divides config_ex_reached)
    as (_ & H1 & _).
  destruct (H1 eq_refl) as (order & H2 & _ & H3 & _). exists order. exact (conj H2 H3).
Defined.
