(* ===== verification/CommandLine.v ===== *)
(** * The command line of [arm_simulator.c]

    The table of long options and the string of short ones that [main] passes to
    [getopt_long], what [getopt_long] makes of the arguments of the program, and
    the start of the program from its command line.

    [getopt_long] is the C library's: it permutes, so that operands may stand
    between the options; long options may be abbreviated and have their argument
    in the same word, after [=]; short options may be grouped; [--] ends the
    options.  The messages it prints itself about the words it does not
    understand are left out; it answers ['?'] to them.  With [POSIXLY_CORRECT] in
    the environment it would stop at the first operand, which is left out too.
    The theorem on [main] takes the options that are delivered as they are. *)
From S2P Require Import Prelude CInt Constants Memory Registers Format Trace Core CoreFacts Exception Safety CString Debug DebugMessages Simulator.
From Stdlib Require Import Ascii.

#[local] Open Scope string_scope.
#[local] Open Scope Z_scope.

(** ** The options of [main] *)

Definition code (c : ascii) : Z := Z.of_N (N_of_ascii c).

(** A long option: its name, whether it has an argument, its character. *)
Record long_option : Type := LongOption {
  name : string;
  has_arg : bool;
  val : ascii;
}.

#[export] Instance long_option_eq_dec : EqDecision long_option.
Proof. solve_decision. Defined.

Definition longopts : list long_option :=
  [LongOption "gdb-port" true "g";
   LongOption "irq-port" true "i";
   LongOption "trace-file" true "t";
   LongOption "trace-registers" false "r";
   LongOption "trace-memory" false "m";
   LongOption "trace-state" false "s";
   LongOption "trace-position" false "p";
   LongOption "help" false "h";
   LongOption "debug" true "d"].

Definition optstring : string := "g:i:ht:rmspd:".

(** ** [getopt_long] *)

(** A short option of [optstring]: whether it has an argument. *)
Fixpoint short_arg (spec : string) (c : ascii) : option bool :=
  match spec with
  | EmptyString => None
  | String x spec' =>
      if Ascii.eqb x c then Some (match spec' with String ":" _ => true | _ => false end)
      else short_arg spec' c
  end.

Definition short_option (c : ascii) : option bool :=
  if Ascii.eqb c ":" || Ascii.eqb c ";" then None else short_arg optstring c.

#[local] Arguments short_option : simpl never.

(** The name before the first [=] and the argument after it. *)
Fixpoint split_eq (s : string) : string * option string :=
  match s with
  | EmptyString => ("", None)
  | String c s' =>
      if Ascii.eqb c "=" then ("", Some s')
      else let r := split_eq s' in (String c r.1, r.2)
  end.

(** The option called [s]: the one of that name, or else the options whose names
    start with [s] when they all mean the same. *)
Definition find_long (s : string) : option long_option :=
  match filter (fun o => name o = s) longopts with
  | o :: _ => Some o
  | [] =>
      match filter (fun o => String.prefix s (name o) = true) longopts with
      | [] => None
      | o :: rest =>
          if bool_decide (Forall (fun o' => has_arg o' = has_arg o /\ val o' = val o) rest)
          then Some o else None
      end
  end.

Definition unrecognised : Z * string := (code "?", "").

(** What a word delivers: options, and at its end perhaps one whose argument is
    the next word. *)
Record word : Type := Word {
  delivers : list (Z * string);
  pending : option ascii;
}.

(** [--] is followed by [s]. *)
Definition long_word (s : string) : word :=
  let p := split_eq s in
  match find_long p.1, p.2 with
  | None, _ => Word [unrecognised] None
  | Some o, None => if has_arg o then Word [] (Some (val o)) else Word [(code (val o), "")] None
  | Some o, Some arg => if has_arg o then Word [(code (val o), arg)] None else Word [unrecognised] None
  end.

(** [-] is followed by [s], a group of short options. *)
Fixpoint short_word (s : string) : word :=
  match s with
  | EmptyString => Word [] None
  | String c s' =>
      match short_option c with
      | None => let w := short_word s' in Word (unrecognised :: delivers w) (pending w)
      | Some false => let w := short_word s' in Word ((code c, "") :: delivers w) (pending w)
      | Some true =>
          match s' with
          | EmptyString => Word [] (Some c)
          | _ => Word [(code c, s')] None
          end
      end
  end.

(** What a word of the command line is. *)
Inductive shape : Type :=
| Operand
| EndOfOptions                 (* [--] *)
| Long (s : string)            (* [--s] *)
| Short (s : string).          (* [-s] *)

Definition shape_of (a : string) : shape :=
  match a with
  | String c1 (String c2 s) =>
      if negb (Ascii.eqb c1 "-") then Operand
      else if negb (Ascii.eqb c2 "-") then Short (String c2 s)
      else match s with EmptyString => EndOfOptions | _ => Long s end
  | _ => Operand
  end.

(** The options that the calls of [getopt_long] deliver, up to the call that
    returns [-1].  The argument of an option without one is null; here it is the
    empty string, which [main] does not look at. *)
Fixpoint getopt_long (argv : list string) : list (Z * string) :=
  match argv with
  | [] => []
  | a :: rest =>
      let options (w : word) :=
        match pending w, rest with
        | None, _ => (delivers w ++ getopt_long rest)%list
        | Some c, [] => (delivers w ++ [unrecognised])%list
        | Some c, arg :: rest' => (delivers w ++ (code c, arg) :: getopt_long rest')%list
        end in
      match shape_of a with
      | Operand => getopt_long rest
      | EndOfOptions => []
      | Long s => options (long_word s)
      | Short s => options (short_word s)
      end
  end.

(** [main] up to [set_trace_file], from the arguments after the program's name. *)
Definition main_arguments (argv0 : string) (fopen : string -> bool) (fopen_error : string)
    (args : list string) : M Options.main_data unit :=
  Options.main_prepare argv0 fopen fopen_error (getopt_long args).

(** ** How options are spelled *)

(** [s] is the beginning of the name of [o] and of no other option. *)
Definition abbreviates (s : string) (o : long_option) : Prop :=
  filter (fun o' => String.prefix s (name o') = true) longopts = [o].

Definition flags (s : string) : list (Z * string) :=
  (fun c => (code c, "")) <$> String.list_ascii_of_string s.

Definition all_flags (s : string) : Prop :=
  Forall (fun c => short_option c = Some false) (String.list_ascii_of_string s).

(** The command line [args] spells the options [opts]. *)
Inductive spells : list (Z * string) -> list string -> Prop :=
| spells_nil : spells [] []
| spells_end args : spells [] ("--" :: args)
| spells_operand a opts args :
    shape_of a = Operand -> spells opts args -> spells opts (a :: args)
| spells_long s o opts args :
    abbreviates s o -> has_arg o = false -> spells opts args ->
    spells ((code (val o), "") :: opts) (("--" +:+ s) :: args)
| spells_long_eq s o arg opts args :
    abbreviates s o -> has_arg o = true -> spells opts args ->
    spells ((code (val o), arg) :: opts) (("--" +:+ s +:+ "=" +:+ arg) :: args)
| spells_long_arg s o arg opts args :
    abbreviates s o -> has_arg o = true -> spells opts args ->
    spells ((code (val o), arg) :: opts) (("--" +:+ s) :: arg :: args)
| spells_flags s opts args :
    all_flags s -> s <> "" -> spells opts args -> spells (flags s ++ opts) (("-" +:+ s) :: args)
| spells_attached s c arg opts args :
    all_flags s -> short_option c = Some true -> arg <> "" -> spells opts args ->
    spells (flags s ++ (code c, arg) :: opts) (("-" +:+ s +:+ String c arg) :: args)
| spells_short_arg s c arg opts args :
    all_flags s -> short_option c = Some true -> spells opts args ->
    spells (flags s ++ (code c, arg) :: opts) (("-" +:+ s +:+ String c "") :: arg :: args).

(** ** Lemmas *)

Fixpoint no_eq (s : string) : bool :=
  match s with
  | EmptyString => true
  | String c s' => negb (Ascii.eqb c "=") && no_eq s'
  end.

Lemma no_eq_prefix s t : String.prefix s t = true -> no_eq t = true -> no_eq s = true.
Proof.
  revert t. induction s as [|c s IH]; intros [|c' t]; simpl; try done.
  destruct (ascii_dec c c') as [-> |]; [|done]. intros Hp [Hc Ht]%andb_true_iff. rewrite Hc. simpl. by apply (IH t).
Qed.

Lemma split_no_eq s : no_eq s = true -> split_eq s = (s, None).
Proof. induction s as [|c s IH]; simpl; [done|]. destruct (Ascii.eqb c "="); [done|]. intros Hs. by rewrite IH. Qed.

Lemma split_eq_ok s arg : no_eq s = true -> split_eq (s +:+ "=" +:+ arg) = (s, Some arg).
Proof. induction s as [|c s IH]; simpl; [done|]. destruct (Ascii.eqb c "="); [done|]. intros Hs. by rewrite IH. Qed.

Lemma prefix_refl s : String.prefix s s = true.
Proof. induction s as [|c s IH]; simpl; [done|]. by destruct (ascii_dec c c). Qed.

Lemma abbreviates_elem s o : abbreviates s o -> o ∈ longopts /\ String.prefix s (name o) = true.
Proof.
  intros E. assert (Ho : o ∈ filter (fun o' => String.prefix s (name o') = true) longopts).
  { rewrite E. by left. }
  apply list_elem_of_filter in Ho. tauto.
Qed.

(** An option's name and its abbreviations find it. *)
Lemma abbreviates_find s o : abbreviates s o -> find_long s = Some o /\ no_eq s = true /\ s <> "".
Proof.
  intros E. destruct (abbreviates_elem s o E) as [Hin Hp]. split_and!.
  - unfold find_long. destruct (filter (fun o' => name o' = s) longopts) as [|o' l] eqn:En.
    + unfold abbreviates in E. by rewrite E.
    + assert (Ho : o' ∈ filter (fun o' => name o' = s) longopts) by (rewrite En; by left).
      apply list_elem_of_filter in Ho. destruct Ho as [Hn Ho].
      assert (H' : o' ∈ filter (fun o' => String.prefix s (name o') = true) longopts).
      { apply list_elem_of_filter. split; [|done]. rewrite Hn. apply prefix_refl. }
      unfold abbreviates in E. rewrite E in H'. apply list_elem_of_singleton in H'. by subst.
  - apply (no_eq_prefix s (name o)); [done|]. clear E Hp.
    assert (Hall : Forall (fun o => no_eq (name o) = true) longopts) by by repeat constructor.
    rewrite Forall_forall in Hall. by apply Hall.
  - intros ->. by compute in E.
Qed.

Lemma long_word_ok s o :
  abbreviates s o ->
  long_word s = (if has_arg o then Word [] (Some (val o)) else Word [(code (val o), "")] None) /\
  forall arg, has_arg o = true -> long_word (s +:+ "=" +:+ arg) = Word [(code (val o), arg)] None.
Proof.
  intros E. destruct (abbreviates_find s o E) as (Hf & Hn & _). unfold long_word. split.
  - rewrite split_no_eq by done. simpl. by rewrite Hf.
  - intros arg Ha. rewrite split_eq_ok by done. simpl. by rewrite Hf, Ha.
Qed.

Lemma shape_long s : s <> "" -> shape_of ("--" +:+ s) = Long s.
Proof. by destruct s. Qed.

Lemma short_word_flags s t :
  all_flags s ->
  short_word (s +:+ t) = Word (flags s ++ delivers (short_word t)) (pending (short_word t)).
Proof.
  unfold all_flags, flags. induction s as [|c s IH]; simpl; intros Hs.
  { change (short_word t = Word (delivers (short_word t)) (pending (short_word t))). by destruct (short_word t). }
  apply Forall_cons in Hs as [Hc Hs]. rewrite Hc, IH by done. done.
Qed.

(** A group starts with an option, so it is not [--]. *)
Lemma shape_group c b s : short_option c = Some b -> shape_of (String "-" (String c s)) = Short (String c s).
Proof.
  intros Hc. simpl. destruct (Ascii.eqb_spec c "-") as [-> |]; [|done]. by compute in Hc.
Qed.

Lemma shape_flags s t :
  all_flags s -> (s = "" -> exists c b u, t = String c u /\ short_option c = Some b) ->
  shape_of ("-" +:+ s +:+ t) = Short (s +:+ t).
Proof.
  intros Hs Ht. destruct s as [|c s].
  - destruct (Ht eq_refl) as (c & b & u & -> & Hc). by apply (shape_group c b).
  - apply Forall_cons in Hs as [Hc _]. by apply (shape_group c false).
Qed.

Lemma string_app_nil s : s +:+ "" = s.
Proof. induction s as [|c s IH]; [done|]. change (String c (s +:+ "") = String c s). by rewrite IH. Qed.

(** [getopt_long] delivers what the command line spells. *)
Lemma getopt_spells opts args : spells opts args -> getopt_long args = opts.
Proof.
  induction 1 as [|args|a opts args Ha _ IH|s o opts args Hs Ho _ IH|s o arg opts args Hs Ho _ IH
    |s o arg opts args Hs Ho _ IH|s opts args Hs Hne _ IH|s c arg opts args Hs Hc Hne _ IH
    |s c arg opts args Hs Hc _ IH]; cbn [getopt_long]; try done.
  - by rewrite Ha.
  - rewrite shape_long by apply (abbreviates_find s o Hs). rewrite (proj1 (long_word_ok s o Hs)), Ho. simpl. by f_equal.
  - rewrite shape_long by (by destruct s). rewrite (proj2 (long_word_ok s o Hs)) by done. simpl. by f_equal.
  - rewrite shape_long by apply (abbreviates_find s o Hs). rewrite (proj1 (long_word_ok s o Hs)), Ho. simpl. by f_equal.
  - rewrite <- (string_app_nil s) at 1. rewrite shape_flags, short_word_flags by done. simpl. rewrite app_nil_r. by f_equal.
  - rewrite shape_flags, short_word_flags by (done || intros _; by eexists _, _, _).
    cbn [short_word]. rewrite Hc. destruct arg; [done|]. simpl. rewrite <- app_assoc. simpl. by do 2 f_equal.
  - rewrite shape_flags, short_word_flags by (done || intros _; by eexists _, _, _).
    cbn [short_word]. rewrite Hc. simpl. rewrite app_nil_r. by do 2 f_equal.
Qed.

(** Every option delivered is one of [main]'s, or ['?']. *)
Definition known (o : Z * string) : Prop :=
  o.1 ∈ [103; 105; 104; 116; 114; 109; 115; 112; 100] \/ o = unrecognised.

Lemma short_known c b arg : short_option c = Some b -> known (code c, arg).
Proof.
  unfold short_option, known, optstring. destruct (Ascii.eqb_spec c ":") as [|H1]; [done|].
  destruct (Ascii.eqb_spec c ";") as [|H2]; [done|]. cbn [orb short_arg].
  repeat match goal with |- context [Ascii.eqb ?x c] => destruct (Ascii.eqb_spec x c) as [<- |] end;
    try done; intros _; left; apply (bool_decide_eq_true_1 _); reflexivity.
Qed.

Lemma find_known s o arg : find_long s = Some o -> known (code (val o), arg).
Proof.
  intros E. assert (Ho : o ∈ longopts).
  { unfold find_long in E. destruct (filter _ longopts) as [|o' l] eqn:E1.
    - destruct (filter (fun o => String.prefix s (name o) = true) longopts) as [|o' l] eqn:E2; [done|].
      case_match; [|done]. injection E as <-.
      apply (list_elem_of_filter (fun o => String.prefix s (name o) = true)). rewrite E2. by left.
    - injection E as <-. apply (list_elem_of_filter (fun o => name o = s)). rewrite E1. by left. }
  assert (Hall : Forall (fun o => known (code (val o), arg)) longopts).
  { repeat constructor; apply (bool_decide_eq_true_1 _); reflexivity. }
  rewrite Forall_forall in Hall. by apply Hall.
Qed.

Definition known_word (w : word) : Prop :=
  Forall known (delivers w) /\ forall c arg, pending w = Some c -> known (code c, arg).

Lemma known_unrecognised : known unrecognised.
Proof. by right. Qed.

Lemma known_one o : known o -> known_word (Word [o] None).
Proof. intros Ho. split; [by constructor|done]. Qed.

Lemma known_cons o w : known o -> known_word w -> known_word (Word (o :: delivers w) (pending w)).
Proof. intros Ho [Hw Hp]. split; [by constructor|done]. Qed.

Create HintDb known.
#[local] Hint Resolve known_unrecognised known_one known_cons short_known find_known : known.

Lemma long_word_known s : known_word (long_word s).
Proof.
  unfold long_word. destruct (find_long (split_eq s).1) as [o|] eqn:E; [|auto with known].
  destruct (split_eq s).2; destruct (has_arg o); eauto with known.
  split; [constructor|]. intros c arg [= <-]. eauto with known.
Qed.

Lemma short_word_known s : known_word (short_word s).
Proof.
  induction s as [|c s IH]; [split; [constructor|done]|]. cbn [short_word].
  destruct (short_option c) as [[]|] eqn:E; eauto with known.
  destruct s; [|eauto with known]. split; [constructor|]. intros c' arg [= <-]. eauto with known.
Qed.

Lemma getopt_known args : Forall known (getopt_long args).
Proof.
  induction args as [args IH] using (induction_ltof1 _ (@length string)). unfold ltof in IH.
  destruct args as [|a rest]; [constructor|]. cbn [getopt_long].
  assert (Hw : forall w, known_word w ->
    Forall known match pending w, rest with
                 | None, _ => (delivers w ++ getopt_long rest)%list
                 | Some c, [] => (delivers w ++ [unrecognised])%list
                 | Some c, arg :: rest' => (delivers w ++ (code c, arg) :: getopt_long rest')%list
                 end).
  { intros w [Hw Hp]. destruct (pending w) as [c|], rest as [|arg rest]; (apply Forall_app; split; [done|]).
    - apply Forall_singleton. auto with known.
    - constructor; [by apply Hp|]. apply IH. simpl. lia.
    - constructor.
    - apply IH. simpl. lia. }
  destruct (shape_of a); [apply IH; simpl; lia|constructor| |];
    apply Hw; [apply long_word_known|apply short_word_known].
Qed.

(** ** The start of the program *)

(** The first option that ends the program. *)
Definition ends (fopen : string -> bool) (opts : list (Z * string)) : option (Z * string) :=
  head (filter (fun o => ~ Options.opt_ok fopen o) opts).

Lemma ends_none fopen opts : ends fopen opts = None -> Forall (Options.opt_ok fopen) opts.
Proof.
  unfold ends. intros E. apply Forall_forall. intros o Ho. destruct (decide (Options.opt_ok fopen o)) as [|Hn]; [done|].
  assert (Hf : o ∈ filter (fun o => ~ Options.opt_ok fopen o) opts) by by apply list_elem_of_filter.
  destruct (filter _ opts); [by apply not_elem_of_nil in Hf|done].
Qed.

Lemma ends_some fopen opts o :
  ends fopen opts = Some o ->
  exists pre post, opts = (pre ++ o :: post)%list /\ Forall (Options.opt_ok fopen) pre /\ ~ Options.opt_ok fopen o.
Proof.
  unfold ends. induction opts as [|o' opts IH]; [done|]. rewrite filter_cons. case_decide as Hd.
  - intros [= <-]. by exists [], opts.
  - intros E. destruct (IH E) as (pre & post & -> & Hpre & Ho). exists (o' :: pre), post.
    split; [done|]. split; [by constructor|done].
Qed.

Lemma debug_names_app l k :
  Options.debug_names (l ++ k) = (Options.debug_names l ++ Options.debug_names k)%list.
Proof. unfold Options.debug_names. by rewrite filter_app, fmap_app. Qed.

(** A known option that ends the program asks for help, names a trace file that
    cannot be opened, or was not understood. *)
Lemma known_ends fopen o :
  known o -> ~ Options.opt_ok fopen o ->
  o.1 = code "h" \/ (o.1 = code "t" /\ fopen o.2 = false) \/ o = unrecognised.
Proof.
  intros [Hk| ->] Ho; [|by right; right]. unfold Options.opt_ok in Ho.
  repeat (apply elem_of_cons in Hk as [Hk|Hk]); [..|by apply elem_of_nil in Hk]; rewrite Hk in Ho |- *;
    try (destruct Ho; left; by repeat constructor).
  - by left.
  - right; left. split; [done|]. destruct (fopen o.2); [|done]. destruct Ho. by right.
Qed.

(** C38: The start of [main] from the options that [getopt_long] delivers: any
    options of its table and string, and ['?'] for what it does not understand, with
    at most 64 files to debug.
    - If each option is understood and the trace file can be opened, [main] gets to
      the creation of the processor: ports, trace file, trace flags and debugged
      files are those of the options, nothing is printed but the debug message of
      [gdb_init], and whatever [malloc] leaves in its blocks the processor is well
      formed and at its reset vector, with a big-endian memory of 0x20000 bytes
      whose block has exactly that size.
    - Otherwise the first option that asks for help, names a file that cannot be
      opened or is not understood ends the program with its message and its
      status. *)
Theorem command_line argv0 fopen err opts mem_block cycle reg_block :
  Forall known opts -> (length (Options.debug_names opts) <= 64)%nat ->
  Forall is_u8 mem_block -> Z.of_nat (length mem_block) = Options.MEMORY_SIZE -> regs_ok reg_block ->
  match ends fopen opts with
  | None =>
      exists d l s, Options.main_prepare argv0 fopen err opts Options.main_init = Ret tt d /\
        (Options.gdb_port d = Options.port_of (code "g") 0 opts /\
         Options.irq_port d = Options.port_of (code "i") 0 opts /\
         Options.trace_file d = Options.file_of None opts /\ Options.main_stderr d = [] /\
         trace_flags (Options.main_trace d) = fold_left Z.lor (Options.flag_of <$> opts) 0 /\
         debug_ok l (Options.main_debug d) /\ l ≡ₚ Options.debug_names opts /\
         printed (Options.main_log d) = Options.start_message opts) /\
        Options.main_create d mem_block cycle reg_block = Ret tt s /\
        machine_ok s /\ mem_roomy 0 (mem s) /\ pc_of s = 0 /\ mode_of (regs s) = SVC /\
        mem s = Memory mem_block Options.MEMORY_SIZE 1
  | Some o =>
      (o.1 = code "h" \/ (o.1 = code "t" /\ fopen o.2 = false) \/ o = unrecognised) /\
      exists d, Options.main_prepare argv0 fopen err opts Options.main_init = Exit (Options.exit_code o) d /\
        Options.main_stderr d = Options.exit_message argv0 err o
  end.
Proof.
  intros Hk Hn Hmem Hlen Hregs. destruct (ends fopen opts) as [o|] eqn:E.
  - apply ends_some in E as (pre & post & Eo & Hpre & Ho). rewrite Eo in Hk, Hn |- *.
    rewrite debug_names_app, length_app in Hn. apply Forall_app in Hk as [_ [Hk _]%Forall_cons].
    split; [by apply known_ends|]. apply Options.main_prepare_stops; [done|done|lia].
  - destruct (Options.main_prepare_ok argv0 fopen err opts (ends_none _ _ E) Hn)
      as (d & l & Ed & H1 & H2 & H3 & H4 & H5 & H6 & H7 & H8 & Ht).
    destruct (Options.main_create_ok d mem_block cycle reg_block Ht Hmem Hlen Hregs) as (s & Es & Hs).
    by exists d, l, s.
Qed.

(** ** Witnesses *)

(** What [--gdb 1234 -rm --debug=arm.c] delivers. *)
Definition args_ex : list string := ["--gdb"; "1234"; "-rm"; "--debug=arm.c"].
Definition opts_ex : list (Z * string) := [(103, "1234"); (114, ""); (109, ""); (100, "arm.c")].

Example args_ex_delivers : getopt_long args_ex = opts_ex.
Proof. reflexivity. Qed.

Lemma command_line_witness :
  exists d, Options.main_prepare "armator" (fun _ => true) "" opts_ex Options.main_init = Ret tt d /\
    Options.gdb_port d = 1234 /\ trace_flags (Options.main_trace d) = 3.
Proof.
  destruct (command_line "armator" (fun _ => true) "" opts_ex
              (replicate (Z.to_nat Options.MEMORY_SIZE) 0) 0 (replicate 37 0))
    as (d & l & s & H1 & (H2 & _ & _ & _ & H3 & _) & _).
  - exact (getopt_known args_ex).
  - apply (bool_decide_eq_true_1 _). vm_compute. reflexivity.
  - apply Forall_replicate. unfold is_u8. lia.
  - rewrite length_replicate. reflexivity.
  - split; [reflexivity|]. apply Forall_replicate. unfold is_u32. lia.
  - exists d. split; [exact H1|]. split; [exact H2|exact H3].
Defined.
