(* ===== verification/Unix.v ===== *)
(** * [csapp.c]: the wrappers of the system calls

    The operating system is a parameter, [Kernel]: what a call answers, the
    codes [errno] and [h_errno], the texts of [strerror].  An answer is the value
    the call returns, with a null pointer as 0, and what it stores through the
    pointers it is given.  A process is the state of the system, the texts
    printed on standard error, and the calls made, oldest first.  Pointers to objects of
    the system (status words, sets of signals, semaphores) are numbers.
    [Pthread_exit], which does not return, is left out. *)
From S2P Require Import Prelude CInt Format.

#[local] Open Scope string_scope.
#[local] Open Scope Z_scope.

Definition NULL : Z := 0.
Definition EOF : Z := -1.
Definition SA_RESTART : Z := 0x10000000.

Record sockaddr_in : Type := SockAddr {
  sin_family : Z;
  sin_port : Z;
  s_addr : list Z;
}.

(** The calls of the system and of the C library that the wrappers check. *)
Inductive syscall : Type :=
| sc_fork
| sc_execve (filename : string) (argv : list string) (envp : list string)
| sc_wait (status : Z)
| sc_waitpid (pid : Z) (iptr : Z) (options : Z)
| sc_kill (pid : Z) (signum : Z)
| sc_pause
| sc_sleep (secs : Z)
| sc_alarm (seconds : Z)
| sc_setpgid (pid : Z) (pgid : Z)
| sc_getpgrp
| sc_sigprocmask (how : Z) (set : Z) (oldset : Z)
| sc_sigemptyset (set : Z)
| sc_sigfillset (set : Z)
| sc_sigaddset (set : Z) (signum : Z)
| sc_sigdelset (set : Z) (signum : Z)
| sc_sigismember (set : Z) (signum : Z)
| sc_open (pathname : string) (flags : Z) (mode : Z)
| sc_read (fd : Z) (count : Z)
| sc_write (fd : Z) (buf : list Z) (count : Z)
| sc_lseek (fildes : Z) (offset : Z) (whence : Z)
| sc_close (fd : Z)
| sc_select (n : Z) (readfds : Z) (writefds : Z) (exceptfds : Z) (timeout : Z)
| sc_dup2 (fd1 : Z) (fd2 : Z)
| sc_stat (filename : string) (buf : Z)
| sc_fstat (fd : Z) (buf : Z)
| sc_mmap (addr : Z) (len : Z) (prot : Z) (flags : Z) (fd : Z) (offset : Z)
| sc_munmap (start : Z) (length : Z)
| sc_malloc (size : Z)
| sc_realloc (ptr : Z) (size : Z)
| sc_calloc (nmemb : Z) (size : Z)
| sc_free (ptr : Z)
| sc_fclose (fp : Z)
| sc_fdopen (fd : Z) (type : string)
| sc_fopen (filename : string) (mode : string)
| sc_fputs (ptr : string) (stream : Z)
| sc_fwrite (ptr : list Z) (size : Z) (nmemb : Z) (stream : Z)
| sc_socket (domain : Z) (type : Z) (protocol : Z)
| sc_setsockopt (s : Z) (level : Z) (optname : Z) (optval : Z) (optlen : Z)
| sc_bind (sockfd : Z) (my_addr : sockaddr_in) (addrlen : Z)
| sc_listen (s : Z) (backlog : Z)
| sc_accept (s : Z) (addrlen : Z)
| sc_connect (sockfd : Z) (serv_addr : sockaddr_in) (addrlen : Z)
| sc_gethostbyname (name : string)
| sc_gethostbyaddr (addr : string) (len : Z) (type : Z)
| sc_pthread_create (tidp : Z) (attrp : Z) (routine : Z) (argp : Z)
| sc_pthread_cancel (tid : Z)
| sc_pthread_join (tid : Z) (thread_return : Z)
| sc_pthread_detach (tid : Z)
| sc_pthread_self
| sc_pthread_once (once_control : Z) (init_function : Z)
| sc_sem_init (sem : Z) (pshared : Z) (value : Z)
| sc_sem_wait (sem : Z)
| sc_sem_post (sem : Z)
| sc_sigaction (signum : Z) (handler : Z) (sa_flags : Z)
| sc_fgets (n : Z) (stream : Z)
| sc_fread (size : Z) (nmemb : Z) (stream : Z)
| sc_ferror (stream : Z)
| sc_getsockname (s : Z)
| sc_shutdown (s : Z) (how : Z)
| sc_mutex_init
| sc_mutex_lock
| sc_mutex_unlock.

Record answer : Type := Answer {
  rc : Z;
  out : list Z;
}.

Class Kernel (W : Type) : Type := {
  call : syscall -> W -> answer * W;
  errno_of : W -> Z;
  h_errno_of : W -> Z;
  strerror : Z -> string;
}.

Record process (W : Type) : Type := Process {
  world : W;
  stderr : list string;
  made : list (syscall * answer);
}.
Arguments Process {W} _ _ _.
Arguments world {W} _.
Arguments stderr {W} _.
Arguments made {W} _.

Section wrappers.
Context {W : Type} `{Kernel W}.

Definition sys (c : syscall) : M (process W) answer := fun s =>
  let '(a, w) := call c (world s) in
  Ret a (Process w (stderr s) (made s ++ [(c, a)])).

Definition say (line : string) (s : process W) : process W :=
  Process (world s) (stderr s ++ [line])%list (made s).

(** ** Error handling *)

Definition unix_error (msg : string) : M (process W) unit :=
  let! w := gets world in
  modify (say (msg +:+ ": " +:+ strerror (errno_of w) +:+ newline)) ;;;
  c_exit 0.

Definition posix_error (code : Z) (msg : string) : M (process W) unit :=
  modify (say (msg +:+ ": " +:+ strerror code +:+ newline)) ;;;
  c_exit 0.

Definition dns_error (msg : string) : M (process W) unit :=
  let! w := gets world in
  modify (say (msg +:+ ": DNS error " +:+ fmt_d (h_errno_of w) +:+ newline)) ;;;
  c_exit 0.

Definition app_error (msg : string) : M (process W) unit :=
  modify (say (msg +:+ newline)) ;;;
  c_exit 0.

(** ** The wrappers *)

Definition Fork : M (process W) Z :=
  let! r := sys sc_fork in
  when (rc r <? 0) (unix_error "Fork error") ;;;
  ret (rc r).

Definition Execve (filename : string) (argv : list string) (envp : list string) : M (process W) unit :=
  let! r := sys (sc_execve filename argv envp) in
  when (rc r <? 0) (unix_error "Execve error").

Definition Wait (status : Z) : M (process W) Z :=
  let! r := sys (sc_wait status) in
  when (rc r <? 0) (unix_error "Wait error") ;;;
  ret (rc r).

Definition Waitpid (pid : Z) (iptr : Z) (options : Z) : M (process W) Z :=
  let! r := sys (sc_waitpid pid iptr options) in
  when (rc r <? 0) (unix_error "Waitpid error") ;;;
  ret (rc r).

Definition Kill (pid : Z) (signum : Z) : M (process W) unit :=
  let! r := sys (sc_kill pid signum) in
  when (rc r <? 0) (unix_error "Kill error").

Definition Pause : M (process W) unit :=
  let! r := sys sc_pause in
  ret tt.

Definition Sleep (secs : Z) : M (process W) Z :=
  let! r := sys (sc_sleep secs) in
  when (u32 (rc r) <? 0) (unix_error "Sleep error") ;;;
  ret (u32 (rc r)).

Definition Alarm (seconds : Z) : M (process W) Z :=
  let! r := sys (sc_alarm seconds) in
  ret (u32 (rc r)).

Definition Setpgid (pid : Z) (pgid : Z) : M (process W) unit :=
  let! r := sys (sc_setpgid pid pgid) in
  when (rc r <? 0) (unix_error "Setpgid error").

Definition Getpgrp : M (process W) Z :=
  let! r := sys sc_getpgrp in
  ret (rc r).

Definition Sigprocmask (how : Z) (set : Z) (oldset : Z) : M (process W) unit :=
  let! r := sys (sc_sigprocmask how set oldset) in
  when (rc r <? 0) (unix_error "Sigprocmask error").

Definition Sigemptyset (set : Z) : M (process W) unit :=
  let! r := sys (sc_sigemptyset set) in
  when (rc r <? 0) (unix_error "Sigemptyset error").

Definition Sigfillset (set : Z) : M (process W) unit :=
  let! r := sys (sc_sigfillset set) in
  when (rc r <? 0) (unix_error "Sigfillset error").

Definition Sigaddset (set : Z) (signum : Z) : M (process W) unit :=
  let! r := sys (sc_sigaddset set signum) in
  when (rc r <? 0) (unix_error "Sigaddset error").

Definition Sigdelset (set : Z) (signum : Z) : M (process W) unit :=
  let! r := sys (sc_sigdelset set signum) in
  when (rc r <? 0) (unix_error "Sigdelset error").

Definition Sigismember (set : Z) (signum : Z) : M (process W) Z :=
  let! r := sys (sc_sigismember set signum) in
  when (rc r <? 0) (unix_error "Sigismember error") ;;;
  ret (rc r).

Definition Open (pathname : string) (flags : Z) (mode : Z) : M (process W) Z :=
  let! r := sys (sc_open pathname flags mode) in
  when (rc r <? 0) (unix_error "Open error") ;;;
  ret (rc r).

Definition Read (fd : Z) (count : Z) : M (process W) (Z * list Z) :=
  let! r := sys (sc_read fd count) in
  when (rc r <? 0) (unix_error "Read error") ;;;
  ret (rc r, out r).

Definition Write (fd : Z) (buf : list Z) (count : Z) : M (process W) Z :=
  let! r := sys (sc_write fd buf count) in
  when (rc r <? 0) (unix_error "Write error") ;;;
  ret (rc r).

Definition Lseek (fildes : Z) (offset : Z) (whence : Z) : M (process W) Z :=
  let! r := sys (sc_lseek fildes offset whence) in
  when (rc r <? 0) (unix_error "Lseek error") ;;;
  ret (rc r).

Definition Close (fd : Z) : M (process W) unit :=
  let! r := sys (sc_close fd) in
  when (rc r <? 0) (unix_error "Close error").

Definition Select (n : Z) (readfds : Z) (writefds : Z) (exceptfds : Z) (timeout : Z) : M (process W) Z :=
  let! r := sys (sc_select n readfds writefds exceptfds timeout) in
  when (rc r <? 0) (unix_error "Select error") ;;;
  ret (rc r).

Definition Dup2 (fd1 : Z) (fd2 : Z) : M (process W) Z :=
  let! r := sys (sc_dup2 fd1 fd2) in
  when (rc r <? 0) (unix_error "Dup2 error") ;;;
  ret (rc r).

Definition Stat (filename : string) (buf : Z) : M (process W) unit :=
  let! r := sys (sc_stat filename buf) in
  when (rc r <? 0) (unix_error "Stat error").

Definition Fstat (fd : Z) (buf : Z) : M (process W) unit :=
  let! r := sys (sc_fstat fd buf) in
  when (rc r <? 0) (unix_error "Fstat error").

Definition Mmap (addr : Z) (len : Z) (prot : Z) (flags : Z) (fd : Z) (offset : Z) : M (process W) Z :=
  let! r := sys (sc_mmap addr len prot flags fd offset) in
  when (rc r =? -1) (unix_error "mmap error") ;;;
  ret (rc r).

Definition Munmap (start : Z) (length : Z) : M (process W) unit :=
  let! r := sys (sc_munmap start length) in
  when (rc r <? 0) (unix_error "munmap error").

Definition Malloc (size : Z) : M (process W) Z :=
  let! r := sys (sc_malloc size) in
  when (rc r =? NULL) (unix_error "Malloc error") ;;;
  ret (rc r).

Definition Realloc (ptr : Z) (size : Z) : M (process W) Z :=
  let! r := sys (sc_realloc ptr size) in
  when (rc r =? NULL) (unix_error "Realloc error") ;;;
  ret (rc r).

Definition Calloc (nmemb : Z) (size : Z) : M (process W) Z :=
  let! r := sys (sc_calloc nmemb size) in
  when (rc r =? NULL) (unix_error "Calloc error") ;;;
  ret (rc r).

Definition Free (ptr : Z) : M (process W) unit :=
  let! r := sys (sc_free ptr) in
  ret tt.

Definition Fclose (fp : Z) : M (process W) unit :=
  let! r := sys (sc_fclose fp) in
  when (negb (rc r =? 0)) (unix_error "Fclose error").

Definition Fdopen (fd : Z) (type : string) : M (process W) Z :=
  let! r := sys (sc_fdopen fd type) in
  when (rc r =? NULL) (unix_error "Fdopen error") ;;;
  ret (rc r).

Definition Fopen (filename : string) (mode : string) : M (process W) Z :=
  let! r := sys (sc_fopen filename mode) in
  when (rc r =? NULL) (unix_error "Fopen error") ;;;
  ret (rc r).

Definition Fputs (ptr : string) (stream : Z) : M (process W) unit :=
  let! r := sys (sc_fputs ptr stream) in
  when (rc r =? EOF) (unix_error "Fputs error").

Definition Fwrite (ptr : list Z) (size : Z) (nmemb : Z) (stream : Z) : M (process W) unit :=
  let! r := sys (sc_fwrite ptr size nmemb stream) in
  when (rc r <? nmemb) (unix_error "Fwrite error").

Definition Socket (domain : Z) (type : Z) (protocol : Z) : M (process W) Z :=
  let! r := sys (sc_socket domain type protocol) in
  when (rc r <? 0) (unix_error "Socket error") ;;;
  ret (rc r).

Definition Setsockopt (s : Z) (level : Z) (optname : Z) (optval : Z) (optlen : Z) : M (process W) unit :=
  let! r := sys (sc_setsockopt s level optname optval optlen) in
  when (rc r <? 0) (unix_error "Setsockopt error").

Definition Bind (sockfd : Z) (my_addr : sockaddr_in) (addrlen : Z) : M (process W) unit :=
  let! r := sys (sc_bind sockfd my_addr addrlen) in
  when (rc r <? 0) (unix_error "Bind error").

Definition Listen (s : Z) (backlog : Z) : M (process W) unit :=
  let! r := sys (sc_listen s backlog) in
  when (rc r <? 0) (unix_error "Listen error").

Definition Accept (s : Z) (addrlen : Z) : M (process W) Z :=
  let! r := sys (sc_accept s addrlen) in
  when (rc r <? 0) (unix_error "Accept error") ;;;
  ret (rc r).

Definition Connect (sockfd : Z) (serv_addr : sockaddr_in) (addrlen : Z) : M (process W) unit :=
  let! r := sys (sc_connect sockfd serv_addr addrlen) in
  when (rc r <? 0) (unix_error "Connect error").

Definition Gethostbyname (name : string) : M (process W) answer :=
  let! r := sys (sc_gethostbyname name) in
  when (rc r =? NULL) (dns_error "Gethostbyname error") ;;;
  ret (r).

Definition Gethostbyaddr (addr : string) (len : Z) (type : Z) : M (process W) answer :=
  let! r := sys (sc_gethostbyaddr addr len type) in
  when (rc r =? NULL) (dns_error "Gethostbyaddr error") ;;;
  ret (r).

Definition Pthread_create (tidp : Z) (attrp : Z) (routine : Z) (argp : Z) : M (process W) unit :=
  let! r := sys (sc_pthread_create tidp attrp routine argp) in
  when (negb (rc r =? 0)) (posix_error (rc r) "Pthread_create error").

Definition Pthread_cancel (tid : Z) : M (process W) unit :=
  let! r := sys (sc_pthread_cancel tid) in
  when (negb (rc r =? 0)) (posix_error (rc r) "Pthread_cancel error").

Definition Pthread_join (tid : Z) (thread_return : Z) : M (process W) unit :=
  let! r := sys (sc_pthread_join tid thread_return) in
  when (negb (rc r =? 0)) (posix_error (rc r) "Pthread_join error").

Definition Pthread_detach (tid : Z) : M (process W) unit :=
  let! r := sys (sc_pthread_detach tid) in
  when (negb (rc r =? 0)) (posix_error (rc r) "Pthread_detach error").

Definition Pthread_self : M (process W) Z :=
  let! r := sys sc_pthread_self in
  ret (rc r).

Definition Pthread_once (once_control : Z) (init_function : Z) : M (process W) unit :=
  let! r := sys (sc_pthread_once once_control init_function) in
  ret tt.

Definition Sem_init (sem : Z) (pshared : Z) (value : Z) : M (process W) unit :=
  let! r := sys (sc_sem_init sem pshared value) in
  when (rc r <? 0) (unix_error "Sem_init error").

Definition P (sem : Z) : M (process W) unit :=
  let! r := sys (sc_sem_wait sem) in
  when (rc r <? 0) (unix_error "P error").

Definition V (sem : Z) : M (process W) unit :=
  let! r := sys (sc_sem_post sem) in
  when (rc r <? 0) (unix_error "V error").
(** [mask] is the address of [action.sa_mask]; the handlers are pointers to
    functions, the old one is what [sigaction] stores. *)
Definition Signal (mask signum handler : Z) : M (process W) Z :=
  sys (sc_sigemptyset mask) ;;;
  let! r := sys (sc_sigaction signum handler SA_RESTART) in
  when (rc r <? 0) (unix_error "Signal error") ;;;
  ret (default 0 (head (out r))).

Definition Fgets (n stream : Z) : M (process W) answer :=
  let! r := sys (sc_fgets n stream) in
  (if rc r =? NULL then
     let! e := sys (sc_ferror stream) in
     when (nz (rc e)) (app_error "Fgets error")
   else ret tt) ;;;
  ret r.

Definition Fread (size nmemb stream : Z) : M (process W) answer :=
  let! r := sys (sc_fread size nmemb stream) in
  (if rc r <? nmemb then
     let! e := sys (sc_ferror stream) in
     when (nz (rc e)) (unix_error "Fread error")
   else ret tt) ;;;
  ret r.
End wrappers.

(** ** Sockets: the values of the system's headers *)

Definition AF_INET : Z := 2.
Definition SOCK_STREAM : Z := 1.
Definition SOL_SOCKET : Z := 1.
Definition SO_REUSEADDR : Z := 2.
Definition SHUT_RDWR : Z := 2.
Definition INADDR_ANY : list Z := [0; 0; 0; 0].
Definition sizeof_sockaddr_in : Z := 16.
Definition sizeof_int : Z := 4.
Definition LISTENQ : Z := 1024.

Section clients.
Context {W : Type} `{Kernel W} `{Host}.

(** A port in the order of the network, as the host sees the number. *)
Definition htons (x : Z) : Z :=
  if host_big_endian then u16 x else u8 x * 2 ^ 8 + u8 (Z.shiftr x 8).
Definition ntohs (x : Z) : Z := htons x.

(** [bzero] of the structure. *)
Definition zero_addr : sockaddr_in := SockAddr 0 0 [0; 0; 0; 0].

(** [memcpy] of an address of [length a] bytes to [sin_addr], which has four. *)
Definition copy_address (a : list Z) (addr : sockaddr_in) : M (process W) sockaddr_in :=
  if (length a <=? 4)%nat
  then ret (SockAddr (sin_family addr) (sin_port addr) (a ++ drop (length a) (s_addr addr)))
  else undef OutOfBounds.

Definition open_clientfd (hostname : string) (port : Z) : M (process W) Z :=
  let! clientfd := sys (sc_socket AF_INET SOCK_STREAM 0) in
  if rc clientfd <? 0 then ret (-1) else
  let! hp := sys (sc_gethostbyname hostname) in
  if rc hp =? NULL then ret (-2) else
  let! addr := copy_address (out hp) (SockAddr AF_INET 0 [0; 0; 0; 0]) in
  let serveraddr := SockAddr (sin_family addr) (htons port) (s_addr addr) in
  let! r := sys (sc_connect (rc clientfd) serveraddr sizeof_sockaddr_in) in
  if rc r <? 0 then ret (-1) else ret (rc clientfd).

Definition open_listenfd (port : Z) : M (process W) Z :=
  let! listenfd := sys (sc_socket AF_INET SOCK_STREAM 0) in
  if rc listenfd <? 0 then ret (-1) else
  let! r := sys (sc_setsockopt (rc listenfd) SOL_SOCKET SO_REUSEADDR 1 sizeof_int) in
  if rc r <? 0 then ret (-1) else
  let serveraddr := SockAddr AF_INET (htons (u16 port)) INADDR_ANY in
  let! r := sys (sc_bind (rc listenfd) serveraddr sizeof_sockaddr_in) in
  if rc r <? 0 then ret (-1) else
  let! r := sys (sc_listen (rc listenfd) LISTENQ) in
  if rc r <? 0 then ret (-1) else ret (rc listenfd).

Definition Open_clientfd (hostname : string) (port : Z) : M (process W) Z :=
  let! rc := open_clientfd hostname port in
  when (rc <? 0)
    (if rc =? -1 then unix_error "Open_clientfd Unix error"
     else dns_error "Open_clientfd DNS error") ;;;
  ret rc.

Definition Open_listenfd (port : Z) : M (process W) Z :=
  let! rc := open_listenfd port in
  when (rc <? 0) (unix_error "Open_listenfd error") ;;;
  ret rc.
End clients.

(** ** Properties *)

Create HintDb wrappers.
#[export] Hint Unfold Fork Execve Wait Waitpid Kill Pause Sleep Alarm Setpgid Getpgrp
  Sigprocmask Sigemptyset Sigfillset Sigaddset Sigdelset Sigismember Open Read Write Lseek
  Close Select Dup2 Stat Fstat Mmap Munmap Malloc Realloc Calloc Free Fclose Fdopen Fopen
  Fputs Fwrite Socket Setsockopt Bind Listen Accept Connect Gethostbyname Gethostbyaddr
  Pthread_create Pthread_cancel Pthread_join Pthread_detach Pthread_self Pthread_once
  Sem_init P V : wrappers.

Section properties.
Context {W : Type} `{Kernel W}.

(** What a wrapper gives its caller: a number, unless it is [void], and the bytes
    stored through a pointer. *)
Definition value : Type := option Z * list Z.
Definition void (w : M (process W) unit) : M (process W) value := w ;;; ret (None, []).
Definition number (w : M (process W) Z) : M (process W) value :=
  let! v := w in ret (Some v, []).
Definition bytes (w : M (process W) (Z * list Z)) : M (process W) value :=
  let! v := w in ret (Some v.1, v.2).
Definition object (w : M (process W) answer) : M (process W) value :=
  let! v := w in ret (Some (rc v), out v).

(** The wrapper that makes just the call [c]. *)
Definition wrapper_of (c : syscall) : option (M (process W) value) :=
  match c with
  | sc_fork => Some (number Fork)
  | sc_execve filename argv envp => Some (void (Execve filename argv envp))
  | sc_wait status => Some (number (Wait status))
  | sc_waitpid pid iptr options => Some (number (Waitpid pid iptr options))
  | sc_kill pid signum => Some (void (Kill pid signum))
  | sc_pause => Some (void Pause)
  | sc_sleep secs => Some (number (Sleep secs))
  | sc_alarm seconds => Some (number (Alarm seconds))
  | sc_setpgid pid pgid => Some (void (Setpgid pid pgid))
  | sc_getpgrp => Some (number Getpgrp)
  | sc_sigprocmask how set oldset => Some (void (Sigprocmask how set oldset))
  | sc_sigemptyset set => Some (void (Sigemptyset set))
  | sc_sigfillset set => Some (void (Sigfillset set))
  | sc_sigaddset set signum => Some (void (Sigaddset set signum))
  | sc_sigdelset set signum => Some (void (Sigdelset set signum))
  | sc_sigismember set signum => Some (number (Sigismember set signum))
  | sc_open pathname flags mode => Some (number (Open pathname flags mode))
  | sc_read fd count => Some (bytes (Read fd count))
  | sc_write fd buf count => Some (number (Write fd buf count))
  | sc_lseek fildes offset whence => Some (number (Lseek fildes offset whence))
  | sc_close fd => Some (void (Close fd))
  | sc_select n readfds writefds exceptfds timeout => Some (number (Select n readfds writefds exceptfds timeout))
  | sc_dup2 fd1 fd2 => Some (number (Dup2 fd1 fd2))
  | sc_stat filename buf => Some (void (Stat filename buf))
  | sc_fstat fd buf => Some (void (Fstat fd buf))
  | sc_mmap addr len prot flags fd offset => Some (number (Mmap addr len prot flags fd offset))
  | sc_munmap start length => Some (void (Munmap start length))
  | sc_malloc size => Some (number (Malloc size))
  | sc_realloc ptr size => Some (number (Realloc ptr size))
  | sc_calloc nmemb size => Some (number (Calloc nmemb size))
  | sc_free ptr => Some (void (Free ptr))
  | sc_fclose fp => Some (void (Fclose fp))
  | sc_fdopen fd type => Some (number (Fdopen fd type))
  | sc_fopen filename mode => Some (number (Fopen filename mode))
  | sc_fputs ptr stream => Some (void (Fputs ptr stream))
  | sc_fwrite ptr size nmemb stream => Some (void (Fwrite ptr size nmemb stream))
  | sc_socket domain type protocol => Some (number (Socket domain type protocol))
  | sc_setsockopt s level optname optval optlen => Some (void (Setsockopt s level optname optval optlen))
  | sc_bind sockfd my_addr addrlen => Some (void (Bind sockfd my_addr addrlen))
  | sc_listen s backlog => Some (void (Listen s backlog))
  | sc_accept s addrlen => Some (number (Accept s addrlen))
  | sc_connect sockfd serv_addr addrlen => Some (void (Connect sockfd serv_addr addrlen))
  | sc_gethostbyname name => Some (object (Gethostbyname name))
  | sc_gethostbyaddr addr len type => Some (object (Gethostbyaddr addr len type))
  | sc_pthread_create tidp attrp routine argp => Some (void (Pthread_create tidp attrp routine argp))
  | sc_pthread_cancel tid => Some (void (Pthread_cancel tid))
  | sc_pthread_join tid thread_return => Some (void (Pthread_join tid thread_return))
  | sc_pthread_detach tid => Some (void (Pthread_detach tid))
  | sc_pthread_self => Some (number Pthread_self)
  | sc_pthread_once once_control init_function => Some (void (Pthread_once once_control init_function))
  | sc_sem_init sem pshared value => Some (void (Sem_init sem pshared value))
  | sc_sem_wait sem => Some (void (P sem))
  | sc_sem_post sem => Some (void (V sem))
  | _ => None
  end.

(** When a call has succeeded, by its documentation. *)
Definition succeeds (c : syscall) (a : answer) : bool :=
  match c with
  | sc_mmap _ _ _ _ _ _ => negb (rc a =? -1)
  | sc_malloc _ | sc_realloc _ _ | sc_calloc _ _ | sc_fdopen _ _ | sc_fopen _ _
  | sc_gethostbyname _ | sc_gethostbyaddr _ _ _ => negb (rc a =? NULL)
  | sc_fclose _ | sc_pthread_create _ _ _ _ | sc_pthread_cancel _ | sc_pthread_join _ _
  | sc_pthread_detach _ | sc_pthread_once _ _ => rc a =? 0
  | sc_fputs _ _ => negb (rc a =? EOF)
  | sc_fwrite _ _ nmemb _ => nmemb <=? rc a
  | sc_sleep _ | sc_alarm _ | sc_getpgrp | sc_free _ | sc_pthread_self => true
  | _ => 0 <=? rc a
  end.

(** The calls whose failure the wrapper ignores; [pause] always gives -1. *)
Definition ignored (c : syscall) : bool :=
  match c with sc_pause | sc_pthread_once _ _ => true | _ => false end.

(** The name under which a failure is reported. *)
Definition reported_as (c : syscall) : string :=
  match c with
  | sc_fork => "Fork" | sc_execve _ _ _ => "Execve" | sc_wait _ => "Wait"
  | sc_waitpid _ _ _ => "Waitpid" | sc_kill _ _ => "Kill" | sc_pause => "Pause"
  | sc_sleep _ => "Sleep" | sc_alarm _ => "Alarm" | sc_setpgid _ _ => "Setpgid"
  | sc_getpgrp => "Getpgrp" | sc_sigprocmask _ _ _ => "Sigprocmask"
  | sc_sigemptyset _ => "Sigemptyset" | sc_sigfillset _ => "Sigfillset"
  | sc_sigaddset _ _ => "Sigaddset" | sc_sigdelset _ _ => "Sigdelset"
  | sc_sigismember _ _ => "Sigismember" | sc_open _ _ _ => "Open" | sc_read _ _ => "Read"
  | sc_write _ _ _ => "Write" | sc_lseek _ _ _ => "Lseek" | sc_close _ => "Close"
  | sc_select _ _ _ _ _ => "Select" | sc_dup2 _ _ => "Dup2" | sc_stat _ _ => "Stat"
  | sc_fstat _ _ => "Fstat" | sc_mmap _ _ _ _ _ _ => "mmap" | sc_munmap _ _ => "munmap"
  | sc_malloc _ => "Malloc" | sc_realloc _ _ => "Realloc" | sc_calloc _ _ => "Calloc"
  | sc_free _ => "Free" | sc_fclose _ => "Fclose" | sc_fdopen _ _ => "Fdopen"
  | sc_fopen _ _ => "Fopen" | sc_fputs _ _ => "Fputs" | sc_fwrite _ _ _ _ => "Fwrite"
  | sc_socket _ _ _ => "Socket" | sc_setsockopt _ _ _ _ _ => "Setsockopt"
  | sc_bind _ _ _ => "Bind" | sc_listen _ _ => "Listen" | sc_accept _ _ => "Accept"
  | sc_connect _ _ _ => "Connect" | sc_gethostbyname _ => "Gethostbyname"
  | sc_gethostbyaddr _ _ _ => "Gethostbyaddr" | sc_pthread_create _ _ _ _ => "Pthread_create"
  | sc_pthread_cancel _ => "Pthread_cancel" | sc_pthread_join _ _ => "Pthread_join"
  | sc_pthread_detach _ => "Pthread_detach" | sc_sem_init _ _ _ => "Sem_init"
  | sc_sem_wait _ => "P" | sc_sem_post _ => "V" | sc_sigaction _ _ _ => "Signal"
  | sc_fgets _ _ => "Fgets" | sc_fread _ _ _ => "Fread" | _ => ""
  end.

(** The cause it gives: the resolver's error number, the code a call of the
    threads library returned, or [errno]. *)
Definition cause (c : syscall) (a : answer) (w : W) : string :=
  match c with
  | sc_gethostbyname _ | sc_gethostbyaddr _ _ _ => "DNS error " +:+ fmt_d (h_errno_of w)
  | sc_pthread_create _ _ _ _ | sc_pthread_cancel _ | sc_pthread_join _ _
  | sc_pthread_detach _ => strerror (rc a)
  | _ => strerror (errno_of w)
  end.

Definition report (c : syscall) (a : answer) (w : W) : string :=
  reported_as c +:+ " error: " +:+ cause c a w +:+ newline.

(** What the caller gets from a successful call: nothing, an unsigned number, the
    number with what it describes, or the number alone. *)
Definition gives (c : syscall) (a : answer) : value :=
  match c with
  | sc_execve _ _ _ | sc_kill _ _ | sc_pause | sc_setpgid _ _ | sc_sigprocmask _ _ _
  | sc_sigemptyset _ | sc_sigfillset _ | sc_sigaddset _ _ | sc_sigdelset _ _ | sc_close _
  | sc_stat _ _ | sc_fstat _ _ | sc_munmap _ _ | sc_free _ | sc_fclose _ | sc_fputs _ _
  | sc_fwrite _ _ _ _ | sc_setsockopt _ _ _ _ _ | sc_bind _ _ _ | sc_listen _ _
  | sc_connect _ _ _ | sc_pthread_create _ _ _ _ | sc_pthread_cancel _ | sc_pthread_join _ _
  | sc_pthread_detach _ | sc_pthread_once _ _ | sc_sem_init _ _ _ | sc_sem_wait _
  | sc_sem_post _ => (None, [])
  | sc_sleep _ | sc_alarm _ => (Some (u32 (rc a)), [])
  | sc_read _ _ | sc_gethostbyname _ | sc_gethostbyaddr _ _ _ => (Some (rc a), out a)
  | _ => (Some (rc a), [])
  end.

(** The process after the call [c]. *)
Definition after (c : syscall) (s : process W) : process W :=
  Process (call c (world s)).2 (stderr s) (made s ++ [(c, (call c (world s)).1)]).

Lemma sys_eq c s : sys c s = Ret (call c (world s)).1 (after c s).
Proof. unfold sys, after. by destruct (call c (world s)). Qed.

(** The outcome of a checked call. *)
Definition checked (ok : bool) (v : value) (line : string) (s1 : process W)
    : res (process W) value :=
  if ok then Ret v s1 else Exit 0 (say line s1).

(** The wrappers test for failure; [succeeds] says when there is none. *)
Lemma checked_if (bad : bool) v line s1 r :
  (if bad then r = Exit 0 (say line s1) else r = Ret v s1) ->
  r = checked (negb bad) v line s1.
Proof. by destruct bad. Qed.

Ltac run_wrapper :=
  unfold void, number, bytes, object; autounfold with wrappers;
  unfold bind, when, unix_error, dns_error, posix_error, app_error, gets, modify, c_exit, ret;
  rewrite ?sys_eq; cbv beta iota; try case_match; reflexivity.

(** The one-call wrappers. *)
Lemma wrapper_of_checks c w s :
  wrapper_of c = Some w ->
  let a := (call c (world s)).1 in
  w s = checked (ignored c || succeeds c a) (gives c a) (report c a (world (after c s))) (after c s).
Proof.
  intros E a. subst a. destruct c; try discriminate E; injection E as <-;
    unfold succeeds, report, cause; cbn [ignored orb gives reported_as].
  all: rewrite ?Z.leb_antisym; try apply checked_if.
  all: try run_wrapper.
  { assert (Hs : (u32 (rc (call (sc_sleep secs) (world s)).1) <? 0) = false)
      by (apply Z.ltb_ge; pose proof (u32_range (rc (call (sc_sleep secs) (world s)).1)) as Hu;
          unfold is_u32 in Hu; lia).
    unfold number, Sleep, bind. rewrite sys_eq. cbv beta iota. by rewrite Hs. }
  all: rewrite <- (negb_involutive (_ =? _)); apply checked_if; run_wrapper.
Qed.

(** C16: The wrappers check their calls.  A wrapper of one call makes just that
    call; if it succeeded, by the documented criterion of the call, the wrapper
    returns the value of the call and what it stored; otherwise it prints one
    line on standard error, with its name and the cause ([errno], the resolver's
    number or the code returned), and ends the program with status 0.  Only
    [Pause] and [Pthread_once] ignore a failure.  [Signal] empties the set of
    signals (unchecked), then checks [sigaction] and returns the old handler.
    [Fgets] and [Fread] check [ferror] when they get a null pointer or too few
    items, and end the program only if it says there was an error. *)
Theorem wrappers_check c w s mask signum handler n size stream :
  wrapper_of c = Some w ->
  (let a := (call c (world s)).1 in
   w s = checked (ignored c || succeeds c a) (gives c a) (report c a (world (after c s)))
           (after c s)) /\
  (let c := sc_sigaction signum handler SA_RESTART in
   let s1 := after (sc_sigemptyset mask) s in
   let a := (call c (world s1)).1 in
   number (Signal mask signum handler) s =
     checked (0 <=? rc a) (Some (default 0 (head (out a))), []) (report c a (world (after c s1)))
       (after c s1)) /\
  (let c := sc_fgets n stream in
   let a := (call c (world s)).1 in
   let s1 := after c s in
   let s2 := after (sc_ferror stream) s1 in
   object (Fgets n stream) s =
     if negb (rc a =? NULL) then Ret (Some (rc a), out a) s1
     else checked (rc (call (sc_ferror stream) (world s1)).1 =? 0) (Some (rc a), out a)
            ("Fgets error" +:+ newline) s2) /\
  (let c := sc_fread size n stream in
   let a := (call c (world s)).1 in
   let s1 := after c s in
   let s2 := after (sc_ferror stream) s1 in
   object (Fread size n stream) s =
     if n <=? rc a then Ret (Some (rc a), out a) s1
     else checked (rc (call (sc_ferror stream) (world s1)).1 =? 0) (Some (rc a), out a)
            (report c a (world s2)) s2).
Proof.
  intros Hw. split; [by apply wrapper_of_checks|]. cbv zeta. split_and!.
  - rewrite Z.leb_antisym. apply checked_if. unfold Signal. run_wrapper.
  - unfold object, Fgets. rewrite bind_assoc, (bind_ret _ _ _ _ _ (sys_eq _ _)). cbv beta.
    destruct (rc _ =? NULL); [|done]. simpl negb. cbv iota.
    rewrite <- (negb_involutive (_ =? 0)). apply checked_if. unfold nz. run_wrapper.
  - unfold object, Fread. rewrite bind_assoc, (bind_ret _ _ _ _ _ (sys_eq _ _)). cbv beta.
    rewrite Z.ltb_antisym. destruct (n <=? rc _); [done|]. simpl negb. cbv iota.
    rewrite <- (negb_involutive (_ =? 0)). apply checked_if. unfold nz. run_wrapper.
Qed.

(** ** Sequences of calls *)

Definition good (x : syscall * answer) : Prop := succeeds x.1 x.2 = true.

(** The calls [log] all succeeded, or all but the last. *)
Definition all_good (log : list (syscall * answer)) : Prop := Forall good log.
Definition last_failed (log : list (syscall * answer)) : Prop :=
  exists l c a, log = (l ++ [(c, a)])%list /\ Forall good l /\ succeeds c a = false.

(** [s'] is [s] after the calls [log]; nothing was printed. *)
Definition called (s : process W) (log : list (syscall * answer)) (s' : process W) : Prop :=
  made s' = (made s ++ log)%list /\ stderr s' = stderr s.

Lemma called_nil s : called s [] s.
Proof. split; [by rewrite app_nil_r|done]. Qed.

Lemma called_cons s c log s' :
  called (after c s) log s' -> called s ((c, (call c (world s)).1) :: log) s'.
Proof. intros [E1 E2]. split; [|done]. rewrite E1. simpl. by rewrite <- app_assoc. Qed.

Lemma called_one s c : called s [(c, (call c (world s)).1)] (after c s).
Proof. apply called_cons, called_nil. Qed.

Lemma last_failed_cons x log : good x -> last_failed log -> last_failed (x :: log).
Proof. intros Hx (l & c & a & -> & Hl & Hf). exists (x :: l), c, a. split_and!; [done|by constructor|done]. Qed.

Lemma last_failed_one c a : succeeds c a = false -> last_failed [(c, a)].
Proof. intros. by exists [], c, a. Qed.
End properties.

Section sockets.
Context {W : Type} `{Kernel W} `{Host}.

(** An outcome [r] of opening a socket from the state [s0]: a descriptor, after
    the calls [calls] allows all succeeded, or a negative number after one failed. *)
Definition opens (s0 : process W) (calls : Z -> list (syscall * answer) -> Prop)
    (r : res (process W) Z) : Prop :=
  exists v s' log, r = Ret v s' /\ called s0 log s' /\
    ((0 <= v /\ all_good log /\ calls v log) \/ (v < 0 /\ last_failed log)).

(** The calls [log] were made since [s0] and succeeded. *)
Definition so_far (s0 : process W) (log : list (syscall * answer)) (s : process W) : Prop :=
  called s0 log s /\ all_good log.

Lemma so_far_nil s : so_far s [] s.
Proof. split; [apply called_nil|by constructor]. Qed.

Lemma opens_call s0 log s calls c (bad : answer -> bool) (e : Z) (k : answer -> M (process W) Z) :
  so_far s0 log s -> e < 0 -> (forall a, bad a = negb (succeeds c a)) ->
  (forall a s', a = (call c (world s)).1 -> succeeds c a = true -> so_far s0 (log ++ [(c, a)]) s' ->
    opens s0 calls (k a s')) ->
  opens s0 calls ((let! r := sys c in if bad r then ret e else k r) s).
Proof.
  intros [[E1 E2] Hg] He Hb Hk. rewrite (bind_ret _ _ _ _ _ (sys_eq c s)), Hb.
  set (a := (call c (world s)).1).
  assert (Hc : called s0 (log ++ [(c, a)]) (after c s)) by (split; [simpl; by rewrite E1, app_assoc|done]).
  destruct (succeeds c a) eqn:Es; simpl.
  - apply Hk; [done..|]. split; [done|]. apply Forall_app. split; [done|by constructor].
  - exists e, (after c s), (log ++ [(c, a)])%list. split_and!; [done..|]. right. split; [done|].
    by exists log, c, a.
Qed.

Lemma negative_fails c a : (forall b, succeeds c b = (0 <=? rc b)) -> (rc a <? 0) = negb (succeeds c a).
Proof. intros ->. by rewrite Z.leb_antisym, negb_involutive. Qed.

Lemma opens_done s0 log s calls v :
  so_far s0 log s -> 0 <= v -> calls v log -> opens s0 calls (Ret v s).
Proof. intros [Hc Hg] Hv E. exists v, s, log. split_and!; [done|apply Hc..|]. by left. Qed.

(** The next call returns a negative number when it fails. *)
Ltac next_call a s Ha Hs Hfar :=
  eapply opens_call; [eassumption|done|intros; by apply negative_fails|]; intros a s Ha Hs Hfar;
  cbv beta zeta.

(** Opening a listening socket: a descriptor is returned only after the socket
    was created, set up, bound to the port on every address and made to listen,
    in this order; as soon as one call fails, -1 is returned and no other call is
    made (the socket is not closed). *)
Lemma open_listenfd_ok port s :
  opens s (fun fd log => log.*1 =
    [sc_socket AF_INET SOCK_STREAM 0; sc_setsockopt fd SOL_SOCKET SO_REUSEADDR 1 sizeof_int;
     sc_bind fd (SockAddr AF_INET (htons (u16 port)) INADDR_ANY) sizeof_sockaddr_in;
     sc_listen fd LISTENQ]) (open_listenfd port s).
Proof.
  unfold open_listenfd. pose proof (so_far_nil s) as F0.
  next_call a1 s1 Ha1 Hs1 F1. next_call a2 s2 Ha2 Hs2 F2. next_call a3 s3 Ha3 Hs3 F3. next_call a4 s4 Ha4 Hs4 F4.
  eapply opens_done; [eassumption| |done]. simpl in Hs1. lia.
Qed.

(** Addresses have four bytes, as [AF_INET] addresses do. *)
Definition addresses_fit : Prop :=
  forall name w, rc (call (sc_gethostbyname name) w).1 <> NULL ->
    length (out (call (sc_gethostbyname name) w).1) = 4%nat.

Lemma copy_address_4 a addr (s : process W) :
  length a = 4%nat -> length (s_addr addr) = 4%nat ->
  copy_address a addr s = Ret (SockAddr (sin_family addr) (sin_port addr) a) s.
Proof.
  intros Ha Hd. unfold copy_address. rewrite Ha. simpl. by rewrite drop_ge, app_nil_r by lia.
Qed.

Lemma open_clientfd_ok hostname port s :
  addresses_fit ->
  opens s (fun fd log => exists hp, length (out hp) = 4%nat /\ log.*1 =
    [sc_socket AF_INET SOCK_STREAM 0; sc_gethostbyname hostname;
     sc_connect fd (SockAddr AF_INET (htons port) (out hp)) sizeof_sockaddr_in] /\
    (sc_gethostbyname hostname, hp) ∈ log)
    (open_clientfd hostname port s).
Proof.
  intros Hfit. unfold open_clientfd. pose proof (so_far_nil s) as F0.
  next_call a1 s1 Ha1 Hs1 F1.
  eapply opens_call; [eassumption|done| |].
  { intros a. simpl. by rewrite negb_involutive. }
  intros a2 s2 Ha2 Hs2 F2. simpl in Hs1, Hs2.
  assert (H4 : length (out a2) = 4%nat) by (subst a2; apply Hfit; lia).
  rewrite (bind_ret _ _ _ _ _ (copy_address_4 _ (SockAddr AF_INET 0 [0; 0; 0; 0]) s2 H4 eq_refl)). cbv beta zeta.
  next_call a3 s3 Ha3 Hs3 F3.
  eapply opens_done; [eassumption|lia|]. exists a2. split_and!; [done..|]. simpl.
  rewrite !elem_of_cons. by right; left.
Qed.
End sockets.

(** ** Witnesses *)

(** A system that gives the answers of a script, then fails. *)
#[export] Instance scripted : Kernel (list answer) := {|
  call _ w := match w with [] => (Answer (-1) [], []) | a :: w' => (a, w') end;
  errno_of _ := 2;
  h_errno_of _ := 1;
  strerror _ := "No such file or directory";
|}.

Definition process_on (w : list answer) : process (list answer) := Process w [] [].

(** A call that fails, and one that succeeds. *)
Lemma wrappers_check_witness :
  bytes (Read 3 1) (process_on []) =
    Exit 0 (Process [] ["Read error: No such file or directory" +:+ newline]
      [(sc_read 3 1, Answer (-1) [])]) /\
  bytes (Read 3 1) (process_on [Answer 1 [65]]) =
    Ret (Some 1, [65]) (Process [] [] [(sc_read 3 1, Answer 1 [65])]).
Proof.
  split.
  - exact (proj1 (wrappers_check (sc_read 3 1) _ (process_on []) 0 0 0 0 0 0 eq_refl)).
  - exact (proj1 (wrappers_check (sc_read 3 1) _ (process_on [Answer 1 [65]]) 0 0 0 0 0 0 eq_refl)).
Defined.
