(* ===== verification/Server.v ===== *)
(** * [arm_simulator.c] and [send_irq.c]: the servers and the client

    The two listeners of the simulator and the program that sends interrupts, on
    the system calls of [Unix].  The state of a listener is its process, the
    processor and memory it shares, the debug messages, and, for the proofs, a
    history of when the interrupt thread has worked on the processor.
    [getsockname] stores the port of the address, in the order of the network.  The loops of [irq_listener] end only with the
    program; they run for a given number of connections and of reads from each.
    What gdb sends is the argument [input] of the listener, since the scanner
    reads through [stdio]. *)
From S2P Require Import Prelude CInt Constants Memory Registers Format Trace Core CoreFacts Exception Safety Instruction CString GdbProtocol Unix Debug DebugMessages Scanner Session Simulator.
From Stdlib Require Import Ascii.

#[local] Open Scope string_scope.
#[local] Open Scope Z_scope.

(** ** [create_server] *)

Record server_data : Type := ServerData {
  socket : Z;
  port : Z;
}.

Definition PF_INET : Z := AF_INET.
Definition tabs : string := String "009" (String "009" "").

Section server.
Context {W : Type} `{Kernel W} `{Host}.

Definition create_server (port : Z) : M (process W) server_data :=
  let! fd := Socket PF_INET SOCK_STREAM 0 in
  Setsockopt fd SOL_SOCKET SO_REUSEADDR 1 sizeof_int ;;;
  let addr := SockAddr AF_INET (htons port) INADDR_ANY in
  Bind fd addr sizeof_sockaddr_in ;;;
  let! r := sys (sc_getsockname fd) in
  let sin_port := default (sin_port addr) (head (out r)) in
  let result := ServerData fd (ntohs sin_port) in
  Listen fd 1 ;;;
  ret result.
End server.

(** ** The listeners *)

(** A thread's process and the data it shares. *)
Record listener (W : Type) : Type := Listener {
  proc : process W;
  target : machine;
  notes : messages;               (* the debug messages *)
  work : list (list (syscall * answer) * machine);
    (* for each action on [target]: the calls made before it, and its result *)
}.
Arguments Listener {W} _ _ _ _.
Arguments proc {W} _.
Arguments target {W} _.
Arguments notes {W} _.
Arguments work {W} _.

Definition proc_lens {W} : lens (listener W) (process W) :=
  Lens proc (fun p s => Listener p (target s) (notes s) (work s)).
Section listeners.
Context {W : Type} `{Kernel W} `{Host}.

Definition os {A} (c : M (process W) A) : M (listener W) A := zoom proc_lens c.

(** An action on the shared processor; the history has when it took place. *)
Definition on_target {A} (c : M machine A) : M (listener W) A := fun s =>
  let now m := Listener (proc s) m (notes s) (work s ++ [(made (proc s), m)]) in
  match c (target s) with
  | Ret a m => Ret a (now m)
  | Exit code m => Exit code (now m)
  | Abort m => Abort (now m)
  | Undef u => Undef u
  end.

(** [fprintf(stderr, ...)] *)
Definition fprintf_stderr (line : string) : M (listener W) unit := os (modify (say line)).

(** The inner loop of [irq_listener] for at most [fuel] reads; the variable
    [irq], if the loop has ended. *)
Fixpoint irq_reads (fuel : nat) (connection irq : Z) : M (listener W) (option Z) :=
  match fuel with
  | O => ret None
  | S fuel' =>
      let! r := os (Read connection 1) in
      let irq := default irq (head r.2) in
      if 0 <? r.1 then
        os (sys sc_mutex_lock) ;;;
        on_target (arm_exception irq) ;;;
        os (sys sc_mutex_unlock) ;;;
        irq_reads fuel' connection irq
      else ret (Some irq)
  end.

(** The outer loop, for at most [rounds] connections. *)
Fixpoint irq_connections (rounds fuel : nat) (fd irq : Z) : M (listener W) unit :=
  match rounds with
  | O => ret tt
  | S rounds' =>
      let! connection := os (Accept fd sizeof_sockaddr_in) in
      let! r := irq_reads fuel connection irq in
      match r with
      | None => ret tt
      | Some irq =>
          os (sys (sc_shutdown connection SHUT_RDWR)) ;;;
          irq_connections rounds' fuel fd irq
      end
  end.

(** [irq] is what the uninitialised variable holds. *)
Definition irq_listener (rounds fuel : nat) (irq_port irq : Z) : M (listener W) unit :=
  let! server := os (create_server irq_port) in
  fprintf_stderr ("Listening to irq connections on port " +:+ fmt_d (port server) +:+ newline) ;;;
  irq_connections rounds fuel (socket server) irq.

(** [gdb_listener]; the arguments after [gdb_port] are those of [gdb_scanner].
    When the scanner ends the program or goes wrong, so does the listener. *)
Definition gdb_listener `{Wire} (gdb_port : Z) (fuel : nat) (packet_block buffer_block : list Z)
    (failed : option string) (input : list Z) : M (listener W) unit :=
  let! server := os (create_server gdb_port) in
  fprintf_stderr ("Listening to gdb connection on port " +:+ fmt_d (port server) +:+ newline) ;;;
  let! connection := os (Accept (socket server) sizeof_sockaddr_in) in
  (fun s =>
    let left d := Listener (proc s) (machine_of (gdb d)) (log (gdb d)) (work s) in
    match gdb_scanner fuel packet_block buffer_block failed input (notes s) (target s) with
    | Ret _ d => Ret tt (left d)
    | Exit c d => Exit c (left d)
    | Abort d => Abort (left d)
    | Undef u => Undef u
    end) ;;;
  os (sys (sc_shutdown connection SHUT_RDWR)) ;;;
  os (sys (sc_close (socket server))) ;;;
  ret tt.
End listeners.

(** ** [send_irq.c] *)

Section send_irq.
Context {W : Type} `{Kernel W} `{Host}.

Definition print_error (line : string) : M (process W) unit := modify (say line).

(** The names of the exceptions, in the usage message. *)
Fixpoint usage_names (rounds : nat) (irq : Z) : M (process W) unit :=
  match rounds with
  | O => ret tt
  | S rounds' =>
      let! irq_name := arm_get_exception_name irq in
      match irq_name with
      | None => ret tt
      | Some n =>
          print_error n ;;;
          when (irq =? INTERRUPT) (print_error (tabs +:+ "(default)")) ;;;
          print_error newline ;;;
          usage_names rounds' (u8 (irq + 1))
      end
  end.

(** The search for the name; nine rounds reach the end of the table. *)
Fixpoint find_irq (rounds : nat) (irq : Z) (name : string) : M (process W) Z :=
  match rounds with
  | O => ret irq
  | S rounds' =>
      let! irq_name := arm_get_exception_name irq in
      match irq_name with
      | None => print_error ("Unknown irq : " +:+ name +:+ newline) ;;; c_exit 2
      | Some n => if negb (strcmp n name =? 0) then find_irq rounds' (u8 (irq + 1)) name else ret irq
      end
  end.

Definition irq_usage_text (program : string) : string :=
  "Usage :" +:+ program +:+ " host port [ IRQ name ]" +:+ newline +:+ newline +:+
  "Sends an IRQ signal to the ARM simulator executing on the given host using the given port." +:+
  newline +:+ "The IRQ name is one of :" +:+ newline.

(** The byte [main] sends, from its arguments. *)
Definition send_irq_byte (argv : list string) : M (process W) Z :=
  if (length argv <? 3)%nat then
    print_error (irq_usage_text (nth 0 argv "")) ;;;
    usage_names 9 RESET ;;;
    c_exit 1
  else if (length argv <? 4)%nat then ret INTERRUPT
  else find_irq 9 RESET (nth 3 argv "").

Definition send_irq_main (argv : list string) : M (process W) Z :=
  let! irq := send_irq_byte argv in
  let! sock := Socket PF_INET SOCK_STREAM 0 in
  Setsockopt sock SOL_SOCKET SO_REUSEADDR 1 sizeof_int ;;;
  let addr := SockAddr AF_INET (htons (atoi (chars (nth 2 argv "")))) [0; 0; 0; 0] in
  let! host := Gethostbyname (nth 1 argv "") in
  let! addr := copy_address (out host) addr in
  Connect sock addr sizeof_sockaddr_in ;;;
  Write sock [irq] 1 ;;;
  sys (sc_shutdown sock SHUT_RDWR) ;;;
  sys (sc_close sock) ;;;
  ret 0.
End send_irq.

(** ** The end of [main]

    The blocks that the program allocates, by their addresses, and the order in
    which they are released; what they hold is in [Memory], [Registers] and
    [Core].  The sizes of the structures are the compiler's. *)

Section lifetime.
Context {W : Type} `{Kernel W} (sizeof_memory_data sizeof_arm_core_data : Z).

Definition malloc (size : Z) : M (process W) Z := let! r := sys (sc_malloc size) in ret (rc r).
Definition free (p : Z) : M (process W) unit := sys (sc_free p) ;;; ret tt.

(** A structure and the block it points to. *)
Record owned : Type := Owned { self : Z; inner : Z }.

Definition deref {A} (p : Z) (k : M (process W) A) : M (process W) A :=
  if p =? NULL then undef NullPointer else k.

Definition memory_create_blocks (size : Z) : M (process W) owned :=
  let! mem := malloc sizeof_memory_data in
  let! m := malloc size in
  deref mem (ret (Owned mem m)).

Definition memory_destroy (mem : owned) : M (process W) unit :=
  deref (self mem) (free (inner mem)) ;;;
  free (self mem).

(** [registers_create], [registers_destroy] *)
Definition registers_create_block : M (process W) Z := malloc (4 * 37).
Definition registers_destroy (r : Z) : M (process W) unit := free r.

(** The reset writes to the registers. *)
Definition arm_create_blocks : M (process W) owned :=
  let! p := malloc sizeof_arm_core_data in
  if negb (p =? NULL) then
    let! r := registers_create_block in
    deref r (ret (Owned p r))
  else ret (Owned p NULL).

Definition arm_destroy (p : owned) : M (process W) unit :=
  deref (self p) (registers_destroy (inner p)) ;;;
  free (self p).

(** [main] after the options: [gdb_routine] and [irq_routine] stand for the
    listeners, [shared] for the address of the structure they share. *)
Definition main_threads (gdb_routine irq_routine shared : Z) : M (process W) Z :=
  let! mem := memory_create_blocks Options.MEMORY_SIZE in
  let! arm := arm_create_blocks in
  sys sc_mutex_init ;;;
  let! gdb := sys (sc_pthread_create 0 NULL gdb_routine shared) in
  sys (sc_pthread_create 1 NULL irq_routine shared) ;;;
  sys (sc_pthread_join (default 0 (head (out gdb))) 0) ;;;
  arm_destroy arm ;;;
  memory_destroy mem ;;;
  ret 0.

(** The blocks a sequence of calls has obtained and given back. *)
Definition obtained (x : syscall * answer) : option Z :=
  match x.1 with sc_malloc _ => Some (rc x.2) | _ => None end.
Definition returned (x : syscall * answer) : option Z :=
  match x.1 with sc_free p => Some p | _ => None end.

(** [malloc] never fails. *)
Definition memory_available : Prop := forall n w, rc (call (sc_malloc n) w).1 <> NULL.

Lemma bind_ret_l {S A B} (a : A) (f : A -> M S B) s : bind (ret a) f s = f a s.
Proof. done. Qed.

(** When memory is available [main] returns 0; it gives back exactly the blocks it
    has obtained, each once, after the thread of gdb has ended: nothing but
    releases comes after the join. *)
Lemma main_threads_frees gdb_routine irq_routine shared s :
  memory_available ->
  exists s' log1 c log2, main_threads gdb_routine irq_routine shared s = Ret 0 s' /\
    made s' = (made s ++ log1 ++ c :: log2)%list /\
    (exists tid p, c.1 = sc_pthread_join tid p) /\ omap returned log1 = [] /\ omap obtained log2 = [] /\
    omap returned log2 ≡ₚ omap obtained log1 /\ length (omap obtained log1) = 4%nat.
Proof.
  intros Hm. unfold main_threads, memory_create_blocks, arm_create_blocks, registers_create_block,
    arm_destroy, memory_destroy, registers_destroy, malloc, free, deref.
  repeat first [rewrite (bind_ret _ _ _ _ _ (sys_eq _ _)) | rewrite bind_assoc | rewrite bind_ret_l
    | rewrite (proj2 (Z.eqb_neq _ _) (Hm _ _)) | progress cbn [negb self inner]].
  eexists _, [_; _; _; _; _; _; _], _, [_; _; _; _]. split; [reflexivity|].
  split; [simpl; rewrite <- !app_assoc; reflexivity|]. simpl.
  split; [by eexists _, _|]. split_and!; try done. solve_Permutation.
Qed.
End lifetime.

(** ** What the wrappers do, in one form *)

Section checks.
Context {W : Type} `{Kernel W}.

(** [w] makes the call [c]; if it succeeds [w] returns [val] of the answer,
    otherwise the program ends with status 0. *)
Definition checks {B} (w : M (process W) B) (c : syscall) (val : answer -> B) : Prop :=
  forall s, if succeeds c (call c (world s)).1
            then w s = Ret (val (call c (world s)).1) (after c s)
            else exists line, w s = Exit 0 (say line (after c s)).

Ltac solve_checks :=
  intros ?; autounfold with wrappers; unfold succeeds, bind, when, unix_error, dns_error, gets;
  rewrite sys_eq; cbv beta iota; rewrite ?Z.leb_antisym;
  first [destruct (_ <? 0)|destruct (_ =? NULL)]; simpl; (reflexivity || by eexists).

Lemma checks_socket d t p : checks (Socket d t p) (sc_socket d t p) rc.
Proof. solve_checks. Qed.
Lemma checks_setsockopt s l o v n : checks (Setsockopt s l o v n) (sc_setsockopt s l o v n) (fun _ => tt).
Proof. solve_checks. Qed.
Lemma checks_bind s d n : checks (Bind s d n) (sc_bind s d n) (fun _ => tt).
Proof. solve_checks. Qed.
Lemma checks_listen s n : checks (Listen s n) (sc_listen s n) (fun _ => tt).
Proof. solve_checks. Qed.
Lemma checks_accept s n : checks (Accept s n) (sc_accept s n) rc.
Proof. solve_checks. Qed.
Lemma checks_connect s d n : checks (Connect s d n) (sc_connect s d n) (fun _ => tt).
Proof. solve_checks. Qed.
Lemma checks_read s n : checks (Read s n) (sc_read s n) (fun a => (rc a, out a)).
Proof. solve_checks. Qed.
Lemma checks_write s b n : checks (Write s b n) (sc_write s b n) rc.
Proof. solve_checks. Qed.
Lemma checks_gethostbyname n : checks (Gethostbyname n) (sc_gethostbyname n) id.
Proof. solve_checks. Qed.

(** A program part run from [s0]: it returns after calls that satisfy [P], or
    the program ends with status 0 after a call that failed. *)
Definition ends {A} (s0 : process W) (P : A -> list (syscall * answer) -> Prop)
    (r : res (process W) A) : Prop :=
  (exists v s' log, r = Ret v s' /\ called s0 log s' /\ P v log) \/
  (exists s' log c a, r = Exit 0 s' /\ made s' = (made s0 ++ log ++ [(c, a)])%list /\
     succeeds c a = false).

Lemma called_after s0 log s c :
  called s0 log s -> called s0 (log ++ [(c, (call c (world s)).1)]) (after c s).
Proof. intros [E1 E2]. split; [simpl; by rewrite E1, app_assoc|done]. Qed.

Lemma ends_checked {A B} s0 log s (w : M (process W) B) c val (k : B -> M (process W) A) P :
  called s0 log s -> checks w c val ->
  (forall a s', a = (call c (world s)).1 -> succeeds c a = true ->
    called s0 (log ++ [(c, a)]) s' -> ends s0 P (k (val a) s')) ->
  ends s0 P (bind w k s).
Proof.
  intros Hc Hw Hk. specialize (Hw s). pose proof (called_after s0 log s c Hc) as Hc'.
  destruct (succeeds c _) eqn:Es.
  - rewrite (bind_ret _ _ _ _ _ Hw). by apply Hk.
  - destruct Hw as [line Hw]. rewrite (bind_exit _ _ _ _ _ Hw). right.
    eexists _, log, c, _. split; [done|]. split; [|exact Es]. simpl.
    destruct Hc as [E _]. by rewrite E, app_assoc.
Qed.

Lemma ends_sys {A} s0 log s c (k : answer -> M (process W) A) P :
  called s0 log s ->
  (forall a s', a = (call c (world s)).1 -> called s0 (log ++ [(c, a)]) s' -> ends s0 P (k a s')) ->
  ends s0 P (bind (sys c) k s).
Proof. intros Hc Hk. rewrite (bind_ret _ _ _ _ _ (sys_eq c s)). apply Hk; [done|by apply called_after]. Qed.

Lemma ends_ret {A} s0 log s (v : A) (P : A -> list (syscall * answer) -> Prop) :
  called s0 log s -> P v log -> ends s0 P (Ret v s).
Proof. intros. left. eauto 8. Qed.
End checks.

Create HintDb checks.
#[export] Hint Resolve checks_socket checks_setsockopt checks_bind checks_listen checks_accept
  checks_connect checks_read checks_write checks_gethostbyname : checks.

Ltac checked a Ha :=
  eapply ends_checked; [eassumption|solve [auto with checks]|]; intros a ? _ Ha ?; cbv beta.
Ltac unchecked a := eapply ends_sys; [eassumption|]; intros a ? _ ?; cbv beta.

(** ** [create_server] *)

Section create.
Context {W : Type} `{Kernel W} `{Host}.

(** The server returned is a socket made, set up, bound and listening, in this
    order, each call successful; its port is the one the system reports, or the
    one asked for if it reports none.  If one of these calls fails the program
    ends at it. *)
Lemma create_server_ok p s :
  ends s (fun sv log => exists a1 a2 a3 a4 a5,
    log = [(sc_socket AF_INET SOCK_STREAM 0, a1);
           (sc_setsockopt (socket sv) SOL_SOCKET SO_REUSEADDR 1 sizeof_int, a2);
           (sc_bind (socket sv) (SockAddr AF_INET (htons p) INADDR_ANY) sizeof_sockaddr_in, a3);
           (sc_getsockname (socket sv), a4); (sc_listen (socket sv) 1, a5)] /\
    0 <= socket sv /\ 0 <= rc a2 /\ 0 <= rc a3 /\ 0 <= rc a5 /\
    port sv = ntohs (default (htons p) (head (out a4)))) (create_server p s).
Proof.
  pose proof (called_nil s) as F0. unfold create_server, PF_INET.
  checked a1 G1. checked a2 G2. checked a3 G3. unchecked a4. checked a5 G5.
  eapply ends_ret; [eassumption|]. simpl in *. eexists a1, a2, a3, a4, a5. split; [done|].
  split_and!; try done; lia.
Qed.

Lemma ntohs_htons x : ntohs (htons x) = u16 x.
Proof.
  unfold ntohs, htons. destruct host_big_endian; [apply u16_small, u16_range|].
  unfold u8, u16. rewrite !Z.shiftr_div_pow2 by lia. change (2 ^ 8) with 256.
  change (2 ^ 16) with 65536. Z.to_euclidean_division_equations. lia.
Qed.
End create.

(** ** [irq_listener] *)

(** The byte a call delivers: a read that returned a positive number. *)
Definition byte_of (x : syscall * answer) : option Z :=
  match x.1 with sc_read _ _ => if 0 <? rc x.2 then head (out x.2) else None | _ => None end.

Definition delivered (log : list (syscall * answer)) : list Z := omap byte_of log.

Definition neutral (x : syscall * answer) : Prop :=
  byte_of x = None /\ x.1 <> sc_mutex_lock /\ x.1 <> sc_mutex_unlock.

(** A listener that takes the lock after each byte, raises the exception of that
    byte while it has the lock, releases it before the next call, and does nothing
    else to the processor.  [before] are the calls made first, [log] those that
    follow, [w] the actions on the processor, which goes from [m] to [m']. *)
Inductive locked : list (syscall * answer) -> list (syscall * answer) ->
    list (list (syscall * answer) * machine) -> machine -> machine -> Prop :=
| locked_nil before m : locked before [] [] m m
| locked_byte before fd a b a1 a2 log w m m1 m' :
    byte_of (sc_read fd 1, a) = Some b ->
    arm_exception b m = Ret tt m1 ->
    locked (before ++ [(sc_read fd 1, a); (sc_mutex_lock, a1); (sc_mutex_unlock, a2)]) log w m1 m' ->
    locked before
      ((sc_read fd 1, a) :: (sc_mutex_lock, a1) :: (sc_mutex_unlock, a2) :: log)
      (((before ++ [(sc_read fd 1, a); (sc_mutex_lock, a1)])%list, m1) :: w) m m'
| locked_other before x log w m m' :
    neutral x -> locked (before ++ [x]) log w m m' -> locked before (x :: log) w m m'.

Lemma locked_app before l1 w1 m m1 l2 w2 m2 :
  locked before l1 w1 m m1 -> locked (before ++ l1) l2 w2 m1 m2 ->
  locked before (l1 ++ l2) (w1 ++ w2) m m2.
Proof.
  induction 1 as [before m|before fd a b a1 a2 l w m m1 m' Hb Hx _ IH|before x l w m m' Hx _ IH]; intros L2.
  - by rewrite app_nil_r in L2.
  - simpl. eapply locked_byte; [done..|]. apply IH. by rewrite <- app_assoc.
  - simpl. apply locked_other; [done|]. apply IH. by rewrite <- app_assoc.
Qed.

Lemma locked_neutral before log m : Forall neutral log -> locked before log [] m m.
Proof. intros Hf. revert before. induction Hf; intros; constructor; auto. Qed.

Lemma delivered_neutral log : Forall neutral log -> delivered log = [].
Proof. induction 1 as [|x log [E _] _ IH]; [done|]. simpl. by rewrite E. Qed.

(** The exceptions [l], one after the other. *)
Definition raise_all (l : list Z) : M machine unit := Threads.run_acts (arm_exception <$> l).

Lemma raise_all_app l1 l2 m m1 m2 :
  raise_all l1 m = Ret tt m1 -> raise_all l2 m1 = Ret tt m2 -> raise_all (l1 ++ l2) m = Ret tt m2.
Proof.
  intros E1 E2. unfold raise_all in *. rewrite fmap_app, Threads.run_acts_app.
  by rewrite (bind_ret _ _ _ _ _ E1).
Qed.

Section irq.
Context {W : Type} `{Kernel W} `{Host}.
Implicit Types (s : listener W).

(** [read] of one byte stores it when it returns a positive number. *)
Definition reads_store : Prop :=
  forall fd w, 0 < rc (call (sc_read fd 1) w).1 ->
    exists b, out (call (sc_read fd 1) w).1 = [b] /\ is_u8 b.

(** Calls without effect on the processor. *)
Definition silent {A} (m : M (process W) A) : Prop :=
  forall p, exists p' log, ((exists a, m p = Ret a p') \/ m p = Exit 0 p') /\
    made p' = (made p ++ log)%list /\ Forall neutral log.

Lemma silent_bind {A B} (m : M (process W) A) (k : A -> M (process W) B) :
  silent m -> (forall a, silent (k a)) -> silent (bind m k).
Proof.
  intros Hm Hk p. destruct (Hm p) as (p1 & l1 & [[a E]|E] & E1 & F1).
  - destruct (Hk a p1) as (p2 & l2 & E2 & E3 & F2). exists p2, (l1 ++ l2)%list.
    rewrite (bind_ret _ _ _ _ _ E). split; [done|]. rewrite E3, E1, app_assoc.
    split; [done|]. by apply Forall_app.
  - exists p1, l1. rewrite (bind_exit _ _ _ _ _ E). auto.
Qed.

Lemma silent_ret {A} (a : A) : silent (ret a).
Proof. intros p. exists p, []. rewrite app_nil_r. eauto. Qed.

Lemma silent_say line : silent (modify (say line)).
Proof. intros p. eexists _, []. rewrite app_nil_r. split; [by left; eexists|done]. Qed.

Lemma silent_sys c : (forall a, neutral (c, a)) -> silent (sys c).
Proof. intros Hn p. eexists _, [_]. split; [left; eexists; apply sys_eq|]. split; [done|by constructor]. Qed.

Lemma silent_checks {B} (w : M (process W) B) c val :
  checks w c val -> (forall a, neutral (c, a)) -> silent w.
Proof.
  intros Hw Hn p. specialize (Hw p). destruct (succeeds c _).
  - eexists _, [_]. split; [left; eexists; exact Hw|]. split; [done|by constructor].
  - destruct Hw as [line Hw]. eexists _, [_]. split; [right; exact Hw|]. split; [done|by constructor].
Qed.

Lemma silent_create p : silent (create_server p).
Proof.
  unfold create_server.
  repeat first [apply silent_ret
    |apply silent_bind; [eapply silent_checks; [solve [auto with checks]|done]|intros ?]
    |apply silent_bind; [by apply silent_sys|intros ?]].
Qed.

(** From [s], the processor has had exactly the exceptions raised whose bytes
    were delivered, in order and under the lock; the run returned, or the program
    ended with status 0. *)
Definition raises {A} s (r : res (listener W) A) : Prop :=
  exists s' log w, ((exists a, r = Ret a s') \/ r = Exit 0 s') /\
    made (proc s') = (made (proc s) ++ log)%list /\ work s' = (work s ++ w)%list /\
    locked (made (proc s)) log w (target s) (target s') /\
    raise_all (delivered log) (target s) = Ret tt (target s') /\ machine_ok (target s').

Lemma raises_ret {A} s (a : A) : machine_ok (target s) -> raises s (Ret a s).
Proof. intros Hok. exists s, [], []. rewrite !app_nil_r. split_and!; eauto using locked. Qed.

(** The calls [l1] and the actions [w1] come first. *)
Lemma raises_after {A} s s1 l1 w1 (r : res (listener W) A) :
  made (proc s1) = (made (proc s) ++ l1)%list -> work s1 = (work s ++ w1)%list ->
  locked (made (proc s)) l1 w1 (target s) (target s1) ->
  raise_all (delivered l1) (target s) = Ret tt (target s1) -> raises s1 r -> raises s r.
Proof.
  intros E1 W1 L1 R1 (s2 & l2 & w2 & E2 & E3 & W2 & L2 & R2 & Hok). exists s2, (l1 ++ l2)%list, (w1 ++ w2)%list.
  split; [done|]. rewrite E1 in L2. rewrite E3, E1, W2, W1, !app_assoc.
  split_and!; [done|done|by eapply locked_app| |done].
  unfold delivered. rewrite omap_app. by eapply raise_all_app.
Qed.

Lemma raises_bind {A B} s (m : M (listener W) A) (k : A -> M (listener W) B) :
  raises s (m s) -> (forall a s', machine_ok (target s') -> raises s' (k a s')) ->
  raises s (bind m k s).
Proof.
  intros (s1 & l1 & w1 & [[a E]|E] & E1 & W1 & L1 & R1 & Hok1) Hk.
  - rewrite (bind_ret _ _ _ _ _ E). eapply raises_after; eauto.
  - exists s1, l1, w1. rewrite (bind_exit _ _ _ _ _ E). auto 10.
Qed.

Lemma raises_os {A} s (m : M (process W) A) : machine_ok (target s) -> silent m -> raises s (os m s).
Proof.
  intros Hok Hm. destruct (Hm (proc s)) as (p' & log & E & E1 & F). exists (Listener p' (target s) (notes s) (work s)), log, [].
  split; [unfold os, zoom; simpl; destruct E as [[a E]|E]; rewrite E; eauto|].
  rewrite app_nil_r. split_and!; [done|done|by apply locked_neutral|by rewrite delivered_neutral|done].
Qed.

Lemma os_sys c s :
  os (sys c) s = Ret (call c (world (proc s))).1 (Listener (after c (proc s)) (target s) (notes s) (work s)).
Proof. unfold os, zoom. simpl. by rewrite sys_eq. Qed.

Lemma on_target_ret {A} (c : M machine A) s a m :
  c (target s) = Ret a m ->
  on_target c s = Ret a (Listener (proc s) m (notes s) (work s ++ [(made (proc s), m)])).
Proof. unfold on_target. by intros ->. Qed.

(** What one byte does: the read, the lock, the exception, the unlock. *)
Lemma irq_reads_byte fuel connection irq s b :
  machine_ok (target s) -> let a := (call (sc_read connection 1) (world (proc s))).1 in
  0 < rc a -> out a = [b] ->
  exists s' a1 a2, irq_reads (S fuel) connection irq s = irq_reads fuel connection b s' /\
    made (proc s') =
      (made (proc s) ++ [(sc_read connection 1, a); (sc_mutex_lock, a1); (sc_mutex_unlock, a2)])%list /\
    work s' = (work s ++
      [((made (proc s) ++ [(sc_read connection 1, a); (sc_mutex_lock, a1)])%list, target s')])%list /\
    arm_exception b (target s) = Ret tt (target s') /\ machine_ok (target s').
Proof.
  intros Hok a Ha Eb. destruct (arm_exception_total (target s) b Hok) as (m' & Em & Hok' & _).
  pose proof (checks_read connection 1 (proc s)) as Hr. cbv beta zeta in Hr. fold a in Hr.
  replace (succeeds _ a) with true in Hr by (simpl; symmetry; apply Z.leb_le; lia).
  assert (E : os (Read connection 1) s = Ret (rc a, [b]) (Listener (after (sc_read connection 1) (proc s)) (target s) (notes s) (work s)))
    by (unfold os, zoom; simpl; by rewrite Hr, Eb).
  cbn [irq_reads]. rewrite (bind_ret _ _ _ _ _ E). cbn [fst snd head default].
  rewrite (proj2 (Z.ltb_lt _ _) Ha), (bind_ret _ _ _ _ _ (os_sys _ _)).
  erewrite bind_ret; [|apply on_target_ret; exact Em].
  rewrite (bind_ret _ _ _ _ _ (os_sys _ _)). eexists _, _, _. split; [reflexivity|].
  simpl. rewrite <- !app_assoc. by split_and!.
Qed.

(** A read that delivers nothing ends the loop, or the program. *)
Lemma irq_reads_none fuel connection irq s :
  machine_ok (target s) -> rc (call (sc_read connection 1) (world (proc s))).1 <= 0 ->
  raises s (irq_reads (S fuel) connection irq s).
Proof.
  intros Hok Ha. pose proof (checks_read connection 1 (proc s)) as Hr. cbv beta zeta in Hr.
  set (a := (call (sc_read connection 1) (world (proc s))).1) in *.
  assert (Hn : Forall neutral [(sc_read connection 1, a)]).
  { constructor; [|constructor]. split; [|done]. unfold byte_of. simpl.
    by rewrite (proj2 (Z.ltb_ge _ _) Ha). }
  cbn [irq_reads]. unfold bind at 1, os at 1, zoom. simpl.
  destruct (succeeds _ a); [|destruct Hr as [line Hr]]; rewrite Hr; cbn [fst snd];
    rewrite ?(proj2 (Z.ltb_ge _ _) Ha).
  all: unfold ret; eexists (Listener _ (target s) (notes s) (work s)), [_], []; split;
    [(left; eexists; reflexivity) || (right; reflexivity)|].
  all: rewrite app_nil_r; split_and!; [done|done|by apply locked_neutral|by rewrite delivered_neutral|done].
Qed.

Lemma delivered_byte x a1 a2 b :
  byte_of x = Some b -> delivered [x; (sc_mutex_lock, a1); (sc_mutex_unlock, a2)] = [b].
Proof. intros E. unfold delivered. simpl. by rewrite E. Qed.

Lemma irq_reads_raises fuel connection irq s :
  reads_store -> machine_ok (target s) -> raises s (irq_reads fuel connection irq s).
Proof.
  intros Hrs. revert irq s. induction fuel as [|fuel IH]; intros irq s Hok; [by apply raises_ret|].
  destruct (Z.lt_decidable 0 (rc (call (sc_read connection 1) (world (proc s))).1)) as [Ha|Ha].
  - destruct (Hrs _ _ Ha) as (b & Eb & _).
    destruct (irq_reads_byte fuel connection irq s b Hok Ha Eb) as (s' & a1 & a2 & -> & E1 & W1 & E2 & Hok').
    assert (Hb : byte_of (sc_read connection 1, (call (sc_read connection 1) (world (proc s))).1) = Some b)
      by (unfold byte_of; simpl; by rewrite (proj2 (Z.ltb_lt _ _) Ha), Eb).
    eapply raises_after; [exact E1|exact W1|eapply locked_byte; [exact Hb|exact E2|constructor]| |by apply IH].
    rewrite (delivered_byte _ _ _ b Hb). unfold raise_all. simpl. by rewrite (bind_ret _ _ _ _ _ E2).
  - apply irq_reads_none; [done|lia].
Qed.

Lemma irq_connections_raises rounds fuel fd irq s :
  reads_store -> machine_ok (target s) -> raises s (irq_connections rounds fuel fd irq s).
Proof.
  intros Hrs. revert irq s. induction rounds as [|rounds IH]; intros irq s Hok; [by apply raises_ret|].
  cbn [irq_connections]. apply raises_bind.
  { apply raises_os; [done|]. by eapply silent_checks; [auto with checks|]. }
  intros connection s1 Hok1. apply raises_bind; [by apply irq_reads_raises|].
  intros [irq'|] s2 Hok2; [|by apply raises_ret]. apply raises_bind; [|intros; by apply IH].
  apply raises_os; [done|]. by apply silent_sys.
Qed.

Lemma irq_listener_run rounds fuel irq_port irq s :
  reads_store -> machine_ok (target s) ->
  raises s (irq_listener rounds fuel irq_port irq s).
Proof.
  intros Hrs Hok. unfold irq_listener. apply raises_bind.
  { apply raises_os; [done|apply silent_create]. }
  intros sv s1 Hok1. apply raises_bind; [apply raises_os; [done|apply silent_say]|].
  intros _ s2 Hok2. by apply irq_connections_raises.
Qed.

(** C14: The interrupt listener, whatever the system answers and however many
    connections and bytes arrive: the processor has had exactly the exceptions
    raised whose bytes the reads delivered, in the order of the reads; each was
    raised after its byte was read and the lock taken, and before any other call,
    the first of which releases the lock; nothing else has changed the processor,
    which stays well formed; and the listener goes on or the program ends with
    status 0.  [reads_store] is the documented behaviour of [read]. *)
Theorem irq_listener_raises rounds fuel irq_port irq s :
  reads_store -> machine_ok (target s) ->
  raises s (irq_listener rounds fuel irq_port irq s).
Proof. apply irq_listener_run. Qed.
End irq.

(** ** [gdb_listener] *)

Section gdb.
Context {W : Type} `{Kernel W} `{Host} `{Wire} (room : Z).

Lemma os_shared {A} (m : M (process W) A) s a s' :
  os m s = Ret a s' -> target s' = target s /\ notes s' = notes s.
Proof. intros (p & _ & ->)%zoom_inv. done. Qed.

(** When the listener of gdb returns, what it did to the processor and the
    memory is what the scanner made of the connection, and they are well formed. *)
Lemma gdb_listener_returns gdb_port fuel packet_block buffer_block failed input s s' :
  machine_ok (target s) -> mem_roomy room (mem (target s)) ->
  gdb_listener (W := W) gdb_port fuel packet_block buffer_block failed input s = Ret tt s' ->
  exists p, gdb_scanner fuel packet_block buffer_block failed input (notes s) (target s) = Ret tt p /\
    target s' = machine_of (gdb p) /\ notes s' = log (gdb p) /\ machine_ok (target s') /\ mem_roomy room (mem (target s')).
Proof.
  intros Hok Hm E. unfold gdb_listener in E.
  apply bind_inv in E as (sv & s1 & [E1 F1]%os_shared & E). apply bind_inv in E as ([] & s2 & [E2 F2]%os_shared & E).
  apply bind_inv in E as (connection & s3 & [E3 F3]%os_shared & E). apply bind_inv in E as ([] & s4 & E4 & E).
  apply bind_inv in E as (? & s5 & [E5 F5]%os_shared & E). apply bind_inv in E as (? & s6 & [E6 F6]%os_shared & E).
  injection E as <-. cbv zeta in E4. rewrite E3, E2, E1, F3, F2, F1 in E4.
  destruct (gdb_scanner _ _ _ _ _ _ _) as [[] p| | |] eqn:Ep; try done. injection E4 as <-.
  exists p. rewrite E6, E5, F6, F5. split; [done|]. split; [done|]. split; [done|]. unfold gdb_scanner in Ep.
  destruct failed; [by injection Ep as <-|].
  by destruct (kept_yylex room fuel input (Parser (gdb_init_data (target s) packet_block (notes s)) buffer_block 0)
                 tt p (conj Hok Hm) Ep).
Qed.
End gdb.

(** ** [send_irq.c] *)

Section client.
Context {W : Type} `{Kernel W} `{Host}.

Lemma strcmp_ne a b : a <> b -> (strcmp a b =? 0) = false.
Proof. intros Hne. apply Z.eqb_neq. by rewrite strcmp_eq. Qed.

(** No two exceptions have the same name. *)
Lemma find_irq_name name irq rounds e (s : process W) :
  aget arm_exception_names e = Some (Some name) -> 1 <= irq <= e -> e - irq < Z.of_nat rounds ->
  find_irq rounds irq name s = Ret e s.
Proof.
  intros Ee. revert irq. induction rounds as [|n IH]; intros irq Hi Hn; [lia|]. cbn [find_irq].
  pose proof (aget_Some_lt _ _ _ Ee) as He. simpl in He. unfold arm_get_exception_name.
  rewrite (proj2 (Z.ltb_lt irq 9)) by lia. unfold table_read.
  assert (Hne : irq = e \/ exists m, aget arm_exception_names irq = Some (Some m) /\ m <> name).
  { assert (Hc : e = 1 \/ e = 2 \/ e = 3 \/ e = 4 \/ e = 5 \/ e = 6 \/ e = 7 \/ e = 8) by lia.
    assert (Hd : irq = 1 \/ irq = 2 \/ irq = 3 \/ irq = 4 \/ irq = 5 \/ irq = 6 \/ irq = 7 \/ irq = 8) by lia.
    destruct_or! Hc; subst e; injection Ee as <-; destruct_or! Hd; subst irq; try lia;
      (by left) || (right; eexists; split; [reflexivity|discriminate]). }
  destruct Hne as [->|(m & Em & Hne)].
  - rewrite Ee. unfold bind at 1, ret at 1. cbv beta iota. by rewrite (proj2 (strcmp_eq name name) eq_refl).
  - rewrite Em. unfold bind at 1, ret at 1. cbv beta iota. rewrite strcmp_ne by done. cbn [negb].
    assert (irq <> e) by (intros ->; rewrite Ee in Em; by injection Em as <-).
    rewrite u8_small by (unfold is_u8; lia). apply IH; lia.
Qed.

Lemma find_irq_unknown name irq rounds (s : process W) :
  (forall e, aget arm_exception_names e <> Some (Some name)) ->
  1 <= irq <= 9 -> 10 - irq <= Z.of_nat rounds ->
  find_irq rounds irq name s = Exit 2 (say ("Unknown irq : " +:+ name +:+ newline) s).
Proof.
  intros Hno. revert irq. induction rounds as [|n IH]; intros irq Hi Hn; [lia|]. cbn [find_irq].
  unfold arm_get_exception_name. destruct (Z.ltb_spec irq 9); [|done]. unfold table_read.
  destruct (aget_lt arm_exception_names irq) as [o Eo]; [simpl; lia|]. rewrite Eo.
  unfold bind at 1, ret at 1. cbv beta iota. destruct o as [m|]; [|done].
  rewrite strcmp_ne by (intros ->; by apply (Hno irq)). cbn [negb].
  rewrite u8_small by (unfold is_u8; lia). apply IH; lia.
Qed.

(** The number that [main] chooses from its arguments: that of the name, or the
    interrupt's if there is none. *)
Definition chosen (argv : list string) (e : Z) : Prop :=
  (exists prog host port, argv = [prog; host; port] /\ e = INTERRUPT) \/
  (exists prog host port name rest, argv = prog :: host :: port :: name :: rest /\
     aget arm_exception_names e = Some (Some name)).

Lemma send_irq_chosen argv e (s : process W) : chosen argv e -> send_irq_byte argv s = Ret e s.
Proof.
  intros [(? & ? & ? & -> & ->)|(? & ? & ? & name & rest & -> & E)]; [done|].
  change (find_irq 9 RESET name s = Ret e s). pose proof (aget_Some_lt _ _ _ E) as He. simpl in He.
  assert (1 <= e) by (destruct (Z.eq_dec e 0) as [->|]; [done|lia]).
  apply find_irq_name; [done|unfold RESET; lia..].
Qed.

(** The client in full: with the name of an exception it connects to the given
    port of the given host, writes the number of the exception as one byte,
    closes the connection and returns 0, with exactly these calls; if one of the
    checked calls fails the program ends at it. *)
Lemma send_irq_calls argv e s :
  addresses_fit -> chosen argv e ->
  ends s (fun v log => v = 0 /\ exists sock a1 a2 hp a3 a4 a5 a6,
    log = [(sc_socket AF_INET SOCK_STREAM 0, a1);
           (sc_setsockopt sock SOL_SOCKET SO_REUSEADDR 1 sizeof_int, a2);
           (sc_gethostbyname (nth 1 argv ""), hp);
           (sc_connect sock (SockAddr AF_INET (htons (atoi (chars (nth 2 argv "")))) (out hp))
              sizeof_sockaddr_in, a3);
           (sc_write sock [e] 1, a4); (sc_shutdown sock SHUT_RDWR, a5); (sc_close sock, a6)])
    (send_irq_main argv s).
Proof.
  intros Hfit He. unfold send_irq_main. rewrite (bind_ret _ _ _ _ _ (send_irq_chosen argv e s He)).
  pose proof (called_nil s) as F0. unfold PF_INET. checked a1 G1. checked a2 G2.
  eapply ends_checked; [eassumption|auto with checks|]. intros hp s3 Ehp G3 F3. simpl in G3. unfold id.
  assert (H4 : length (out hp) = 4%nat) by (subst hp; apply Hfit; lia).
  rewrite (bind_ret _ _ _ _ _ (copy_address_4 _
    (SockAddr AF_INET (htons (atoi (chars (nth 2 argv "")))) [0; 0; 0; 0]) s3 H4 eq_refl)).
  checked a3 G4. checked a4 G5. unchecked a5. unchecked a6.
  eapply ends_ret; [eassumption|]. split; [done|]. eexists _, a1, a2, hp, a3, a4, a5, a6. done.
Qed.
End client.

(** ** From the client to the processor *)

(** The bytes a process has written. *)
Definition written (x : syscall * answer) : list Z :=
  match x.1 with sc_write _ buf _ => take (Z.to_nat (rc x.2)) buf | _ => [] end.
Definition sent (log : list (syscall * answer)) : list Z := concat (written <$> log).

(** Writes take all their bytes. *)
Definition full_write (x : syscall * answer) : Prop :=
  match x.1 with sc_write _ buf _ => rc x.2 = Z.of_nat (length buf) | _ => True end.

Section together.
Context {W W' : Type} `{Kernel W} `{Kernel W'} `{Host}.

(** The client sends the number of the exception and nothing else. *)
Lemma send_irq_sends argv e (c c' : process W) v log :
  addresses_fit (W := W) -> chosen argv e -> send_irq_main argv c = Ret v c' ->
  made c' = (made c ++ log)%list -> Forall full_write log -> sent log = [e].
Proof.
  intros Hfit He E El Hw.
  destruct (send_irq_calls argv e c Hfit He) as [(v1 & c1 & l1 & E1 & [E2 _] & _ & Hl)|(? & ? & ? & ? & E1 & _)];
    rewrite E in E1; [|done]. injection E1 as <- <-. rewrite El in E2. apply app_inv_head in E2 as <-.
  destruct Hl as (sock & a1 & a2 & hp & a3 & a4 & a5 & a6 & ->).
  rewrite !Forall_cons in Hw. destruct Hw as (_ & _ & _ & _ & Ew & _). unfold full_write in Ew. simpl in Ew.
  unfold sent. simpl. unfold written. simpl. by rewrite Ew.
Qed.

End together.

(** ** Witnesses *)

(** A host named "localhost", one connection that delivers one interrupt. *)
Definition client_answers : list answer :=
  [Answer 3 []; Answer 0 []; Answer 1 [127; 0; 0; 1]; Answer 0 []; Answer 1 []; Answer 0 []; Answer 0 []].
Definition server_answers : list answer :=
  [Answer 3 []; Answer 0 []; Answer 0 []; Answer 0 [41230]; Answer 0 []; Answer 4 [];
   Answer 1 [INTERRUPT]; Answer 0 []; Answer 0 []; Answer 0 []; Answer 0 []; Answer 5 []].

(** The system of a script that knows one host and delivers bytes. *)
#[local] Instance network : Kernel (list answer) := {|
  call c w :=
    match c with
    | sc_gethostbyname _ => (Answer 1 [127; 0; 0; 1], tail w)
    | sc_read _ _ =>
        match w with
        | Answer r [b] :: w' => (if (r =? 1) && (0 <=? b) && (b <? 256) then Answer 1 [b] else Answer 0 [], w')
        | _ => (Answer 0 [], tail w)
        end
    | _ => match w with [] => (Answer (-1) [], []) | a :: w' => (a, w') end
    end;
  errno_of _ := 2;
  h_errno_of _ := 1;
  strerror _ := "No such file or directory";
|}.

Lemma network_addresses : addresses_fit (W := list answer).
Proof. intros name w _. reflexivity. Qed.

Lemma network_reads : reads_store (W := list answer).
Proof.
  intros fd w. simpl. destruct w as [|[r [|b [|]]] w]; simpl; try lia.
  destruct ((r =? 1) && (0 <=? b) && (b <? 256)) eqn:E; simpl; [|lia].
  intros _. exists b. split; [done|]. unfold is_u8. lia.
Qed.

Definition listener_b : listener (list answer) := Listener (Process server_answers [] []) machine_b no_messages [].
Definition client_b : process (list answer) := Process client_answers [] [].

Definition state_of {S A} (d : S) (r : res S A) : S := match r with Ret _ s => s | _ => d end.
Definition client_done : process (list answer) :=
  state_of client_b (send_irq_main (H0 := host0) ["send_irq"; "localhost"; "4000"] client_b).
Definition listener_done : listener (list answer) :=
  state_of listener_b (irq_listener (H0 := host0) 2 2 0 0 listener_b).

Lemma irq_listener_raises_witness : raises listener_b (irq_listener (H0 := host0) 2 2 0 0 listener_b).
Proof. exact (irq_listener_raises (H0 := host0) 2 2 0 0 listener_b network_reads (proj1 machine_b_ok)). Defined.

