(* ===== verification/InsertionSort.v ===== *)
(** * [Examples/insertion_sort.c]: the example program

    The program that the simulator is shipped with, as the C source has it: it
    sorts an array of [N] integers in place.  The state is the array; accesses
    outside it are undefined.  The values are only copied and compared. *)
From S2P Require Import Prelude CInt.
From stdpp Require Import sorting.

#[local] Open Scope Z_scope.
#[local] Open Scope list_scope.

Definition N : Z := 16.

(** The [while] loop: [rounds] is [j + 1], the number of cells up to [j], so that
    at [O] its condition is false. *)
Fixpoint shift_greater (rounds : nat) (j p : Z) : M (list Z) Z :=
  match rounds with
  | O => ret j
  | S rounds' =>
      if 0 <=? j then
        let! x := cell_read j in
        if p <? x then
          let! y := cell_read j in
          cell_write (j + 1) y ;;;
          shift_greater rounds' (j - 1) p
        else ret j
      else ret j
  end.

(** One round of the [for] loop. *)
Definition insert_cell (i : Z) : M (list Z) unit :=
  let! p := cell_read i in
  let! j := shift_greater (Z.to_nat i) (i - 1) p in
  cell_write (j + 1) p.

Definition indices (n : Z) : list Z := Z.of_nat <$> seq 1 (Z.to_nat (n - 1)).

(** The [for] loop over the array of [n] cells, and [main]. *)
Definition sort_cells (n : Z) : M (list Z) unit :=
  for_each (indices n) (fun i _ => insert_cell i) tt.

Definition t_init : list Z := [5;16;8;8192;54;8;4096;9;-6;65;2;-1337;1024;2048;1;7].

Definition main : res (list Z) Z := (sort_cells N ;;; ret 0) t_init.

(** ** Lemmas *)

(** The cell at [length a] is free: the elements greater than [p] at the end of
    [a] move up by one, and the free cell is then before them. *)
Lemma shift_greater_ok a h rest p :
  exists a1 a2 h', a = a1 ++ a2 /\ Forall (fun x => p < x) a2 /\
    (forall x, last a1 = Some x -> x <= p) /\
    shift_greater (length a) (Z.of_nat (length a) - 1) p (a ++ h :: rest) =
      Ret (Z.of_nat (length a1) - 1) (a1 ++ h' :: a2 ++ rest).
Proof.
  revert h rest. induction a as [|x a IH] using rev_ind; intros h rest.
  { exists [], [], h. by split_and!. }
  rewrite length_app, Nat.add_comm. cbn [length Nat.add shift_greater].
  rewrite (proj2 (Z.leb_le _ _)) by lia. rewrite <- app_assoc. simpl.
  replace (Z.of_nat (S (length a)) - 1) with (Z.of_nat (length a)) by lia.
  assert (Er : cell_read (Z.of_nat (length a)) (a ++ x :: h :: rest) = Ret x (a ++ x :: h :: rest))
    by (apply cell_read_ret; by apply aget_mid).
  rewrite (bind_ret _ _ _ _ _ Er). destruct (Z.ltb_spec p x).
  - rewrite (bind_ret _ _ _ _ _ Er). erewrite bind_ret; cycle 1.
    { apply cell_write_ret. rewrite length_app. simpl. lia. }
    replace (a ++ x :: h :: rest) with ((a ++ [x]) ++ h :: rest) by by rewrite <- app_assoc.
    rewrite aset_mid by (rewrite length_app; simpl; lia). rewrite <- app_assoc. simpl.
    destruct (IH x (x :: rest)) as (a1 & a2 & h' & -> & Hgt & Hle & E).
    exists a1, (a2 ++ [x]), h'. rewrite E. split_and!; [by rewrite <- app_assoc| |done|].
    + apply Forall_app. split; [done|by constructor].
    + by rewrite <- app_assoc.
  - exists (a ++ [x]), [], h. split_and!; [by rewrite app_nil_r|done| |].
    + intros y. rewrite last_snoc. intros [= <-]; done.
    + rewrite length_app, <- app_assoc. simpl. f_equal. lia.
Qed.

(** A sorted list with an element put between the smaller and the greater ones. *)
Lemma sorted_insert (a1 a2 : list Z) p :
  StronglySorted Z.le (a1 ++ a2) -> Forall (fun x => p < x) a2 ->
  (forall x, last a1 = Some x -> x <= p) -> StronglySorted Z.le (a1 ++ p :: a2).
Proof.
  intros Hs Hgt Hle. apply StronglySorted_app_2.
  - intros x y Hx Hc. apply elem_of_cons in Hc as [Ey|Hy].
    + subst y. destruct a1 as [|z a1] using rev_ind; [by apply elem_of_nil in Hx|].
      assert (z <= p) by (apply Hle; by rewrite last_snoc).
      apply elem_of_app in Hx as [Hx|Hx%list_elem_of_singleton]; [|by subst x].
      apply StronglySorted_app_1_l in Hs.
      etrans; [eapply (StronglySorted_app_1_elem_of _ _ _ _ _ Hs Hx)|done]. by apply list_elem_of_singleton.
    + eapply (StronglySorted_app_1_elem_of _ _ _ _ _ Hs Hx Hy).
  - by eapply StronglySorted_app_1_l.
  - constructor; [by eapply StronglySorted_app_1_r|]. eapply Forall_impl; [exact Hgt|]. simpl. lia.
Qed.

Lemma insert_cell_ok a p rest :
  StronglySorted Z.le a ->
  exists a', insert_cell (Z.of_nat (length a)) (a ++ p :: rest) = Ret tt (a' ++ rest) /\
    StronglySorted Z.le a' /\ a' ≡ₚ p :: a.
Proof.
  intros Hs. unfold insert_cell.
  erewrite bind_ret; [|apply cell_read_ret; by apply aget_mid]. rewrite Nat2Z.id.
  destruct (shift_greater_ok a p rest p) as (a1 & a2 & h' & -> & Hgt & Hle & E).
  rewrite (bind_ret _ _ _ _ _ E). replace (Z.of_nat (length a1) - 1 + 1) with (Z.of_nat (length a1)) by lia.
  exists (a1 ++ p :: a2). split_and!; [|by apply sorted_insert|by rewrite Permutation_middle].
  rewrite cell_write_ret, aset_mid by (rewrite ?length_app; simpl; lia). by rewrite <- app_assoc.
Qed.

Lemma sort_loop_ok k a rest :
  length rest = k -> StronglySorted Z.le a ->
  exists t', for_each (Z.of_nat <$> seq (length a) k) (fun i _ => insert_cell i) tt (a ++ rest) = Ret tt t' /\
    StronglySorted Z.le t' /\ t' ≡ₚ a ++ rest.
Proof.
  revert a rest. induction k as [|k IH]; intros a rest Hk Hs.
  { apply nil_length_inv in Hk as ->. exists a. by rewrite app_nil_r. }
  destruct rest as [|p rest]; [done|]. cbn [seq fmap list_fmap for_each].
  destruct (insert_cell_ok a p rest Hs) as (a' & E & Hs' & Hp). rewrite (bind_ret _ _ _ _ _ E).
  destruct (IH a' rest) as (t' & E' & Hs2 & Hp2); [simpl in Hk; lia|done|].
  exists t'. rewrite (Permutation_length Hp) in E'. split; [exact E'|]. split; [done|].
  rewrite Hp2, Hp. apply Permutation_middle.
Qed.

(** C17: The program of the example sorts.  For an array of any length, the loops
    end, never leave the array, and leave what a reference sort gives: the same
    elements in ascending order.  On the array of the program, [main] returns 0. *)
Theorem insertion_sort_correct (t : list Z) :
  sort_cells (Z.of_nat (length t)) t = Ret tt (merge_sort Z.le t) /\
  main = Ret 0 [-1337;-6;1;2;5;7;8;8;9;16;54;65;1024;2048;4096;8192].
Proof.
  split; [|vm_compute; reflexivity]. unfold sort_cells, indices.
  destruct t as [|x t]; [done|].
  replace (Z.to_nat (Z.of_nat (length (x :: t)) - 1)) with (length t) by (simpl; lia).
  destruct (sort_loop_ok (length t) [x] t) as (t' & E & Hs & Hp); [done|repeat constructor|].
  change (seq 1 (length t)) with (seq (length [x]) (length t)). simpl app in E. rewrite E. f_equal.
  apply (StronglySorted_unique Z.le); [done|apply StronglySorted_merge_sort; apply _|].
  by rewrite merge_sort_Permutation.
Qed.
