(* ===== verification/Continue.v ===== *)
(** * The continue command of gdb

    [cont] described by the steps of the processor: it runs [arm_step] until the
    next instruction is a breakpoint, the instruction gdb writes over the program,
    or until the program ends.  The steps are those of [Instruction], whatever is
    traced on the way. *)
From S2P Require Import Prelude CInt Constants Memory Registers Format Trace Core CoreFacts Exception Branch Shifter DataProcessing LoadStore Safety Instruction CString Debug DebugMessages GdbProtocol.

#[local] Open Scope string_scope.
#[local] Open Scope Z_scope.

(** ** Code that only looks at the machine *)

Section watching.

(** [c] returns a value in [P] and changes at most the trace. *)
Definition watches {A} (P : A -> Prop) (c : M machine A) : Prop :=
  forall s, machine_ok s -> exists x s', c s = Ret x s' /\ P x /\ s' ≡ s /\ machine_ok s'.

Lemma watches_ret {A} (P : A -> Prop) x : P x -> watches P (ret x).
Proof. intros HP s Hs. by exists x, s. Qed.

Lemma watches_bind {A B} (P : A -> Prop) (Q : B -> Prop) (c : M machine A) (f : A -> M machine B) :
  watches P c -> (forall x, P x -> watches Q (f x)) -> watches Q (bind c f).
Proof.
  intros Hc Hf s Hs. destruct (Hc s Hs) as (x & s1 & E & Hx & E1 & Hs1).
  destruct (Hf x Hx s1 Hs1) as (y & s2 & E' & Hy & E2 & Hs2). exists y, s2.
  rewrite (bind_ret _ _ _ _ _ E). split_and!; [done..| |done]. by etrans.
Qed.

Lemma watches_when b (c : M machine unit) : watches (fun _ => True) c -> watches (fun _ => True) (when b c).
Proof. intros Hc. destruct b; [done|by apply watches_ret]. Qed.

Lemma watches_gets {A} (f : machine -> A) : watches (fun _ => True) (gets f).
Proof. intros s Hs. by exists (f s), s. Qed.

Lemma watches_table {A} (l : list A) i :
  0 <= i < Z.of_nat (length l) -> watches (fun _ => True) (table_read l i).
Proof. intros Hi s Hs. destruct (aget_lt l i Hi) as [x E]. exists x, s. unfold table_read. by rewrite E. Qed.

Lemma watches_for {A B} (P : B -> Prop) (l : list A) (f : A -> B -> M machine B) b :
  P b -> (forall x b, In x l -> P b -> watches P (f x b)) -> watches P (for_each l f b).
Proof.
  revert b. induction l as [|x l IH]; intros b Hb Hf; simpl; [by apply watches_ret|].
  apply (watches_bind P); [apply Hf; [by left|done]|]. intros b' Hb'. apply IH; [done|].
  intros y b'' Hy. apply Hf. by right.
Qed.

Lemma watches_print str : watches (fun _ => True) (print str).
Proof.
  intros s (Hr & Hm & Hc & Ht). destruct (fprintf_logs str (trace s)) as (t & E & Hs & _).
  { eapply trace_ok_le; [|done]. lia. }
  exists tt, (set_trace t s). split; [unfold print, in_trace; by apply (zoom_ret trace_lens)|].
  split; [done|]. split; [done|]. split_and!; [done..|]. by eapply trace_ok_step.
Qed.

(** An access that leaves the quiet machine as it was. *)
Lemma watches_access {A} (c : M machine A) (f : machine -> A) :
  transparent 2 c -> (forall s, quiet s -> regs_ok (regs s) -> c s = Ret (f s) s) ->
  watches (fun _ => True) c.
Proof.
  intros Ht Hq s Hs. destruct (Hs) as (Hr & Hm & Hc & _).
  destruct (run_ok c s _ (hush s) Ht Hs (Hq (hush s) (hush_quiet s) Hr)) as (s' & E & Heq & Hok); try done.
  exists (f (hush s)), s'. split_and!; [done..| |done]. by rewrite Heq.
Qed.

Lemma watches_read_register r : 0 <= r < 16 -> watches (fun _ => True) (arm_read_register r).
Proof.
  intros. apply (watches_access _ (fun s => rval s r)); [apply transparent_read_register; lia|].
  intros. by apply arm_read_register_q.
Qed.
Lemma watches_read_usr_register r : 0 <= r < 16 -> watches (fun _ => True) (arm_read_usr_register r).
Proof.
  intros. apply (watches_access _ (fun s => usr_rval s r)); [apply transparent_read_usr_register; lia|].
  intros. by apply arm_read_usr_register_q.
Qed.
Lemma watches_read_cpsr : watches (fun _ => True) arm_read_cpsr.
Proof.
  apply (watches_access _ (fun s => cpsr_of (regs s))); [apply transparent_read_cpsr; lia|].
  intros. by apply arm_read_cpsr_q.
Qed.

Ltac watch :=
  repeat first
    [ apply watches_when | apply watches_print | apply watches_gets
    | apply watches_read_cpsr | (apply watches_ret; done)
    | (apply watches_read_register; lia) | (apply watches_read_usr_register; lia)
    | (apply (watches_bind (fun _ => True)); [|intros ? _]) | case_match ].

Lemma watches_print_register mode r count :
  0 <= r < 16 -> watches (fun _ => True) (print_register mode r count).
Proof.
  intros Hr. unfold print_register. apply (watches_bind (fun _ => True)).
  { apply watches_table. simpl. lia. }
  intros name _. case_match; watch.
Qed.

Lemma watches_print_mode mode name : watches (fun _ => True) (print_mode mode name).
Proof.
  unfold print_mode. apply (watches_bind (fun _ => True)); [by apply watches_when, watches_print|].
  intros _ _. apply (watches_bind (fun _ => True)).
  { apply (watches_for (fun _ => True)); [done|]. intros r count (k & <- & Hk)%in_map_iff _.
    apply in_seq in Hk. apply watches_print_register. lia. }
  intros _ _. watch.
Qed.

(** Printing the state of the processor does not change it. *)
Lemma watches_trace_arm_state : watches (fun _ => True) trace_arm_state.
Proof.
  unfold trace_arm_state. do 2 (apply (watches_bind (fun _ => True)); [apply watches_gets|intros ? _]).
  apply watches_when. unfold arm_print_state. apply (watches_for (fun _ => True)); [done|].
  intros mode _ (n & <- & Hn)%in_map_iff _. apply in_seq in Hn.
  apply (watches_bind (fun _ => True)); [apply watches_table; simpl; lia|].
  intros [name|] _; [apply watches_print_mode|by apply watches_ret].
Qed.
End watching.

Lemma mem_roomy_weaken room mm : 0 <= room -> mem_roomy room mm -> mem_roomy 0 mm.
Proof. intros Hr (? & ? & ?). split_and!; [done..|lia]. Qed.

(** ** The rounds of the loop *)

Section rounds.
Context `{Host} `{Wire}.

(** The breakpoint instruction, and what [cont] takes for the next instruction of
    [s]: it keeps the last one when the address is not in the memory. *)
Definition breakpoint (ins : Z) : bool := Z.land ins 0xFFF000F0 =? 0xE7F000F0.
Definition next_instruction (ins : Z) (s : machine) : Z :=
  if fetch_address s <? size (mem s) then word_at (mem s) (fetch_address s) else ins.

(** The word at which [cont] looks lies in the block. *)
Definition readable (s : machine) : Prop :=
  fetch_address s < size (mem s) -> fetch_address s + 3 < Z.of_nat (length (m (mem s))).

(** [n] steps of the processor, none of them at a breakpoint.  A configuration is
    the result of the last step, the last instruction and the machine. *)
Inductive steps : nat -> Z * Z * machine -> Z * Z * machine -> Prop :=
| steps_nil c : steps 0 c c
| steps_cons n e ins s r s1 c :
    readable s -> breakpoint (next_instruction ins s) = false -> arm_step s = Ret r s1 ->
    steps n (r, next_instruction ins s, s1) c -> steps (S n) (e, ins, s) c.

(** [g] shows the machine [s]. *)
Definition shows (g : gdb_protocol_data) (e : Z) (s : machine) : Prop :=
  machine_of g ≡ s /\ machine_ok (machine_of g) /\ machine_ok s /\ mem_roomy 0 (mem s) /\
  target_exception g = e.

Definition same_wire (g g' : gdb_protocol_data) : Prop :=
  fd g' = fd g /\ fd_open g' = fd_open g /\ packet g' = packet g /\
  files (log g') = files (log g).

Lemma gdb_ok_wire g g' : same_wire g g' -> gdb_ok g -> gdb_ok g'.
Proof.
  intros (_ & E1 & E2 & E3) (? & ? & ? & [l Hl]). unfold gdb_ok. rewrite E1, E2. split_and!; [done..|].
  exists l. by rewrite E3.
Qed.

Lemma next_instruction_equiv ins s s' : s ≡ s' -> next_instruction ins s = next_instruction ins s'.
Proof.
  intros E. unfold next_instruction, fetch_address. by rewrite (mem_proper _ _ E), (pc_of_proper _ _ E).
Qed.

(** What the loop finds before a step. *)
Definition look (ins : Z) : M gdb_protocol_data Z :=
  traceless
    (let! pc := in_machine (at_line gdb_file 169 (arm_read_register 15)) in
     let r15 := u32 (pc - 4) in
     let! rv := in_machine (at_line gdb_file 170 (arm_read_word r15 ins)) in
     ret rv.2).

Lemma read_next ins (s : machine) :
  machine_ok s -> readable s ->
  exists r, memory_read_word (fetch_address s) ins (mem s) = Ret (r, next_instruction ins s) (mem s).
Proof.
  intros (_ & Hm & _) Hl. unfold readable in Hl. assert (Hf : is_u32 (fetch_address s)) by apply u32_range.
  unfold is_u32, next_instruction in *. destruct (Z.ltb_spec (fetch_address s) (size (mem s))).
  - exists 0. apply memory_read_word_ok; [done|lia..].
  - exists DATA_ABORT. by destruct (memory_invalid (mem s) (fetch_address s) ins) as (_ & _ & E & _).
Qed.

Lemma look_ok ins g e s :
  shows g e s -> readable s ->
  exists g', look ins g = Ret (next_instruction ins s) g' /\ shows g' e s /\ same_wire g g'.
Proof.
  intros (Es & Hok & Hoks & Hm & He) Hrd. set (so := trace_off (machine_of g)).
  assert (Hrg : readable (machine_of g)).
  { unfold readable, fetch_address in *. by rewrite (mem_proper _ _ Es), (pc_of_proper _ _ Es). }
  destruct (read_next ins (machine_of g) Hok Hrg) as [r Er].
  exists (set_machine (trace_back so) (set_machine so g)). split; [|split; [|done]].
  - unfold look. apply (traceless_q _ g _ (set_machine so g)). fold so.
    rewrite (bind_ret _ _ _ (rval so 15) (set_machine so g)); cycle 1.
    { apply (in_machine_q _ (set_machine so g)). apply at_line_ret; [|done..].
      apply arm_read_register_q; [done| |lia]. apply Hok. }
    rewrite rval_15. change (u32 (pc_read (pc_of so) - 4)) with (fetch_address (machine_of g)).
    rewrite (bind_ret _ _ _ (r, next_instruction ins s) (set_machine so g)); [done|].
    apply (in_machine_q _ (set_machine so g)). apply at_line_ret; [|done..].
    rewrite <- (next_instruction_equiv _ _ _ Es). by apply arm_read_word_q.
  - destruct Hok as (? & ? & ? & Ht). split; [done|]. split; [|done]. by split_and!.
Qed.
End rounds.

Section continue.
Context `{Host} `{Wire}.

(** A step of the target, traced. *)
Lemma step_target_ok g e s r s1 :
  shows g e s -> arm_step s = Ret r s1 ->
  exists g1, step_target g = Ret tt g1 /\ shows g1 r s1 /\ same_wire g g1.
Proof.
  intros (Es & Hok & Hoks & Hm & He) E.
  assert (Hmg : mem_roomy 0 (mem (machine_of g))) by by rewrite (mem_proper _ _ Es).
  pose proof (arm_step_transparent (machine_of g) s Es) as Ha.
  specialize (Ha ltac:(apply Hok) ltac:(apply Hoks)). rewrite E in Ha. unfold agree in Ha.
  destruct (arm_step (machine_of g)) as [r' m1| | |] eqn:Em; try done. destruct Ha as (-> & Em1 & _).
  destruct (safe_run 0 _ _ s (safe_step 0) arm_step_transparent Hoks Hm)
    as [(x & s1' & E' & _ & Hok1 & Hm1)|[[? E']|[E' _]]]; rewrite E in E'; try done. injection E' as <- <-.
  destruct (safe_run 0 _ _ _ (safe_step 0) arm_step_transparent Hok Hmg)
    as [(x & s1' & E' & _ & Hok2 & _)|[[? E']|[E' _]]]; rewrite Em in E'; try done. injection E' as <- <-.
  destruct (watches_trace_arm_state m1 Hok2) as ([] & m2 & Et & _ & Em2 & Hok3).
  exists (set_machine m2 (set_exception r (set_machine m1 g))). split; [|split].
  - unfold step_target. rewrite (bind_ret _ _ _ _ _ (in_machine_q _ g _ _ Em)).
    rewrite (bind_ret _ _ _ tt (set_exception r (set_machine m1 g))) by done.
    by apply (in_machine_q _ (set_exception r (set_machine m1 g))).
  - split; [simpl; by rewrite Em2|]. split; [done|]. split; [done|]. done.
  - done.
Qed.

Lemma step_target_exit g e s s1 :
  shows g e s -> arm_step s = Exit 0 s1 ->
  exists g1, step_target g = Exit 0 g1 /\ machine_of g1 ≡ s1.
Proof.
  intros (Es & Hok & Hoks & Hm & He) E.
  pose proof (arm_step_transparent (machine_of g) s Es) as Ha.
  specialize (Ha ltac:(apply Hok) ltac:(apply Hoks)). rewrite E in Ha. unfold agree in Ha.
  destruct (arm_step (machine_of g)) as [|c m1| |] eqn:Em; try done. destruct Ha as (-> & Em1 & _).
  exists (set_machine m1 g). split; [|done].
  unfold step_target. apply bind_exit. unfold in_machine, zoom. simpl. by rewrite Em.
Qed.

Lemma cont_loop_S fuel ins g :
  cont_loop (S fuel) ins g =
  (let! ins := look ins in
   if breakpoint ins then ret true else step_target ;;; cont_loop fuel ins) g.
Proof. done. Qed.

Lemma same_wire_trans g1 g2 g3 : same_wire g1 g2 -> same_wire g2 g3 -> same_wire g1 g3.
Proof. intros (? & ? & ? & ?) (? & ? & ? & ?). split_and!; congruence. Qed.

(** The loop follows the steps of the processor. *)
Lemma cont_loop_steps n e ins s e' ins' s' g :
  steps n (e, ins, s) (e', ins', s') -> shows g e s ->
  exists g', shows g' e' s' /\ same_wire g g' /\
    forall fuel, cont_loop (n + fuel) ins g = cont_loop fuel ins' g'.
Proof.
  intros Hn. remember (e, ins, s) as c eqn:Ec. remember (e', ins', s') as c' eqn:Ec'.
  revert e ins s g Ec. induction Hn as [c|n e1 ins1 s1 r s2 c Hrd Hb E _ IH]; intros e ins s g Ec Hg.
  { subst c. injection Ec as -> -> ->. exists g. by split_and!. }
  injection Ec as -> -> ->. destruct (look_ok ins g e s Hg Hrd) as (g1 & E1 & Hg1 & W1).
  destruct (step_target_ok g1 e s r s2 Hg1 E) as (g2 & E2 & Hg2 & W2).
  destruct (IH Ec' r (next_instruction ins s) s2 g2 eq_refl Hg2) as (g' & Hg' & W' & Hf).
  exists g'. split; [done|]. split; [eauto using same_wire_trans|]. intros fuel.
  cbn [Nat.add]. rewrite cont_loop_S, (bind_ret _ _ _ _ _ E1), Hb, (bind_ret _ _ _ _ _ E2). apply Hf.
Qed.

(** The packet that reports the result of the last step. *)
Definition stop_reply (e : Z) : list Z :=
  chars (if e =? UNDEFINED_INSTRUCTION then "S04"
         else if (e =? PREFETCH_ABORT) || (e =? DATA_ABORT) then "S10" else "S05").

Lemma stop_reason_ok g :
  gdb_ok g -> exists g', gdb_send_stop_reason g = Ret tt g' /\ replied g g' (stop_reply (target_exception g)).
Proof.
  intros Hg. unfold gdb_send_stop_reason, stop_reply.
  rewrite (bind_ret _ _ g (target_exception g) g) by done.
  repeat case_match; (apply gdb_send_data_q; [done|by repeat constructor|simpl; lia]).
Qed.

Lemma cont_steps g n e' ins' s' fuel data :
  gdb_ok g -> machine_ok (machine_of g) -> mem_roomy 0 (mem (machine_of g)) ->
  steps n (target_exception g, val0 (machine_of g), alloc (machine_of g)) (e', ins', s') ->
  readable s' -> (n < fuel)%nat ->
  (breakpoint (next_instruction ins' s') = true ->
   exists g', cont fuel data g = Ret tt g' /\ machine_of g' ≡ s' /\
     target_exception g' = e' /\ fd g' = (fd g ++ [frame (stop_reply e')])%list) /\
  (forall s1, breakpoint (next_instruction ins' s') = false -> arm_step s' = Exit 0 s1 ->
   exists g', cont fuel data g = Exit 0 g' /\ machine_of g' ≡ s1).
Proof.
  intros Hg Hok Hm Hn Hrd Hf. set (g0 := set_machine (alloc (machine_of g)) g).
  assert (Hs0 : shows g0 (target_exception g) (alloc (machine_of g))) by by split_and!.
  destruct (cont_loop_steps n _ _ _ _ _ _ g0 Hn Hs0) as (g1 & Hg1 & W1 & E).
  destruct (look_ok ins' g1 e' s' Hg1 Hrd) as (g2 & E2 & Hg2 & W2).
  pose proof (same_wire_trans _ _ _ W1 W2) as W. destruct (W) as (V1 & _). specialize (E (S (fuel - S n))).
  replace (n + S (fuel - S n))%nat with fuel in E by lia.
  rewrite cont_loop_S, (bind_ret _ _ _ _ _ E2) in E.
  unfold cont. rewrite (bind_ret _ _ _ (val0 (machine_of g)) g0) by done. split.
  - intros Hb. rewrite Hb in E. rewrite (bind_ret _ _ _ _ _ E).
    destruct (stop_reason_ok g2) as (g' & E' & R1 & _ & _ & R2 & R3 & _).
    { by apply (gdb_ok_wire g0). }
    destruct Hg2 as (Es & _ & _ & _ & He). exists g'. split; [exact E'|]. rewrite R2, R3, R1, V1, He.
    by split_and!.
  - intros s1 Hb Es. rewrite Hb in E. destruct (step_target_exit g2 e' s' s1 Hg2 Es) as (g3 & E3 & Em).
    exists g3. split; [|done]. apply bind_exit. rewrite E. by apply bind_exit.
Qed.

(** C15: The continue command.  If the processor, from the present state, makes [n]
    steps without meeting a breakpoint, looking only at words in the block, then
    - if the next instruction is a breakpoint, [cont] stops there, before it, with
      processor and memory as those steps leave them, and sends one packet that
      reports the result of the last step;
    - if the next step ends the program, the simulator exits with status 0, in the state
      that step leaves.
    Tracing changes neither; any larger bound on the number of rounds gives the
    same. *)
Theorem cont_runs_to_breakpoint g n e' ins' s' fuel data :
  gdb_ok g -> machine_ok (machine_of g) -> mem_roomy 0 (mem (machine_of g)) ->
  steps n (target_exception g, val0 (machine_of g), alloc (machine_of g)) (e', ins', s') ->
  readable s' -> (n < fuel)%nat ->
  (breakpoint (next_instruction ins' s') = true ->
   exists g', cont fuel data g = Ret tt g' /\ machine_of g' ≡ s' /\
     target_exception g' = e' /\ fd g' = (fd g ++ [frame (stop_reply e')])%list) /\
  (forall s1, breakpoint (next_instruction ins' s') = false -> arm_step s' = Exit 0 s1 ->
   exists g', cont fuel data g = Exit 0 g' /\ machine_of g' ≡ s1).
Proof. apply cont_steps. Qed.
End continue.

(** ** Witnesses *)

#[local] Existing Instance wire_up.

(** MOV r0, #1, then the breakpoint of gdb. *)
Definition machine_break : machine := machine_prog 0 0x60000010 [0xE3A00001; 0xE7F001F0].
Definition gdb_break : gdb_protocol_data := gdb_init_data machine_break (replicate 1024 0) no_messages.
Definition machine_broken : machine :=
  match arm_step (H := host0) (alloc machine_break) with Ret _ s => s | _ => machine_break end.

Lemma cont_runs_to_breakpoint_witness :
  exists g', cont (H := host0) 10 [] gdb_break = Ret tt g' /\ rval (machine_of g') 0 = 1 /\
    fd g' = [frame (chars "S05")].
Proof.
  destruct (machine_prog_ok 0 0x60000010 [0xE3A00001; 0xE7F001F0] eq_refl) as [Hok Hm].
  destruct (proj1 (cont_runs_to_breakpoint (H := host0) gdb_break 1 0 0xE3A00001 machine_broken 10 []
    ltac:(split_and!; done || apply no_messages_ok) Hok (mem_roomy_weaken 3 _ ltac:(lia) Hm)
    ltac:(eapply steps_cons; [intros _; vm_compute; reflexivity|vm_compute; reflexivity..|apply steps_nil])
    ltac:(intros _; vm_compute; reflexivity)
    ltac:(lia)) ltac:(vm_compute; reflexivity)) as (g' & H1 & H2 & _ & H3).
  exists g'. split; [exact H1|]. split; [|exact H3].
  rewrite (rval_proper _ _ H2 0 0 eq_refl). vm_compute. reflexivity.
Defined.
