(* ===== verification/SessionSafety.v ===== *)
(** * What the network cannot do to the simulator

    [runs room P c Q]: from a state in [P], [c] returns a value and a state in
    [Q], or ends the program with status 0; it never fails an assertion, and the
    one undefined behaviour it can have is a read past the end of the memory
    block, when the block has fewer than three bytes to spare.  This is shown of
    every handler of [gdb_protocol.c] and of the scanner, for requests that are
    [benign]: the conditions that the source does not check are those of
    [benign_data]. *)
From S2P Require Import Prelude CInt Constants Memory Registers Format Trace Core CoreFacts Exception Branch Shifter DataProcessing LoadStore Safety Instruction CString Debug DebugMessages GdbProtocol Scanner Session Continue.

#[local] Open Scope string_scope.
#[local] Open Scope Z_scope.

(** ** Rules *)

Section rules.
Context {S : Type} (room : Z).

Definition fine {A} (r : res S A) (Q : A -> S -> Prop) : Prop :=
  match r with
  | Ret x s => Q x s
  | Exit code _ => code = 0
  | Abort _ => False
  | Undef u => u = OutOfBounds /\ room < 3
  end.

Definition runs {A} (P : S -> Prop) (c : M S A) (Q : A -> S -> Prop) : Prop :=
  forall s, P s -> fine (c s) Q.

Lemma runs_ret {A} (P : S -> Prop) (x : A) (Q : A -> S -> Prop) :
  (forall s, P s -> Q x s) -> runs P (ret x) Q.
Proof. intros HQ s Hs. by apply HQ. Qed.

Lemma runs_bind {A B} P (c : M S A) (f : A -> M S B) R Q :
  runs P c R -> (forall x, runs (R x) (f x) Q) -> runs P (bind c f) Q.
Proof.
  intros Hc Hf s Hs. specialize (Hc s Hs). unfold bind. destruct (c s) as [x s'| | |]; try done.
  by apply Hf.
Qed.

Lemma runs_seq {A B} P (c : M S A) (f : A -> M S B) R Q :
  runs P c (fun _ => R) -> (forall x, runs R (f x) Q) -> runs P (bind c f) Q.
Proof. intros Hc Hf. by apply (runs_bind _ _ _ (fun _ => R)). Qed.

Lemma runs_weaken {A} (P P' : S -> Prop) (c : M S A) (Q Q' : A -> S -> Prop) :
  runs P' c Q' -> (forall s, P s -> P' s) -> (forall x s, Q' x s -> Q x s) -> runs P c Q.
Proof.
  intros Hc HP HQ s Hs. specialize (Hc s (HP _ Hs)). destruct (c s); try done. by apply HQ.
Qed.

Lemma runs_drop {A} (P R : S -> Prop) (c : M S A) (Q : A -> Prop) :
  runs P c (fun x s => Q x /\ R s) -> runs P c (fun _ => R).
Proof. intros Hc. eapply runs_weaken; [exact Hc|done|]. by intros x s [_ ?]. Qed.

(** A fact that the state implies, or one that does not depend on it. *)
Lemma runs_pre {A} (P : S -> Prop) (c : M S A) Q : (forall s, P s -> runs P c Q) -> runs P c Q.
Proof. intros Hc s Hs. by apply (Hc s Hs). Qed.

Lemma runs_fact {A} (F : Prop) (P : S -> Prop) (c : M S A) Q :
  (F -> runs P c Q) -> runs (fun s => F /\ P s) c Q.
Proof. intros Hc s [HF Hs]. by apply Hc. Qed.

Lemma runs_if {A} P (b : bool) (c1 c2 : M S A) Q :
  runs P c1 Q -> runs P c2 Q -> runs P (if b then c1 else c2) Q.
Proof. by destruct b. Qed.

Lemma runs_when P b (c : M S unit) : runs P c (fun _ => P) -> runs P (when b c) (fun _ => P).
Proof. intros. apply runs_if; [done|by apply runs_ret]. Qed.

Lemma runs_gets {A} P (f : S -> A) : runs P (gets f) (fun _ => P).
Proof. by intros s Hs. Qed.

Lemma runs_modify (P Q : S -> Prop) f : (forall s, P s -> Q (f s)) -> runs P (modify f) (fun _ => Q).
Proof. intros Hf s Hs. by apply Hf. Qed.

(** A loop; the invariant [J] knows the elements done. *)
Lemma runs_for {A B} (l : list A) (f : A -> B -> M S B) (J : list A -> B -> S -> Prop) b :
  (forall l1 x l2 b, l = (l1 ++ x :: l2)%list -> runs (J l1 b) (f x b) (J (l1 ++ [x])%list)) ->
  runs (J [] b) (for_each l f b) (J l).
Proof.
  intros Hf. assert (Hg : forall l2 l1 b, l = (l1 ++ l2)%list -> runs (J l1 b) (for_each l2 f b) (J l)).
  { induction l2 as [|x l2 IH]; intros l1 b0 El; simpl.
    - rewrite app_nil_r in El. subst l1. by apply runs_ret.
    - eapply runs_bind; [by eapply Hf|]. intros b'. apply IH. by rewrite <- app_assoc. }
  by apply Hg.
Qed.
End rules.

(** A component's operation: [K] does not depend on the component. *)
Lemma runs_zoom {S T A} room (l : lens S T) `{!LensLaws l} (P : T -> Prop) (K : S -> Prop) (c : M T A) Q :
  runs room P c Q -> (forall t s, K s -> K (lset l t s)) ->
  runs room (fun s => P (lget l s) /\ K s) (zoom l c) (fun x s => Q x (lget l s) /\ K s).
Proof.
  intros Hc HK s [Hs Hk]. specialize (Hc _ Hs). unfold zoom, fine in *.
  destruct (c (lget l s)); try done. rewrite lget_lset. split; [done|by apply HK].
Qed.

(** ** Strings and buffers *)

(** A buffer whose last character is a NUL: a string starts everywhere in it. *)
Definition closed (l : list Z) : Prop := last l = Some 0.

Lemma closed_until l : closed l -> exists s, until_nul l = Some s.
Proof.
  unfold closed. induction l as [|c l IH]; [done|]. simpl. destruct (Z.eqb_spec c 0); [by eexists|].
  destruct l as [|d l]; [by intros [= ->]|]. intros Hl. destruct (IH Hl) as [s Es]. rewrite Es. by eexists.
Qed.

Lemma closed_drop k l : closed l -> (k < length l)%nat -> closed (drop k l).
Proof.
  unfold closed. revert l. induction k as [|k IH]; intros [|c l] Hl Hk; simpl in *; try lia; try done.
  apply IH; [|lia]. destruct l; [simpl in Hk; lia|done].
Qed.

Lemma until_nul_length l s : until_nul l = Some s -> (length s < length l)%nat.
Proof.
  revert s. induction l as [|c l IH]; intros s; simpl; [done|]. case_match; [intros [= <-]; simpl; lia|].
  destruct (until_nul l) as [t|]; [|done]. intros [= <-]. specialize (IH t eq_refl). simpl. lia.
Qed.

Lemma closed_snoc l : closed (l ++ [0]).
Proof. apply last_snoc. Qed.

Lemma closed_aset l i c : closed l -> i < Z.of_nat (length l) - 1 -> closed (aset l i c).
Proof.
  unfold closed, aset. intros Hl Hi. destruct (Z.leb_spec 0 i); [|done].
  rewrite !last_lookup, length_insert in *. rewrite list_lookup_insert_ne; [done|lia].
Qed.

(** ** The state of a session *)

Section handlers.
Context `{Host} `{Wire} (room : Z) (sel : bool).

(** The files to debug are in order; [sel]: [gdb_protocol.c] is one of them. *)
Definition listed (m : messages) : Prop := log_ok m /\ selected m gdb_file = sel.

(** Between the operations: the machine is well formed, the packet has its size,
    the length to transmit is in it; [R] is what is known of the characters of the
    packet. *)
Definition frame (R : list Z -> Prop) (g : gdb_protocol_data) : Prop :=
  sound room (machine_of g) /\ Z.of_nat (length (packet g)) = 1024 /\ 0 <= len g <= 1024 /\
  listed (log g) /\ R (packet g).

Definition anything (p : list Z) : Prop := True.
(** The text of an answer ends where its frame still fits; the packet is a
    string, if it is going to be printed. *)
Definition ready (p : list Z) : Prop := exists j, 1 <= j <= 1020 /\ aget p j = Some 0.
Definition a_string (p : list Z) : Prop := sel = true -> 0 ∈ p.

Lemma frame_anything R g : frame R g -> frame anything g.
Proof. intros (Hs & Hp & Hl & Hg & _). exact (conj Hs (conj Hp (conj Hl (conj Hg I)))). Qed.

Lemma frame_weaken (R R' : list Z -> Prop) g : frame R g -> (R (packet g) -> R' (packet g)) -> frame R' g.
Proof. intros (Hs & Hp & Hl & Hg & HR) Hw. exact (conj Hs (conj Hp (conj Hl (conj Hg (Hw HR))))). Qed.

Lemma a_string_at p i : aget p i = Some 0 -> a_string p.
Proof. unfold aget, a_string. case_match; [|done]. intros E _. by eapply list_elem_of_lookup_2. Qed.

Lemma ready_a_string p : ready p -> a_string p.
Proof. intros (j & _ & Hj). by eapply a_string_at. Qed.

Lemma a_string_until p : sel = true -> a_string p -> exists s, until_nul p = Some s.
Proof.
  intros Hsel Hp. specialize (Hp Hsel). apply list_elem_of_lookup in Hp as [k Hk].
  apply (until_nul_at p (Z.of_nat k)). unfold aget. destruct (Z.leb_spec 0 (Z.of_nat k)); [|lia].
  by rewrite Nat2Z.id.
Qed.

(** ** Operations on the machine *)

Lemma runs_machine {A} R (c : M machine A) (Q : A -> Prop) :
  safe room c Q -> transparent 2 c ->
  runs room (frame R) (in_machine c) (fun x g => Q x /\ frame R g).
Proof.
  intros Hs Ht g ([Hok Hm] & Hf). unfold in_machine, zoom. cbn [lget machine_lens].
  destruct (safe_run room c Q (machine_of g) Hs Ht Hok Hm) as [(x & s' & E & HQ & Hok' & Hm')|[[s' E]|[E Hr]]];
    rewrite E; simpl; [|done..]. split; [done|]. by split.
Qed.

(** An operation that is known to return. *)
Lemma runs_returns {A} R (c : M machine A) (Q : A -> Prop) :
  (forall s, sound room s -> exists x s', c s = Ret x s' /\ Q x /\ sound room s') ->
  runs room (frame R) (in_machine c) (fun x g => Q x /\ frame R g).
Proof.
  intros Hc g (Hs & Hf). unfold in_machine, zoom. cbn [lget machine_lens].
  destruct (Hc _ Hs) as (x & s' & E & HQ & Hs'). rewrite E. split; [done|]. by split.
Qed.

Lemma runs_uninit R : runs room (frame R) (in_machine uninit32) (fun x g => is_u32 x /\ frame R g).
Proof. apply runs_machine; [apply safe_uninit|apply transparent_uninit]. Qed.

Lemma runs_read_register R f line r :
  0 <= r < 16 ->
  runs room (frame R) (in_machine (at_line f line (arm_read_register r))) (fun x g => is_u32 x /\ frame R g).
Proof.
  intros. apply runs_machine; [by apply safe_at_line, safe_read_register|].
  apply transparent_at_line; auto using transparent_read_register with lia.
Qed.

Lemma runs_write_register R f line r v :
  0 <= r < 16 -> is_u32 v ->
  runs room (frame R) (in_machine (at_line f line (arm_write_register r v))) (fun _ => frame R).
Proof.
  intros. eapply runs_drop, runs_machine; [by apply safe_at_line, safe_write_register|].
  apply transparent_at_line; auto using transparent_write_register with lia.
Qed.

Lemma runs_read_word R f line a v :
  is_u32 a -> is_u32 v ->
  runs room (frame R) (in_machine (at_line f line (arm_read_word a v))) (fun x g => is_u32 x.2 /\ frame R g).
Proof.
  intros. apply runs_machine; [|apply transparent_at_line; auto using transparent_read_word with lia].
  eapply safe_weaken; [|by apply safe_at_line, safe_read_word]. by intros rv [? _].
Qed.

Lemma runs_read_cpsr R f line :
  runs room (frame R) (in_machine (at_line f line arm_read_cpsr)) (fun x g => is_u32 x /\ frame R g).
Proof.
  apply runs_machine; [|apply transparent_at_line; auto using transparent_read_cpsr with lia].
  apply safe_at_line, (safe_eq _ _ _ (fun s => cpsr_of (regs s)) id).
  intros s Hs. split; [by apply arm_read_cpsr_q; apply Hs|]. split; [|done].
  destruct Hs as (_ & Hr & _). auto with crange.
Qed.

Lemma runs_write_cpsr R f line v :
  is_u32 v -> runs room (frame R) (in_machine (at_line f line (arm_write_cpsr v))) (fun _ => frame R).
Proof.
  intros. apply (runs_drop _ _ _ _ (fun _ => True)), runs_machine;
    [|apply transparent_at_line; auto using transparent_write_cpsr with lia].
  apply safe_at_line, (safe_eq _ _ _ (fun _ => tt) (upd_cpsr v)).
  intros s (Hq & Hg & Hm & Hc). split; [by apply arm_write_cpsr_q|]. split; [done|].
  split_and!; auto with crange; apply Hm.
Qed.

Lemma runs_a_step R : runs room (frame R) (in_machine arm_step) (fun _ => frame R).
Proof. apply (runs_drop _ _ _ _ _ (runs_machine _ _ _ (safe_step room) arm_step_transparent)). Qed.

Lemma runs_trace_arm_state R : runs room (frame R) (in_machine trace_arm_state) (fun _ => frame R).
Proof.
  apply (runs_drop _ _ _ _ (fun _ => True)), runs_returns.
  intros s [Hok Hm]. destruct (watches_trace_arm_state s Hok) as (x & s' & E & _ & Heq & Hok').
  exists x, s'. split; [done|]. split; [done|]. split; [done|]. by rewrite (mem_proper _ _ Heq).
Qed.

(** The memory without a trace. *)
Lemma runs_mem_read R a v :
  is_u32 a -> is_u8 v ->
  runs room (frame R) (in_machine (in_mem (memory_read_byte a v))) (fun x g => is_u8 x.2 /\ frame R g).
Proof.
  intros Ha Hv. apply runs_returns. intros s Hs. pose proof (proj1 (proj2 Hs)) as Hmm. unfold is_u32 in Ha.
  assert (Hx : exists x, memory_read_byte a v (mem s) = Ret x (mem s) /\ is_u8 x.2).
  { destruct (Z.leb_spec (size (mem s)) a).
    - exists (DATA_ABORT, v). split; [by apply memory_invalid|done].
    - exists (0, byte_at (mem s) a). split; [apply memory_read_byte_ok; done || lia|by apply byte_at_range]. }
  destruct Hx as (x & E & Hx). exists x, s. split; [by apply in_mem_read|done].
Qed.

Lemma runs_mem_write R a v :
  is_u32 a -> runs room (frame R) (in_machine (in_mem (memory_write_byte a v))) (fun _ => frame R).
Proof.
  intros Ha. apply (runs_drop _ _ _ _ (fun _ => True)), runs_returns.
  intros s [Hok Hm]. pose proof (proj1 Hm) as Hmm. unfold is_u32 in Ha. destruct (Hok) as (Hr & _ & Hc & Ht).
  assert (Hw : exists x mm, memory_write_byte a v (mem s) = Ret x mm /\ mem_roomy room mm).
  { destruct (Z.leb_spec (size (mem s)) a).
    - exists DATA_ABORT, (mem s). split; [by apply memory_invalid|done].
    - exists 0, (put_byte (mem s) a v). split; [apply memory_write_byte_ok; done || lia|by apply roomy_put_byte]. }
  destruct Hw as (x & mm & E & Hmm'). exists x, (set_mem mm s).
  split; [by apply (zoom_ret mem_lens)|]. split; [done|]. split; [|done]. split_and!; try done; apply Hmm'.
Qed.

Lemma runs_mem_size R : runs room (frame R) (in_machine (in_mem memory_get_size)) (fun _ => frame R).
Proof. intros g Hg. by destruct g as [[] ? ? ? ? ? ?]. Qed.

(** The switches of the trace. *)
Lemma runs_traceless {A} R R' (c : M gdb_protocol_data A) (Q : A -> Prop) :
  runs room (frame R) c (fun x g => Q x /\ frame R' g) ->
  runs room (frame R) (traceless c) (fun x g => Q x /\ frame R' g).
Proof.
  intros Hc. assert (Hsw : forall R (f : trace_data -> trace_data), (forall t, trace_ok 2 t -> trace_ok 2 (f t)) ->
    runs room (frame R) (in_machine (in_trace (modify f))) (fun _ => frame R)).
  { intros R0 f Hf g ([(Hr & Hm & Hcy & Ht) Hmm] & Hg). split; [|exact Hg]. split; [|exact Hmm].
    split_and!; [exact Hr|exact Hm|exact Hcy|by apply Hf..]. }
  unfold traceless. eapply runs_seq; [by apply Hsw|]. intros _. eapply runs_bind; [exact Hc|]. intros x.
  apply runs_fact. intros HQ. eapply runs_seq; [by apply Hsw|]. intros _. by apply runs_ret.
Qed.

(** ** The packet *)

Lemma runs_poke R (R' : list Z -> Prop) i c :
  0 <= i < 1024 -> (forall p, Z.of_nat (length p) = 1024 -> R p -> R' (aset p i c)) ->
  runs room (frame R) (poke i c) (fun _ => frame R').
Proof.
  intros Hi HR g (Hs & Hp & Hl & Hg & Hc). unfold poke, zoom. cbn [lget packet_lens].
  rewrite cell_write_ret by lia. split; [done|]. split; [|exact (conj Hl (conj Hg (HR _ Hp Hc)))].
  transitivity (Z.of_nat (length (packet g))); [|done]. f_equal. apply length_aset.
Qed.

Lemma runs_put_chars i s :
  0 <= i -> i + Z.of_nat (length s) <= 1024 -> runs room (frame anything) (put_chars i s) (fun _ => frame anything).
Proof.
  revert i. induction s as [|c s IH]; intros i Hi Hl; simpl in *; [by apply runs_ret|].
  eapply runs_seq; [by apply (runs_poke anything anything); [lia|]|]. intros _. apply IH; lia.
Qed.

Lemma put_chars_app i s s' g : put_chars i (s ++ s') g = (put_chars i s ;;; put_chars (i + Z.of_nat (length s)) s') g.
Proof.
  revert i g. induction s as [|c s IH]; intros i g; simpl; [by rewrite Z.add_0_r|].
  replace (i + Z.of_nat (Datatypes.S (length s))) with (i + 1 + Z.of_nat (length s)) by lia.
  unfold bind in *. destruct (poke i c g); [by rewrite IH|done..].
Qed.

(** [sprintf] leaves a NUL behind its characters. *)
Lemma runs_sprintf i s :
  0 <= i -> i + Z.of_nat (length s) < 1024 ->
  runs room (frame anything) (sprintf_at i s)
    (fun _ => frame (fun p => aget p (i + Z.of_nat (length s)) = Some 0)).
Proof.
  intros Hi Hl g Hg. unfold sprintf_at. rewrite put_chars_app. revert g Hg.
  change (runs room (frame anything) (put_chars i s ;;; put_chars (i + Z.of_nat (length s)) [0])
    (fun _ => frame (fun p => aget p (i + Z.of_nat (length s)) = Some 0))).
  eapply runs_seq; [apply runs_put_chars; lia|]. intros _. simpl.
  eapply runs_seq; [|intros; by apply runs_ret]. apply runs_poke; [lia|]. intros p Hp _.
  apply aget_aset_eq. lia.
Qed.

Lemma runs_sprintf_any R i s :
  0 <= i -> i + Z.of_nat (length s) < 1024 ->
  runs room (frame R) (sprintf_at i s) (fun _ => frame anything).
Proof.
  intros. eapply runs_weaken; [by apply runs_sprintf|intros g; apply frame_anything|intros ? g; apply frame_anything].
Qed.

Lemma length_hex_byte v : length (hex_byte v) = 2%nat.
Proof. done. Qed.

(** Positions that advance by a constant. *)
Definition advanced {A} (start d : Z) (l : list A) (i : Z) (g : gdb_protocol_data) : Prop :=
  i = start + d * Z.of_nat (length l) /\ frame anything g.

Lemma advanced_snoc {A} start d (l : list A) x i g :
  i = start + d * Z.of_nat (length l) -> frame anything g -> advanced start d (l ++ [x]) (i + d) g.
Proof. intros Hi Hg. split; [|done]. rewrite length_app. simpl. lia. Qed.

Lemma advanced_nil {A} R start d g : frame R g -> advanced start d (@nil A) start g.
Proof. intros Hg%frame_anything. split; [simpl; lia|done]. Qed.

Lemma length_byte_order : length byte_order = 4%nat.
Proof. unfold byte_order. by case_match. Qed.

(** The index of an element of a list of known length. *)
Lemma split_length {A} (l l1 l2 : list A) x n : l = (l1 ++ x :: l2)%list -> length l = n -> (length l1 < n)%nat.
Proof. intros -> <-. rewrite length_app. simpl. lia. Qed.

Lemma runs_write_uint32 R i v :
  0 <= i -> i + 8 < 1024 ->
  runs room (frame R) (write_uint32 i v) (fun _ => frame (fun p => aget p (i + 8) = Some 0)).
Proof.
  intros Hi Hl. unfold write_uint32. apply (runs_bind _ _ _ _ (advanced i 2 byte_order)).
  - apply (runs_weaken _ (frame R) (advanced i 2 (@nil Z) i) _ _ (advanced i 2 byte_order)); [|apply advanced_nil|done].
    apply (runs_for room byte_order _ (advanced i 2)). intros l1 x l2 j El. apply runs_fact. intros ->.
    pose proof (split_length _ _ _ _ _ El length_byte_order) as Hn.
    eapply runs_seq; [apply (runs_sprintf_any anything); rewrite ?length_hex_byte; lia|]. intros _.
    apply runs_ret. intros g Hg. by apply advanced_snoc.
  - intros j. apply runs_fact. intros ->. replace (i + 2 * Z.of_nat (length byte_order)) with (i + 8) by (rewrite length_byte_order; lia).
    apply runs_poke; [lia|]. intros p Hp _. apply aget_aset_eq. lia.
Qed.

Lemma runs_write_uint32_any R i v :
  0 <= i -> i + 8 < 1024 -> runs room (frame R) (write_uint32 i v) (fun _ => frame anything).
Proof.
  intros. eapply runs_weaken; [by apply (runs_write_uint32 R)|done|intros ? g; apply frame_anything].
Qed.

(** ** Answers *)

Lemma runs_Rio_writen R data : runs room (frame R) (Rio_writen data) (fun _ => frame R).
Proof.
  intros g Hg. unfold Rio_writen, bind, gets, modify, c_exit, ret.
  destruct (bool_decide (data = [])); [done|]. by destruct (fd_open g && accepts (fd g) data).
Qed.

Lemma runs_cstring P buf : closed buf -> runs room P (cstring buf) (fun s g => until_nul buf = Some s /\ P g).
Proof. intros (s & Es)%closed_until g Hg. unfold cstring. by rewrite Es. Qed.

(** A debug message whose arguments can be evaluated when it is printed. *)
Lemma runs_message {A} R file (args : M gdb_protocol_data A) (ok : A -> Prop) (out : A -> M messages unit) :
  ((file = gdb_file -> sel = true) -> runs room (frame R) args (fun x g => ok x /\ frame R g)) ->
  (forall x m, ok x -> exists m', out x m = Ret tt m' /\ files m' = files m) ->
  runs room (frame R)
    (let! b := zoom log_lens (is_debugged false file) in
     when (nz b) (let! x := args in zoom log_lens (out x))) (fun _ => frame R).
Proof.
  intros Ha Ho g Hg. destruct (Hg) as (_ & _ & _ & [Hl Hsel] & _).
  rewrite (bind_ret _ _ _ _ _ (zoom_read log_lens _ g _ (is_debugged_selected file (log g) Hl))).
  destruct (selected (log g) file) eqn:Ef; [|exact Hg]. change (nz (b2z true)) with true. cbv iota.
  assert (Hf : file = gdb_file -> sel = true) by (intros ->; congruence).
  revert g Hg Hl Hsel Ef. intros g Hg _ _ _. revert g Hg.
  change (runs room (frame R) (let! x := args in zoom log_lens (out x)) (fun _ => frame R)).
  eapply runs_bind; [by apply Ha|]. intros x. apply runs_fact. intros Hx g Hg.
  destruct (Hg) as (Hs & Hp & Hn & [[l Hl] Hsel] & HR). destruct (Ho x (log g) Hx) as (m' & E & Ef).
  rewrite (zoom_ret log_lens _ g _ _ E). split; [exact Hs|]. split; [exact Hp|]. split; [exact Hn|].
  split; [|exact HR]. cbn [log set_log lset log_lens]. unfold listed, log_ok, selected in *. rewrite Ef.
  split; [by exists l|done].
Qed.

Lemma runs_debug R file line args :
  ((file = gdb_file -> sel = true) -> runs room (frame R) args (fun _ => frame R)) ->
  runs room (frame R) (debug false log_lens file line args) (fun _ => frame R).
Proof.
  intros Ha. apply (runs_message R file _ (fun _ => True)); [|by eexists].
  intros Hf. eapply runs_weaken; [by apply Ha|done|done].
Qed.
Lemma runs_debug_raw R args :
  runs room (frame R) args (fun _ => frame R) -> runs room (frame R) (gdb_debug_raw args) (fun _ => frame R).
Proof.
  intros Ha. apply (runs_message R gdb_file _ (fun _ => True)); [|by eexists].
  intros _. eapply runs_weaken; [exact Ha|done|done].
Qed.
Lemma runs_say R line text : runs room (frame R) (gdb_debug line (ret text)) (fun _ => frame R).
Proof. apply runs_debug. intros _. by apply runs_ret. Qed.
Lemma runs_say_raw R text : runs room (frame R) (gdb_debug_raw (ret text)) (fun _ => frame R).
Proof. by apply runs_debug_raw, runs_ret. Qed.

Lemma runs_transmit : runs room (frame a_string) gdb_transmit_packet (fun _ => frame a_string).
Proof.
  unfold gdb_transmit_packet. eapply runs_seq.
  { apply runs_debug. intros Hsel g Hg. destruct (Hg) as (_ & _ & _ & _ & HR).
    destruct (a_string_until _ (Hsel eq_refl) HR) as [t Et]. unfold bind, gets, cstring. by rewrite Et. }
  intros _ g Hg. exact (runs_Rio_writen a_string (take (Z.to_nat (len g)) (packet g)) g Hg).
Qed.

(** The loop of the checksum stops at the first NUL. *)
Lemma runs_checksum j n i c g :
  frame (fun p => aget p j = Some 0) g -> 1 <= i <= j -> j - i < Z.of_nat n ->
  exists k c', checksum_loop n i c g = Ret (k, c') g /\ i <= k <= j.
Proof.
  intros Hg. destruct (Hg) as (_ & Hp & _ & _ & Hj). pose proof (aget_Some_lt _ _ _ Hj) as Hjl.
  revert i c. induction n as [|n IH]; intros i c Hi Hn; [lia|]. cbn [checksum_loop].
  destruct (aget_lt (packet g) i) as [x Ex]; [lia|].
  rewrite (bind_ret _ _ g x g) by (apply (zoom_read packet_lens); by apply cell_read_ret).
  destruct (Z.eqb_spec x 0); [by exists i, c; split; [|lia]|].
  assert (i <> j) by congruence. destruct (IH (i + 1) (u8 (c + x))) as (k & c' & E & Hk); [lia..|].
  exists k, c'. split; [done|lia].
Qed.

Lemma runs_send_buffer : runs room (frame ready) gdb_send_buffer (fun _ => frame a_string).
Proof.
  unfold gdb_send_buffer.
  apply (runs_seq _ _ _ _ (frame ready)).
  { apply runs_poke; [lia|]. intros p Hp (j & Hj & E). exists j. split; [done|].
    by rewrite aget_aset_ne by lia. }
  intros _ g Hg. destruct (Hg) as (Hs & Hp & Hn & Hl & j & Hj & Ej).
  rewrite (bind_ret _ _ g (length (packet g)) g) by done.
  destruct (runs_checksum j (S (length (packet g))) 1 0 g) as (i & c & E & Hi);
    [exact (conj Hs (conj Hp (conj Hn (conj Hl Ej))))|lia..|]. rewrite (bind_ret _ _ _ _ _ E).
  revert g Hg Hs Hp Hn Hl Ej E. intros g Hg _ _ _ _ _ _. apply frame_anything in Hg. revert g Hg.
  change (runs room (frame anything)
    (poke i 35 ;;; sprintf_at (i + 1) (hex_byte c) ;;; poke (i + 3) 0 ;;; modify (set_len (i + 3)) ;;;
     gdb_transmit_packet) (fun _ => frame a_string)).
  eapply runs_seq; [by apply (runs_poke anything anything); [lia|]|]. intros _.
  eapply runs_seq; [apply (runs_sprintf_any anything); rewrite ?length_hex_byte; lia|]. intros _.
  eapply runs_seq.
  { apply (runs_poke anything a_string); [lia|]. intros p Hp _. apply (a_string_at _ (i + 3)).
    apply aget_aset_eq. lia. }
  intros _. eapply runs_seq; [|intros; apply runs_transmit].
  apply runs_modify. intros g (Hs & Hp & _ & Hl & HR). split_and!; try done; simpl; lia.
Qed.

Lemma ready_at p i : aget p i = Some 0 -> 1 <= i <= 1020 -> ready p.
Proof. intros. by exists i. Qed.

Lemma runs_send_data R s :
  Z.of_nat (length s) <= 1019 -> runs room (frame R) (gdb_send_data s) (fun _ => frame a_string).
Proof.
  intros Hl. unfold gdb_send_data. eapply runs_seq; [|intros; apply runs_send_buffer].
  eapply runs_weaken; [apply (runs_sprintf 1 s); lia|intros g; apply frame_anything|].
  intros ? g Hg. apply (frame_weaken _ _ g Hg). intros HR. eapply ready_at; [exact HR|lia].
Qed.

Lemma runs_stop_reason R : runs room (frame R) gdb_send_stop_reason (fun _ => frame a_string).
Proof.
  unfold gdb_send_stop_reason. eapply runs_seq; [apply runs_gets|]. intros e.
  repeat apply runs_if; apply runs_send_data; simpl; lia.
Qed.

(** ** Reading numbers *)

Lemma host_bytes_u8 v : length (host_bytes v) = 4%nat /\ Forall is_u8 (host_bytes v).
Proof.
  unfold host_bytes.
  assert (Forall is_u8 [u8 v; u8 (Z.shiftr v 8); u8 (Z.shiftr v 16); u8 (Z.shiftr v 24)])
    by (repeat constructor; apply u8_range).
  destruct host_big_endian; split; try done. by apply List.Forall_rev.
Qed.

(** The variables of the loop of [read_uint32]. *)
Definition read_so_far R (data : list Z) (l : list Z) (v : list Z * Z * list Z) (g : gdb_protocol_data) : Prop :=
  (v.1.1 = drop (2 * length l) data /\ length v.2 = 4%nat /\ Forall is_u8 v.2) /\ frame R g.

Lemma runs_read_uint32 R data :
  closed data -> (6 < length data)%nat ->
  runs room (frame R) (read_uint32 data) (fun v g => is_u32 v /\ frame R g).
Proof.
  intros Hd Hl. unfold read_uint32. eapply runs_bind; [apply runs_uninit|]. intros value. apply runs_fact. intros _.
  eapply runs_bind; [apply runs_uninit|]. intros integer. apply runs_fact. intros _.
  apply (runs_bind _ _ _ _ (read_so_far R data byte_order)); cycle 1.
  { intros v. apply runs_fact. intros (_ & H4 & Hb). apply runs_ret. intros g Hg. split; [|done].
    by apply host_word_range. }
  apply (runs_weaken _ (frame R) (read_so_far R data [] (data, value, host_bytes integer)) _ _
           (read_so_far R data byte_order)); [|intros g Hg; split; [|done]; split; [done|apply host_bytes_u8]|done].
  apply (runs_for room byte_order _ (read_so_far R data)). intros l1 x l2 [[d v] bytes] El.
  pose proof (split_length _ _ _ _ _ El length_byte_order) as Hn.
  apply runs_fact. cbn [fst snd]. intros (-> & H4 & Hb).
  eapply runs_bind; [apply runs_cstring, closed_drop; [done|lia]|]. intros t. apply runs_fact. intros _.
  apply runs_ret. intros g Hg. split; [|done]. cbn [fst snd]. split_and!.
  - rewrite drop_drop. f_equal. rewrite length_app. simpl. lia.
  - by rewrite length_aset.
  - apply Forall_aset; [done|apply u8_range].
Qed.

(** ** The handlers *)

(** [content] has the characters of [n] bytes. *)
Fixpoint enough (n : nat) (content : list Z) : bool :=
  match n, content with
  | O, _ => true
  | S n', [] => false
  | S n', c :: content' =>
      if c =? 0x7d then match content' with [] => false | _ :: content'' => enough n' content'' end
      else enough n' content'
  end.

(** What the handlers take for granted of the data of a request [c]: memory is
    read by at most 509 bytes, register numbers are below 16, the separators are
    there, and the data are as long as they say. *)
Definition benign_data (c : Z) (data : list Z) : bool :=
  let s := default [] (until_nul data) in
  if c =? 109 then                                            (* 'm' *)
    match scan_x_x s with (Some _, Some size) => size <=? 509 | _ => false end
  else if c =? 112 then u32 (atoi s) <? 16                    (* 'p' *)
  else if c =? 71 then 334 <? Z.of_nat (length data)           (* 'G' *)
  else if c =? 88 then                                        (* 'X' *)
    match scan_x_x s, index s 58 with
    | (Some _, Some size), Some k => enough (Z.to_nat size) (drop (Z.to_nat (k + 1)) data)
    | _, _ => false
    end
  else if c =? 80 then                                        (* 'P' *)
    match scan_x s, index s 61 with
    | Some (r, _), Some k => (r <? 16) && (k + 7 <? Z.of_nat (length data))
    | _, _ => false
    end
  else true.

Definition answers (c : M gdb_protocol_data unit) : Prop :=
  runs room (frame a_string) c (fun _ => frame a_string).

Lemma runs_step_target R : runs room (frame R) step_target (fun _ => frame R).
Proof.
  unfold step_target. eapply runs_seq; [apply runs_a_step|]. intros r.
  eapply runs_seq; [by apply (runs_modify _ (frame R) (frame R))|]. intros _. apply runs_trace_arm_state.
Qed.

Lemma runs_cont_loop R fuel ins :
  is_u32 ins -> runs room (frame R) (cont_loop fuel ins) (fun _ => frame R).
Proof.
  revert ins. induction fuel as [|fuel IH]; intros ins Hi; cbn [cont_loop]; [by apply runs_ret|].
  eapply runs_bind.
  { apply (runs_traceless R R _ is_u32). eapply runs_bind; [apply runs_read_register; lia|]. intros pc.
    apply runs_fact. intros Hpc. eapply runs_bind; [apply runs_read_word; [apply u32_range|done]|].
    intros rv. apply runs_fact. intros Hrv. by apply runs_ret. }
  intros ins'. apply runs_fact. intros Hi'. apply runs_if; [by apply runs_ret|].
  eapply runs_seq; [apply runs_step_target|]. intros _. by apply IH.
Qed.

Lemma answers_cont fuel data : answers (cont fuel data).
Proof.
  unfold answers, cont. eapply runs_bind; [apply runs_uninit|]. intros ins. apply runs_fact. intros Hi.
  eapply runs_seq; [by apply runs_cont_loop|]. intros b. apply runs_when, runs_stop_reason.
Qed.

Lemma answers_step data : answers (step data).
Proof. eapply runs_seq; [apply runs_step_target|]. intros _. apply runs_stop_reason. Qed.

Lemma answers_query data : closed data -> answers (query data).
Proof.
  intros Hd. unfold answers, query. eapply runs_bind; [by apply runs_cstring|]. intros t. apply runs_fact. intros _.
  repeat apply runs_if; apply runs_send_data; simpl; lia.
Qed.

Lemma answers_set_thread data : closed data -> (2 <= length data)%nat -> answers (set_thread data).
Proof.
  intros Hd Hl. unfold answers, set_thread. destruct data as [|ty rest]; [simpl in Hl; lia|].
  eapply runs_bind; [apply runs_cstring, (closed_drop 1 (ty :: rest)); [done|lia]|]. intros t.
  apply runs_fact. intros _. cbv zeta. apply runs_if; apply runs_send_data; simpl; lia.
Qed.

Lemma frame_ready i g : 1 <= i <= 1020 -> frame (fun p => aget p i = Some 0) g -> frame ready g.
Proof. intros Hi Hg. apply (frame_weaken _ _ g Hg). intros HR. by eapply ready_at. Qed.

Lemma answers_read_registers data : answers (read_general_registers data).
Proof.
  unfold answers, read_general_registers. apply (runs_seq _ _ _ _ (frame ready)); [|intros; apply runs_send_buffer].
  apply (runs_drop _ _ _ _ (fun _ => True)), runs_traceless.
  apply (runs_bind _ _ _ _ (advanced 1 8 (Z.of_nat <$> seq 0 15))).
  { apply (runs_weaken _ _ (advanced 1 8 (@nil Z) 1) _ _ (advanced 1 8 (Z.of_nat <$> seq 0 15)));
      [|apply advanced_nil|done].
    apply (runs_for room (Z.of_nat <$> seq 0 15) _ (advanced 1 8)). intros l1 x l2 j El.
    pose proof (split_length _ _ _ _ 15 El eq_refl) as Hn.
    assert (Hx : 0 <= x < 16).
    { assert (Hx : x ∈ Z.of_nat <$> seq 0 15) by (rewrite El, elem_of_app, elem_of_cons; auto).
      apply list_elem_of_fmap in Hx as (k & -> & Hk). apply elem_of_seq in Hk. lia. }
    apply runs_fact. intros ->. eapply runs_bind; [by apply runs_read_register|]. intros v.
    apply runs_fact. intros _. eapply runs_seq; [apply runs_write_uint32_any; lia|]. intros _.
    apply runs_ret. intros g Hg. by apply advanced_snoc. }
  intros p1. apply runs_fact. intros ->. eapply runs_bind; [by apply runs_read_register|]. intros pc.
  apply runs_fact. intros _. eapply runs_seq; [apply runs_write_uint32_any; simpl; lia|]. intros _.
  apply (runs_bind _ _ _ _ (advanced 129 8 (Z.of_nat <$> seq 0 24))).
  { apply (runs_weaken _ _ (advanced 129 8 (@nil Z) 129) _ _ (advanced 129 8 (Z.of_nat <$> seq 0 24)));
      [|apply advanced_nil|done].
    apply (runs_for room (Z.of_nat <$> seq 0 24) _ (advanced 129 8)). intros l1 x l2 j El.
    pose proof (split_length _ _ _ _ 24 El eq_refl) as Hn. apply runs_fact. intros ->.
    eapply runs_seq; [apply (runs_sprintf_any anything); simpl; lia|]. intros _.
    apply runs_ret. intros g Hg. by apply advanced_snoc. }
  intros p2. apply runs_fact. intros ->.
  eapply runs_seq; [apply (runs_sprintf_any anything); simpl; lia|]. intros _.
  eapply runs_bind; [by apply runs_read_cpsr|]. intros cpsr. apply runs_fact. intros _.
  eapply runs_weaken; [apply runs_write_uint32; simpl; lia|done|].
  intros x g Hg. split; [done|]. eapply frame_ready; [|exact Hg]. simpl. lia.
Qed.

Lemma runs_read_memory_loop n a p v :
  is_u32 a -> is_u8 v -> 1 <= p -> p + 2 * Z.of_nat n <= 1020 ->
  runs room (frame (fun q => aget q p = Some 0)) (read_memory_loop n a p v) (fun _ => frame ready).
Proof.
  revert a p v. induction n as [|n IH]; intros a p v Ha Hv Hp Hn; cbn [read_memory_loop].
  { apply runs_ret. intros g Hg. eapply frame_ready; [|exact Hg]. lia. }
  eapply runs_bind; [by apply runs_mem_read|]. intros rv. apply runs_fact. intros Hrv.
  apply runs_if; [apply runs_ret; intros g Hg; eapply frame_ready; [|exact Hg]; lia|].
  eapply runs_seq; [|intros; apply (IH (u32 (a + 1)) (p + 2) rv.2); auto with crange; lia].
  eapply runs_weaken; [apply (runs_sprintf p (hex_byte rv.2)); rewrite ?length_hex_byte; lia
    |intros g; apply frame_anything|done].
Qed.

Lemma answers_read_memory data :
  closed data -> benign_data 109 data = true -> answers (read_memory data).
Proof.
  intros Hd Hb. unfold answers, read_memory.
  eapply runs_bind; [apply runs_uninit|]. intros address0. apply runs_fact. intros _.
  eapply runs_bind; [apply runs_uninit|]. intros size0. apply runs_fact. intros _.
  eapply runs_bind; [apply runs_uninit|]. intros value. apply runs_fact. intros _.
  eapply runs_bind; [by apply runs_cstring|]. intros t. apply runs_fact. intros Et.
  unfold benign_data in Hb. rewrite Et in Hb. cbn in Hb.
  pose proof (stored_x_x_range t 0 ltac:(unfold is_u32; lia)) as Ha.
  destruct (scan_x_x t) as [[a|] [n|]]; try done. cbn in Ha. apply Z.leb_le in Hb.
  eapply runs_seq.
  { apply (runs_poke a_string (fun q => aget q 1 = Some 0)); [lia|]. intros q Hq _. apply aget_aset_eq. lia. }
  intros _. eapply runs_seq; [|intros; apply runs_send_buffer].
  apply runs_read_memory_loop; [done|apply u8_range|lia|]. change (stored (Some n) size0) with n. lia.
Qed.

Lemma answers_read_register data :
  closed data -> benign_data 112 data = true -> answers (gdb_read_register data).
Proof.
  intros Hd Hb. unfold answers, gdb_read_register. eapply runs_bind; [by apply runs_cstring|]. intros t.
  apply runs_fact. intros Et. unfold benign_data in Hb. rewrite Et in Hb. cbn in Hb. cbv zeta.
  rewrite Hb. apply Z.ltb_lt in Hb. pose proof (u32_range (atoi t)) as Hr. unfold is_u32 in Hr.
  apply (runs_seq _ _ _ _ (frame a_string)); [by intros g Hg|]. intros _.
  apply (runs_seq _ _ _ _ (frame ready)); [|intros; apply runs_send_buffer].
  apply (runs_drop _ _ _ _ (fun _ => True)), runs_traceless.
  eapply runs_bind; [apply runs_read_register; rewrite u8_small; unfold is_u8; lia|]. intros v.
  apply runs_fact. intros _. eapply runs_weaken; [apply (runs_write_uint32 a_string); lia|done|].
  intros x g Hg. split; [done|]. eapply frame_ready; [|exact Hg]. lia.
Qed.

(** The loops of [write_general_registers]. *)
Lemma runs_read_at R data k :
  closed data -> (Z.to_nat k + 6 < length data)%nat ->
  runs room (frame R) (read_uint32 (drop (Z.to_nat k) data)) (fun v g => is_u32 v /\ frame R g).
Proof.
  intros Hd Hl. apply runs_read_uint32; [apply closed_drop; [done|lia]|]. rewrite length_drop. lia.
Qed.

Lemma answers_write_registers data :
  closed data -> benign_data 71 data = true -> answers (write_general_registers data).
Proof.
  intros Hd Hb. change ((334 <? Z.of_nat (length data)) = true) in Hb. apply Z.ltb_lt in Hb.
  unfold answers, write_general_registers.
  apply (runs_seq _ _ _ _ (frame anything)); [|intros; apply runs_send_data; simpl; lia].
  apply (runs_drop _ _ _ _ (fun _ => True)), runs_traceless.
  apply (runs_bind _ _ _ _ (advanced 0 8 (Z.of_nat <$> seq 0 16))).
  { apply (runs_weaken _ _ (advanced 0 8 (@nil Z) 0) _ _ (advanced 0 8 (Z.of_nat <$> seq 0 16)));
      [|apply advanced_nil|done].
    apply (runs_for room (Z.of_nat <$> seq 0 16) _ (advanced 0 8)). intros l1 x l2 j El.
    pose proof (split_length _ _ _ _ 16 El eq_refl) as Hn.
    assert (Hx : 0 <= x < 16).
    { assert (Hx : x ∈ Z.of_nat <$> seq 0 16) by (rewrite El, elem_of_app, elem_of_cons; auto).
      apply list_elem_of_fmap in Hx as (k & -> & Hk). apply elem_of_seq in Hk. lia. }
    apply runs_fact. intros ->. eapply runs_bind; [apply runs_read_at; [done|lia]|]. intros v.
    apply runs_fact. intros Hv. eapply runs_seq; [by apply runs_write_register|]. intros _.
    eapply runs_seq; [apply runs_say|]. intros _. eapply runs_seq; [apply runs_when, runs_say_raw|]. intros _.
    apply runs_ret. intros g Hg. by apply advanced_snoc. }
  intros p1. apply runs_fact. intros ->.
  apply (runs_bind _ _ _ _ (advanced 128 8 (Z.of_nat <$> seq 0 24))).
  { apply (runs_weaken _ _ (advanced 128 8 (@nil Z) 128) _ _ (advanced 128 8 (Z.of_nat <$> seq 0 24)));
      [|apply advanced_nil|done].
    apply (runs_for room (Z.of_nat <$> seq 0 24) _ (advanced 128 8)). intros l1 x l2 j El.
    pose proof (split_length _ _ _ _ 24 El eq_refl) as Hn. apply runs_fact. intros ->.
    eapply runs_seq; [eapply runs_drop, runs_read_at; [done|lia]|]. intros _.
    apply runs_ret. intros g Hg. by apply advanced_snoc. }
  intros p2. apply runs_fact. intros ->.
  eapply runs_seq; [eapply runs_drop, runs_read_at; [done|simpl; lia]|]. intros _.
  eapply runs_bind; [apply runs_read_at; [done|simpl; lia]|]. intros v. apply runs_fact. intros Hv.
  eapply runs_seq; [by apply runs_write_cpsr|]. intros _.
  eapply runs_weaken; [apply runs_say|done|]. intros x g Hg. by split.
Qed.

Lemma runs_write_memory_loop R n i a content ok :
  is_u32 a -> enough n content = true ->
  runs room (frame R) (write_memory_loop n i a content ok) (fun _ => frame R).
Proof.
  revert i a content ok. induction n as [|n IH]; intros i a content ok Ha He; cbn [write_memory_loop];
    [by apply runs_ret|].
  apply runs_if; [by apply runs_ret|]. cbn [enough] in He. destruct content as [|c content]; [done|].
  destruct (c =? 0x7d); [destruct content as [|c' content]; [done|]|].
  all: eapply runs_seq; [by apply runs_mem_write|]; intros r.
  all: eapply runs_seq; [apply runs_when, runs_say_raw|]; intros _; apply IH; [apply u32_range|done].
Qed.

Lemma answers_write_memory data :
  closed data -> benign_data 88 data = true -> answers (write_memory_binary data).
Proof.
  intros Hd Hb. unfold answers, write_memory_binary.
  eapply runs_bind; [apply runs_uninit|]. intros address0. apply runs_fact. intros _.
  eapply runs_bind; [apply runs_uninit|]. intros size0. apply runs_fact. intros _.
  eapply runs_bind; [by apply runs_cstring|]. intros t. apply runs_fact. intros Et.
  unfold benign_data in Hb. rewrite Et in Hb. cbn in Hb.
  pose proof (stored_x_x_range t 0 ltac:(unfold is_u32; lia)) as Ha.
  destruct (scan_x_x t) as [[a|] [n|]]; try done. cbn in Ha. destruct (index t 58) as [k|]; [|done].
  cbv zeta. eapply runs_seq; [apply runs_say|]. intros _. eapply runs_seq; [apply runs_mem_size|]. intros sz.
  eapply runs_seq; [apply runs_write_memory_loop; [exact Ha|exact Hb]|]. intros ok.
  eapply runs_seq; [apply runs_say_raw|]. intros _. apply runs_if; apply runs_send_data; simpl; lia.
Qed.

Lemma index_nonneg t c k : index t c = Some k -> 0 <= k.
Proof.
  revert k. induction t as [|x t IH]; intros k; simpl; [done|]. destruct (x =? c); [by intros [= <-]|].
  destruct (index t c) as [j|]; [|done]. intros [= <-]. specialize (IH j eq_refl). lia.
Qed.

Lemma answers_write_register data :
  closed data -> benign_data 80 data = true -> answers (gdb_write_register data).
Proof.
  intros Hd Hb. unfold answers, gdb_write_register.
  eapply runs_bind; [apply runs_uninit|]. intros r0. apply runs_fact. intros _.
  eapply runs_bind; [by apply runs_cstring|]. intros t. apply runs_fact. intros Et. cbv zeta.
  unfold benign_data in Hb. rewrite Et in Hb. cbn in Hb.
  destruct (scan_x t) as [[r rest]|] eqn:Er; [|done]. apply scan_x_range in Er. unfold is_u32 in Er.
  destruct (index t 61) as [k|] eqn:Ek; [|done]. apply index_nonneg in Ek.
  apply andb_true_iff in Hb as [Hr Hk%Z.ltb_lt].
  eapply runs_bind; [apply runs_read_at; [done|lia]|]. intros v. apply runs_fact. intros Hv.
  change (stored (fst <$> Some (r, rest)) r0) with r. rewrite Hr. apply Z.ltb_lt in Hr.
  apply (runs_seq _ _ _ _ (frame a_string)); [by intros g Hg|]. intros _.
  eapply runs_seq.
  { apply (runs_drop _ _ _ _ (fun _ => True)), runs_traceless.
    eapply runs_weaken; [apply runs_write_register; [rewrite u8_small; unfold is_u8; lia|exact Hv]|done|].
    intros x g Hg. split; [done|exact Hg]. }
  intros _. eapply runs_seq; [apply runs_say|]. intros _. apply runs_send_data. simpl. lia.
Qed.

Lemma answers_handler fuel c h data :
  handler fuel c = Some h -> closed data -> (2 <= length data)%nat -> benign_data c data = true ->
  answers (h data).
Proof.
  intros Hh Hd Hl Hb. unfold handler in Hh.
  repeat match type of Hh with context [?x =? ?y] =>
    destruct (Z.eqb_spec x y) as [->|]; [injection Hh as <-|] end; [..|done].
  - apply answers_cont.
  - by apply runs_modify.
  - by apply answers_query.
  - apply answers_read_registers.
  - by apply answers_read_memory.
  - by apply answers_read_register.
  - apply runs_stop_reason.
  - by apply answers_set_thread.
  - apply answers_step.
  - by apply answers_write_registers.
  - by apply answers_write_memory.
  - by apply answers_write_register.
Qed.

(** The character of the request and its data, as [gdb_packet_analysis] finds them
    in the text of a packet; the packets it accepts are among the benign ones. *)
Definition benign_packet (text : list Z) : bool :=
  let packet := aset (text ++ [0]) (Z.max 1 (Z.of_nat (length text) - 3)) 0 in
  match aget packet 1 with Some c => benign_data c (drop 2 packet) | None => false end.

Lemma answers_packet fuel text :
  (4 <= length text)%nat -> benign_packet text = true -> answers (gdb_packet_analysis fuel text).
Proof.
  intros Hl Hb. unfold answers, gdb_packet_analysis. cbv zeta. unfold benign_packet in Hb.
  set (i := Z.max 1 (Z.of_nat (length text) - 3)) in *.
  assert (Hi : 1 <= i < Z.of_nat (length text)) by lia.
  assert (Hlen : length (text ++ [0]) = S (length text)) by (rewrite length_app; simpl; lia).
  eapply runs_bind; [apply runs_uninit|]. intros given. apply runs_fact. intros _.
  eapply runs_bind; [apply runs_cstring, closed_drop; [apply closed_snoc|rewrite Hlen; lia]|]. intros t.
  apply runs_fact. intros _. eapply runs_seq; [apply runs_say|]. intros _. eapply runs_seq.
  { apply (runs_message a_string gdb_file _ (fun x => 0 <= x.2 <= Z.of_nat (length x.1))).
    - intros _. eapply runs_bind; [apply runs_cstring, closed_snoc|]. intros u. apply runs_fact. intros Hu.
      apply runs_ret. intros g Hg. split; [|exact Hg]. cbn [fst snd]. apply until_nul_length in Hu. lia.
    - intros [d n] m Hn. cbn [fst snd] in *. rewrite (bind_ret _ _ _ _ _ (raw_binary_ok d n m Hn)).
      by eexists. }
  intros _. apply runs_if; cycle 1.
  { eapply runs_seq; [apply runs_say_raw|]. intros _. eapply runs_seq; [apply runs_say|]. intros _.
    apply runs_Rio_writen. }
  eapply runs_seq; [apply runs_say_raw|]. intros _. eapply runs_seq; [apply runs_Rio_writen|]. intros _.
  destruct (aget (aset (text ++ [0]) i 0) 1) as [c|]; [|done].
  destruct (handler fuel c) as [h|] eqn:Eh.
  - apply (answers_handler fuel c h); [done| | |exact Hb].
    + apply closed_drop; [apply closed_aset; [apply closed_snoc|rewrite Hlen; lia]|rewrite length_aset, Hlen; lia].
    + rewrite length_drop, length_aset, Hlen. lia.
  - eapply runs_seq; [apply runs_say|]. intros _. apply runs_send_data. simpl. lia.
Qed.
End handlers.

(** ** The scanner *)

(** Messages that keep to what the handlers take for granted. *)
Definition benign (t : token) : bool :=
  match t with TPacket text => benign_packet text | _ => true end.

Section session.
Context `{Host} `{Wire} (room : Z) (sel : bool).

(** The error buffer: what is in it and the NUL that follows fit. *)
Definition buffer_fits (p : parser_data) : Prop :=
  Z.of_nat (length (buffer p)) = 1024 /\ 0 <= err_len p <= 1023.

Definition parser_frame (p : parser_data) : Prop := frame room sel (a_string sel) (gdb p) /\ buffer_fits p.

Lemma runs_in_gdb (c : M gdb_protocol_data unit) :
  answers room sel c -> runs room parser_frame (in_gdb c) (fun _ => parser_frame).
Proof. intros Hc. by apply (runs_zoom room gdb_lens _ buffer_fits c (fun _ => frame room sel (a_string sel))). Qed.

Lemma runs_handle_error : runs room parser_frame handle_error (fun _ p => parser_frame p /\ err_len p = 0).
Proof.
  intros p [Hg [Hb Hl]]. unfold handle_error. rewrite (bind_ret _ _ p (err_len p) p) by done.
  unfold nz, when. destruct (Z.eqb_spec (err_len p) 0) as [E0|E0]; [by repeat split; try apply Hg; try lia|].
  cbn [negb]. set (b := aset (buffer p) (err_len p) 0).
  rewrite (bind_ret _ _ _ tt (set_buffer b p)); cycle 1.
  { apply (zoom_ret buffer_lens). apply cell_write_ret. lia. }
  rewrite (bind_ret _ _ _ b (set_buffer b p)) by done.
  assert (Hb' : Z.of_nat (length b) = 1024) by (unfold b; by rewrite length_aset).
  assert (Hstr : exists t, until_nul b = Some t).
  { apply (until_nul_at _ (err_len p)). apply aget_aset_eq. lia. }
  revert p Hg Hb Hl E0 b Hb' Hstr. intros p Hg Hb Hl E0 b Hb' Hstr.
  assert (Hp : parser_frame (set_buffer b p)) by (split; [exact Hg|split; [exact Hb'|exact Hl]]).
  revert Hp. generalize (set_buffer b p). intros p1 Hp1. revert p1 Hp1.
  change (runs room parser_frame
    (in_gdb (scanner_debug 43 (let! s := cstring b in
       ret (chars "gdb protocol error, invalid data : " ++ s ++
            chars (", requiring retransmission" +:+ newline))%list)) ;;;
     in_gdb gdb_require_retransmission ;;; modify (set_err_len 0))
    (fun _ p => parser_frame p /\ err_len p = 0)).
  eapply runs_seq.
  { apply runs_in_gdb, runs_debug. intros _. destruct Hstr as [t Et]. intros g Hg1. unfold bind, cstring. by rewrite Et. }
  intros _. eapply runs_seq; [apply runs_in_gdb, runs_Rio_writen|]. intros _.
  apply runs_modify. intros p1 [Hg1 [Hb1 _]]. split; [|done]. split; [exact Hg1|]. split; [exact Hb1|simpl; lia].
Qed.

Lemma runs_handle_error_drop : runs room parser_frame handle_error (fun _ => parser_frame).
Proof. eapply runs_weaken; [apply runs_handle_error|done|by intros ? ? [? _]]. Qed.

Lemma runs_scanner_say line text : runs room parser_frame (in_gdb (scanner_debug line (ret text))) (fun _ => parser_frame).
Proof. apply runs_in_gdb, runs_debug. intros _. by apply runs_ret. Qed.

Lemma runs_add_character c : runs room parser_frame (add_character_to_error c) (fun _ => parser_frame).
Proof.
  intros p Hp. unfold add_character_to_error. rewrite (bind_ret _ _ p (err_len p) p) by done.
  assert (Hw : fine room (when (MAX_ERROR_SIZE - 2 <? err_len p) handle_error p)
    (fun _ p' => parser_frame p' /\ err_len p' < 1023)).
  { unfold MAX_ERROR_SIZE. destruct (Z.ltb_spec (1024 - 2) (err_len p)) as [Hlt|Hge]; simpl.
    - pose proof (runs_handle_error p Hp) as Hh. destruct (handle_error p); try done. destruct Hh as [Hp' E]. split; [done|lia].
    - split; [done|lia]. }
  revert Hw. generalize (when (MAX_ERROR_SIZE - 2 <? err_len p) handle_error). intros w Hw. unfold bind at 1.
  destruct (w p) as [[] p1| | |]; try done. destruct Hw as [[Hg [Hb Hl]] Hlt].
  rewrite (bind_ret _ _ p1 (err_len p1) p1) by done.
  rewrite (bind_ret _ _ _ tt (set_buffer (aset (buffer p1) (err_len p1) c) p1)); cycle 1.
  { apply (zoom_ret buffer_lens). apply cell_write_ret. lia. }
  split; [exact Hg|]. split; [|simpl; lia].
  transitivity (Z.of_nat (length (buffer p1))); [|done]. f_equal. apply length_aset.
Qed.

Lemma runs_action fuel t :
  benign t = true -> (4 <= length (text t) \/ forall s, t <> TPacket s)%nat ->
  runs room parser_frame (action fuel t) (fun _ => parser_frame).
Proof.
  intros Hb Hl. destruct t as [| |txt|c|c]; cbn [action].
  - eapply runs_seq; [apply runs_handle_error_drop|]. intros _. apply runs_scanner_say.
  - eapply runs_seq; [apply runs_handle_error_drop|]. intros _. apply runs_in_gdb.
    eapply runs_seq; [apply runs_debug; intros _; by apply runs_ret|]. intros _. apply runs_transmit.
  - eapply runs_seq; [apply runs_handle_error_drop|]. intros _. apply runs_in_gdb, answers_packet; [|done].
    destruct Hl as [Hl|Hl]; [exact Hl|by destruct (Hl txt)].
  - apply runs_add_character.
  - apply runs_in_gdb. unfold answers. apply (runs_drop _ _ _ _ (fun _ => True)), runs_returns.
    intros s [(Hr & Hm & Hc & Ht) Hmm]. eexists _, _. split; [reflexivity|]. split; [done|].
    split; [|exact Hmm]. split; [exact Hr|]. split; [exact Hm|]. split; [exact Hc|exact Ht].
Qed.

Lemma packet_end_ge s n : packet_end s = Some n -> (3 <= n)%nat.
Proof.
  revert n. induction s as [|c s IH]; intros n; simpl; [done|]. destruct (c =? 36); [done|].
  destruct (c =? 35); [by destruct s as [|? [|? ?]]; try done; case_match; [intros [= <-]|]|].
  destruct (packet_end s) as [k|]; [|done]. intros [= <-]. specialize (IH k eq_refl). lia.
Qed.

(** The packets that the scanner finds have four characters at least. *)
Lemma lex_packets k s : Forall (fun t => 4 <= length (text t) \/ forall x, t <> TPacket x)%nat (lex k s).
Proof.
  revert s. induction k as [|k IH]; intros [|c s]; simpl; try constructor.
  destruct (next_token c s) as [t rest] eqn:E. constructor; [|apply IH].
  unfold next_token in E. repeat case_match; simplify_eq; try (by right).
  left. simpl. rewrite length_take.
  match goal with Hp : packet_end _ = Some _ |- _ =>
    pose proof (packet_end_ge _ _ Hp); pose proof (packet_end_le _ _ Hp) end. lia.
Qed.

Lemma runs_yylex fuel s :
  forallb benign (lex (length s) s) = true -> runs room parser_frame (yylex fuel s) (fun _ => parser_frame).
Proof.
  intros Hb. unfold yylex. eapply runs_seq; [|intros; apply runs_handle_error_drop].
  pose proof (lex_packets (length s) s) as Hl. revert Hb Hl. generalize (lex (length s) s). intros ts.
  induction ts as [|t ts IH]; intros Hb Hl; simpl in *; [by apply runs_ret|].
  apply andb_true_iff in Hb as [Ht Hts]. apply Forall_cons in Hl as [Hlt Hlts].
  eapply runs_seq; [by apply runs_action|]. intros _. by apply IH.
Qed.
End session.


(** ** Witnesses *)

#[local] Existing Instance wire_up.

(** Stray characters, "$P0=00000001#3e" (write 1 to r0), "$m0,4#fd" (read four
    bytes), "$s#73" (a step). *)
Definition session_ex : list Z := chars "ab$P0=00000001#3e$m0,4#fd$s#73".

