(* ===== verification/CoreTypes.v ===== *)
(** * The interface of [arm_core.h] and its types

    The accesses the processor offers to the handlers of instructions and to gdb, as
    a data type; programs made of them; and that a program whose arguments are in
    range runs to its end, or to a read that ends past the memory block.
    [arm_core.c] keeps its side of the interface whatever the trace options. *)
From S2P Require Import Prelude CInt Constants Memory Registers Format Trace Core CoreFacts Exception Branch Shifter DataProcessing LoadStore Safety Instruction Console.

#[local] Open Scope Z_scope.

(** The operations of [arm_core.h], by their results.  A read of memory is given
    what its result pointer refers to. *)
Inductive access : Type -> Type :=
| ReadRegister (reg : Z) : access Z
| ReadUsrRegister (reg : Z) : access Z
| ReadCpsr : access Z
| ReadSpsr : access Z
| WriteRegister (reg value : Z) : access unit
| WriteUsrRegister (reg value : Z) : access unit
| WriteCpsr (value : Z) : access unit
| WriteSpsr (value : Z) : access unit
| Fetch (value : Z) : access (Z * Z)
| ReadByte (address value : Z) : access (Z * Z)
| ReadHalf (address value : Z) : access (Z * Z)
| ReadWord (address value : Z) : access (Z * Z)
| WriteByte (address value : Z) : access Z
| WriteHalf (address value : Z) : access Z
| WriteWord (address value : Z) : access Z.

(** The arguments are in the ranges of their types; register numbers are those of
    registers. *)
Definition typed {A} (x : access A) : Prop :=
  match x with
  | ReadRegister r | ReadUsrRegister r => 0 <= r < 16
  | ReadCpsr | ReadSpsr => True
  | WriteRegister r v | WriteUsrRegister r v => 0 <= r < 16 /\ is_u32 v
  | WriteCpsr v | WriteSpsr v | Fetch v => is_u32 v
  | ReadByte a v | WriteByte a v => is_u32 a /\ is_u8 v
  | ReadHalf a v | WriteHalf a v => is_u32 a /\ is_u16 v
  | ReadWord a v | WriteWord a v => is_u32 a /\ is_u32 v
  end.

(** The results are in the ranges of theirs. *)
Definition result_typed {A} (x : access A) : A -> Prop :=
  match x with
  | ReadRegister _ | ReadUsrRegister _ | ReadCpsr | ReadSpsr => is_u32
  | WriteRegister _ _ | WriteUsrRegister _ _ | WriteCpsr _ | WriteSpsr _ => fun _ => True
  | Fetch _ | ReadWord _ _ => fun rv => is_u32 rv.2
  | ReadByte _ _ => fun rv => is_u8 rv.2
  | ReadHalf _ _ => fun rv => is_u16 rv.2
  | WriteByte _ _ | WriteHalf _ _ | WriteWord _ _ => fun _ => True
  end.

(** Programs that use the interface. *)
Inductive client (A : Type) : Type :=
| Done (a : A)
| Do {B : Type} (x : access B) (k : B -> client A).
Arguments Done {A} a.
Arguments Do {A B} x k.

(** Every access is well typed when the results before it are. *)
Inductive client_typed {A} (Q : A -> Prop) : client A -> Prop :=
| typed_done a : Q a -> client_typed Q (Done a)
| typed_do B (x : access B) k :
    typed x -> (forall b, result_typed x b -> client_typed Q (k b)) -> client_typed Q (Do x k).

Section types.
Context `{Host}.

Definition run_access {A} (x : access A) : M machine A :=
  match x with
  | ReadRegister r => arm_read_register r
  | ReadUsrRegister r => arm_read_usr_register r
  | ReadCpsr => arm_read_cpsr
  | ReadSpsr => arm_read_spsr
  | WriteRegister r v => arm_write_register r v
  | WriteUsrRegister r v => arm_write_usr_register r v
  | WriteCpsr v => arm_write_cpsr v
  | WriteSpsr v => arm_write_spsr v
  | Fetch v => arm_fetch v
  | ReadByte a v => arm_read_byte a v
  | ReadHalf a v => arm_read_half a v
  | ReadWord a v => arm_read_word a v
  | WriteByte a v => arm_write_byte a v
  | WriteHalf a v => arm_write_half a v
  | WriteWord a v => arm_write_word a v
  end.

Fixpoint run_client {A} (c : client A) : M machine A :=
  match c with
  | Done a => ret a
  | Do x k => let! b := run_access x in run_client (k b)
  end.

(** ** The status registers *)

Lemma safe_status (room : Z) :
  safe room arm_read_cpsr is_u32 /\ safe room arm_read_spsr is_u32 /\
  forall v, is_u32 v -> safe room (arm_write_cpsr v) (fun _ => True) /\
                        safe room (arm_write_spsr v) (fun _ => True).
Proof.
  split_and!.
  - apply (safe_eq _ _ _ (fun s => cpsr_of (regs s)) id). intros s Hs. destruct (Hs) as (Hq & Hr & _).
    split; [by apply arm_read_cpsr_q|]. split; [auto with crange|done].
  - apply (safe_eq _ _ _ (fun s => spsr_of (regs s)) id). intros s Hs. destruct (Hs) as (Hq & Hr & _).
    split; [by apply arm_read_spsr_q|]. split; [auto with crange|done].
  - intros v Hv. split.
    + apply (safe_eq _ _ _ (fun _ => tt) (upd_cpsr v)). intros s (Hq & Hr & Hm & Hc).
      split; [by apply arm_write_cpsr_q|]. split; [done|]. split; [done|]. split; [auto with crange|done].
    + apply (safe_eq _ _ _ (fun _ => tt) (upd_spsr v)). intros s (Hq & Hr & Hm & Hc).
      split; [by apply arm_write_spsr_q|]. split; [done|]. split; [done|]. split; [auto with crange|done].
Qed.

(** ** Code that does not end the program *)

Definition stays {S A} (c : M S A) : Prop := forall s k s', c s <> Exit k s'.

Lemma stays_bind {S A B} (c : M S A) (f : A -> M S B) : stays c -> (forall x, stays (f x)) -> stays (bind c f).
Proof. intros Hc Hf s k s' E. unfold bind in E. destruct (c s) eqn:Ec; try done; [by eapply Hf|by eapply Hc]. Qed.
Lemma stays_zoom {S T A} (l : lens S T) (c : M T A) : stays c -> stays (zoom l c).
Proof. intros Hc s k s' E. unfold zoom in E. destruct (c (lget l s)) eqn:Ec; try done. by eapply Hc. Qed.
Lemma stays_when {S} b (c : M S unit) : stays c -> stays (when b c).
Proof. by destruct b. Qed.
Lemma stays_cell_read {A} i : stays (cell_read (A := A) i).
Proof. intros s k s'. unfold cell_read. by case_match. Qed.
Lemma stays_cell_write {A} i (x : A) : stays (cell_write i x).
Proof. intros s k s'. unfold cell_write. by case_match. Qed.
Lemma stays_table {S A} (l : list A) i : stays (S := S) (table_read l i).
Proof. intros s k s'. unfold table_read. by case_match. Qed.
Lemma stays_fprintf str : stays (fprintf str).
Proof. intros s k s'. unfold fprintf. by case_match. Qed.

Lemma stays_ret {S A} (x : A) : stays (S := S) (ret x).
Proof. done. Qed.
Lemma stays_gets {S A} (f : S -> A) : stays (gets f).
Proof. done. Qed.
Lemma stays_modify {S} (f : S -> S) : stays (modify f).
Proof. done. Qed.

Ltac stay :=
  repeat first
    [ solve [auto with stays] | apply stays_bind; [|intros ?] | apply stays_zoom | apply stays_when
    | apply stays_cell_read | apply stays_cell_write
    | case_match ].

Create HintDb stays.
#[local] Hint Resolve stays_cell_read stays_cell_write stays_table stays_fprintf stays_ret stays_gets
  stays_modify : stays.

Lemma stays_log_register type r mode v : stays (log_register type r mode v).
Proof.
  unfold log_register, in_trace, trace_register, trace_print_location, arm_get_mode_name,
    arm_get_register_name, get_cycle. stay.
Qed.
Lemma stays_log_memory type sz cause a v : stays (log_memory type sz cause a v).
Proof. unfold log_memory, in_trace, trace_memory, trace_print_location, get_cycle. stay. Qed.
#[local] Hint Resolve stays_log_register stays_log_memory : stays.

Lemma stays_get_mode : stays get_mode.
Proof. unfold get_mode, read_cpsr. stay. Qed.
#[local] Hint Resolve stays_get_mode : stays.

Lemma stays_read_register r : stays (arm_read_register r).
Proof. unfold arm_read_register, in_regs, read_register. stay. Qed.
Lemma stays_write_register r v : stays (arm_write_register r v).
Proof. unfold arm_write_register, in_regs, write_register. stay. Qed.
Lemma stays_memory_read_word a v : stays (memory_read_word a v).
Proof. unfold memory_read_word, is_not_valid_address, memory_get_size, rd. stay. Qed.
#[local] Hint Resolve stays_read_register stays_write_register stays_memory_read_word : stays.

(** ** Every access *)

Lemma stays_access {A} (x : access A) : stays (run_access x).
Proof.
  destruct x as [r|r| | |r v|r v|v|v|v|a v|a v|a v|a v|a v|a v]; simpl; auto with stays;
    unfold arm_read_usr_register, arm_read_cpsr, arm_read_spsr, arm_write_usr_register, arm_write_cpsr,
      arm_write_spsr, arm_fetch, arm_read_byte, arm_read_half, arm_read_word, arm_write_byte, arm_write_half,
      arm_write_word, in_regs, in_mem, read_usr_register, read_cpsr, read_spsr, write_usr_register,
      write_cpsr, write_spsr, memory_read_byte, memory_read_half, memory_write_byte, memory_write_half,
      memory_write_word, is_not_valid_address, memory_get_size, rd, wr, get_cycle; stay.
Qed.

Lemma safe_access room {A} (x : access A) : typed x -> safe room (run_access x) (result_typed x).
Proof.
  destruct (safe_status room) as (Hrc & Hrs & Hw).
  destruct x; simpl; intros Hx; try done; try (apply Hw; done); try destruct Hx as [Hx Hv].
  - by apply safe_read_register.
  - by apply safe_read_usr_register.
  - by apply safe_write_register.
  - by apply safe_write_usr_register.
  - eapply safe_weaken; [|by apply safe_fetch]. by intros ? [? _].
  - by apply safe_read_byte.
  - by apply safe_read_half.
  - eapply safe_weaken; [|by apply safe_read_word]. by intros ? [? _].
  - by apply safe_write_byte.
  - by apply safe_write_half.
  - by apply safe_write_word.
Qed.

Lemma transparent_access {A} (x : access A) : typed x -> transparent 2 (run_access x).
Proof. destruct x; simpl; intros Hx; auto with transp; destruct Hx; auto with transp. Qed.

(** A read of a word or half-word that starts in the memory and ends past its
    block.  These are the reads that [memory.c] does not prevent. *)
Definition past_block (a n : Z) (mm : memory_data) : bool :=
  (a <? size mm) && (Z.of_nat (length (m mm)) <? a + n).
Definition crosses {A} (x : access A) (s : machine) : bool :=
  match x with
  | ReadHalf a _ => past_block a 2 (mem s)
  | ReadWord a _ => past_block a 4 (mem s)
  | Fetch _ => past_block (fetch_address s) 4 (mem s)
  | _ => false
  end.

Lemma past_block_false a n mm :
  past_block a n mm = false -> size mm <= a \/ a < size mm /\ a + n <= Z.of_nat (length (m mm)).
Proof. unfold past_block. destruct (Z.ltb_spec a (size mm)), (Z.ltb_spec (Z.of_nat (length (m mm))) (a + n)); simpl; lia || done. Qed.

Lemma read_word_within a v mm :
  mem_ok mm -> 0 <= a -> past_block a 4 mm = false -> exists rv, memory_read_word a v mm = Ret rv mm.
Proof.
  intros Hm Ha [Ho|[Hi Hl]]%past_block_false; eexists; [by apply memory_invalid|].
  apply memory_read_word_ok; [done|lia..].
Qed.
Lemma read_half_within a v mm :
  mem_ok mm -> 0 <= a -> past_block a 2 mm = false -> exists rv, memory_read_half a v mm = Ret rv mm.
Proof.
  intros Hm Ha [Ho|[Hi Hl]]%past_block_false; eexists; [by apply memory_invalid|].
  apply memory_read_half_ok; [done|lia..].
Qed.
Lemma read_byte_within a v mm :
  mem_ok mm -> 0 <= a -> exists rv, memory_read_byte a v mm = Ret rv mm.
Proof.
  intros Hm Ha. destruct (Z.leb_spec (size mm) a); eexists; [by apply memory_invalid|].
  apply memory_read_byte_ok; [done|lia].
Qed.

(** An access to memory and its trace, with the trace disabled. *)
Lemma logged_read {A} (c : M memory_data A) log s x :
  quiet s -> c (mem s) = Ret x (mem s) -> (forall y, log y s = Ret tt s) ->
  exists b s', (let! y := in_mem c in log y ;;; ret y) s = Ret b s'.
Proof.
  intros Hq E Hl. eexists _, _. rewrite (bind_ret _ _ _ x s) by by apply in_mem_read.
  by rewrite (bind_ret _ _ _ tt s) by auto.
Qed.
Lemma logged_write (c : M memory_data Z) log s r mm :
  quiet s -> c (mem s) = Ret r mm -> (forall s', quiet s' -> log s' = Ret tt s') ->
  exists b s', (let! y := in_mem c in log ;;; ret y) s = Ret b s'.
Proof.
  intros Hq E Hl. eexists _, _. unfold in_mem. rewrite (bind_ret _ _ _ _ _ (zoom_ret mem_lens _ _ _ _ E)).
  by rewrite (bind_ret _ _ _ tt (set_mem mm s)) by (apply Hl; done).
Qed.

(** With the trace disabled every access within the block returns. *)
Lemma access_within {A} (x : access A) s :
  typed x -> quiet s -> regs_ok (regs s) -> mem_ok (mem s) -> size (mem s) mod 4 = 0 ->
  crosses x s = false -> exists b s', run_access x s = Ret b s'.
Proof.
  intros Hx Hq Hr Hm H4 Hc.
  destruct x as [r|r| | |r v|r v|v|v|v|a v|a v|a v|a v|a v|a v]; simpl in Hx, Hc |- *;
    try destruct Hx as [Hx Hv]; try (assert (Ha : 0 <= a) by (unfold is_u32 in Hx; lia)).
  1: by eexists _, _; apply arm_read_register_q.
  1: by eexists _, _; apply arm_read_usr_register_q.
  1: by eexists _, _; apply arm_read_cpsr_q.
  1: by eexists _, _; apply arm_read_spsr_q.
  1: by eexists _, _; apply arm_write_register_q.
  1: by eexists _, _; apply arm_write_usr_register_q.
  1: by eexists _, _; apply arm_write_cpsr_q.
  1: by eexists _, _; apply arm_write_spsr_q.
  1: { assert (0 <= fetch_address s) by (pose proof (u32_range (pc_read (pc_of s) - 4)) as Hf;
         unfold is_u32 in Hf; unfold fetch_address; lia).
       destruct (read_word_within (fetch_address s) v (mem s)) as [rv E]; [done..|].
       eexists _, _. by apply arm_fetch_q. }
  1: destruct (read_byte_within a v (mem s)) as [rv E]; [done..|].
  2: destruct (read_half_within a v (mem s)) as [rv E]; [done..|].
  3: destruct (read_word_within a v (mem s)) as [rv E]; [done..|].
  1-3: eapply logged_read; [done|exact E|]; intros; by apply log_memory_q.
  1: destruct (mem_store_total false true a v (mem s)) as (r & mm & E & _); auto.
  3: destruct (mem_store_total true false a v (mem s)) as (r & mm & E & _); auto.
  5: destruct (mem_store_total false false a v (mem s)) as (r & mm & E & _); auto.
  1, 3: unfold is_u8, is_u16, is_u32 in *; lia.
  all: unfold mem_store in E; rewrite ?u8_small, ?u16_small in E by done.
  all: eapply logged_write; [done|exact E|]; intros; by apply log_memory_q.
Qed.

(** An access with typed arguments returns a typed result, or is a read past the
    end of a block with fewer than three bytes to spare. *)
Lemma access_returns room {A} (x : access A) s :
  typed x -> machine_ok s -> mem_roomy room (mem s) ->
  (exists b s', run_access x s = Ret b s' /\ result_typed x b /\ machine_ok s' /\ mem_roomy room (mem s')) \/
  (crosses x s = true /\ run_access x s = Undef OutOfBounds /\ room < 3).
Proof.
  intros Hx Hok Hm. pose proof (transparent_access x Hx) as Htr.
  destruct (safe_run room _ _ s (safe_access room x Hx) Htr Hok Hm)
    as [?|[[s' E]|[E Hroom]]]; [by left|by destruct (stays_access x s 0 s')|].
  right. destruct (crosses x s) eqn:Ec; [done|]. destruct (Hok) as (Hr & Hmm & _ & Ht).
  destruct (access_within x (hush s)) as (b & s' & E'); auto using hush_quiet; [apply Hm|].
  destruct (transparent_run_prints _ _ _ _ _ Htr Ht E') as (s'' & E'' & _). congruence.
Qed.

(** The program comes to the access [x] in the state [s']. *)
Inductive comes_to {A B} (x : access B) (s' : machine) : client A -> machine -> Prop :=
| comes_here k : comes_to x s' (Do x k) s'
| comes_later C (y : access C) k b s s1 :
    run_access y s = Ret b s1 -> comes_to x s' (k b) s1 -> comes_to x s' (Do y k) s.

(** C7: Type soundness of the processor's interface.  Whatever program uses the
    accesses of [arm_core.h], if it passes register numbers below 16 and other
    arguments in the ranges of their C types (assuming that the results it was
    given are in the ranges of theirs), then from every well-formed machine it
    runs to its end, the results are in range and the machine stays well formed;
    or it comes to a read of a half-word or word, or a fetch, that starts in the
    memory and ends past the memory block, the only access that is undefined.
    This cannot happen when the block has three bytes more than the memory; that
    of [main] has none. *)
Theorem access_type_sound {A} (Q : A -> Prop) room (c : client A) s :
  client_typed Q c -> machine_ok s -> mem_roomy room (mem s) ->
  (exists a s', run_client c s = Ret a s' /\ Q a /\ machine_ok s' /\ mem_roomy room (mem s')) \/
  (run_client c s = Undef OutOfBounds /\ room < 3 /\
   exists B (x : access B) s', comes_to x s' c s /\ crosses x s' = true).
Proof.
  intros Hc. revert s. induction Hc as [a Ha|B x k Hx _ IH]; intros s Hok Hm; [by left; exists a, s|].
  cbn [run_client].
  destruct (access_returns room x s Hx Hok Hm) as [(b & s1 & E & Hb & Hok1 & Hm1)|(Ec & E & Hroom)].
  - rewrite (bind_ret _ _ _ _ _ E).
    destruct (IH b Hb s1 Hok1 Hm1) as [?|(E' & Hroom & C & y & s' & Hto & Hy)]; [by left|right].
    split; [done|]. split; [done|]. exists C, y, s'. split; [by eapply comes_later|done].
  - right. rewrite (bind_undef _ _ _ _ E). split; [done|]. split; [done|]. exists B, x, s.
    split; [constructor|done].
Qed.
End types.

(** ** Witnesses *)

(** Push r0: store it below the stack pointer. *)
Definition push_r0 : client Z :=
  Do (ReadRegister 13) (fun sp => Do (ReadRegister 0) (fun v =>
    Do (WriteWord (u32 (sp - 4)) v) (fun r => Do (WriteRegister 13 (u32 (sp - 4))) (fun _ => Done r)))).

Lemma push_r0_typed : client_typed (fun _ => True) push_r0.
Proof.
  constructor; [simpl; lia|]. intros sp Hsp. constructor; [simpl; lia|]. intros v Hv.
  constructor; [split; [apply u32_range|exact Hv]|]. intros r _.
  constructor; [split; [lia|apply u32_range]|]. intros _ _. constructor. exact I.
Qed.

Lemma access_type_sound_witness :
  exists a s', run_client (H := host0) push_r0 machine_b = Ret a s' /\ machine_ok s' /\
    mem_roomy 3 (mem s').
Proof.
  destruct (access_type_sound (H := host0) (fun _ => True) 3 push_r0 machine_b push_r0_typed
    (proj1 machine_b_ok) (proj2 machine_b_ok)) as [(a & s' & H1 & _ & H2 & H3)|(_ & H1 & _)].
  - exists a, s'. exact (conj H1 (conj H2 H3)).
  - lia.
Defined.
