(* ===== verification/Headers.v ===== *)
(** * Header files and the macros of the source locations

    The headers of the program as their directives and declarations, and the part of
    C's preprocessor they use: guards and other conditions, definitions, removals
    and inclusions.  The headers of the system are not followed: what is tracked are
    the macros of the program.

    Two headers decide what a call of the processor's interface is.  [arm_core.h]
    ends with [trace_location.h], which wraps every access in a push and a pop of the
    source location; [no_trace_location.h] takes the wrappers away in [arm_core.c],
    which defines the functions.  The same names are declared as functions, so that
    a header read in the wrong order would have its declarations rewritten: so would
    the semaphore operation [V] of [csapp.h] by the flag number [V] of
    [arm_constants.h]. *)
From S2P Require Import Prelude CInt Constants Memory Registers Format Trace Core CoreTypes.
From Stdlib Require Import Ascii.

#[local] Open Scope string_scope.
#[local] Open Scope Z_scope.

Definition dquote : string := String "034" "".

(** ** Lines of a source file *)

Inductive line : Type :=
| Ifndef (name : string)
| Ifdef (name : string)
| Else
| Endif
| Define (name : string) (params : option string) (body : string)
| Undef (name : string)
| Include (file : string)
| Text (text : string).       (** a declaration *)

Record macro : Type := { m_name : string; m_params : option string; m_body : string }.

#[export] Instance macro_eq_dec : EqDecision macro.
Proof. solve_decision. Defined.

(** ** The headers *)

Definition memory_h : list line :=
  [Ifndef "__MEMORY_H__";
   Define "__MEMORY_H__" None "";
   Text "typedef struct memory_data *memory;";
   Text "memory memory_create(size_t size, int is_big_endian);";
   Text "size_t memory_get_size(memory mem);";
   Text "void memory_destroy(memory mem);";
   Text "int memory_read_byte(memory mem, uint32_t address, uint8_t *value);";
   Text "int memory_read_half(memory mem, uint32_t address, uint16_t *value);";
   Text "int memory_read_word(memory mem, uint32_t address, uint32_t *value);";
   Text "int memory_write_byte(memory mem, uint32_t address, uint8_t value);";
   Text "int memory_write_half(memory mem, uint32_t address, uint16_t value);";
   Text "int memory_write_word(memory mem, uint32_t address, uint32_t value);";
   Endif].

Definition util_h : list line :=
  [Ifndef "__UTIL_H__";
   Define "__UTIL_H__" None "";
   Define "min" (Some "(x,y)") "((x)<(y)?(x):(y))";
   Define "max" (Some "(x,y)") "((x)>(y)?(x):(y))";
   Define "get_bit" (Some "(x, i)") "(((x)>>(i))&1)";
   Define "set_bit" (Some "(x, i)") "((x)|(1<<(i)))";
   Define "clr_bit" (Some "(x, i)") "((x)&~(1<<(i)))";
   Define "get_bits" (Some "(x, h, l)") "(((x)>>(l))&~(((~0)>>((h)-(l)+1))<<((h)-(l)+1)))";
   Define "set_bits" (Some "(x, h, l, bits)") "(((x)&~(((~0)>>(l))<<(l)))|((x)&(((~0)>>((h)+1))<<((h)+1)))| ((bits)<<(l)))";
   Define "reverse_2" (Some "(x)") "((((x)&0xFF)<<8)|(((x)>>8)&0xFF))";
   Define "reverse_4" (Some "(x)") "((((x)&0xFF)<<24)|((((x)>>8)&0xFF)<<16)| ((((x)>>16)&0xFF)<<8)|(((x)>>24)&0xFF))";
   Text "void change_bit(uint32_t * s, uint8_t n, uint8_t val);";
   Text "uint32_t asr(uint32_t value, uint8_t shift);";
   Text "uint32_t ror(uint32_t value, uint8_t rotation);";
   Text "int is_big_endian();";
   Endif].

Definition arm_constants_h : list line :=
  [Ifndef "__ARM_CONSTANTS_H__";
   Define "__ARM_CONSTANTS_H__" None "";
   Define "AND" None "0b0000";
   Define "EOR" None "0b0001";
   Define "SUB" None "0b0010";
   Define "RSB" None "0b0011";
   Define "ADD" None "0b0100";
   Define "ADC" None "0b0101";
   Define "SBC" None "0b0110";
   Define "RSC" None "0b0111";
   Define "TST" None "0b1000";
   Define "TEQ" None "0b1001";
   Define "CMP" None "0b1010";
   Define "CMN" None "0b1011";
   Define "ORR" None "0b1100";
   Define "MOV" None "0b1101";
   Define "BIC" None "0b1110";
   Define "MVN" None "0b1111";
   Define "DATA_PROCESSING_SHIFT" None "0b000";
   Define "DATA_PROCESSING_IMMEDIATE" None "0b001";
   Define "LOAD_STORE_IMMEDIATE" None "0b010";
   Define "LOAD_STORE_REGISTER" None "0b011";
   Define "LOAD_STORE_MULTIPLE" None "0b100";
   Define "BRANCH" None "0b101";
   Define "LOAD_STORE_COPROC" None "0b110";
   Define "COPROCESSOR_OTHERS_SWI" None "0b111";
   Define "EQ" None "0b0000";
   Define "NE" None "0b0001";
   Define "CS" None "0b0010";
   Define "CC" None "0b0011";
   Define "MI" None "0b0100";
   Define "PL" None "0b0101";
   Define "VS" None "0b0110";
   Define "VC" None "0b0111";
   Define "HI" None "0b1000";
   Define "LS" None "0b1001";
   Define "GE" None "0b1010";
   Define "LT" None "0b1011";
   Define "GT" None "0b1100";
   Define "LE" None "0b1101";
   Define "AL" None "0b1110";
   Define "SP" None "13";
   Define "LR" None "14";
   Define "PC" None "15";
   Define "CPSR" None "16";
   Define "USR" None "0x10";
   Define "FIQ" None "0x11";
   Define "IRQ" None "0x12";
   Define "SVC" None "0x13";
   Define "ABT" None "0x17";
   Define "UND" None "0x1b";
   Define "SYS" None "0x1f";
   Define "RESET" None "1";
   Define "UNDEFINED_INSTRUCTION" None "2";
   Define "SOFTWARE_INTERRUPT" None "3";
   Define "PREFETCH_ABORT" None "4";
   Define "DATA_ABORT" None "5";
   Define "IMPRECISE_ABORT" None "6";
   Define "INTERRUPT" None "7";
   Define "FAST_INTERRUPT" None "8";
   Define "N" None "31";
   Define "Z" None "30";
   Define "C" None "29";
   Define "V" None "28";
   Define "LSL" None "0";
   Define "LSR" None "1";
   Define "ASR" None "2";
   Define "ROR" None "3";
   Define "UnallocMask" None "0x0FFFFF00";
   Define "UserMask" None "0xF0000000";
   Define "PrivMask" None "0x0000000F";
   Define "StateMask" None "0x00000020";
   Text "char *arm_get_exception_name(unsigned char exception);";
   Text "char *arm_get_mode_name(uint8_t mode);";
   Text "char *arm_get_register_name(uint8_t reg);";
   Text "char *arm_get_opcode_name(uint8_t code);";
   Endif].

Definition registers_h : list line :=
  [Ifndef "__REGISTERS_H__";
   Define "__REGISTERS_H__" None "";
   Text "typedef uint32_t * registers;";
   Text "registers registers_create();";
   Text "void registers_destroy(registers r);";
   Text "uint8_t get_mode(registers r);";
   Text "int current_mode_has_spsr(registers r);";
   Text "int in_a_privileged_mode(registers r);";
   Text "uint32_t read_register(registers r, uint8_t reg);";
   Text "uint32_t read_usr_register(registers r, uint8_t reg);";
   Text "uint32_t read_cpsr(registers r);";
   Text "uint32_t read_spsr(registers r);";
   Text "void write_register(registers r, uint8_t reg, uint32_t value);";
   Text "void write_usr_register(registers r, uint8_t reg, uint32_t value);";
   Text "void write_cpsr(registers r, uint32_t value);";
   Text "void write_spsr(registers r, uint32_t value);";
   Endif].

Definition arm_core_h : list line :=
  [Ifndef "__ARM_CORE_H__";
   Define "__ARM_CORE_H__" None "";
   Include "memory.h";
   Text "typedef struct arm_core_data *arm_core;";
   Text "void arm_init();";
   Text "arm_core arm_create(memory mem);";
   Text "void arm_destroy(arm_core p);";
   Text "void arm_print_state(arm_core p, FILE *out);";
   Text "int arm_current_mode_has_spsr(arm_core p);";
   Text "int arm_in_a_privileged_mode(arm_core p);";
   Text "uint32_t arm_get_cycle_count(arm_core p);";
   Text "uint32_t arm_read_register(arm_core p, uint8_t reg);";
   Text "uint32_t arm_read_usr_register(arm_core p, uint8_t reg);";
   Text "uint32_t arm_read_cpsr(arm_core p);";
   Text "uint32_t arm_read_spsr(arm_core p);";
   Text "void arm_write_register(arm_core p, uint8_t reg, uint32_t value);";
   Text "void arm_write_usr_register(arm_core p, uint8_t reg, uint32_t value);";
   Text "void arm_write_cpsr(arm_core p, uint32_t value);";
   Text "void arm_write_spsr(arm_core p, uint32_t value);";
   Text "int arm_fetch(arm_core p, uint32_t *value);";
   Text "int arm_read_byte(arm_core p, uint32_t address, uint8_t *value);";
   Text "int arm_read_half(arm_core p, uint32_t address, uint16_t *value);";
   Text "int arm_read_word(arm_core p, uint32_t address, uint32_t *value);";
   Text "int arm_write_byte(arm_core p, uint32_t address, uint8_t value);";
   Text "int arm_write_half(arm_core p, uint32_t address, uint16_t value);";
   Text "int arm_write_word(arm_core p, uint32_t address, uint32_t value);";
   Include "trace_location.h";
   Endif].

Definition trace_h : list line :=
  [Ifndef "__TRACE_H__";
   Define "__TRACE_H__" None "";
   Include "arm_core.h";
   Define "CPSR" None "16";
   Define "SPSR" None "17";
   Define "OTHER_ACCESS" None "0";
   Define "OPCODE_FETCH" None "1";
   Define "WRITE" None "0";
   Define "READ" None "1";
   Define "MEMORY" None "1";
   Define "REGISTERS" None "2";
   Define "STATE" None "4";
   Define "POSITION" None "8";
   Text "void set_trace_file(FILE *f);";
   Text "void trace_start_location(char *file, int line);";
   Text "uint8_t trace_end_location();";
   Text "void trace_memory(uint32_t cycle, uint8_t type, uint8_t size, uint8_t cause, uint32_t address, uint32_t value);";
   Text "void trace_register(uint32_t cycle, uint8_t type, uint8_t reg, uint8_t mode, uint32_t value);";
   Text "void trace_arm_state(arm_core p);";
   Text "void trace_disable();";
   Text "void trace_enable();";
   Text "void trace_add(int flags);";
   Endif].

Definition trace_location_h : list line :=
  [Ifndef "__TRACE_LOCATION_H__";
   Define "__TRACE_LOCATION_H__" None "";
   Include "trace.h";
   Define "LOCATION" None "trace_start_location(__FILE__, __LINE__)";
   Define "END_LOCATION" None "trace_end_location(__FILE__, __LINE__)";
   Define "arm_fetch" (Some "(p, ins)") "(LOCATION, arm_fetch(p, ins)+END_LOCATION)";
   Define "arm_read_register" (Some "(p, reg)") "(LOCATION, arm_read_register(p, reg)+END_LOCATION)";
   Define "arm_read_usr_register" (Some "(p, reg)") "(LOCATION, arm_read_usr_register(p, reg)+END_LOCATION)";
   Define "arm_read_cpsr" (Some "(p)") "(LOCATION, arm_read_cpsr(p)+END_LOCATION)";
   Define "arm_read_spsr" (Some "(p)") "(LOCATION, arm_read_spsr(p)+END_LOCATION)";
   Define "arm_write_register" (Some "(p, reg, val)") "(LOCATION, arm_write_register(p, reg, val), END_LOCATION)";
   Define "arm_write_usr_register" (Some "(p, reg, val)") "(LOCATION, arm_write_usr_register(p, reg, val), END_LOCATION)";
   Define "arm_write_cpsr" (Some "(p, val)") "(LOCATION, arm_write_cpsr(p, val), END_LOCATION)";
   Define "arm_write_spsr" (Some "(p, val)") "(LOCATION, arm_write_spsr(p, val), END_LOCATION)";
   Define "arm_read_byte" (Some "(p, addr, val)") "(LOCATION, arm_read_byte(p, addr, val)+END_LOCATION)";
   Define "arm_read_half" (Some "(p, addr, val)") "(LOCATION, arm_read_half(p, addr, val)+END_LOCATION)";
   Define "arm_read_word" (Some "(p, addr, val)") "(LOCATION, arm_read_word(p, addr, val)+END_LOCATION)";
   Define "arm_write_byte" (Some "(p, addr, val)") "(LOCATION, arm_write_byte(p, addr, val)+END_LOCATION)";
   Define "arm_write_half" (Some "(p, addr, val)") "(LOCATION, arm_write_half(p, addr, val)+END_LOCATION)";
   Define "arm_write_word" (Some "(p, addr, val)") "(LOCATION, arm_write_word(p, addr, val)+END_LOCATION)";
   Endif].

Definition no_trace_location_h : list line :=
  [Ifdef "arm_fetch";
   Undef "arm_fetch";
   Endif;
   Ifdef "arm_read_register";
   Undef "arm_read_register";
   Endif;
   Ifdef "arm_read_usr_register";
   Undef "arm_read_usr_register";
   Endif;
   Ifdef "arm_read_cpsr";
   Undef "arm_read_cpsr";
   Endif;
   Ifdef "arm_read_spsr";
   Undef "arm_read_spsr";
   Endif;
   Ifdef "arm_write_register";
   Undef "arm_write_register";
   Endif;
   Ifdef "arm_write_usr_register";
   Undef "arm_write_usr_register";
   Endif;
   Ifdef "arm_write_cpsr";
   Undef "arm_write_cpsr";
   Endif;
   Ifdef "arm_write_spsr";
   Undef "arm_write_spsr";
   Endif;
   Ifdef "arm_read_byte";
   Undef "arm_read_byte";
   Endif;
   Ifdef "arm_read_half";
   Undef "arm_read_half";
   Endif;
   Ifdef "arm_read_word";
   Undef "arm_read_word";
   Endif;
   Ifdef "arm_write_byte";
   Undef "arm_write_byte";
   Endif;
   Ifdef "arm_write_half";
   Undef "arm_write_half";
   Endif;
   Ifdef "arm_write_word";
   Undef "arm_write_word";
   Endif].

Definition arm_exception_h : list line :=
  [Ifndef "__ARM_EXCEPTION_H__";
   Define "__ARM_EXCEPTION_H__" None "";
   Include "arm_core.h";
   Text "void arm_exception(arm_core p, unsigned char exception);";
   Endif].

Definition arm_instruction_h : list line :=
  [Ifndef "__ARM_INSTRUCTION_H__";
   Define "__ARM_INSTRUCTION_H__" None "";
   Include "arm_core.h";
   Text "uint32_t shifter_operand(arm_core p, uint32_t ins, uint8_t * c);";
   Text "int arm_step(arm_core p);";
   Endif].

Definition arm_h : list line :=
  [Ifndef "__ARM_H__";
   Define "__ARM_H__" None "";
   Include "arm_core.h";
   Include "arm_exception.h";
   Include "arm_instruction.h";
   Text "void arm_init();";
   Endif].

Definition arm_branch_other_h : list line :=
  [Ifndef "__ARM_BRANCH_OTHER_H__";
   Define "__ARM_BRANCH_OTHER_H__" None "";
   Include "arm_core.h";
   Text "int arm_branch(arm_core p, uint32_t ins);";
   Text "int arm_coprocessor_others_swi(arm_core p, uint32_t ins);";
   Text "int arm_miscellaneous(arm_core p, uint32_t ins);";
   Endif].

Definition arm_data_processing_h : list line :=
  [Ifndef "__ARM_DATA_PROCESSING_H__";
   Define "__ARM_DATA_PROCESSING_H__" None "";
   Include "arm_core.h";
   Text "int arm_data_processing(arm_core p, uint32_t ins);";
   Endif].

Definition arm_load_store_h : list line :=
  [Ifndef "__ARM_LOAD_STORE_H__";
   Define "__ARM_LOAD_STORE_H__" None "";
   Include "arm_core.h";
   Text "int arm_load_store(arm_core p, uint32_t ins);";
   Text "int arm_load_store_multiple(arm_core p, uint32_t ins);";
   Text "int arm_coprocessor_load_store(arm_core p, uint32_t ins);";
   Endif].

Definition gdb_protocol_h : list line :=
  [Ifndef "__GDB_PROTOCOL_H__";
   Define "__GDB_PROTOCOL_H__" None "";
   Include "arm.h";
   Text "typedef struct gdb_protocol_data *gdb_protocol_data_t;";
   Text "void gdb_init();";
   Text "gdb_protocol_data_t gdb_init_data(arm_core arm, memory mem, int fd, pthread_mutex_t *lock);";
   Text "void gdb_packet_analysis(gdb_protocol_data_t gdb, char *packet, int length);";
   Text "void gdb_transmit_packet(gdb_protocol_data_t gdb);";
   Text "void gdb_require_retransmission(gdb_protocol_data_t gdb);";
   Endif].

Definition scanner_h : list line :=
  [Ifndef "__SCANNER_H__";
   Define "__SCANNER_H__" None "";
   Include "arm_core.h";
   Text "void gdb_scanner(arm_core p, memory mem, int in, int out, pthread_mutex_t *lock);";
   Endif].

Definition debug_h : list line :=
  [Ifndef "__MESSAGES_H__";
   Define "__MESSAGES_H__" None "";
   Text "void add_debug_to(char *name);";
   Text "int __is_debugged(char *name);";
   Text "int __debug_raw_binary(char *data, int len);";
   Ifdef "DEBUG";
   Ifdef "__GNUC__";
   Define "VARIABLE_IS_NOT_USED" None "__attribute__ ((unused))";
   Else;
   Define "VARIABLE_IS_NOT_USED" None "";
   Endif;
   Ifdef "CACHE_DEBUG_FLAG";
   Text "static int VARIABLE_IS_NOT_USED is_debugged_first = 1;";
   Text "static int VARIABLE_IS_NOT_USED is_debugged_result = 0;";
   Define "is_debugged" (Some "(x)") "((is_debugged_first && (is_debugged_first = 0, is_debugged_result = __is_debugged(x) ) ) || (is_debugged_result))";
   Else;
   Define "is_debugged" (Some "(x)") "__is_debugged(x)";
   Endif;
   Define "debug_raw" (Some "(format, ...)") "((void) (is_debugged(__FILE__) && fprintf(stderr, format, ##__VA_ARGS__)))";
   Define "debug" (Some "(format, ...)") ("((void) (is_debugged(__FILE__) && fprintf(stderr, " +:+ dquote +:+ "[DEBUG] %s,%d: " +:+ dquote +:+ "format, __FILE__, __LINE__, ##__VA_ARGS__)))");
   Define "debug_raw_binary" (Some "(data, len)") "((void) (is_debugged(__FILE__) && __debug_raw_binary(data, len)))";
   Else;
   Define "debug_raw" (Some "(format, ...)") "";
   Define "debug" (Some "(format, ...)") "";
   Define "debug_raw_binary" (Some "(data, len)") "";
   Endif;
   Ifdef "WARNING";
   Define "warning" (Some "(format, ...)") ("fprintf(stderr, " +:+ dquote +:+ "[WARNING] %s, %d: " +:+ dquote +:+ "format, __FILE__, __LINE__, ##__VA_ARGS__)");
   Endif;
   Endif].

Definition csapp_definitions_h : list line :=
  [Ifndef "__CSAPP_H__";
   Define "__CSAPP_H__" None "";
   Define "DEF_MODE" None "S_IRUSR|S_IWUSR|S_IRGRP|S_IWGRP|S_IROTH|S_IWOTH";
   Define "DEF_UMASK" None "S_IWGRP|S_IWOTH";
   Text "typedef struct sockaddr SA;";
   Define "RIO_BUFSIZE" None "8192";
   Text "typedef struct { int rio_fd; int rio_cnt; char *rio_bufptr; char rio_buf[RIO_BUFSIZE]; } rio_t;";
   Text "extern int h_errno;";
   Text "extern char **environ;";
   Define "MAXLINE" None "8192";
   Define "MAXBUF" None "8192";
   Define "LISTENQ" None "1024"].

Definition csapp_declarations_h : list line :=
  [Text "void unix_error(char *msg);";
   Text "void posix_error(int code, char *msg);";
   Text "void dns_error(char *msg);";
   Text "void app_error(char *msg);";
   Text "pid_t Fork(void);";
   Text "void Execve(const char *filename, char *const argv[], char *const envp[]);";
   Text "pid_t Wait(int *status);";
   Text "pid_t Waitpid(pid_t pid, int *iptr, int options);";
   Text "void Kill(pid_t pid, int signum);";
   Text "unsigned int Sleep(unsigned int secs);";
   Text "void Pause(void);";
   Text "unsigned int Alarm(unsigned int seconds);";
   Text "void Setpgid(pid_t pid, pid_t pgid);";
   Text "pid_t Getpgrp();";
   Text "typedef void handler_t(int);";
   Text "handler_t *Signal(int signum, handler_t *handler);";
   Text "void Sigprocmask(int how, const sigset_t *set, sigset_t *oldset);";
   Text "void Sigemptyset(sigset_t *set);";
   Text "void Sigfillset(sigset_t *set);";
   Text "void Sigaddset(sigset_t *set, int signum);";
   Text "void Sigdelset(sigset_t *set, int signum);";
   Text "int Sigismember(const sigset_t *set, int signum);";
   Text "int Open(const char *pathname, int flags, mode_t mode);";
   Text "ssize_t Read(int fd, void *buf, size_t count);";
   Text "ssize_t Write(int fd, const void *buf, size_t count);";
   Text "off_t Lseek(int fildes, off_t offset, int whence);";
   Text "void Close(int fd);";
   Text "int Select(int n, fd_set *readfds, fd_set *writefds, fd_set *exceptfds, struct timeval *timeout);";
   Text "int Dup2(int fd1, int fd2);";
   Text "void Stat(const char *filename, struct stat *buf);";
   Text "void Fstat(int fd, struct stat *buf) ;";
   Text "void *Mmap(void *addr, size_t len, int prot, int flags, int fd, off_t offset);";
   Text "void Munmap(void *start, size_t length);";
   Text "void Fclose(FILE *fp);";
   Text "FILE *Fdopen(int fd, const char *type);";
   Text "char *Fgets(char *ptr, int n, FILE *stream);";
   Text "FILE *Fopen(const char *filename, const char *mode);";
   Text "void Fputs(const char *ptr, FILE *stream);";
   Text "size_t Fread(void *ptr, size_t size, size_t nmemb, FILE *stream);";
   Text "void Fwrite(const void *ptr, size_t size, size_t nmemb, FILE *stream);";
   Text "void *Malloc(size_t size);";
   Text "void *Realloc(void *ptr, size_t size);";
   Text "void *Calloc(size_t nmemb, size_t size);";
   Text "void Free(void *ptr);";
   Text "int Socket(int domain, int type, int protocol);";
   Text "void Setsockopt(int s, int level, int optname, const void *optval, int optlen);";
   Text "void Bind(int sockfd, struct sockaddr *my_addr, int addrlen);";
   Text "void Listen(int s, int backlog);";
   Text "int Accept(int s, struct sockaddr *addr, socklen_t *addrlen);";
   Text "void Connect(int sockfd, struct sockaddr *serv_addr, int addrlen);";
   Text "struct hostent *Gethostbyname(const char *name);";
   Text "struct hostent *Gethostbyaddr(const char *addr, int len, int type);";
   Text "void Pthread_create(pthread_t *tidp, pthread_attr_t *attrp, void * (*routine)(void *), void *argp);";
   Text "void Pthread_join(pthread_t tid, void **thread_return);";
   Text "void Pthread_cancel(pthread_t tid);";
   Text "void Pthread_detach(pthread_t tid);";
   Text "void Pthread_exit(void *retval);";
   Text "pthread_t Pthread_self(void);";
   Text "void Pthread_once(pthread_once_t *once_control, void (*init_function)());";
   Text "void Sem_init(sem_t *sem, int pshared, unsigned int value);";
   Text "void P(sem_t *sem);";
   Text "void V(sem_t *sem);";
   Text "ssize_t rio_readn(int fd, void *usrbuf, size_t n);";
   Text "ssize_t rio_writen(int fd, void *usrbuf, size_t n);";
   Text "void rio_readinitb(rio_t *rp, int fd);";
   Text "ssize_t rio_readnb(rio_t *rp, void *usrbuf, size_t n);";
   Text "ssize_t rio_readlineb(rio_t *rp, void *usrbuf, size_t maxlen);";
   Text "ssize_t Rio_readn(int fd, void *usrbuf, size_t n);";
   Text "void Rio_writen(int fd, void *usrbuf, size_t n);";
   Text "void Rio_readinitb(rio_t *rp, int fd);";
   Text "ssize_t Rio_readnb(rio_t *rp, void *usrbuf, size_t n);";
   Text "ssize_t Rio_readlineb(rio_t *rp, void *usrbuf, size_t maxlen);";
   Text "int open_clientfd(char *hostname, int portno);";
   Text "int open_listenfd(int portno);";
   Text "int Open_clientfd(char *hostname, int port);";
   Text "int Open_listenfd(int port);";
   Endif].

(** ** The files that are compiled, by what they include *)

Definition arm_c : list line := [Include "arm.h"].
Definition arm_branch_other_c : list line :=
  [Include "arm_branch_other.h"; Include "arm_constants.h"; Include "util.h"; Include "debug.h"].
Definition arm_constants_c : list line := [Include "arm_constants.h"].
Definition arm_core_c : list line :=
  [Include "arm_core.h"; Include "registers.h"; Include "no_trace_location.h"; Include "arm_constants.h";
   Include "arm_exception.h"; Include "util.h"; Include "trace.h"].
Definition arm_data_processing_c : list line :=
  [Include "arm_data_processing.h"; Include "arm_exception.h"; Include "arm_constants.h";
   Include "arm_branch_other.h"; Include "arm_instruction.h"; Include "util.h"; Include "debug.h"].
Definition arm_exception_c : list line :=
  [Include "arm_exception.h"; Include "arm_constants.h"; Include "arm_core.h"; Include "util.h"].
Definition arm_instruction_c : list line :=
  [Include "arm_instruction.h"; Include "arm_exception.h"; Include "arm_data_processing.h";
   Include "arm_load_store.h"; Include "arm_branch_other.h"; Include "arm_constants.h";
   Include "arm_core.h"; Include "util.h"].
Definition arm_load_store_c : list line :=
  [Include "arm_load_store.h"; Include "arm_exception.h"; Include "arm_constants.h";
   Include "arm_data_processing.h"; Include "arm_instruction.h"; Include "util.h"; Include "debug.h"].
Definition arm_simulator_c : list line :=
  [Include "csapp.h"; Include "scanner.h"; Include "arm.h"; Include "memory.h"; Include "gdb_protocol.h";
   Include "trace.h"; Include "debug.h"].
Definition csapp_c : list line := [Include "csapp.h"].
Definition gdb_protocol_c : list line :=
  [Include "gdb_protocol.h"; Include "debug.h"; Include "csapp.h"; Include "util.h"; Include "arm_core.h";
   Include "arm_constants.h"; Include "trace.h"].
Definition memory_c : list line := [Include "memory.h"; Include "arm_constants.h"; Include "util.h"].
Definition memory_test_c : list line := [Include "memory.h"; Include "util.h"].
Definition registers_c : list line := [Include "registers.h"; Include "arm_constants.h"].
Definition send_irq_c : list line := [Include "csapp.h"; Include "arm_constants.h"].
Definition trace_c : list line := [Include "trace.h"; Include "arm_constants.h"].
Definition util_c : list line := [Include "util.h"].
Definition scanner_l : list line := [Include "scanner.h"; Include "gdb_protocol.h"; Include "debug.h"].

Definition units : list (string * list line) :=
  [("arm.c", arm_c);
   ("arm_branch_other.c", arm_branch_other_c);
   ("arm_constants.c", arm_constants_c);
   ("arm_core.c", arm_core_c);
   ("arm_data_processing.c", arm_data_processing_c);
   ("arm_exception.c", arm_exception_c);
   ("arm_instruction.c", arm_instruction_c);
   ("arm_load_store.c", arm_load_store_c);
   ("arm_simulator.c", arm_simulator_c);
   ("csapp.c", csapp_c);
   ("gdb_protocol.c", gdb_protocol_c);
   ("memory.c", memory_c);
   ("memory_test.c", memory_test_c);
   ("registers.c", registers_c);
   ("send_irq.c", send_irq_c);
   ("trace.c", trace_c);
   ("util.c", util_c);
   ("scanner.l", scanner_l)].

Definition headers : list (string * list line) :=
  [("memory.h", memory_h);
   ("util.h", util_h);
   ("arm_constants.h", arm_constants_h);
   ("registers.h", registers_h);
   ("arm_core.h", arm_core_h);
   ("trace.h", trace_h);
   ("trace_location.h", trace_location_h);
   ("no_trace_location.h", no_trace_location_h);
   ("arm_exception.h", arm_exception_h);
   ("arm_instruction.h", arm_instruction_h);
   ("arm.h", arm_h);
   ("arm_branch_other.h", arm_branch_other_h);
   ("arm_data_processing.h", arm_data_processing_h);
   ("arm_load_store.h", arm_load_store_h);
   ("gdb_protocol.h", gdb_protocol_h);
   ("scanner.h", scanner_h);
   ("debug.h", debug_h);
   ("csapp.h", (csapp_definitions_h ++ csapp_declarations_h)%list)].

(** ** The preprocessor *)

(** The macros defined, the declarations passed on to the compiler, and the names of
    the macros that were replaced in them. *)
Record pp_state : Type := { macros : list macro; passed : list string; replaced : list string }.

Definition find_macro (name : string) (l : list macro) : option macro :=
  List.find (fun d => String.eqb (m_name d) name) l.

Definition defined (name : string) (l : list macro) : bool := bool_decide (is_Some (find_macro name l)).

Definition undef (name : string) (l : list macro) : list macro :=
  List.filter (fun d => negb (String.eqb (m_name d) name)) l.

Definition is_letter (c : ascii) : bool :=
  let n := N_of_ascii c in
  (((65 <=? n) && (n <=? 90)) || ((97 <=? n) && (n <=? 122)) || (n =? 95))%N.

Definition is_digit (c : ascii) : bool := let n := N_of_ascii c in ((48 <=? n) && (n <=? 57))%N.

(** The identifiers of a text, each with whether a parenthesis follows.  [cur] is the
    word being read. *)
Fixpoint identifiers (cur : string) (s : string) : list (string * bool) :=
  let flush (paren : bool) (rest : list (string * bool)) :=
    match cur with
    | EmptyString => rest
    | String c _ => if is_digit c then rest else (cur, paren) :: rest
    end in
  match s with
  | EmptyString => flush false []
  | String c s' =>
      if is_letter c || is_digit c then identifiers (cur +:+ String c "") s'
      else flush (Ascii.eqb c "(") (identifiers "" s')
  end.

(** Is [w] replaced?  A macro with parameters is not without a parenthesis. *)
Definition replaceable (l : list macro) (w : string) : option string :=
  match find_macro w l with
  | Some d => match m_params d with Some _ => None | None => Some (m_body d) end
  | None => None
  end.

(** The text with its macros replaced. *)
Fixpoint substitute (l : list macro) (cur : string) (s : string) : string :=
  let flush (rest : string) := default cur (replaceable l cur) +:+ rest in
  match s with
  | EmptyString => flush ""
  | String c s' =>
      if is_letter c || is_digit c then substitute l (cur +:+ String c "") s'
      else flush (String c (substitute l "" s'))
  end.

(** A declaration.  A name followed by a parenthesis is that of a function declared:
    it must not be a macro. *)
Definition pass (t : string) (st : pp_state) : option pp_state :=
  let uses := List.filter (fun w => defined w.1 (macros st)) (identifiers "" t) in
  match uses with
  | [] => Some {| macros := macros st; passed := (passed st ++ [t])%list; replaced := replaced st |}
  | _ =>
      if existsb snd uses then None
      else Some {| macros := macros st;
                   passed := (passed st ++ [substitute (macros st) "" t])%list;
                   replaced := (replaced st ++
                     List.filter (fun w => bool_decide (is_Some (replaceable (macros st) w))) (uses.*1))%list |}
  end.

(** A line whose conditions hold.  [None] when the name of a function declared is a
    macro or a macro is given a second, different meaning. *)
Definition pp_active (include : string -> pp_state -> option pp_state) (l : line) (st : pp_state) :
    option pp_state :=
  match l with
  | Define n p b =>
      let d := {| m_name := n; m_params := p; m_body := b |} in
      match find_macro n (macros st) with
      | None => Some {| macros := d :: macros st; passed := passed st; replaced := replaced st |}
      | Some d' => if bool_decide (d = d') then Some st else None
      end
  | Undef n => Some {| macros := undef n (macros st); passed := passed st; replaced := replaced st |}
  | Include f => include f st
  | Text t => pass t st
  | _ => Some st
  end.

(** One line: [conds] holds the conditions around it, innermost first.  [None] also
    when a condition is closed that was not opened. *)
Definition pp_line (include : string -> pp_state -> option pp_state) (l : line) (conds : list bool)
    (st : pp_state) : option (list bool * pp_state) :=
  match l, conds with
  | Ifndef n, _ => Some (negb (defined n (macros st)) :: conds, st)
  | Ifdef n, _ => Some (defined n (macros st) :: conds, st)
  | Else, b :: rest => Some (negb b :: rest, st)
  | Endif, _ :: rest => Some (rest, st)
  | Else, [] | Endif, [] => None
  | _, _ =>
      if forallb (fun b => b) conds then
        match pp_active include l st with Some st' => Some (conds, st') | None => None end
      else Some (conds, st)
  end.

Fixpoint pp_lines (include : string -> pp_state -> option pp_state) (ls : list line) (conds : list bool)
    (st : pp_state) : option (list bool * pp_state) :=
  match ls with
  | [] => Some (conds, st)
  | l :: ls' => match pp_line include l conds st with
                | Some (conds', st') => pp_lines include ls' conds' st'
                | None => None
                end
  end.

(** A whole file, whose conditions are all closed. *)
Definition pp_file (include : string -> pp_state -> option pp_state) (ls : list line) (st : pp_state) :
    option pp_state :=
  match pp_lines include ls [] st with Some ([], st') => Some st' | _ => None end.

(** Inclusions nested at most [depth] deep. *)
Fixpoint pp_include (depth : nat) (f : string) (st : pp_state) : option pp_state :=
  match depth with
  | O => None
  | S depth' =>
      match List.find (fun h => String.eqb h.1 f) headers with
      | Some h => pp_file (pp_include depth') h.2 st
      | None => None
      end
  end.

(** The headers include each other at most eight deep: a chain visits each of
    [gdb_protocol.h], [arm.h], [arm_exception.h], [arm_core.h], [trace_location.h]
    and [trace.h] once before a guard stops it. *)
Definition include_depth : nat := 8.

(** The macros given on the command line of the compiler that the headers ask for: as
    [Makefile.am] has them, with the flag that it has commented out, and without
    flags. *)
Definition builds : list (list macro) :=
  let flag (n : string) := {| m_name := n; m_params := None; m_body := "1" |} in
  [[flag "DEBUG"; flag "WARNING"; flag "__GNUC__"];
   [flag "DEBUG"; flag "WARNING"; flag "CACHE_DEBUG_FLAG"; flag "__GNUC__"];
   [flag "__GNUC__"]].

Definition preprocess (flags : list macro) (ls : list line) : option pp_state :=
  pp_file (pp_include include_depth) ls {| macros := flags; passed := []; replaced := [] |}.

(** ** What a call of the processor's interface becomes *)

Definition access_name {A} (x : access A) : string :=
  match x with
  | ReadRegister _ => "arm_read_register"
  | ReadUsrRegister _ => "arm_read_usr_register"
  | ReadCpsr => "arm_read_cpsr"
  | ReadSpsr => "arm_read_spsr"
  | WriteRegister _ _ => "arm_write_register"
  | WriteUsrRegister _ _ => "arm_write_usr_register"
  | WriteCpsr _ => "arm_write_cpsr"
  | WriteSpsr _ => "arm_write_spsr"
  | Fetch _ => "arm_fetch"
  | ReadByte _ _ => "arm_read_byte"
  | ReadHalf _ _ => "arm_read_half"
  | ReadWord _ _ => "arm_read_word"
  | WriteByte _ _ => "arm_write_byte"
  | WriteHalf _ _ => "arm_write_half"
  | WriteWord _ _ => "arm_write_word"
  end.

Definition access_names : list string :=
  ["arm_fetch"; "arm_read_register"; "arm_read_usr_register"; "arm_read_cpsr"; "arm_read_spsr";
   "arm_write_register"; "arm_write_usr_register"; "arm_write_cpsr"; "arm_write_spsr"; "arm_read_byte";
   "arm_read_half"; "arm_read_word"; "arm_write_byte"; "arm_write_half"; "arm_write_word"].

Lemma access_name_in {A} (x : access A) : access_name x ∈ access_names.
Proof. destruct x; by apply (bool_decide_unpack _). Qed.

(** The calls between which a wrapped access runs. *)
Definition location_macros : list macro :=
  [{| m_name := "LOCATION"; m_params := None; m_body := "trace_start_location(__FILE__, __LINE__)" |};
   {| m_name := "END_LOCATION"; m_params := None; m_body := "trace_end_location(__FILE__, __LINE__)" |}].

(** A macro that calls the function of its own name between the two. *)
Definition wrapper (d : macro) : bool :=
  match m_params d with
  | None => false
  | Some p =>
      String.eqb (m_body d) ("(LOCATION, " +:+ m_name d +:+ p +:+ "+END_LOCATION)")
      || String.eqb (m_body d) ("(LOCATION, " +:+ m_name d +:+ p +:+ ", END_LOCATION)")
  end.

(** Is a call of [name] wrapped?  [None] when it becomes something else. *)
Definition wrapping (l : list macro) (name : string) : option bool :=
  match find_macro name l with
  | None => Some false
  | Some d =>
      if wrapper d && forallb (fun lm => bool_decide (find_macro (m_name lm) l = Some lm)) location_macros
      then Some true else None
  end.

Section calls.
Context `{Host}.

(** The call of an access at line [n] of [file] when the macros [l] are defined. *)
Definition call {A} (l : list macro) (file : string) (n : Z) (x : access A) : option (M machine A) :=
  match wrapping l (access_name x) with
  | Some true => Some (at_line file n (run_access x))
  | Some false => Some (run_access x)
  | None => None
  end.
End calls.

(** The functions declared in what was passed on. *)
Definition declared (st : pp_state) : list string :=
  flat_map (fun t => (List.filter snd (identifiers "" t)).*1) (passed st).

(** The macros the declarations use. *)
Definition used_macros : list string := ["RIO_BUFSIZE"; "VARIABLE_IS_NOT_USED"].

(** The files that see the interface of the processor. *)
Definition core_users : list string :=
  ["arm.c"; "arm_branch_other.c"; "arm_core.c"; "arm_data_processing.c"; "arm_exception.c"; "arm_instruction.c";
   "arm_load_store.c"; "arm_simulator.c"; "gdb_protocol.c"; "trace.c"; "scanner.l"].

(** ** Every file *)

Definition sees_core (file : string) : bool := bool_decide (file ∈ core_users).

Definition located (file : string) : bool := sees_core file && negb (String.eqb file "arm_core.c").

(** What is computed for a file. *)
Definition unit_checks (flags : list macro) (u : string * list line) : bool :=
  match preprocess flags u.2 with
  | None => false
  | Some st =>
      let names := declared st in
      bool_decide (Forall (fun w => w ∈ used_macros) (replaced st)) &&
      forallb (fun a => bool_decide (wrapping (macros st) a = Some (located u.1))
                        && Bool.eqb (existsb (String.eqb a) names) (sees_core u.1)) access_names
  end.

Lemma units_check : forallb (fun flags => forallb (unit_checks flags) units) builds = true.
Proof. vm_compute. reflexivity. Qed.

(** ** Taking the wrappers away *)

Lemma find_undef n k l : find_macro n (undef k l) = if String.eqb k n then None else find_macro n l.
Proof.
  unfold find_macro, undef. induction l as [|d l IH]; simpl; [by destruct (String.eqb k n)|].
  destruct (String.eqb_spec (m_name d) k) as [Ek|Ek]; simpl; rewrite ?IH.
  - rewrite Ek. by destruct (String.eqb k n).
  - destruct (String.eqb_spec (m_name d) n) as [En|]; [|done].
    destruct (String.eqb_spec k n) as [|]; [congruence|done].
Qed.

(** A name that is no macro can be removed as well. *)
Lemma undef_absent n l : defined n l = false -> undef n l = l.
Proof.
  unfold defined, find_macro, undef. rewrite bool_decide_eq_false, <- eq_None_not_Some.
  induction l as [|d l IH]; simpl; [done|]. destruct (String.eqb (m_name d) n); [done|].
  intros E. simpl. by rewrite IH.
Qed.

(** The three lines that remove a macro if it is defined. *)
Definition removal (n : string) : list line := [Ifdef n; Undef n; Endif].

Lemma removal_lines inc n rest st :
  pp_lines inc (removal n ++ rest)%list [] st =
  pp_lines inc rest [] {| macros := undef n (macros st); passed := passed st; replaced := replaced st |}.
Proof.
  simpl. destruct (defined n (macros st)) eqn:E; simpl; [done|].
  rewrite undef_absent by done. by destruct st.
Qed.

Lemma removals_lines inc names st :
  pp_lines inc (flat_map removal names) [] st =
  Some ([], {| macros := fold_left (fun l n => undef n l) names (macros st); passed := passed st;
               replaced := replaced st |}).
Proof.
  revert st. induction names as [|n names IH]; intros st; [by destruct st|].
  cbn [flat_map]. by rewrite removal_lines, IH.
Qed.

Lemma find_undef_all n names l : n ∈ names -> find_macro n (fold_left (fun l n => undef n l) names l) = None.
Proof.
  assert (Hkeep : forall names l, find_macro n l = None ->
            find_macro n (fold_left (fun l n => undef n l) names l) = None).
  { intros ns. induction ns as [|k ns IH]; intros l1 E; simpl; [done|].
    apply IH. rewrite find_undef, E. by destruct (String.eqb k n). }
  intros Hn. revert l. induction names as [|k names IH]; intros l; [by apply not_elem_of_nil in Hn|].
  simpl. apply elem_of_cons in Hn as [->|Hn]; [|by apply IH].
  apply Hkeep. by rewrite find_undef, String.eqb_refl.
Qed.

Lemma no_trace_location_removes depth st :
  pp_include (S depth) "no_trace_location.h" st =
  Some {| macros := fold_left (fun l n => undef n l) access_names (macros st); passed := passed st;
          replaced := replaced st |}.
Proof.
  change (pp_include (S depth) "no_trace_location.h" st)
    with (pp_file (pp_include depth) (flat_map removal access_names) st).
  unfold pp_file. by rewrite removals_lines.
Qed.

(** ** The values of the constants *)

Definition digit_value (c : ascii) : Z :=
  let n := Z.of_N (N_of_ascii c) in if is_digit c then n - 48 else if 97 <=? n then n - 87 else n - 55.

Fixpoint number (base acc : Z) (s : string) : Z :=
  match s with EmptyString => acc | String c s' => number base (acc * base + digit_value c) s' end.

(** An integer literal, in binary, hexadecimal or decimal. *)
Definition literal (s : string) : Z :=
  match s with
  | String "0" (String "b" s') => number 2 0 s'
  | String "0" (String "x" s') => number 16 0 s'
  | _ => number 10 0 s
  end.

Definition constants : list (string * Z) :=
  [("AND", AND); ("EOR", EOR); ("SUB", SUB); ("RSB", RSB); ("ADD", ADD); ("ADC", ADC); ("SBC", SBC); ("RSC", RSC);
   ("TST", TST); ("TEQ", TEQ); ("CMP", CMP); ("CMN", CMN); ("ORR", ORR); ("MOV", MOV); ("BIC", BIC); ("MVN", MVN);
   ("DATA_PROCESSING_SHIFT", DATA_PROCESSING_SHIFT); ("DATA_PROCESSING_IMMEDIATE", DATA_PROCESSING_IMMEDIATE);
   ("LOAD_STORE_IMMEDIATE", LOAD_STORE_IMMEDIATE); ("LOAD_STORE_REGISTER", LOAD_STORE_REGISTER);
   ("LOAD_STORE_MULTIPLE", LOAD_STORE_MULTIPLE); ("BRANCH", BRANCH); ("LOAD_STORE_COPROC", LOAD_STORE_COPROC);
   ("COPROCESSOR_OTHERS_SWI", COPROCESSOR_OTHERS_SWI);
   ("EQ", EQ); ("NE", NE); ("CS", CS); ("CC", CC); ("MI", MI); ("PL", PL); ("VS", VS); ("VC", VC); ("HI", HI);
   ("LS", LS); ("GE", GE); ("LT", LT); ("GT", GT); ("LE", LE); ("AL", AL);
   ("SP", SP); ("LR", LR); ("PC", PC); ("CPSR", CPSR);
   ("USR", USR); ("FIQ", FIQ); ("IRQ", IRQ); ("SVC", SVC); ("ABT", ABT); ("UND", UND); ("SYS", SYS);
   ("RESET", RESET); ("UNDEFINED_INSTRUCTION", UNDEFINED_INSTRUCTION); ("SOFTWARE_INTERRUPT", SOFTWARE_INTERRUPT);
   ("PREFETCH_ABORT", PREFETCH_ABORT); ("DATA_ABORT", DATA_ABORT); ("IMPRECISE_ABORT", IMPRECISE_ABORT);
   ("INTERRUPT", INTERRUPT); ("FAST_INTERRUPT", FAST_INTERRUPT);
   ("N", FLAG_N); ("Z", FLAG_Z); ("C", FLAG_C); ("V", FLAG_V);
   ("LSL", LSL); ("LSR", LSR); ("ASR", ASR); ("ROR", ROR);
   ("SPSR", SPSR); ("OTHER_ACCESS", OTHER_ACCESS); ("OPCODE_FETCH", OPCODE_FETCH); ("WRITE", WRITE);
   ("READ", READ); ("MEMORY", MEMORY); ("REGISTERS", REGISTERS); ("STATE", STATE); ("POSITION", POSITION)].

(** The constants of this development are the macros that [arm_core.c] sees. *)
Lemma constants_agree :
  match preprocess [] arm_core_c with
  | Some st => Forall (fun c => literal <$> replaceable (macros st) c.1 = Some c.2) constants
  | None => False
  end.
Proof.
  assert (E : match preprocess [] arm_core_c with
              | Some st => forallb (fun c => bool_decide (literal <$> replaceable (macros st) c.1 = Some c.2)) constants
              | None => false
              end = true) by (vm_compute; reflexivity).
  destruct (preprocess [] arm_core_c) as [st|]; [|done]. apply Forall_forall. intros c Hc.
  rewrite forallb_forall in E. by eapply bool_decide_eq_true, E, list_elem_of_In.
Qed.

(** The macros of the source locations.  In the builds of [builds], the headers of every
    file of the program are read to their end: no declaration has its name replaced
    by a macro, no macro gets a second meaning, and the only macros replaced in
    declarations are an array size and an attribute.  The files that see the
    interface of the processor see all of it, and a call of any access in them is the
    access between the push and the pop of its own file and line, except in
    [arm_core.c], where it is the access itself; the other files see none of it.
    [no_trace_location.h] takes the wrappers away whatever was defined before. *)
Theorem accesses_located `{Host} flags file ls :
  flags ∈ builds -> (file, ls) ∈ units ->
  exists st, preprocess flags ls = Some st /\ Forall (fun w => w ∈ used_macros) (replaced st) /\
    (forall A (x : access A), access_name x ∈ declared st <-> file ∈ core_users) /\
    (forall A (x : access A) src n,
       call (macros st) src n x = Some (if located file then at_line src n (run_access x) else run_access x)) /\
    exists st', pp_include 1 "no_trace_location.h" st = Some st' /\
      forall A (x : access A) src n, call (macros st') src n x = Some (run_access x).
Proof.
  intros Hf Hu. pose proof units_check as Hc.
  rewrite forallb_forall in Hc. specialize (Hc flags (proj1 (list_elem_of_In _ _) Hf)).
  rewrite forallb_forall in Hc. specialize (Hc _ (proj1 (list_elem_of_In _ _) Hu)).
  unfold unit_checks in Hc. cbn [fst snd] in Hc. destruct (preprocess flags ls) as [st|]; [|done].
  apply andb_true_iff in Hc as [Hr%bool_decide_eq_true Hc]. rewrite forallb_forall in Hc.
  exists st. split; [done|]. split; [done|].
  assert (Ha : forall A (x : access A), wrapping (macros st) (access_name x) = Some (located file) /\
                 existsb (String.eqb (access_name x)) (declared st) = sees_core file).
  { intros A x. specialize (Hc _ (proj1 (list_elem_of_In _ _) (access_name_in x))).
    by apply andb_true_iff in Hc as [->%bool_decide_eq_true ->%Bool.eqb_prop]. }
  split_and!.
  - intros A x. destruct (Ha A x) as [_ E]. rewrite <- (bool_decide_eq_true (file ∈ core_users)). fold (sees_core file).
    rewrite <- E, existsb_exists. setoid_rewrite list_elem_of_In. split.
    + intros Hx. exists (access_name x). by rewrite String.eqb_refl.
    + by intros (y & Hy & ->%String.eqb_eq).
  - intros A x src n. destruct (Ha A x) as [E _]. unfold call. rewrite E. by destruct (located file).
  - eexists. split; [apply no_trace_location_removes|]. intros A x src n. unfold call, wrapping. cbn [macros].
    by rewrite find_undef_all by apply access_name_in.
Qed.

Lemma accesses_located_witness :
  exists st, preprocess (default [] (head builds)) arm_core_c = Some st /\
    call (H := host0) (macros st) "arm_core.c" 207 (ReadRegister 3) = Some (arm_read_register 3).
Proof.
  destruct (accesses_located (H := host0) (default [] (head builds)) "arm_core.c" arm_core_c) as (st & E & _ & _ & Hc & _).
  - apply list_elem_of_here.
  - do 3 apply list_elem_of_further. apply list_elem_of_here.
  - exists st. split; [exact E|]. apply (Hc _ (ReadRegister 3) "arm_core.c" 207).
Defined.
