(* ===== verification/Isa.v ===== *)
(** * The instruction set: an abstract machine and its refinement by [arm_step]

    [Isa] describes the ARM instructions without the simulator: sixteen registers,
    four flags and the memory; instructions as a data type with a decoder; their
    effect as a function.  [arm_step] refines it: from a machine that represents an
    abstract state, a step of the simulator returns a machine that represents the
    next abstract state ([isa_step_ok]), and so do sequences of steps ([isa_run_ok]).

    The description is the architecture's.  Where the simulator departs from it, or
    the architecture leaves the result open, the description says [Unsupported] and
    nothing is claimed: arithmetic right shifts and LSR by 32; flags after RSB, RSC,
    most subtractions from zero, ADC with and SBC without carry, carries that the shifter
    spoils; MRS and MSR; unaligned transfers, byte and half-word loads, register
    offsets shifted other than to the left, post-indexed loads of their own offset
    register, user-mode transfers; combinations that the architecture calls
    unpredictable; writes of the PC by flag-setting instructions and single loads;
    software interrupts other than the one that ends the program. *)
From S2P Require Import Prelude CInt Constants Memory Registers Format Trace Core CoreFacts Exception Branch Shifter DataProcessing LoadStore Safety Instruction.

#[local] Open Scope Z_scope.

(** ** The abstract machine *)

(** [R 15] is the address of the next instruction. *)
Record arch : Type := Arch {
  R : Z -> Z;
  fN : bool;
  fZ : bool;
  fC : bool;
  fV : bool;
  ram : memory_data;
}.

Definition set_R (r v : Z) (a : arch) : arch :=
  Arch (fun i => if i =? r then v else R a i) (fN a) (fZ a) (fC a) (fV a) (ram a).
Definition set_nzcv (n z c v : bool) (a : arch) : arch := Arch (R a) n z c v (ram a).
Definition set_ram (mm : memory_data) (a : arch) : arch := Arch (R a) (fN a) (fZ a) (fC a) (fV a) mm.

Inductive operand2 : Type :=
| Rotated (v n : Z)              (* an immediate rotated right by [n] *)
| Shifted (rm op n : Z).         (* a register shifted by [n] *)

(** The offset of a single transfer. *)
Inductive offset : Type :=
| Imm (n : Z)                    (* added to the base *)
| Reg (up : bool) (rm n : Z).    (* a register shifted left by [n], added or subtracted *)

Inductive width : Type := Byte | Half | Word.

Inductive instr : Type :=
| DP (op : Z) (sets : bool) (rn rd : Z) (o : operand2)
| Branches (link : bool) (words : Z)
| Load (rd rn : Z) (o : offset) (pre wb : bool)
| Store (w : width) (rd rn : Z) (o : offset) (pre wb : bool)
| Multiple (load up pre wb : bool) (rn : Z) (rl : list Z)
| Swi (n : Z).

(** A word load, or a store. *)
Definition transfer (load byte : bool) (rd rn : Z) (o : offset) (pre wb : bool) : option instr :=
  if load then if byte then None else Some (Load rd rn o pre wb)
  else Some (Store (if byte then Byte else Word) rd rn o pre wb).

Definition register_list (ins : Z) : list Z := List.filter (Z.testbit ins) reg_indices.
#[local] Opaque register_list.

Definition decode (ins : Z) : option instr :=
  let type := field ins 27 25 in
  let op := field ins 24 21 in
  let sets := Z.testbit ins 20 in
  let rn := field ins 19 16 in
  let rd := field ins 15 12 in
  let pre := Z.testbit ins 24 in
  let up := Z.testbit ins 23 in
  let wb := Z.testbit ins 21 in
  let signed n := Imm (if up then n else - n) in
  if type =? 0 then
    if Z.testbit ins 4 then
      if Z.testbit ins 7 && (field ins 6 5 =? 1) && negb sets && (pre || negb wb) then
        Some (Store Half rd rn
          (if Z.testbit ins 22 then signed (field ins 11 8 * 16 + field ins 3 0) else Reg up (field ins 3 0) 0)
          pre wb)
      else None
    else Some (DP op sets rn rd (Shifted (field ins 3 0) (field ins 6 5) (field ins 11 7)))
  else if type =? 1 then Some (DP op sets rn rd (Rotated (field ins 7 0) (2 * field ins 11 8)))
  else if type =? 2 then
    if negb (is_half ins) && (pre || negb wb)
    then transfer sets (Z.testbit ins 22) rd rn (signed (field ins 11 0)) pre wb else None
  else if type =? 3 then
    if negb (Z.testbit ins 4) && (field ins 6 5 =? 0) && (pre || negb wb)
    then transfer sets (Z.testbit ins 22) rd rn (Reg up (field ins 3 0) (field ins 11 7)) pre wb else None
  else if type =? 4 then
    if Z.testbit ins 22 then None
    else Some (Multiple sets up pre wb rn (register_list ins))
  else if type =? 5 then Some (Branches (Z.testbit ins 24) (branch_words ins))
  else if type =? 7 then if Z.testbit ins 24 then Some (Swi (field ins 23 0)) else None
  else None.

(** The condition codes 0 to 14. *)
Definition holds (cond : Z) (a : arch) : bool :=
  match cond with
  | 0 => fZ a | 1 => negb (fZ a)
  | 2 => fC a | 3 => negb (fC a)
  | 4 => fN a | 5 => negb (fN a)
  | 6 => fV a | 7 => negb (fV a)
  | 8 => fC a && negb (fZ a) | 9 => negb (fC a) || fZ a
  | 10 => Bool.eqb (fN a) (fV a) | 11 => negb (Bool.eqb (fN a) (fV a))
  | 12 => negb (fZ a) && Bool.eqb (fN a) (fV a)
  | 13 => fZ a || negb (Bool.eqb (fN a) (fV a))
  | _ => true
  end.

Inductive outcome : Type :=
| Next (a : arch)
| Halt (a : arch)                (* the program ends *)
| Unsupported.

(** ** The instructions *)

(** The value of a register as an operand, and the state at the next
    instruction. *)
Definition value (a : arch) (r : Z) : Z := if r =? 15 then u32 (R a 15 + 8) else R a r.
Definition next (a : arch) : arch := set_R 15 (u32 (R a 15 + 4)) a.

(** The second operand and the carry of the shifter. *)
Definition operand_of (o : operand2) (a : arch) : Z * bool :=
  match o with
  | Rotated v n =>
      if n =? 0 then (v, fC a)
      else let x := v mod 2 ^ n * 2 ^ (32 - n) + v / 2 ^ n in (x, Z.testbit x 31)
  | Shifted rm op n => arch_shift op (value a rm) n (fC a)
  end.

Definition operand_supported (o : operand2) : bool :=
  match o with
  | Rotated _ _ => true
  | Shifted _ op n => (op =? LSL) || (op =? LSR) && (1 <=? n) || (op =? ROR)
  end.

(** The carry that the simulator's flag update starts from. *)
Definition stale_carry (o : operand2) (a : arch) : bool :=
  match o with Rotated _ _ => fC a | Shifted _ _ _ => (operand_of o a).2 end.

Section dp.
Variables (op rn : Z) (o : operand2) (a : arch).
Let x := value a rn.
Let y := (operand_of o a).1.
Let add := is_addition op (fC a).

Definition dp_result : Z := arch_result op x y (fC a).
Definition arith_carry : bool := if add then 2 ^ 32 <=? x + y else y <=? x.
Definition arith_overflow : bool := signed_overflow (if add then s32 x + s32 y else s32 x - s32 y).

Definition flags_supported : bool :=
  if is_arith op then
    (add || is_subtraction op (fC a) && (negb (x =? 0) || (y =? 0) && stale_carry o a))
    && implb (stale_carry o a) arith_carry
  else Bool.eqb (stale_carry o a) (operand_of o a).2.

Definition with_flags (b : arch) : arch :=
  set_nzcv (Z.testbit dp_result 31) (dp_result =? 0)
    (if is_arith op then arith_carry else (operand_of o a).2)
    (if is_arith op then arith_overflow else fV a) b.
End dp.

(** Single transfers: the offset, with the registers read by [f]; the address;
    the base register afterwards. *)
Definition offset_value (o : offset) (f : Z -> Z) : Z :=
  match o with
  | Imm n => n
  | Reg up rm n => let x := u32 (Z.shiftl (f rm) n) in if up then x else - x
  end.

Definition new_rn (rn : Z) (o : offset) (a : arch) : Z := u32 (value a rn + offset_value o (value a)).
Definition transfer_address (rn : Z) (o : offset) (pre : bool) (a : arch) : Z :=
  if pre then new_rn rn o a else value a rn.
Definition writes_rn (pre wb : bool) : bool := negb pre || wb.
Definition base_update (pre wb : bool) (rn v : Z) (b : arch) : arch :=
  if writes_rn pre wb then set_R rn v b else b.

(** The combinations that the architecture defines, and, in a post-indexed load,
    an offset that is not the register loaded. *)
Definition base_supported (pre wb : bool) (rn rd : Z) : bool :=
  negb (writes_rn pre wb && ((rn =? 15) || (rn =? rd))).
Definition offset_kept (pre : bool) (o : offset) (rd : Z) : bool :=
  match o with
  | Imm _ => true
  | Reg _ rm _ => pre || negb (rm =? rd)
  end.

Definition width_bytes (w : width) : Z := match w with Byte => 1 | Half => 2 | Word => 4 end.
Definition put (w : width) (mm : memory_data) (p v : Z) : memory_data :=
  match w with Byte => put_byte mm p (u8 v) | Half => put_half mm p (u16 v) | Word => put_word mm p v end.

(** Multiple transfers: the lowest address, the base register afterwards, the
    registers loaded from consecutive words, the words stored. *)
Definition multiple_low (up pre : bool) (base bytes : Z) : Z :=
  u32 (match up, pre with
       | true, false => base
       | true, true => base + 4
       | false, false => base - bytes + 4
       | false, true => base - bytes
       end).
Definition multiple_base (up : bool) (base bytes : Z) : Z := u32 (if up then base + bytes else base - bytes).

Fixpoint load_list (rl : list Z) (p : Z) (a : arch) : arch :=
  match rl with
  | [] => a
  | r :: rl' => load_list rl' (p + 4) (set_R r (word_at (ram a) p) a)
  end.
Fixpoint store_list (rl : list Z) (p : Z) (f : Z -> Z) (mm : memory_data) : memory_data :=
  match rl with
  | [] => mm
  | r :: rl' => store_list rl' (p + 4) f (put_word mm p (f r))
  end.

(** A word loaded into [PC] is an address. *)
Fixpoint pc_aligned (rl : list Z) (p : Z) (mm : memory_data) : bool :=
  match rl with
  | [] => true
  | r :: rl' => (negb (r =? 15) || (word_at mm p mod 4 =? 0)) && pc_aligned rl' (p + 4) mm
  end.

Definition exec (i : instr) (a : arch) : outcome :=
  match i with
  | DP op sets rn rd o =>
      let b := if is_test op then next a else set_R rd (dp_result op rn o a) (next a) in
      if operand_supported o
         && (if sets then flags_supported op rn o a && negb (rd =? 15) else negb (is_test op))
      then Next (if sets then with_flags op rn o a b else b)
      else Unsupported
  | Branches link words =>
      let b := set_R 15 (u32 (R a 15 + 8 + 4 * words)) a in
      Next (if link then set_R 14 (u32 (R a 15 + 4)) b else b)
  | Load rd rn o pre wb =>
      let p := transfer_address rn o pre a in
      if (p mod 4 =? 0) && (p <? size (ram a)) && negb (rd =? 15)
         && base_supported pre wb rn rd && offset_kept pre o rd
      then Next (base_update pre wb rn (new_rn rn o a) (set_R rd (word_at (ram a) p) (next a)))
      else Unsupported
  | Store w rd rn o pre wb =>
      let p := transfer_address rn o pre a in
      if (p mod width_bytes w =? 0) && (p <? size (ram a)) && base_supported pre wb rn rd
      then Next (base_update pre wb rn (new_rn rn o a) (set_ram (put w (ram a) p (value a rd)) (next a)))
      else Unsupported
  | Multiple load up pre wb rn rl =>
      let bytes := 4 * Z.of_nat (length rl) in
      let p := multiple_low up pre (value a rn) bytes in
      let b := if load then load_list rl p (next a)
               else set_ram (store_list rl p (value a) (ram a)) (next a) in
      if negb (bool_decide (rl = [])) && (p mod 4 =? 0) && (p + bytes <=? size (ram a))
         && negb (rn =? 15) && negb (wb && bool_decide (rn ∈ rl))
         && (if load then pc_aligned rl p (ram a) else true)
      then Next (if wb then set_R rn (multiple_base up (value a rn) bytes) b else b)
      else Unsupported
  | Swi n => if n =? 0x123456 then Halt (next a) else Unsupported
  end.

(** One step: fetch, decode, condition, execution. *)
Definition astep (a : arch) : outcome :=
  let p := R a 15 in
  if (p mod 4 =? 0) && (0 <=? p) && (p <? size (ram a)) then
    let ins := word_at (ram a) p in
    let cond := field ins 31 28 in
    match decode ins with
    | Some i => if cond =? 15 then Unsupported else if holds cond a then exec i a else Next (next a)
    | None => Unsupported
    end
  else Unsupported.

(** At most [n] steps; the last state and whether the program has ended. *)
Fixpoint arun (n : nat) (a : arch) : outcome :=
  match n with
  | O => Next a
  | S n' => match astep a with Next a' => arun n' a' | o => o end
  end.

(** ** The simulator represents the abstract machine *)

Section refinement.
Context `{Hh : Host} `{!RotateHost}.

Definition represents (s : machine) (a : arch) : Prop :=
  machine_ok s /\ mem s = ram a /\ size (mem s) mod 4 = 0 /\
  (forall r, 0 <= r < 16 -> rget (regs s) (slot (mode_of (regs s)) r) = R a r) /\
  flag s FLAG_N = fN a /\ flag s FLAG_Z = fZ a /\ flag s FLAG_C = fC a /\ flag s FLAG_V = fV a.

Lemma represents_equiv s s' a : represents s a -> s' ≡ s -> machine_ok s' -> represents s' a.
Proof.
  intros (_ & Hm & H4 & HR & Hf) (E1 & E2 & _) Hok. unfold represents, flag in *. by rewrite E1, E2.
Qed.

(** Abstract states are equal when their registers, flags and memory are. *)
#[export] Instance arch_equiv : Equiv arch := fun a b =>
  (forall r, R a r = R b r) /\ fN a = fN b /\ fZ a = fZ b /\ fC a = fC b /\ fV a = fV b /\ ram a = ram b.

#[export] Instance arch_equivalence : Equivalence (≡@{arch}).
Proof.
  split; [by intros a|by intros a b (? & ? & ? & ? & ? & ?)|].
  intros a b c (E & ? & ? & ? & ? & ?) (E' & ? & ? & ? & ? & ?).
  split; [intros r; by rewrite E|split_and!; congruence].
Qed.

#[export] Instance represents_proper : Proper ((=) ==> (≡) ==> iff) represents.
Proof.
  intros s ? <- a b (ER & E1 & E2 & E3 & E4 & E5). unfold represents. rewrite E1, E2, E3, E4, E5.
  by setoid_rewrite ER.
Qed.

(** Conditions. *)
Lemma passes_holds s a cond :
  represents s a -> 0 <= cond < 15 -> passes cond s = holds cond a.
Proof.
  intros (_ & _ & _ & _ & EN & EZ & EC & EV) Hc. unfold passes, holds. rewrite <- EN, <- EZ, <- EC, <- EV.
  assert (Hd : cond = 0 \/ cond = 1 \/ cond = 2 \/ cond = 3 \/ cond = 4 \/ cond = 5 \/ cond = 6 \/
    cond = 7 \/ cond = 8 \/ cond = 9 \/ cond = 10 \/ cond = 11 \/ cond = 12 \/ cond = 13 \/ cond = 14) by lia.
  destruct (flag s FLAG_N), (flag s FLAG_Z), (flag s FLAG_C), (flag s FLAG_V);
    destruct_or! Hd; subst cond; reflexivity.
Qed.

(** The instruction at the program counter. *)
Lemma fetch_represents s a :
  represents s a -> R a 15 mod 4 = 0 -> 0 <= R a 15 -> R a 15 < size (ram a) ->
  instruction_at s (R a 15) (word_at (ram a) (R a 15)).
Proof.
  intros (Hok & Hm & H4 & HR & _) Hal Hge Hs. rewrite <- Hm in *.
  assert (Hpc : pc_of s = R a 15) by (rewrite <- HR by lia; unfold pc_of; by rewrite slot_15).
  destruct Hok as (_ & (_ & Hl & _) & _). split_and!; try done.
  Z.to_euclidean_division_equations. lia.
Qed.

(** The machine after the fetch: [PC] has moved on, the registers read as the
    operands of the instruction. *)
Definition fetched (s1 : machine) (a : arch) : Prop :=
  represents s1 (next a) /\ (forall r, 0 <= r < 16 -> rval s1 r = value a r) /\ quiet s1.

Lemma fetch_fetched s a ins :
  represents s a -> instruction_at s (R a 15) ins -> fetched (fetch_state (alloc (hush s))) a.
Proof.
  intros Hrep Hins. destruct (Hrep) as (Hok & Hm & H4 & HR & Hf).
  destruct (instruction_at_fetch s _ ins 0 Hok Hins) as (Ef & _ & _ & Epc).
  destruct Hins as (Hpc & Hal & _ & _). set (s1 := fetch_state (alloc (hush s))).
  destruct (Hok) as (Hr & Hmm & Hc & Ht). destruct (fetch_state_ok (alloc (hush s)) Hr) as (Hr1 & Em1 & Ec1).
  assert (Hmode : mode_of (regs s1) = mode_of (regs s)) by (apply (mode_of_aset (regs s) 15); done).
  assert (Hreg : forall r, 0 <= r < 16 -> rget (regs s1) (slot (mode_of (regs s1)) r) = R (next a) r).
  { intros r Hrr. rewrite Hmode. unfold next, set_R. cbn [R].
    change (regs s1) with (aset (regs s) 15 (u32 (fetch_address s + 4))). rewrite Ef.
    destruct (Z.eqb_spec r 15) as [->|Hne].
    - rewrite slot_15. by apply rget_aset_eq.
    - rewrite rget_aset_ne; [by apply HR|]. rewrite <- (slot_15 (mode_of (regs s))).
      apply slot_ne; [apply mode_of_range|lia..]. }
  split.
  - split; [split; [exact Hr1|]; split; [exact Hmm|]; split; [|exact Ht]; unfold s1; rewrite Ec1; auto with crange|].
    split; [done|]. split; [done|]. split; [exact Hreg|]. unfold flag in *.
    change (cpsr_of (regs s1)) with (cpsr_of (aset (regs s) 15 (u32 (fetch_address s + 4)))).
    unfold cpsr_of. rewrite rget_aset_ne by done. exact Hf.
  - split; [|done]. intros r Hrr. unfold rval, value. rewrite (Hreg r Hrr). unfold next, set_R. cbn [R].
    destruct (Z.eqb_spec r 15) as [->|]; [|done]. by apply pc_read_next.
Qed.

(** A step whose instruction is executed. *)
Lemma step_executed s a ins s' :
  represents s a -> instruction_at s (R a 15) ins -> passes (field ins 31 28) s = true ->
  dispatch ins (fetch_state (alloc (hush s))) = Ret 0 s' -> machine_ok s' ->
  exists s'', arm_step s = Ret 0 s'' /\ s'' ≡ s' /\ machine_ok s''.
Proof.
  intros (Hok & _) Hins Hp E Hok'. destruct (Hok) as (Hr & _).
  destruct (instruction_at_fetch s _ ins (val0 s) Hok Hins) as (Ef & _ & Er & _).
  apply (step_run 0 s s' Hok); [|apply Hok'..].
  unfold arm_step. rewrite (bind_ret _ _ _ 0 s'); [done|].
  rewrite (execute_q (hush s) ins); [|done..| by change (fetch_address (hush s)) with (fetch_address s); rewrite Ef].
  change (passes _ (hush s)) with (passes (field ins 31 28) s). by rewrite Hp.
Qed.

(** ** Updates of the registers *)

Lemma represents_set_R s1 s' b r v :
  represents s1 b -> 0 <= r < 16 -> mode_of (regs s') = mode_of (regs s1) ->
  rget (regs s') (slot (mode_of (regs s1)) r) = v ->
  (forall i, i <> slot (mode_of (regs s1)) r -> i <> CPSR -> rget (regs s') i = rget (regs s1) i) ->
  forall k, 0 <= k < 16 -> rget (regs s') (slot (mode_of (regs s')) k) = R (set_R r v b) k.
Proof.
  intros (_ & _ & _ & HR & _) Hr Em Ev Hf k Hk. rewrite Em. unfold set_R. cbn [R].
  destruct (Z.eqb_spec k r) as [->|Hne]; [done|]. rewrite Hf; [by apply HR| |].
  - apply slot_ne; [apply mode_of_range|lia..].
  - destruct (slot_range (mode_of (regs s1)) k Hk). done.
Qed.

Lemma represents_same_R s1 s' b :
  represents s1 b -> mode_of (regs s') = mode_of (regs s1) ->
  (forall i, i <> CPSR -> rget (regs s') i = rget (regs s1) i) ->
  forall k, 0 <= k < 16 -> rget (regs s') (slot (mode_of (regs s')) k) = R b k.
Proof.
  intros (_ & _ & _ & HR & _) Em Hf k Hk. rewrite Em, Hf; [by apply HR|].
  destruct (slot_range (mode_of (regs s1)) k Hk). done.
Qed.

Lemma mode_of_bits r r' :
  (forall i, 0 <= i < 28 -> Z.testbit (cpsr_of r') i = Z.testbit (cpsr_of r) i) -> mode_of r' = mode_of r.
Proof.
  intros Hb. unfold mode_of. apply Z.bits_inj'. intros n Hn. rewrite !Z.land_spec.
  destruct (Z.lt_ge_cases n 28); [by rewrite Hb by lia|].
  replace (Z.testbit 0x1f n) with false by (symmetry; apply Z.bits_above_log2; [lia|simpl; lia]).
  by rewrite !andb_false_r.
Qed.

(** ** Decoding *)

Lemma testbit_field x h l k : 0 <= l -> 0 <= k <= h - l -> Z.testbit x (l + k) = Z.testbit (field x h l) k.
Proof.
  intros Hl Hk. unfold field. rewrite Z.mod_pow2_bits_low by lia.
  by rewrite Z.div_pow2_bits, Z.add_comm by lia.
Qed.

Lemma bit_25 ins : Z.testbit ins 25 = Z.testbit (field ins 27 25) 0.
Proof. by rewrite <- testbit_field by lia. Qed.
Lemma bit_26 ins : Z.testbit ins 26 = Z.testbit (field ins 27 25) 1.
Proof. by rewrite <- testbit_field by lia. Qed.

(** The data-processing instructions: what the handler takes for the operand is
    the operand. *)
Lemma decode_dp ins op sets rn rd o :
  decode ins = Some (DP op sets rn rd o) ->
  dispatch ins = (arm_data_processing ins ;;; ret 0) /\
  op = field ins 24 21 /\ sets = Z.testbit ins 20 /\ rn = field ins 19 16 /\ rd = field ins 15 12 /\
  forall s1 a, fetched s1 a ->
    arch_operand ins s1 = operand_of o a /\ plain_operand ins s1 = operand_supported o /\
    shifter_carry ins s1 = stale_carry o a.
Proof.
  intros Hd. unfold decode in Hd. unfold dispatch. rewrite type_field.
  destruct (Z.eqb_spec (field ins 27 25) 0) as [E0|Hn0].
  - destruct (Z.testbit ins 4) eqn:E4; [by case_match|]. injection Hd as <- <- <- <- <-. rewrite E0.
    split; [by rewrite (bit_at ins 4), E4 by lia|]. split_and!; try done. intros s1 a (Hrep & Hv & _).
    assert (E25 : Z.testbit ins 25 = false) by (rewrite bit_25, E0; done).
    assert (Hc : carry_in s1 = fC a) by apply Hrep.
    assert (Hamt : shift_amount ins s1 = field ins 11 7).
    { unfold shift_amount. by rewrite E4, andb_false_r. }
    pose proof (field_reg ins 0) as F0. unfold arch_operand, plain_operand, shifter_carry.
    unfold arch_operand. rewrite E25, Hamt, Hc. cbn [orb].
    rewrite Hv by done. split; [done|]. split; [|done].
    pose proof (field_range ins 11 7 ltac:(lia)) as F. change (2 ^ (11 - 7 + 1)) with 32 in F.
    unfold operand_supported. by rewrite (proj2 (Z.leb_le _ 31)) by lia.
  - destruct (Z.eqb_spec (field ins 27 25) 1) as [E1|Hn1].
    + injection Hd as <- <- <- <- <-. rewrite E1. split; [done|]. split_and!; try done.
      intros s1 a (Hrep & Hv & _). assert (E25 : Z.testbit ins 25 = true) by (rewrite bit_25, E1; done).
      assert (Hc : carry_in s1 = fC a) by apply Hrep.
      unfold arch_operand, plain_operand, shifter_carry. by rewrite E25, Hc.
    + exfalso. unfold transfer in Hd. repeat case_match; done.
Qed.

(** The fields of a register number. *)
Lemma field_15_12 ins : 0 <= field ins 15 12 < 16.
Proof. apply (field_reg ins 12). Qed.
Lemma field_19_16 ins : 0 <= field ins 19 16 < 16.
Proof. apply (field_reg ins 16). Qed.

Section dp_exec.
Context (ins : Z) (a : arch) (s1 : machine) (o : operand2).
Context (Hi : is_u32 ins) (Hf : fetched s1 a) (Hplain : plain_operand ins s1 = true).
Context (Hop : arch_operand ins s1 = operand_of o a) (Hsc : shifter_carry ins s1 = stale_carry o a).

Let op := field ins 24 21.
Let rn := field ins 19 16.
Let rd := field ins 15 12.

Lemma fetched_ok : machine_ok s1.
Proof. apply Hf. Qed.
Lemma fetched_carry : carry_in s1 = fC a.
Proof. apply Hf. Qed.
Lemma fetched_value r : 0 <= r < 16 -> rval s1 r = value a r.
Proof. apply Hf. Qed.

Lemma dp_result_eq :
  arch_result op (rval s1 rn) (arch_operand ins s1).1 (carry_in s1) = dp_result op rn o a.
Proof. by rewrite Hop, fetched_carry, fetched_value by apply field_19_16. Qed.

(** Without the S bit. *)
Lemma exec_dp_plain :
  is_test op = false -> Z.testbit ins 20 = false ->
  exists s', arm_data_processing ins s1 = Ret 0 s' /\
    represents s' (set_R rd (dp_result op rn o a) (next a)).
Proof.
  intros Ht Hs. destruct (data_processing_ok s1 ins fetched_ok Hi Ht Hplain)
    as (s' & E & Hok' & Erd & Ereg & Ecpsr & _ & Em).
  specialize (Ecpsr Hs). exists s'. split; [done|]. fold op rn rd in Erd, Ereg. rewrite dp_result_eq in Erd.
  destruct Hf as [Hrep _]. assert (Emode : mode_of (regs s') = mode_of (regs s1)) by (unfold mode_of; by rewrite Ecpsr).
  destruct (Hrep) as (_ & Hmem & H4 & _ & Hfl). split; [done|]. rewrite Em. split; [done|]. split; [done|].
  split; [|unfold flag in *; by rewrite Ecpsr].
  apply (represents_set_R s1); try done. apply field_15_12.
Qed.

Lemma dp_mem s' : arm_data_processing ins s1 = Ret 0 s' -> mem s' = mem s1.
Proof.
  intros E. destruct (dp_run ins s1 fetched_ok Hi) as (s2 & E2 & Heq & _). rewrite E in E2.
  injection E2 as <-. rewrite (mem_proper _ _ Heq). apply (dp_state_ok ins s1 (proj1 fetched_ok)).
Qed.

(** The comparison of zero with zero leaves the carry that was there. *)
Lemma dp_flags_zero s' :
  arm_data_processing ins s1 = Ret 0 s' -> Z.testbit ins 20 = true -> restores_cpsr ins s1 = false ->
  is_arith op = true ->
  is_addition op (fC a) || is_subtraction op (fC a) && negb (value a rn =? 0) = false ->
  is_addition op (fC a) || is_subtraction op (fC a) &&
    (negb (value a rn =? 0) || ((operand_of o a).1 =? 0) && stale_carry o a) = true ->
  flag s' FLAG_C = arith_carry op rn o a /\ flag s' FLAG_V = arith_overflow op rn o a.
Proof.
  intros E Hs Hres Ha Hn Hcase. apply orb_false_iff in Hn as [Hadd Hn]. rewrite Hadd in Hcase. simpl in Hcase.
  destruct (is_subtraction op (fC a)) eqn:Hsub; [|done]. simpl in Hn, Hcase. rewrite Hn in Hcase. simpl in Hcase.
  apply negb_false_iff, Z.eqb_eq in Hn. apply andb_true_iff in Hcase as [Hy%Z.eqb_eq Hst].
  destruct (dp_flags_run s1 ins fetched_ok Hi Hs Hres Hplain) as (s2 & E2 & _ & _ & Hb).
  rewrite E in E2. injection E2 as <-. fold op rn in Hb. rewrite dp_result_eq in Hb.
  rewrite fetched_carry, fetched_value, Hop in Hb by apply field_19_16.
  unfold flag, arith_carry, arith_overflow, dp_result in *. rewrite !Hb by done. rewrite Hadd, Ha, Hsc, Hst, Hn, Hy.
  destruct (subtraction_case op 0 0 (fC a) Hsub) as (Er & _ & _ & -> & _). rewrite Er. done.
Qed.

(** The flags of the abstract machine. *)
Lemma dp_flags_eq s' :
  arm_data_processing ins s1 = Ret 0 s' -> Z.testbit ins 20 = true -> restores_cpsr ins s1 = false ->
  flags_supported op rn o a = true ->
  flag s' FLAG_N = Z.testbit (dp_result op rn o a) 31 /\ flag s' FLAG_Z = (dp_result op rn o a =? 0) /\
  flag s' FLAG_C = (if is_arith op then arith_carry op rn o a else (operand_of o a).2) /\
  flag s' FLAG_V = (if is_arith op then arith_overflow op rn o a else fV a).
Proof.
  intros E Hs Hres Hfs. unfold flag.
  destruct (dp_flags_run s1 ins fetched_ok Hi Hs Hres Hplain) as (s2 & E2 & _ & _ & Hb).
  rewrite E in E2. injection E2 as <-. fold op rn in Hb. rewrite dp_result_eq in Hb.
  split; [by rewrite Hb|]. split; [by rewrite Hb|]. unfold flags_supported in Hfs.
  destruct (is_arith op) eqn:Ha.
  - apply andb_true_iff in Hfs as [Hcase Himp].
    destruct (is_addition op (fC a) || is_subtraction op (fC a) && negb (value a rn =? 0)) eqn:Hnz; cycle 1.
    { by apply dp_flags_zero. }
    destruct (arithmetic_flags_ok s1 ins fetched_ok Hi Hs Hres Hplain) as (s2 & E2 & _ & _ & _ & EC & EV).
    { fold op rn. rewrite fetched_carry, fetched_value by apply field_19_16.
      apply orb_true_iff in Hnz as [?|[? ?%negb_true_iff%Z.eqb_neq]%andb_true_iff]; auto. }
    rewrite E in E2. injection E2 as <-. fold op rn in EC, EV.
    rewrite fetched_carry, fetched_value, Hop in EC, EV by apply field_19_16. rewrite Hsc in EC.
    fold (arith_carry op rn o a) in EC. fold (arith_overflow op rn o a) in EV.
    split; [|exact EV]. rewrite EC. by destruct (stale_carry o a), (arith_carry op rn o a).
  - rewrite !Hb by done. cbn [Z.eqb FLAG_C FLAG_N FLAG_Z FLAG_V Pos.eqb andb]. rewrite Hsc, orb_false_r.
    apply eqb_prop in Hfs. split; [done|]. apply Hf.
Qed.

(** With the S bit. *)
Lemma exec_dp_flags :
  Z.testbit ins 20 = true -> rd <> 15 -> flags_supported op rn o a = true ->
  exists s', arm_data_processing ins s1 = Ret 0 s' /\
    represents s' (with_flags op rn o a
      (if is_test op then next a else set_R rd (dp_result op rn o a) (next a))).
Proof.
  intros Hs Hrd Hfs.
  assert (Hres : restores_cpsr ins s1 = false).
  { unfold restores_cpsr. fold rd. by rewrite (proj2 (Z.eqb_neq _ _) Hrd), andb_false_r. }
  destruct (dp_flags_run s1 ins fetched_ok Hi Hs Hres Hplain) as (s' & E & Hok' & Htest & Hb).
  exists s'. split; [done|]. pose proof (dp_mem s' E) as Em.
  assert (Emode : mode_of (regs s') = mode_of (regs s1)).
  { apply mode_of_bits. intros i Hi28. rewrite Hb by lia. unfold FLAG_N, FLAG_Z, FLAG_C, FLAG_V.
    by rewrite !(proj2 (Z.eqb_neq _ _)) by lia. }
  destruct Hf as [Hrep _]. destruct (Hrep) as (_ & Hmem & H4 & _ & _).
  split; [done|]. rewrite Em. split; [rewrite Hmem; by destruct (is_test op)|]. split; [done|].
  split; [|by apply dp_flags_eq]. cbn [with_flags set_nzcv R]. destruct (is_test op) eqn:Ht.
  - apply (represents_same_R s1); auto.
  - destruct (data_processing_ok s1 ins fetched_ok Hi Ht Hplain) as (s2 & E2 & _ & Erd & Ereg & _).
    rewrite E in E2. injection E2 as <-. fold op rn rd in Erd, Ereg. rewrite dp_result_eq in Erd.
    apply (represents_set_R s1); try done. apply field_15_12.
Qed.
End dp_exec.

(** Data processing refines its description. *)
Lemma exec_dp_refines ins a s1 op sets rn rd o a' :
  fetched s1 a -> is_u32 ins -> decode ins = Some (DP op sets rn rd o) ->
  exec (DP op sets rn rd o) a = Next a' ->
  exists s', dispatch ins s1 = Ret 0 s' /\ represents s' a'.
Proof.
  intros Hf Hi Hd He. destruct (decode_dp ins op sets rn rd o Hd) as (-> & -> & -> & -> & -> & Ho).
  destruct (Ho s1 a Hf) as (Hop & Hp & Hsc). cbn [exec] in He.
  destruct (operand_supported o) eqn:Hos; [|done]. cbn [andb] in He.
  assert (Hgoal : exists s', arm_data_processing ins s1 = Ret 0 s' /\ represents s' a').
  { destruct (Z.testbit ins 20) eqn:Hs.
    - destruct (flags_supported _ _ _ _) eqn:Hfs; [|done].
      destruct (Z.eqb_spec (field ins 15 12) 15) as [|Hne]; [done|]. injection He as <-.
      by apply exec_dp_flags.
    - destruct (is_test (field ins 24 21)) eqn:Ht; [done|]. injection He as <-. by apply exec_dp_plain. }
  destruct Hgoal as (s' & E & Hrep). exists s'. by rewrite (bind_ret _ _ _ _ _ E).
Qed.

(** ** Branches *)

Lemma represents_upd_reg s b r v :
  represents s b -> 0 <= r < 16 -> is_u32 v -> represents (upd_reg r v s) (set_R r v b).
Proof.
  intros Hrep Hr Hv. destruct (Hrep) as ((Hrg & Hm & Hc & Ht) & Hmem & H4 & _ & Hf).
  pose proof (slot_range (mode_of (regs s)) r Hr) as [Hs Hs'].
  split; [split; [by apply regs_ok_upd_reg|done]|]. split; [done|]. split; [done|].
  split; [|unfold flag in *; by rewrite cpsr_upd_reg].
  apply (represents_set_R s); try done.
  - unfold upd_reg. simpl. by apply mode_of_aset.
  - unfold upd_reg. simpl. apply rget_aset_eq; [done|lia].
  - intros i Hi _. unfold upd_reg. simpl. by apply rget_aset_ne.
Qed.

Lemma exec_branch_refines ins a s1 link words a' :
  fetched s1 a -> decode ins = Some (Branches link words) -> R a 15 mod 4 = 0 ->
  exec (Branches link words) a = Next a' ->
  exists s', dispatch ins s1 = Ret 0 s' /\ represents s' a'.
Proof.
  intros Hf Hd Hal He. injection He as <-. destruct Hf as (Hrep & Hv & Hq).
  assert (Ht : field ins 27 25 = BRANCH /\ link = Z.testbit ins 24 /\ words = branch_words ins).
  { unfold decode, transfer in Hd. destruct (Z.eqb_spec (field ins 27 25) 5); [|by repeat case_match].
    repeat case_match; try lia; by injection Hd as <- <-. }
  destruct Ht as (Ht & -> & ->). rewrite dispatch_branch by done.
  rewrite (bind_ret _ _ _ _ _ (arm_branch_q ins s1 Hq ltac:(apply Hrep))).
  exists (branch_state ins s1). split; [done|]. unfold branch_state.
  assert (E15 : rval s1 15 = u32 (R a 15 + 8)) by (rewrite Hv by lia; done). rewrite E15, u32_add_l, u32_sub_l.
  set (s2 := if Z.testbit ins 24 then _ else s1).
  assert (H2 : represents s2 (if Z.testbit ins 24 then set_R 14 (u32 (R a 15 + 4)) (next a) else next a)).
  { subst s2. replace (R a 15 + 8 - 4) with (R a 15 + 4) by lia.
    destruct (Z.testbit ins 24); [|done]. apply represents_upd_reg; [done|lia|auto with crange]. }
  pose proof (represents_upd_reg s2 _ 15 (u32 (R a 15 + 8 + 4 * branch_words ins)) H2 ltac:(lia) (u32_range _)) as H3.
  eapply represents_proper; [reflexivity| |exact H3]. clear. destruct (Z.testbit ins 24); split; try done.
  all: intros r; unfold next, set_R; cbn [R]; destruct (Z.eqb_spec r 15), (Z.eqb_spec r 14); done || lia.
Qed.

(** ** Transfers *)

(** What the handler makes of the transfers that the decoder accepts. *)
Definition transfer_decoded (ins rd rn : Z) (o : offset) (pre wb : bool) : Prop :=
  dispatch ins = (arm_load_store ins ;;; ret 0) /\
  rd = field ins 15 12 /\ rn = field ins 19 16 /\ pre = Z.testbit ins 24 /\ wb = Z.testbit ins 21 /\
  ls_user ins = false /\
  (match o with Imm _ => True | Reg _ rm _ => 0 <= rm < 16 end) /\
  forall s, regs_ok (regs s) -> ls_offset ins s = u32 (offset_value o (rval s)).

Lemma indexed_user ins :
  Z.testbit ins 24 || negb (Z.testbit ins 21) = true -> ls_user ins = false.
Proof. unfold ls_user. by destruct (Z.testbit ins 24), (Z.testbit ins 21). Qed.

Lemma signed_offset (up : bool) n : is_u32 n -> (if up then n else u32 (- n)) = u32 (if up then n else - n).
Proof. intros. destruct up; [by rewrite u32_small|done]. Qed.

Lemma half_offset_range ins : is_u32 (field ins 11 8 * 16 + field ins 3 0).
Proof.
  pose proof (field_reg ins 8) as H8. pose proof (field_reg ins 0) as H0.
  change (8 + 3) with 11 in H8. change (0 + 3) with 3 in H0. unfold is_u32. lia.
Qed.

(** Half-word stores. *)
Lemma decode_half ins :
  field ins 27 25 = 0 -> Z.testbit ins 4 = true -> Z.testbit ins 7 = true ->
  Z.testbit ins 24 || negb (Z.testbit ins 21) = true ->
  is_half ins = true /\
  transfer_decoded ins (field ins 15 12) (field ins 19 16)
    (if Z.testbit ins 22 then Imm (if Z.testbit ins 23 then field ins 11 8 * 16 + field ins 3 0
                                   else - (field ins 11 8 * 16 + field ins 3 0))
     else Reg (Z.testbit ins 23) (field ins 3 0) 0)
    (Z.testbit ins 24) (Z.testbit ins 21).
Proof.
  intros E0 E4 E7 Hx. unfold is_half. rewrite E4, E7. split; [done|].
  assert (E25 : Z.testbit ins 25 = false) by (rewrite bit_25, E0; done).
  assert (E26 : Z.testbit ins 26 = false) by (rewrite bit_26, E0; done).
  unfold transfer_decoded, dispatch. rewrite type_field, E0, !bit_at, E4, E7 by lia.
  do 5 (split; [done|]). split; [by apply indexed_user|]. split; [destruct (Z.testbit ins 22); [done|apply (field_reg ins 0)]|].
  intros s Hs. unfold ls_offset. rewrite E25, E26. destruct (Z.testbit ins 22); cbn [offset_value].
  - apply signed_offset, half_offset_range.
  - rewrite Z.shiftl_0_r, (u32_small (rval s _)) by auto with crange. apply signed_offset. auto with crange.
Qed.

(** Word and byte transfers. *)
Lemma decode_immediate ins :
  field ins 27 25 = 2 -> Z.testbit ins 24 || negb (Z.testbit ins 21) = true ->
  transfer_decoded ins (field ins 15 12) (field ins 19 16)
    (Imm (if Z.testbit ins 23 then field ins 11 0 else - field ins 11 0)) (Z.testbit ins 24) (Z.testbit ins 21).
Proof.
  intros E2 Hx. unfold transfer_decoded, dispatch. rewrite type_field, E2.
  do 5 (split; [done|]). split; [by apply indexed_user|]. split; [done|]. intros s Hs. unfold ls_offset.
  assert (E25 : Z.testbit ins 25 = false) by (rewrite bit_25, E2; done).
  assert (E26 : Z.testbit ins 26 = true) by (rewrite bit_26, E2; done). rewrite E25, E26.
  apply signed_offset, field_is_u32; lia.
Qed.

Lemma decode_register ins :
  field ins 27 25 = 3 -> Z.testbit ins 4 = false -> field ins 6 5 = 0 ->
  Z.testbit ins 24 || negb (Z.testbit ins 21) = true ->
  is_half ins = false /\
  transfer_decoded ins (field ins 15 12) (field ins 19 16)
    (Reg (Z.testbit ins 23) (field ins 3 0) (field ins 11 7)) (Z.testbit ins 24) (Z.testbit ins 21).
Proof.
  intros E3 E4 E65 Hx. unfold is_half. rewrite E4, andb_false_r. split; [done|].
  unfold transfer_decoded, dispatch. rewrite type_field, E3.
  do 5 (split; [done|]). split; [by apply indexed_user|]. split; [apply (field_reg ins 0)|].
  intros s Hs. unfold ls_offset. assert (E25 : Z.testbit ins 25 = true) by (rewrite bit_25, E3; done).
  rewrite E25. unfold operand, shift_amount. rewrite E4, E65, andb_false_r. cbn [Z.eqb fst offset_value].
  pose proof (field_range ins 11 7 ltac:(lia)) as F. change (2 ^ (11 - 7 + 1)) with 32 in F.
  rewrite shl32_ok by lia. apply signed_offset, u32_range.
Qed.

Lemma decode_load ins rd rn o pre wb :
  decode ins = Some (Load rd rn o pre wb) ->
  transfer_decoded ins rd rn o pre wb /\ Z.testbit ins 20 = true /\ is_word ins = true.
Proof.
  intros Hd. unfold decode, transfer in Hd. unfold is_word, is_byte.
  destruct (Z.eqb_spec (field ins 27 25) 0); [by repeat case_match|].
  destruct (Z.eqb_spec (field ins 27 25) 1); [done|].
  destruct (Z.eqb_spec (field ins 27 25) 2) as [E2|].
  - destruct (is_half ins) eqn:Hhalf; [done|]. destruct (Z.testbit ins 24 || _) eqn:Hx; [|done].
    cbn [negb andb] in Hd. destruct (Z.testbit ins 20) eqn:E20; [|done].
    destruct (Z.testbit ins 22) eqn:E22; [done|]. injection Hd as <- <- <- <- <-.
    split; [by apply decode_immediate|done].
  - destruct (Z.eqb_spec (field ins 27 25) 3) as [E3|]; [|by repeat case_match].
    destruct (Z.testbit ins 4) eqn:E4; [done|]. destruct (Z.eqb_spec (field ins 6 5) 0); [|done].
    destruct (Z.testbit ins 24 || _) eqn:Hx; [|done]. cbn [negb andb] in Hd.
    destruct (Z.testbit ins 20) eqn:E20; [|done]. destruct (Z.testbit ins 22) eqn:E22; [done|].
    injection Hd as <- <- <- <- <-. destruct (decode_register ins) as [-> ?]; done.
Qed.

Lemma decode_store ins w rd rn o pre wb :
  decode ins = Some (Store w rd rn o pre wb) ->
  transfer_decoded ins rd rn o pre wb /\ Z.testbit ins 20 = false /\
  w = (if is_half ins then Half else if is_byte ins then Byte else Word).
Proof.
  intros Hd. unfold decode, transfer in Hd. unfold is_byte.
  destruct (Z.eqb_spec (field ins 27 25) 0) as [E0|].
  { destruct (Z.testbit ins 4) eqn:E4; [|done]. destruct (Z.testbit ins 7) eqn:E7; [|done].
    destruct (field ins 6 5 =? 1); [|done]. destruct (Z.testbit ins 20) eqn:E20; [done|].
    destruct (Z.testbit ins 24 || _) eqn:Hx; [|done]. cbn [negb andb] in Hd. injection Hd as <- <- <- <- <- <-.
    destruct (decode_half ins) as [-> ?]; done. }
  destruct (Z.eqb_spec (field ins 27 25) 1); [done|].
  destruct (Z.eqb_spec (field ins 27 25) 2) as [E2|].
  - destruct (is_half ins) eqn:Hhalf; [done|]. destruct (Z.testbit ins 24 || _) eqn:Hx; [|done].
    cbn [negb andb] in Hd. destruct (Z.testbit ins 20) eqn:E20; [by destruct (Z.testbit ins 22)|].
    injection Hd as <- <- <- <- <- <-. split; [by apply decode_immediate|done].
  - destruct (Z.eqb_spec (field ins 27 25) 3) as [E3|]; [|by repeat case_match].
    destruct (Z.testbit ins 4) eqn:E4; [done|]. destruct (Z.eqb_spec (field ins 6 5) 0); [|done].
    destruct (Z.testbit ins 24 || _) eqn:Hx; [|done]. cbn [negb andb] in Hd.
    destruct (Z.testbit ins 20) eqn:E20; [by destruct (Z.testbit ins 22)|].
    injection Hd as <- <- <- <- <- <-. destruct (decode_register ins) as [-> ?]; done.
Qed.

Lemma represents_alloc s b : represents s b -> represents (alloc s) b.
Proof. done. Qed.

Lemma represents_set_mem s b mm :
  represents s b -> mem_ok mm -> size mm = size (mem s) -> represents (set_mem mm s) (set_ram mm b).
Proof.
  intros ((Hr & _ & Hc) & _ & H4 & HR & Hf) Hm Hs. split; [done|]. split; [done|].
  split; [by rewrite <- Hs in H4|done].
Qed.

(** The offset and the address after the fetch. *)
Lemma offset_fetched ins a s1 rd rn o pre wb :
  transfer_decoded ins rd rn o pre wb -> fetched s1 a ->
  offset_value o (rval s1) = offset_value o (value a).
Proof. intros (_ & _ & _ & _ & _ & _ & Hrm & _) (_ & Hv & _). destruct o; cbn; [done|]. by rewrite Hv. Qed.

Lemma address_fetched ins a s1 rd rn o pre wb :
  transfer_decoded ins rd rn o pre wb -> fetched s1 a -> ls_address ins s1 = transfer_address rn o pre a.
Proof.
  intros Ht Hf. pose proof (offset_fetched _ _ _ _ _ _ _ _ Ht Hf) as Eo.
  destruct Ht as (_ & _ & -> & -> & _ & _ & _ & Ho), Hf as ((Hok & _) & Hv & _).
  unfold ls_address, transfer_address, new_rn.
  by rewrite (Hv _ (field_19_16 ins)), Ho, Eo, u32_add_r by apply Hok.
Qed.

(** The base register after a transfer. *)
Lemma represents_writeback ins a s1 s2 b rd rn o pre wb :
  transfer_decoded ins rd rn o pre wb -> fetched s1 a -> represents s2 b ->
  (pre = false -> offset_value o (rval s2) = offset_value o (value a)) ->
  represents (writeback_state ins (ls_address ins s1) s2) (base_update pre wb rn (new_rn rn o a) b).
Proof.
  intros Ht Hf Hrep2 Eo. rewrite (address_fetched _ _ _ _ _ _ _ _ Ht Hf).
  destruct Ht as (_ & _ & -> & -> & -> & _ & _ & Ho).
  unfold writeback_state, base_update, writes_rn, transfer_address.
  destruct (Z.testbit ins 24); cbn [negb orb].
  - destruct (Z.testbit ins 21); [|done]. apply represents_upd_reg; [done|apply field_19_16|apply u32_range].
  - rewrite Ho, Eo, u32_add_r by (done || apply Hrep2).
    apply represents_upd_reg; [done|apply field_19_16|apply u32_range].
Qed.

Lemma put_ok w mm p v : mem_ok mm -> mem_ok (put w mm p v) /\ size (put w mm p v) = size mm.
Proof. intros Hm. destruct w; (split; [simpl; auto with crange|done]). Qed.

Lemma mem_store_ok ins mm p v :
  mem_ok mm -> size mm mod 4 = 0 -> is_u32 v ->
  let w := if is_half ins then Half else if is_byte ins then Byte else Word in
  0 <= p < size mm -> p mod width_bytes w = 0 ->
  mem_store (is_half ins) (is_byte ins) p v mm = Ret 0 (put w mm p v).
Proof.
  intros Hm H4 Hv w Hp Hal. destruct (Hm) as (_ & Hl & _). subst w. unfold mem_store.
  destruct (is_half ins); [|destruct (is_byte ins)]; cbn [put width_bytes] in *.
  - apply memory_write_half_ok; auto with crange. Z.to_euclidean_division_equations. lia.
  - by apply memory_write_byte_ok.
  - apply memory_write_word_ok; auto with crange. Z.to_euclidean_division_equations. lia.
Qed.

Lemma transfer_address_range rn o pre a s1 :
  fetched s1 a -> 0 <= rn < 16 -> is_u32 (transfer_address rn o pre a).
Proof.
  intros ((Hok & _) & Hv & _) Hrn. unfold transfer_address. destruct pre; [apply u32_range|].
  rewrite <- Hv by done. apply rval_range, Hok.
Qed.

Lemma exec_store_refines ins a s1 w rd rn o pre wb a' :
  fetched s1 a -> is_u32 ins -> decode ins = Some (Store w rd rn o pre wb) ->
  exec (Store w rd rn o pre wb) a = Next a' ->
  exists s', dispatch ins s1 = Ret 0 s' /\ represents s' a'.
Proof.
  intros Hf Hi Hd He. destruct (decode_store _ _ _ _ _ _ _ Hd) as (Ht & H20 & ->).
  pose proof (address_fetched _ _ _ _ _ _ _ _ Ht Hf) as Ea. destruct (Ht) as (-> & Hrd & Hrn & _ & _ & Hu & _).
  destruct (Hf) as (Hrep & Hv & _). destruct (Hrep) as (Hok & Hmem & H4 & _).
  change (ram (next a)) with (ram a) in Hmem. cbn [exec] in He. rewrite <- Ea, <- Hmem in He.
  set (w := if is_half ins then Half else if is_byte ins then Byte else Word) in *.
  destruct (Z.eqb_spec (ls_address ins s1 mod width_bytes w) 0) as [Hal|]; [|done].
  destruct (Z.ltb_spec (ls_address ins s1) (size (mem s1))) as [Hlt|]; [|done].
  destruct (base_supported _ _ _ _); [|done]. injection He as <-.
  assert (Hp : is_u32 (ls_address ins s1)).
  { rewrite Ea. apply (transfer_address_range _ _ _ _ s1 Hf). rewrite Hrn. apply field_19_16. }
  assert (Ev : stored_value ins s1 = value a rd).
  { unfold stored_value. rewrite Hu, Hrd. apply Hv, field_15_12. }
  destruct (put_ok w (mem s1) (ls_address ins s1) (value a rd) ltac:(apply Hok)) as [Hmm Hsz].
  destruct (store_run ins 0 (put w (mem s1) (ls_address ins s1) (value a rd)) s1 Hok Hi H20)
    as (s' & E & Heq & Hok'); [|done|].
  { rewrite Ev. unfold is_u32 in Hp. apply mem_store_ok; try done; [apply Hok| |lia].
    rewrite <- Ev. apply stored_value_range, Hok. }
  exists s'. split; [by rewrite (bind_ret _ _ _ _ _ E)|]. eapply represents_equiv; [|exact Heq|done].
  apply (represents_writeback ins a s1 _ _ rd rn o pre wb Ht Hf).
  - by apply represents_set_mem.
  - intros _. by apply (offset_fetched ins a s1 rd rn o pre wb).
Qed.

Lemma exec_load_refines ins a s1 rd rn o pre wb a' :
  fetched s1 a -> is_u32 ins -> decode ins = Some (Load rd rn o pre wb) ->
  exec (Load rd rn o pre wb) a = Next a' ->
  exists s', dispatch ins s1 = Ret 0 s' /\ represents s' a'.
Proof.
  intros Hf Hi Hd He. destruct (decode_load _ _ _ _ _ _ Hd) as (Ht & H20 & Hw).
  pose proof (address_fetched _ _ _ _ _ _ _ _ Ht Hf) as Ea.
  destruct (Ht) as (-> & Hrd & Hrn & _ & _ & Hu & Hrm & _).
  destruct (Hf) as (Hrep & Hv & _). destruct (Hrep) as (Hok & Hmem & H4 & _).
  change (ram (next a)) with (ram a) in Hmem. cbn [exec] in He. rewrite <- Ea, <- Hmem in He.
  destruct (Z.eqb_spec (ls_address ins s1 mod 4) 0) as [Hal|]; [|done].
  destruct (Z.ltb_spec (ls_address ins s1) (size (mem s1))) as [Hlt|]; [|done].
  destruct (Z.eqb_spec rd 15) as [|H15]; [done|]. destruct (base_supported _ _ _ _); [|done].
  destruct (offset_kept pre o rd) eqn:Hk; [|done]. injection He as <-.
  assert (Hp : is_u32 (ls_address ins s1)).
  { rewrite Ea. apply (transfer_address_range _ _ _ _ s1 Hf). rewrite Hrn. apply field_19_16. }
  pose proof (field_15_12 ins) as Fd. rewrite <- Hrd in Fd. unfold is_u32 in Hp.
  assert (Hroom : ls_address ins s1 + 3 < Z.of_nat (length (m (mem s1)))).
  { apply word_addr_room; [apply Hok|]. split_and!; done || lia. }
  set (v := word_at (mem s1) (ls_address ins s1)).
  assert (Hvr : is_u32 v) by (apply word_at_range, Hok).
  unfold is_word in Hw. apply andb_true_iff in Hw as [Hhf%negb_true_iff Hb%negb_true_iff].
  destruct (load_run ins v s1 Hok Hi Hvr H20) as (s' & E & Heq & Hok').
  { rewrite Hhf, Hb. unfold mem_load.
    rewrite (bind_ret _ _ _ _ _ (memory_read_word_ok (mem s1) (ls_address ins s1) (val0 s1) ltac:(apply Hok) ltac:(lia) Hroom)).
    done. }
  exists s'. split; [by rewrite (bind_ret _ _ _ _ _ E)|]. eapply represents_equiv; [|exact Heq|done].
  unfold load_state, loaded_value. rewrite Hu, <- Hrd, (proj2 (Z.eqb_neq _ _) H15).
  apply (represents_writeback ins a s1 _ _ rd rn o pre wb Ht Hf).
  - by apply represents_upd_reg.
  - intros ->. rewrite <- (offset_fetched ins a s1 rd rn o false wb Ht Hf).
    destruct o as [n|up rm n]; [done|]. cbn [offset_value offset_kept orb] in *.
    apply negb_true_iff, Z.eqb_neq in Hk. by rewrite rval_upd_reg_ne by (done || congruence).
Qed.

(** ** Multiple transfers *)

Lemma decode_multiple ins load up pre wb rn rl :
  decode ins = Some (Multiple load up pre wb rn rl) ->
  dispatch ins = (arm_load_store_multiple ins ;;; ret 0) /\
  load = Z.testbit ins 20 /\ up = Z.testbit ins 23 /\ pre = Z.testbit ins 24 /\ wb = Z.testbit ins 21 /\
  rn = field ins 19 16 /\ rl = register_list ins.
Proof.
  intros Hd. unfold decode, transfer in Hd.
  destruct (Z.eqb_spec (field ins 27 25) 4) as [E4|]; [|by repeat case_match].
  unfold dispatch. rewrite type_field, E4 in *. cbn [Z.eqb Pos.eqb] in Hd.
  destruct (Z.testbit ins 22); [done|]. by injection Hd as <- <- <- <- <- <-.
Qed.

#[local] Transparent register_list.
Lemma register_list_eq ins : register_list ins = lsm_regs ins.
Proof. reflexivity. Qed.
#[local] Opaque register_list lsm_regs.

Lemma lsm_bytes_eq ins : 4 * Z.of_nat (length (lsm_regs ins)) = lsm_bytes ins.
Proof. reflexivity. Qed.

Lemma store_list_eq rl p f g mm :
  (forall r, In r rl -> f r = g r) -> stm_mem rl p f mm = store_list rl p g mm.
Proof.
  revert p mm. induction rl as [|r rl IH]; intros p mm Hfg; simpl; [done|].
  rewrite Hfg by by left. apply IH. intros. apply Hfg. by right.
Qed.

Lemma even_address v : v mod 4 = 0 -> is_u32 v -> Z.land v 0xFFFFFFFE = v.
Proof.
  intros H4 Hv. unfold is_u32 in Hv.
  assert (E : v = Z.shiftl (v / 2) 1).
  { rewrite Z.shiftl_mul_pow2 by lia. Z.to_euclidean_division_equations. lia. }
  change 0xFFFFFFFE with (Z.shiftl (Z.ones 31) 1). rewrite E at 1. rewrite <- Z.shiftl_land, Z.land_ones by lia.
  rewrite Z.mod_small; [done|]. change (2 ^ 31) with 2147483648. Z.to_euclidean_division_equations. lia.
Qed.

Lemma represents_ldm rl p s b :
  represents s b -> (forall r, In r rl -> 0 <= r < 16) -> pc_aligned rl p (ram b) = true ->
  represents (ldm_state rl p s) (load_list rl p b).
Proof.
  revert p s b. induction rl as [|r rl IH]; intros p s b Hrep Hrl Hpc; simpl; [done|].
  cbn [pc_aligned] in Hpc. apply andb_true_iff in Hpc as [Hr Hpc].
  assert (Hv : is_u32 (word_at (mem s) p)) by (apply word_at_range, Hrep).
  assert (Ew : lsm_word r (word_at (mem s) p) = word_at (ram b) p).
  { destruct Hrep as (_ & Em & _). rewrite <- Em in *. unfold lsm_word. destruct (r =? 15); [|done].
    cbn [negb orb] in Hr. apply even_address; [by apply Z.eqb_eq|done]. }
  rewrite Ew. apply IH; [|intros; apply Hrl; by right|done].
  apply represents_upd_reg; [done|apply Hrl; by left|]. destruct Hrep as (_ & <- & _). done.
Qed.

Lemma exec_multiple_refines ins a s1 load up pre wb rn rl a' :
  fetched s1 a -> is_u32 ins -> decode ins = Some (Multiple load up pre wb rn rl) ->
  exec (Multiple load up pre wb rn rl) a = Next a' ->
  exists s', dispatch ins s1 = Ret 0 s' /\ represents s' a'.
Proof.
  intros (Hrep & Hv & _) Hi Hd He. destruct (decode_multiple _ _ _ _ _ _ _ Hd) as (-> & El & Eu & Ep & Ew & En & ->).
  destruct (Hrep) as (Hok & Hmem & H4 & _). change (ram (next a)) with (ram a) in Hmem.
  pose proof (field_19_16 ins) as Fn. rewrite <- En in Fn.
  cbn [exec] in He. rewrite register_list_eq, lsm_bytes_eq in He.
  assert (Elow : multiple_low up pre (value a rn) (lsm_bytes ins) = lsm_low ins s1).
  { unfold multiple_low, lsm_low. by rewrite <- En, (Hv rn Fn), Eu, Ep. }
  assert (Ebase : multiple_base up (value a rn) (lsm_bytes ins) = lsm_base ins s1).
  { unfold multiple_base, lsm_base. by rewrite <- En, (Hv rn Fn), Eu. }
  rewrite Elow, Ebase in He.
  destruct (bool_decide_reflect (lsm_regs ins = [])) as [|Hne]; [done|].
  destruct (Z.eqb_spec (lsm_low ins s1 mod 4) 0) as [Hal|]; [|done].
  destruct (Z.leb_spec (lsm_low ins s1 + lsm_bytes ins) (size (ram a))) as [Hsz|]; [|done].
  rewrite <- Hmem in Hsz. assert (Hroom : lsm_room ins s1) by done.
  destruct (rn =? 15); [done|]. destruct (wb && _); [done|]. cbn [negb andb] in He.
  assert (Hwb : forall s2 b, represents s2 b ->
    represents (lsm_writeback ins (lsm_base ins s1) s2) (if wb then set_R rn (lsm_base ins s1) b else b)).
  { intros s2 b H2. unfold lsm_writeback. rewrite <- Ew, <- En. destruct wb; [|done].
    apply represents_upd_reg; [done|done|apply u32_range]. }
  destruct load.
  - destruct (pc_aligned _ _ _) eqn:Hpc; [|done]. injection He as <-.
    destruct (ldm_run ins s1 Hok Hi (eq_sym El) Hroom) as (s' & E & Hok' & Heq).
    exists s'. split; [by rewrite (bind_ret _ _ _ _ _ E)|]. eapply represents_equiv; [|exact Heq|done].
    apply Hwb, represents_ldm; [done| |done]. intros r Hr. by apply lsm_regs_range in Hr as [? _].
  - injection He as <-. destruct (stm_run ins s1 Hok Hi (eq_sym El) Hroom Hal) as (s' & E & Hok' & Heq).
    exists s'. split; [by rewrite (bind_ret _ _ _ _ _ E)|]. eapply represents_equiv; [|exact Heq|done].
    apply Hwb. rewrite <- (store_list_eq _ _ (rval s1) (value a)), <- Hmem.
    + destruct (stm_mem_ok (lsm_regs ins) (lsm_low ins s1) (rval s1) (mem s1)) as (? & ? & _); [apply Hok|].
      by apply represents_set_mem.
    + intros r Hr. apply Hv. by apply lsm_regs_range in Hr as [? _].
Qed.

(** ** Software interrupts *)

Lemma decode_swi ins s :
  is_u32 ins -> decode ins = Some (Swi 0x123456) -> dispatch ins s = Exit 0 s.
Proof.
  intros Hi Hd.
  assert (Ht : field ins 27 25 = COPROCESSOR_OTHERS_SWI /\ Z.testbit ins 24 = true /\ field ins 23 0 = 0x123456).
  { unfold decode, transfer in Hd. destruct (Z.eqb_spec (field ins 27 25) 7) as [E7|]; [|by repeat case_match].
    rewrite E7 in Hd. cbn [Z.eqb Pos.eqb] in Hd. destruct (Z.testbit ins 24); [|done].
    split; [done|]. split; [done|]. congruence. }
  destruct Ht as (Ht & H24 & Hn). rewrite dispatch_swi by done. unfold arm_coprocessor_others_swi.
  rewrite get_bit_testbit, nz_b2z, H24 by (done || lia).
  change 0xFFFFFF with (Z.ones (23 + 1)). rewrite land_ones_field by lia. by rewrite Hn.
Qed.

(** ** The step *)

(** What the simulator does for the outcome [o] of a step. *)
Definition refines (r : res machine Z) (o : outcome) : Prop :=
  match o with
  | Next a => exists s, r = Ret 0 s /\ represents s a
  | Halt a => exists s s1, r = Exit 0 s /\ s ≡ s1 /\ represents s1 a
  | Unsupported => True
  end.

(** The instruction [ins] run after the fetch. *)
Lemma exec_refines ins a s1 i a' :
  fetched s1 a -> is_u32 ins -> R a 15 mod 4 = 0 -> decode ins = Some i -> exec i a = Next a' ->
  exists s', dispatch ins s1 = Ret 0 s' /\ represents s' a'.
Proof.
  intros Hf Hi Hal Hd He. destruct i as [op sets rn rd o|link words|rd rn o pre wb|w rd rn o pre wb|load up pre wb rn rl|n].
  - by eapply exec_dp_refines.
  - by eapply exec_branch_refines.
  - by eapply exec_load_refines.
  - by eapply exec_store_refines.
  - by eapply exec_multiple_refines.
  - simpl in He. by destruct (n =? 0x123456).
Qed.

Lemma step_halts s a ins n :
  represents s a -> instruction_at s (R a 15) ins -> passes (field ins 31 28) s = true ->
  decode ins = Some (Swi n) -> n = 0x123456 ->
  exists s' s1, arm_step s = Exit 0 s' /\ s' ≡ s1 /\ represents s1 (next a).
Proof.
  intros Hrep Hins Hp Hd ->. destruct (Hrep) as (Hok & _). destruct (Hok) as (Hr & _ & _ & Ht).
  destruct (instruction_at_fetch s _ ins (val0 s) Hok Hins) as (Ef & Hi & Er & _).
  assert (E : arm_step (hush s) = Exit 0 (fetch_state (alloc (hush s)))).
  { unfold arm_step. apply bind_exit.
    rewrite (execute_q (hush s) ins); [|done..| by change (fetch_address (hush s)) with (fetch_address s); rewrite Ef].
    change (passes _ (hush s)) with (passes (field ins 31 28) s). rewrite Hp. by apply decode_swi. }
  destruct (transparent_run_exit _ _ _ _ _ arm_step_transparent Ht E) as (s' & E' & Heq).
  exists s', (fetch_state (alloc (hush s))). split; [done|]. split; [done|].
  by destruct (fetch_fetched s a ins Hrep Hins).
Qed.

Lemma step_skipped s a ins :
  represents s a -> instruction_at s (R a 15) ins -> passes (field ins 31 28) s = false ->
  exists s', arm_step s = Ret 0 s' /\ represents s' (next a).
Proof.
  intros Hrep Hins Hp. destruct (Hrep) as (Hok & _). destruct (Hok) as (Hr & _).
  destruct (instruction_at_fetch s _ ins (val0 s) Hok Hins) as (Ef & Hi & Er & _).
  destruct (fetch_fetched s a ins Hrep Hins) as (Hf & _). destruct (Hf) as (Hok1 & _).
  destruct (step_run 0 s (fetch_state (alloc (hush s))) Hok) as (s' & E & Heq & Hok'); [|apply Hok1..|].
  { apply (step_skip_q (hush s) ins); try done. by change (fetch_address (hush s)) with (fetch_address s); rewrite Ef. }
  exists s'. split; [done|]. by eapply represents_equiv.
Qed.

Lemma isa_step_ok s a : represents s a -> refines (arm_step s) (astep a).
Proof.
  intros Hrep. unfold astep.
  destruct (Z.eqb_spec (R a 15 mod 4) 0) as [Hal|]; [|done].
  destruct (Z.leb_spec 0 (R a 15)) as [Hge|]; [|done].
  destruct (Z.ltb_spec (R a 15) (size (ram a))) as [Hlt|]; [|done]. cbn [andb].
  pose proof (fetch_represents s a Hrep Hal Hge Hlt) as Hins. set (ins := word_at (ram a) (R a 15)) in *.
  destruct (decode ins) as [i|] eqn:Hd; [|done].
  pose proof (field_reg ins 28) as F28. change (28 + 3) with 31 in F28.
  destruct (Z.eqb_spec (field ins 31 28) 15) as [|Hc]; [done|].
  pose proof (passes_holds s a (field ins 31 28) Hrep ltac:(lia)) as Hp.
  destruct (holds (field ins 31 28) a); [|by apply step_skipped with ins].
  destruct (instruction_at_fetch s _ ins 0 ltac:(apply Hrep) Hins) as (_ & Hi & _).
  destruct (exec i a) as [a'|a'|] eqn:He; [| |done].
  - destruct (exec_refines ins a _ i a' (fetch_fetched s a ins Hrep Hins) Hi Hal Hd He) as (s1 & E & Hrep1).
    destruct (step_executed s a ins s1 Hrep Hins Hp E ltac:(apply Hrep1)) as (s' & E' & Heq & Hok').
    exists s'. split; [done|]. by eapply represents_equiv.
  - assert (Hi' : exists n, i = Swi n /\ n = 0x123456).
    { destruct i as [| | | | |n]; cbn [exec] in He; try by repeat case_match.
      exists n. split; [done|]. by destruct (Z.eqb_spec n 0x123456). }
    destruct Hi' as (n & -> & Hn). simpl in He. rewrite (proj2 (Z.eqb_eq _ _) Hn) in He. injection He as <-.
    by eapply step_halts.
Qed.

(** [n] steps of the simulator. *)
Fixpoint arm_steps (n : nat) : M machine Z :=
  match n with
  | O => ret 0
  | S n' => arm_step ;;; arm_steps n'
  end.

Lemma isa_run_ok n s a : represents s a -> refines (arm_steps n s) (arun n a).
Proof.
  revert s a. induction n as [|n IH]; intros s a Hrep; cbn [arm_steps arun]; [by exists s|].
  pose proof (isa_step_ok s a Hrep) as Hstep. destruct (astep a) as [a'|a'|]; simpl in Hstep |- *; [| |done].
  - destruct Hstep as (s' & E & Hrep'). rewrite (bind_ret _ _ _ _ _ E). by apply IH.
  - destruct Hstep as (s' & s1 & E & ? & ?). exists s', s1. split; [by apply bind_exit|done].
Qed.

(** The abstract state of a machine. *)
Definition abstract (s : machine) : arch :=
  Arch (fun r => rget (regs s) (slot (mode_of (regs s)) r))
    (flag s FLAG_N) (flag s FLAG_Z) (flag s FLAG_C) (flag s FLAG_V) (mem s).

Lemma represents_abstract s : machine_ok s -> size (mem s) mod 4 = 0 -> represents s (abstract s).
Proof. intros Hok H4. split; [done|]. by split_and!. Qed.

Lemma represents_value s a r : represents s a -> 0 <= r < 15 -> rval s r = R a r.
Proof.
  intros (_ & _ & _ & HR & _) Hr. rewrite <- HR by lia. unfold rval. by rewrite (proj2 (Z.eqb_neq r 15)) by lia.
Qed.

(** C2: The simulator implements the instruction set.  From a machine that
    represents a state of the abstract machine, a step of the simulator gives a
    machine that represents the next state, and the simulator exits with status 0
    in the final state when the program ends; and so for any number of steps.  Nothing is said of a
    step that the description leaves out ([Unsupported]). *)
Theorem isa_refinement s a n :
  represents s a -> refines (arm_step s) (astep a) /\ refines (arm_steps n s) (arun n a).
Proof. intros Hrep. split; [by apply isa_step_ok|by apply isa_run_ok]. Qed.
End refinement.

(** ** Witnesses *)

(** B 0x8 *)
Lemma isa_refinement_witness :
  exists s', arm_step (H := host0) machine_b = Ret 0 s' /\ rval s' 14 = rval machine_b 14 /\ pc_of s' = 8.
Proof.
  destruct (isa_refinement (Hh := host0) machine_b (abstract machine_b) 1
              (represents_abstract machine_b (proj1 machine_b_ok) eq_refl)) as [H1 _].
  assert (E : astep (abstract machine_b) = Next (set_R 15 8 (abstract machine_b))) by (vm_compute; reflexivity).
  rewrite E in H1. destruct H1 as (s' & H1 & H2). exists s'. split; [exact H1|].
  split; [rewrite (represents_value s' _ 14 H2) by lia; vm_compute; reflexivity|].
  destruct H2 as (_ & _ & _ & HR & _). specialize (HR 15 ltac:(lia)). rewrite slot_15 in HR. exact HR.
Defined.
