(* ===== verification/Programs.v ===== *)
(** * Whole programs in the simulator

    The assembly programs of the examples as the words they assemble to, wherever they
    are loaded (the linker script of the examples puts them at 0x20).  They are verified
    on the abstract machine of [Isa]; the refinement carries the results over to the
    simulator.  This file has what programs share and [example6.s], which computes a
    factorial by repeated addition; [Examples] has the others. *)
From S2P Require Import Prelude CInt Constants Memory Registers Format Trace Core CoreFacts Exception Branch Shifter DataProcessing LoadStore Safety Instruction Isa.
From Stdlib Require Import Factorial.

#[local] Open Scope Z_scope.

(** ** Programs *)

(** The words of a program and its instructions with their conditions. *)
Record program : Type := Program {
  code : list Z;
  asm : list (Z * instr);
  assembled : (fun w => (field w 31 28, decode w)) <$> code = (fun ci => (ci.1, Some ci.2)) <$> asm;
}.

(** The program is in the memory from the address [base] on. *)
Definition loaded (base : Z) (p : program) (a : arch) : Prop :=
  0 <= base /\ base mod 4 = 0 /\ base + 4 * Z.of_nat (length (code p)) < 2 ^ 32 /\
  base + 4 * Z.of_nat (length (code p)) <= size (ram a) /\
  forall k w, code p !! k = Some w -> word_at (ram a) (base + 4 * Z.of_nat k) = w.

Lemma loaded_same base p a b : loaded base p a -> ram b = ram a -> loaded base p b.
Proof. intros H E. unfold loaded. by rewrite E. Qed.

Lemma loaded_bounds base p a : loaded base p a -> 0 <= base /\ base + 4 * Z.of_nat (length (code p)) < 2 ^ 32.
Proof. by intros (? & _ & ? & _). Qed.

(** ** Runs *)

Definition runs (a b : arch) : Prop := exists n, arun n a = Next b.

(** The program ends in the state [c]. *)
Definition halts (a c : arch) : Prop := exists b, runs a b /\ astep b = Halt c.

Lemma runs_refl a : runs a a.
Proof. by exists 0%nat. Qed.

Lemma runs_step a a' b : astep a = Next a' -> runs a' b -> runs a b.
Proof. intros E [n En]. exists (S n). simpl. by rewrite E. Qed.

Lemma arun_app n m a b : arun n a = Next b -> arun (n + m) a = arun m b.
Proof.
  revert a. induction n as [|n IH]; intros a E; simpl in *; [by injection E as <-|].
  destruct (astep a); try done. by apply IH.
Qed.

Lemma runs_trans a b c : runs a b -> runs b c -> runs a c.
Proof. intros [n En] [m Em]. exists (n + m)%nat. by rewrite (arun_app n m a b). Qed.

Lemma runs_halts a b c : runs a b -> halts b c -> halts a c.
Proof. intros Hr (b' & Hr' & Hc). exists b'. split; [by eapply runs_trans|done]. Qed.

(** ** The instructions of a program *)

(** The step at instruction [k]. *)
Lemma step_asm base p a k c i :
  loaded base p a -> R a 15 = base + 4 * Z.of_nat k -> asm p !! k = Some (c, i) ->
  astep a = if c =? 15 then Unsupported else if holds c a then exec i a else Next (next a).
Proof.
  intros (Hb & H4 & _ & Hs & Hw) Hp Hk. pose proof (f_equal (.!! k) (assembled p)) as E.
  rewrite !list_lookup_fmap, Hk in E. destruct (code p !! k) as [w|] eqn:Ew; [|done].
  simpl in E. injection E as Ec Ed. unfold astep. rewrite Hp, (Hw k w Ew), Ec, Ed.
  pose proof (lookup_lt_Some _ _ _ Ew).
  rewrite (Z.mul_comm 4), Z.mod_add, H4 by done.
  by rewrite (proj2 (Z.leb_le 0 _)), (proj2 (Z.ltb_lt _ (size (ram a)))) by lia.
Qed.

Section instructions.
Context (base : Z) (p : program) (a : arch) (k : nat).
Context (Hl : loaded base p a) (Hp : R a 15 = base + 4 * Z.of_nat k).

(** Without flags. *)
Lemma do_dp op rn rd o :
  asm p !! k = Some (AL, DP op false rn rd o) -> is_test op = false -> operand_supported o = true ->
  astep a = Next (set_R rd (dp_result op rn o a) (next a)).
Proof. intros E Ht Ho. rewrite (step_asm _ _ _ _ _ _ Hl Hp E). simpl. by rewrite Ho, Ht. Qed.

(** With flags: operations with a destination, and tests. *)
Lemma do_dps op rn rd o :
  asm p !! k = Some (AL, DP op true rn rd o) -> is_test op = false -> operand_supported o = true ->
  flags_supported op rn o a = true -> rd <> 15 ->
  astep a = Next (with_flags op rn o a (set_R rd (dp_result op rn o a) (next a))).
Proof.
  intros E Ht Ho Hf Hrd. rewrite (step_asm _ _ _ _ _ _ Hl Hp E). simpl.
  by rewrite Ho, Hf, Ht, (proj2 (Z.eqb_neq _ _) Hrd).
Qed.

Lemma do_test op rn o :
  asm p !! k = Some (AL, DP op true rn 0 o) -> is_test op = true -> operand_supported o = true ->
  flags_supported op rn o a = true -> astep a = Next (with_flags op rn o a (next a)).
Proof. intros E Ht Ho Hf. rewrite (step_asm _ _ _ _ _ _ Hl Hp E). simpl. by rewrite Ho, Hf, Ht. Qed.

Lemma do_sub rd v :
  asm p !! k = Some (AL, DP SUB false rd rd (Rotated v 0)) -> astep a = Next (set_R rd (u32 (value a rd - v)) (next a)).
Proof. intros E. by rewrite (do_dp _ _ _ _ E). Qed.

Lemma do_add rd v :
  asm p !! k = Some (AL, DP ADD false rd rd (Rotated v 0)) -> astep a = Next (set_R rd (u32 (value a rd + v)) (next a)).
Proof. intros E. by rewrite (do_dp _ _ _ _ E). Qed.

Lemma do_mov rd v :
  asm p !! k = Some (AL, DP MOV false 0 rd (Rotated v 0)) -> astep a = Next (set_R rd v (next a)).
Proof. intros E. by rewrite (do_dp _ _ _ _ E). Qed.

Lemma no_shift rm : is_u32 (value a rm) -> (operand_of (Shifted rm LSL 0) a).1 = value a rm.
Proof. intros Hv. simpl. change (2 ^ 0) with 1. rewrite Z.mul_1_r. by apply u32_small. Qed.

Lemma do_mov_reg rd rm :
  asm p !! k = Some (AL, DP MOV false 0 rd (Shifted rm LSL 0)) -> is_u32 (value a rm) ->
  astep a = Next (set_R rd (value a rm) (next a)).
Proof. intros E Hv. rewrite (do_dp _ _ _ _ E) by done. unfold dp_result. by rewrite no_shift. Qed.

Lemma do_add_reg rd rm :
  asm p !! k = Some (AL, DP ADD false rd rd (Shifted rm LSL 0)) -> is_u32 (value a rm) ->
  astep a = Next (set_R rd (u32 (value a rd + value a rm)) (next a)).
Proof. intros E Hv. rewrite (do_dp _ _ _ _ E) by done. unfold dp_result. by rewrite no_shift. Qed.

(** A load with an offset, without writeback, and an increment-after load with it. *)
Lemma do_load rd rn o q :
  asm p !! k = Some (AL, Load rd rn o true false) -> rd <> 15 ->
  new_rn rn o a = q -> q mod 4 = 0 -> q < size (ram a) ->
  astep a = Next (set_R rd (word_at (ram a) q) (next a)).
Proof.
  intros E Hrd <- H4 Hs. rewrite (step_asm _ _ _ _ _ _ Hl Hp E). simpl.
  rewrite H4, (proj2 (Z.ltb_lt _ _) Hs), (proj2 (Z.eqb_neq _ _) Hrd). simpl. by destruct o.
Qed.

Lemma do_ldmia rn rl :
  asm p !! k = Some (AL, Multiple true true false true rn rl) -> rl <> [] -> rn <> 15 -> rn ∉ rl -> 15 ∉ rl ->
  is_u32 (value a rn) -> value a rn mod 4 = 0 -> value a rn + 4 * Z.of_nat (length rl) <= size (ram a) ->
  astep a = Next (set_R rn (u32 (value a rn + 4 * Z.of_nat (length rl))) (load_list rl (value a rn) (next a))).
Proof.
  intros E Hrl Hrn Hin Hpc Hu H4 Hs. rewrite (step_asm _ _ _ _ _ _ Hl Hp E).
  change (AL =? 15) with false. change (holds AL a) with true. cbn [exec]. unfold multiple_low, multiple_base.
  rewrite (u32_small (value a rn)) by done.
  rewrite bool_decide_false by done. rewrite (bool_decide_false (rn ∈ rl)) by done.
  rewrite H4, (proj2 (Z.leb_le _ _) Hs), (proj2 (Z.eqb_neq _ _) Hrn). simpl.
  assert (Ha : forall q, pc_aligned rl q (ram a) = true).
  { clear -Hpc. induction rl as [|r rl IH]; intros q; simpl; [done|]. apply not_elem_of_cons in Hpc as [Hr Hpc].
    rewrite (proj2 (Z.eqb_neq r 15)) by done. by apply IH. }
  by rewrite Ha.
Qed.

Lemma do_jump c words :
  asm p !! k = Some (c, Branches false words) -> c <> 15 -> holds c a = true ->
  astep a = Next (set_R 15 (u32 (R a 15 + 8 + 4 * words)) a).
Proof. intros E Hc Hh. by rewrite (step_asm _ _ _ _ _ _ Hl Hp E), (proj2 (Z.eqb_neq _ _) Hc), Hh. Qed.

Lemma do_call words :
  asm p !! k = Some (AL, Branches true words) ->
  astep a = Next (set_R 14 (u32 (R a 15 + 4)) (set_R 15 (u32 (R a 15 + 8 + 4 * words)) a)).
Proof. intros E. by rewrite (step_asm _ _ _ _ _ _ Hl Hp E). Qed.

Lemma do_skip c i :
  asm p !! k = Some (c, i) -> c <> 15 -> holds c a = false -> astep a = Next (next a).
Proof. intros E Hc Hh. by rewrite (step_asm _ _ _ _ _ _ Hl Hp E), (proj2 (Z.eqb_neq _ _) Hc), Hh. Qed.

(** A comparison with an immediate: of zero only with zero and the carry set. *)
Lemma do_cmp rn v :
  asm p !! k = Some (AL, DP CMP true rn 0 (Rotated v 0)) -> is_u32 (value a rn) -> is_u32 v ->
  (if fC a then v <=? value a rn else true) = true -> value a rn <> 0 \/ v = 0 /\ fC a = true ->
  astep a = Next (set_nzcv (Z.testbit (u32 (value a rn - v)) 31) (value a rn =? v) (v <=? value a rn)
                    (arith_overflow CMP rn (Rotated v 0) a) (next a)).
Proof.
  intros E Hv Uv Hc Hz. rewrite (do_test _ _ _ E); [|done..|].
  - unfold with_flags. f_equal. f_equal. unfold dp_result. cbn. unfold u32, is_u32 in *.
    destruct (Z.eqb_spec (value a rn) v) as [->|Hne]; [by rewrite Z.sub_diag|].
    apply Z.eqb_neq. intros H0. apply Z.mod_divide in H0 as [q Hq]; nia.
  - unfold flags_supported. cbn. apply andb_true_iff. split; [|by destruct (fC a)].
    destruct Hz as [Hz|[-> Hf]]; [by rewrite (proj2 (Z.eqb_neq _ _) Hz)|by rewrite Hf, orb_true_r].
Qed.

(** A comparison with zero. *)
Lemma do_cmp_zero rn :
  asm p !! k = Some (AL, DP CMP true rn 0 (Rotated 0 0)) -> is_u32 (value a rn) ->
  value a rn <> 0 \/ fC a = true ->
  astep a = Next (set_nzcv (Z.testbit (value a rn) 31) (value a rn =? 0) true false (next a)).
Proof.
  intros E Hv Hz. rewrite (do_cmp _ _ E Hv); [|done| |by destruct Hz; [left|right]].
  - assert (Ho : arith_overflow CMP rn (Rotated 0 0) a = false).
    { unfold arith_overflow, signed_overflow. cbn. pose proof (s32_range (value a rn)).
      change (s32 0) with 0. apply orb_false_iff. split; [apply Z.ltb_ge|apply Z.leb_gt]; lia. }
    rewrite Ho, Z.sub_0_r, u32_small by done. unfold is_u32 in Hv. by rewrite (proj2 (Z.leb_le _ _)) by lia.
  - unfold is_u32 in Hv. destruct (fC a); [apply Z.leb_le; lia|done].
Qed.

Lemma do_swi : asm p !! k = Some (AL, Swi 0x123456) -> astep a = Halt (next a).
Proof. intros E. by rewrite (step_asm _ _ _ _ _ _ Hl Hp E). Qed.
End instructions.

(** Evaluate registers after updates with known numbers. *)
Ltac regs := cbn [R value next set_R set_nzcv with_flags fC fZ ram holds Z.eqb Pos.eqb negb Z.of_nat Pos.of_succ_nat Pos.succ].

(** An address near [base], as sums computed modulo [2 ^ 32]. *)
Ltac addresses :=
  try match goal with H : loaded _ _ _ |- _ => pose proof (loaded_bounds _ _ _ H) as [? ?]; simpl in * |- end;
  repeat first [rewrite u32_add_l | rewrite <- Z.add_assoc];
  rewrite ?u32_small by (unfold is_u32; lia); lia.

(** Run the instruction [k], whose lemma is [lem]. *)
Ltac run lem k :=
  eapply runs_step;
  [ eapply (lem _ _ _ k);
    [ eapply loaded_same; [eassumption|reflexivity]
    | regs; repeat match goal with H : R _ 15 = _ |- _ => rewrite H end; addresses
    | reflexivity
    | .. ]
  | ].

(** ** The factorial *)

(** [boucle] is at 0x14, [suit] at 0x20, [fintq] at 0x28, [mult] at 0x30, [tq] at
    0x3c, [condtq] at 0x44. *)
Definition factorial_code : list Z :=
  [0xE3A05008;          (* main:   mov r5, #8 *)
   0xE2455001;          (* fact:   sub r5, #1 *)
   0xE1A01005;          (*         mov r1, r5 *)
   0xE2855001;          (*         add r5, #1 *)
   0xE1A00005;          (*         mov r0, r5 *)
   0xE3510000;          (* boucle: cmp r1, #0 *)
   0x0A000002;          (*         beq fintq *)
   0xEB000003;          (*         bl mult *)
   0xE2411001;          (* suit:   sub r1, #1 *)
   0xEBFFFFFA;          (*         bl boucle *)
   0xE1A07000;          (* fintq:  mov r7, r0 *)
   0xEF123456;          (*         swi 0x123456 *)
   0xE3A02000;          (* mult:   mov r2, #0 *)
   0xE1A03001;          (*         mov r3, r1 *)
   0xEA000001;          (*         b condtq *)
   0xE0822000;          (* tq:     add r2, r0 *)
   0xE2433001;          (*         sub r3, #1 *)
   0xE3530000;          (* condtq: cmp r3, #0 *)
   0x1AFFFFFB;          (*         bne tq *)
   0xE1A00002;          (*         mov r0, r2 *)
   0xEBFFFFF2].         (*         bl suit *)

Definition factorial_asm : list (Z * instr) :=
  [(AL, DP MOV false 0 5 (Rotated 8 0));
   (AL, DP SUB false 5 5 (Rotated 1 0));
   (AL, DP MOV false 0 1 (Shifted 5 LSL 0));
   (AL, DP ADD false 5 5 (Rotated 1 0));
   (AL, DP MOV false 0 0 (Shifted 5 LSL 0));
   (AL, DP CMP true 1 0 (Rotated 0 0));
   (EQ, Branches false 2);
   (AL, Branches true 3);
   (AL, DP SUB false 1 1 (Rotated 1 0));
   (AL, Branches true (-6));
   (AL, DP MOV false 0 7 (Shifted 0 LSL 0));
   (AL, Swi 0x123456);
   (AL, DP MOV false 0 2 (Rotated 0 0));
   (AL, DP MOV false 0 3 (Shifted 1 LSL 0));
   (AL, Branches false 1);
   (AL, DP ADD false 2 2 (Shifted 0 LSL 0));
   (AL, DP SUB false 3 3 (Rotated 1 0));
   (AL, DP CMP true 3 0 (Rotated 0 0));
   (NE, Branches false (-5));
   (AL, DP MOV false 0 0 (Shifted 2 LSL 0));
   (AL, Branches true (-14))].

Lemma factorial_assembled :
  (fun w => (field w 31 28, decode w)) <$> factorial_code = (fun ci => (ci.1, Some ci.2)) <$> factorial_asm.
Proof. vm_compute. reflexivity. Qed.

Definition factorial : program := Program factorial_code factorial_asm factorial_assembled.

(** ** The loops *)

Section factorial.
Context (base : Z).

(** What the proofs follow: the number of the next instruction and the registers r0 to r3. *)
Definition at_ (a : arch) (k r0 r1 r2 r3 : Z) : Prop :=
  loaded base factorial a /\ R a 15 = base + 4 * k /\ R a 0 = r0 /\ R a 1 = r1 /\ R a 2 = r2 /\ R a 3 = r3 /\
  is_u32 r0 /\ is_u32 r1 /\ is_u32 r2 /\ is_u32 r3.

(** The facts about a state that updates have led to. *)
Ltac at_now :=
  split; [eapply loaded_same; [eassumption|reflexivity]|]; regs;
  repeat match goal with H : R _ _ = _ |- _ => rewrite H end;
  split_and!; try done; try (addresses); auto with crange.

Lemma inner_loop m a r0 r1 r2 :
  at_ a 17 r0 r1 r2 (Z.of_nat m) -> (m = O -> fC a = true) ->
  exists b, runs a b /\ at_ b 19 r0 r1 (u32 (r2 + Z.of_nat m * r0)) 0 /\ fC b = true.
Proof.
  revert a r2. induction m as [|m IH]; intros a r2 (Hl & Hp & H0 & H1 & H2 & H3 & U0 & U1 & U2 & U3) Hc.
  - eexists. split.
    { run do_cmp_zero 17%nat; [regs; by rewrite H3|regs; by right; apply Hc|].
      run do_skip 18%nat; [done|regs; by rewrite H3|]. apply runs_refl. }
    split; [|done]. rewrite Z.add_0_r, u32_small by done. at_now.
  - assert (Hround : exists a2, runs a a2 /\ at_ a2 17 r0 r1 (u32 (r2 + r0)) (Z.of_nat m) /\ fC a2 = true).
    { eexists. split.
      { run do_cmp_zero 17%nat; [regs; by rewrite H3|regs; left; rewrite H3; lia|].
        run do_jump 18%nat; [done|regs; by rewrite H3|].
        run do_add_reg 15%nat; [regs; by rewrite H0|]. run do_sub 16%nat. apply runs_refl. }
      split; [|done]. at_now.
      all: unfold is_u32 in *; try rewrite u32_small; unfold is_u32; lia. }
    destruct Hround as (a2 & Hr & Hat & Hc2). destruct (IH a2 (u32 (r2 + r0)) Hat) as (b & Hb & Hatb & HC); [done|].
    exists b. split; [by eapply runs_trans|]. split; [|done]. rewrite u32_add_l in Hatb.
    by replace (r2 + Z.of_nat (S m) * r0) with (r2 + r0 + Z.of_nat m * r0) by lia.
Qed.

Lemma outer_loop m a r0 r2 r3 :
  at_ a 5 r0 (Z.of_nat m) r2 r3 -> (m = O -> fC a = true) ->
  exists b, runs a b /\ loaded base factorial b /\ R b 15 = base + 4 * 10 /\
    R b 0 = u32 (r0 * Z.of_nat (fact m)) /\ is_u32 (R b 0).
Proof.
  revert a r0 r2 r3.
  induction m as [|m IH]; intros a r0 r2 r3 (Hl & Hp & H0 & H1 & H2 & H3 & U0 & U1 & U2 & U3) Hc.
  - eexists. split.
    { run do_cmp_zero 5%nat; [regs; by rewrite H1|regs; by right; apply Hc|].
      run do_jump 6%nat; [done|regs; by rewrite H1|]. apply runs_refl. }
    split; [eapply loaded_same; [eassumption|reflexivity]|]. regs. rewrite Hp, H0.
    split; [addresses|]. change (Z.of_nat (fact 0)) with 1. by rewrite Z.mul_1_r, u32_small.
  - assert (Hcall : exists a1, runs a a1 /\ at_ a1 17 r0 (Z.of_nat (S m)) 0 (Z.of_nat (S m)) /\ fC a1 = true).
    { eexists. split.
      { run do_cmp_zero 5%nat; [regs; by rewrite H1|regs; left; rewrite H1; lia|].
        run do_skip 6%nat; [done|regs; by rewrite H1|]. run do_call 7%nat. run do_mov 12%nat.
        run do_mov_reg 13%nat; [regs; by rewrite H1|]. run do_jump 14%nat; [done|done|]. apply runs_refl. }
      split; [|done]. at_now. }
    destruct Hcall as (a1 & Hr1 & Hat1 & Hc1).
    destruct (inner_loop (S m) a1 r0 _ 0 Hat1) as (a2 & Hr2 & (Hl2 & Hp2 & G0 & G1 & G2 & G3 & V0 & V1 & V2 & V3) & Hc2); [done|].
    assert (Hback : exists a3, runs a2 a3 /\
      at_ a3 5 (u32 (0 + Z.of_nat (S m) * r0)) (Z.of_nat m) (u32 (0 + Z.of_nat (S m) * r0)) 0 /\ fC a3 = true).
    { eexists. split.
      { run do_mov_reg 19%nat; [regs; by rewrite G2|]. run do_call 20%nat. run do_sub 8%nat.
        run do_call 9%nat. apply runs_refl. }
      split; [|done]. at_now. all: unfold is_u32 in *; try rewrite u32_small; unfold is_u32; lia. }
    destruct Hback as (a3 & Hr3 & Hat3 & Hc3).
    destruct (IH a3 _ _ _ Hat3) as (b & Hrb & Hlb & Hpb & Hb & Ub); [done|].
    exists b. split; [eauto using runs_trans|]. split; [done|]. split; [done|]. split; [|done].
    rewrite Hb. unfold u32. rewrite Zmult_mod_idemp_l. f_equal.
    change (fact (S m)) with (S m * fact m)%nat. lia.
Qed.

(** From the label [fact] on, with [n] in r5. *)
Lemma factorial_runs n a :
  loaded base factorial a -> R a 15 = base + 4 -> R a 5 = Z.of_nat n -> (2 <= n)%nat -> is_u32 (Z.of_nat n) ->
  (forall r, 0 <= r < 16 -> is_u32 (R a r)) ->
  exists c, halts a c /\ R c 7 = u32 (Z.of_nat (fact n)).
Proof.
  intros Hl Hp H5 Hn Un Hu. destruct n as [|n]; [lia|].
  assert (Hstart : exists a1, runs a a1 /\ at_ a1 5 (Z.of_nat (S n)) (Z.of_nat n) (R a 2) (R a 3)).
  { eexists. split.
    { run do_sub 1%nat. run do_mov_reg 2%nat; [regs; auto with crange|]. run do_add 3%nat.
      run do_mov_reg 4%nat; [regs; auto with crange|]. apply runs_refl. }
    at_now. all: unfold is_u32 in *; rewrite ?u32_add_l, ?u32_sub_l; try rewrite u32_small; unfold is_u32; lia || apply Hu; lia. }
  destruct Hstart as (a1 & Hr1 & Hat). destruct (outer_loop n a1 _ _ _ Hat) as (a2 & Hr2 & Hl2 & Hp2 & H0 & U0); [lia|].
  eexists. split.
  - eapply runs_halts; [exact Hr1|]. eapply runs_halts; [exact Hr2|]. eexists. split.
    { run do_mov_reg 10%nat; [done|apply runs_refl]. }
    eapply (do_swi _ _ _ 11); [by eapply loaded_same| |done]. regs. rewrite Hp2. addresses.
  - regs. rewrite H0. f_equal. change (fact (S n)) with (S n * fact n)%nat. lia.
Qed.
End factorial.

(** ** In the simulator *)

Section simulated.
Context `{Hh : Host} `{!RotateHost}.

Lemma runs_simulated s a b :
  represents s a -> runs a b -> exists k s', arm_steps k s = Ret 0 s' /\ represents s' b.
Proof.
  intros Hrep [k Ek]. pose proof (isa_run_ok k s _ Hrep) as Hrun. rewrite Ek in Hrun.
  destruct Hrun as (s' & Es & Hs'). by exists k, s'.
Qed.

(** The simulator runs to the end of the program and exits with status 0 in a state
    that satisfies [Q]. *)
Definition ends (s : machine) (Q : machine -> Prop) : Prop :=
  exists k s' s'', arm_steps k s = Ret 0 s' /\ arm_step s' = Exit 0 s'' /\ Q s''.

Lemma halts_simulated s a c :
  represents s a -> halts a c -> ends s (fun s' => exists s1, s' ≡ s1 /\ represents s1 c).
Proof.
  intros Hrep (b & Hrun & Hb). destruct (runs_simulated s a b Hrep Hrun) as (k & s' & Es & Hs').
  pose proof (isa_step_ok s' b Hs') as Hhalt. rewrite Hb in Hhalt. destruct Hhalt as (s'' & s1 & E & ? & ?).
  exists k, s', s''. eauto.
Qed.

Lemma ends_impl s (Q Q' : machine -> Prop) : ends s Q -> (forall s', Q s' -> Q' s') -> ends s Q'.
Proof. intros (k & s' & s'' & ? & ? & ?) HQ. exists k, s', s''. auto. Qed.

(** The registers at the end. *)
Lemma final_value s s1 c r : s ≡ s1 -> represents s1 c -> 0 <= r < 15 -> rval s r = R c r.
Proof. intros E Hrep Hr. rewrite (rval_proper _ _ E r r eq_refl). by apply represents_value. Qed.

Lemma represents_pc s a : represents s a -> pc_of s = R a 15.
Proof. intros (_ & _ & _ & HR & _). rewrite <- HR by lia. unfold pc_of. by rewrite slot_15. Qed.

Lemma abstract_pc s : R (abstract s) 15 = pc_of s.
Proof. unfold abstract. cbn [R]. by rewrite slot_15. Qed.

(** C5: A whole program.  With the words of the factorial program in the memory,
    the program counter at its label [fact] and any [n >= 2] in r5, the simulator
    runs the program to its end, wherever it is loaded and without any other outcome
    on the way: it exits with status 0 and [n!] (modulo [2 ^ 32]) in r7. *)
Theorem factorial_program base s n :
  machine_ok s -> size (mem s) mod 4 = 0 -> loaded base factorial (abstract s) ->
  pc_of s = base + 4 -> rval s 5 = Z.of_nat n -> (2 <= n)%nat ->
  ends s (fun s' => rval s' 7 = u32 (Z.of_nat (fact n))).
Proof.
  intros Hok H4 Hl Hpc H5 Hn. pose proof (represents_abstract s Hok H4) as Hrep.
  assert (Hu : is_u32 (Z.of_nat n)) by (rewrite <- H5; apply rval_range, Hok).
  destruct (factorial_runs base n (abstract s) Hl) as (c & Hc & H7); [by rewrite abstract_pc| |done|done| |].
  - by rewrite <- (represents_value s _ 5 Hrep), H5 by lia.
  - intros r Hr. apply rget_range, Hok.
  - apply (ends_impl s _ _ (halts_simulated s _ c Hrep Hc)). intros s' (s1 & E & Hs1).
    by rewrite (final_value s' s1 c) by (done || lia).
Qed.
End simulated.

(** ** Witnesses *)

(** The program at address 0x20 of a memory of 128 bytes, with 8 in r5. *)
Definition machine_fact : machine :=
  Machine (ArmCore 0 (aset (aset (aset regs_usr CPSR 0x10) 5 8) 15 0x24))
    (Memory (replicate 32 0 ++ flat_map word_bytes factorial_code ++ replicate 12 0) 128 0) trace_on 0.

Lemma machine_fact_ok : machine_ok machine_fact.
Proof.
  split; [split; [reflexivity|]|split; [split; [|split]|split; [|apply trace_on_ok]]].
  - apply (bool_decide_eq_true_1 _). vm_compute. reflexivity.
  - apply (bool_decide_eq_true_1 _). vm_compute. reflexivity.
  - cbn. lia.
  - cbn. lia.
  - cbn. unfold is_u32. lia.
Qed.

Lemma machine_fact_loaded : loaded 0x20 factorial (abstract machine_fact).
Proof.
  do 4 (split; [vm_compute; congruence|]). intros k w Hk. pose proof (lookup_lt_Some _ _ _ Hk) as Hlt. simpl in Hlt.
  do 21 (destruct k as [|k]; [injection Hk as <-; vm_compute; reflexivity|]). lia.
Qed.

(** 8! = 40320 *)
Lemma factorial_program_witness : ends (Hh := host0) machine_fact (fun s' => rval s' 7 = 40320).
Proof.
  destruct (factorial_program (Hh := host0) 0x20 machine_fact 8 machine_fact_ok eq_refl machine_fact_loaded
              eq_refl eq_refl ltac:(lia)) as (k & s' & s'' & H1 & H2 & H3).
  exists k, s', s''. split; [exact H1|]. split; [exact H2|]. rewrite H3. vm_compute. reflexivity.
Defined.
