(* ===== verification/Examples.v ===== *)
(** * The other assembly programs of the examples

    [example5.s] follows the Syracuse iteration; [example1.s] counts down in a
    function; [example3.s] subtracts with flags; [example4.s] loads words and registers
    from its data.  [example2.s] and [example7.s] load single bytes, whose upper bits
    the simulator leaves open, and have no counterpart in [Isa]. *)
From S2P Require Import Prelude CInt Constants Memory Registers Format Trace Core CoreFacts Exception Branch Shifter DataProcessing LoadStore Safety Instruction Isa Programs.

#[local] Open Scope Z_scope.

(** ** The Syracuse iteration *)

Definition syracuse_code : list Z :=
  [0xE3A0500F;          (* main:  mov r5, #15 *)
   0xE3550001;          (* tq:    cmp r5, #1 *)
   0x0A000006;          (*        beq finsi *)
   0xE2156001;          (*        ands r6, r5, #1 *)
   0x0A000002;          (*        beq alors *)
   0xE0855085;          (*        add r5, r5, r5, lsl #1 *)
   0xE2855001;          (*        add r5, #1 *)
   0xEAFFFFF8;          (*        bal tq *)
   0xE1A050A5;          (* alors: mov r5, r5, lsr #1 *)
   0xEAFFFFF6;          (*        bal tq *)
   0xEF123456].         (* finsi: swi 0x123456 *)

Definition syracuse_asm : list (Z * instr) :=
  [(AL, DP MOV false 0 5 (Rotated 15 0));
   (AL, DP CMP true 5 0 (Rotated 1 0));
   (EQ, Branches false 6);
   (AL, DP AND true 5 6 (Rotated 1 0));
   (EQ, Branches false 2);
   (AL, DP ADD false 5 5 (Shifted 5 LSL 1));
   (AL, DP ADD false 5 5 (Rotated 1 0));
   (AL, Branches false (-8));
   (AL, DP MOV false 0 5 (Shifted 5 LSR 1));
   (AL, Branches false (-10));
   (AL, Swi 0x123456)].

Lemma syracuse_assembled :
  (fun w => (field w 31 28, decode w)) <$> syracuse_code = (fun ci => (ci.1, Some ci.2)) <$> syracuse_asm.
Proof. vm_compute. reflexivity. Qed.

Definition syracuse : program := Program syracuse_code syracuse_asm syracuse_assembled.

(** The iteration on numbers. *)
Definition collatz (n : Z) : Z := if Z.even n then n / 2 else 3 * n + 1.

Fixpoint iterate (k : nat) (n : Z) : Z :=
  match k with O => n | S k' => iterate k' (collatz n) end.

Lemma even_bit x : (Z.land x 1 =? 0) = Z.even x.
Proof.
  change 1 with (Z.ones 1) at 1. rewrite Z.land_ones by lia. change (2 ^ 1) with 2. rewrite Zmod_even. by destruct (Z.even x).
Qed.

Section syracuse.
Context (base : Z).

Definition at_tq (a : arch) (n : Z) : Prop := loaded base syracuse a /\ R a 15 = base + 4 /\ R a 5 = n.

(** One round of the loop. *)
Lemma syracuse_round a n :
  at_tq a n -> 1 < n -> n < 2 ^ 32 -> collatz n < 2 ^ 32 -> exists b, runs a b /\ at_tq b (collatz n).
Proof.
  intros (Hl & Hp & H5) Hn Hu Hc.
  assert (Htest : exists a1, runs a a1 /\ loaded base syracuse a1 /\ R a1 15 = base + 4 * 4 /\ R a1 5 = n /\
                    fZ a1 = Z.even n).
  { eexists. split.
    { run do_cmp 1%nat; [regs; rewrite H5; unfold is_u32; lia|done| |regs; left; rewrite H5; lia|].
      { regs. rewrite H5. destruct (fC a); [apply Z.leb_le; lia|done]. }
      run do_skip 2%nat; [done|regs; rewrite H5; apply Z.eqb_neq; lia|].
      run do_dps 3%nat; [reflexivity|done|unfold flags_supported; cbn; apply Bool.eqb_reflx|done|]. apply runs_refl. }
    split; [eapply loaded_same; [eassumption|reflexivity]|]. regs. rewrite Hp, H5. split; [addresses|].
    split; [done|]. unfold dp_result. cbn. rewrite H5. apply even_bit. }
  destruct Htest as (a1 & Hr1 & Hl1 & Hp1 & G5 & Hz). unfold collatz in *. destruct (Z.even n) eqn:He.
  - eexists. split.
    { eapply runs_trans; [exact Hr1|]. run do_jump 4%nat; [done|done|].
      run do_dp 8%nat; [done|done|]. run do_jump 9%nat; [done|done|]. apply runs_refl. }
    split; [eapply loaded_same; [eassumption|reflexivity]|]. regs. rewrite Hp1. split; [addresses|].
    unfold dp_result. cbn. by rewrite G5.
  - eexists. split.
    { eapply runs_trans; [exact Hr1|]. run do_skip 4%nat; [done|exact Hz|].
      run do_dp 5%nat; [done|done|]. run do_add 6%nat. run do_jump 7%nat; [done|done|]. apply runs_refl. }
    split; [eapply loaded_same; [eassumption|reflexivity]|]. regs. rewrite Hp1. split; [addresses|].
    unfold dp_result. cbn. rewrite G5. change (2 ^ 1) with 2. rewrite (u32_small (n * 2)), u32_add_l, u32_small by (unfold is_u32; lia). lia.
Qed.

(** The loop ends at 1. *)
Lemma syracuse_end a : at_tq a 1 -> exists c, halts a c /\ R c 5 = 1.
Proof.
  intros (Hl & Hp & H5). eexists. split; [eexists; split|].
  { run do_cmp 1%nat; [by regs; rewrite H5|done|by regs; rewrite H5; destruct (fC a)|by regs; left; rewrite H5|].
    run do_jump 2%nat; [done|by regs; rewrite H5|]. apply runs_refl. }
  { eapply (do_swi _ _ _ 10); [by eapply loaded_same| |done]. regs. rewrite Hp. addresses. }
  exact H5.
Qed.

(** The iterates of a number before the first 1, none of which overflows. *)
Definition iterates (k : nat) (n : Z) : Prop :=
  0 < n /\ (forall j, (j < k)%nat -> iterate j n <> 1) /\ (forall j, (j <= k)%nat -> iterate j n < 2 ^ 32).

Lemma collatz_positive n : 0 < n -> 0 < collatz n.
Proof.
  intros Hn. unfold collatz. destruct (Z.even n) eqn:He; [|lia]. apply Z.even_spec in He as [m ->].
  rewrite Z.mul_comm, Z.div_mul by lia. lia.
Qed.

Lemma iterates_next k n : iterates (S k) n -> 1 < n /\ n < 2 ^ 32 /\ collatz n < 2 ^ 32 /\ iterates k (collatz n).
Proof.
  intros (Hn & H1 & Hb). pose proof (H1 0%nat ltac:(lia)) as Hne. simpl in Hne.
  split; [lia|]. split; [apply (Hb 0%nat); lia|]. split; [apply (Hb 1%nat); lia|].
  split; [by apply collatz_positive|].
  split; intros j Hj; [apply (H1 (S j))|apply (Hb (S j))]; lia.
Qed.

Lemma syracuse_runs k a n : at_tq a n -> iterates k n -> exists b, runs a b /\ at_tq b (iterate k n).
Proof.
  revert a n. induction k as [|k IH]; intros a n Hat Hit; [exists a; split; [apply runs_refl|done]|].
  apply iterates_next in Hit as (H1 & Hu & Hc & Hit).
  destruct (syracuse_round a n Hat H1 Hu Hc) as (a1 & Hr & Hat1).
  destruct (IH a1 _ Hat1 Hit) as (b & Hb & Hatb). exists b. split; [by eapply runs_trans|done].
Qed.
End syracuse.

(** ** A countdown in a function *)

Definition countdown_code : list Z :=
  [0xE2500001;          (* decr:  subs r0, r0, #1 *)
   0xE1A0F00E;          (*        mov pc, lr *)
   0xE3A00005;          (* main:  mov r0, #5 *)
   0xEBFFFFFB;          (* loop:  bl decr *)
   0x1AFFFFFD;          (*        bne loop *)
   0xEF123456].         (* end:   swi 0x123456 *)

Definition countdown_asm : list (Z * instr) :=
  [(AL, DP SUB true 0 0 (Rotated 1 0));
   (AL, DP MOV false 0 15 (Shifted 14 LSL 0));
   (AL, DP MOV false 0 0 (Rotated 5 0));
   (AL, Branches true (-5));
   (NE, Branches false (-3));
   (AL, Swi 0x123456)].

Lemma countdown_assembled :
  (fun w => (field w 31 28, decode w)) <$> countdown_code = (fun ci => (ci.1, Some ci.2)) <$> countdown_asm.
Proof. vm_compute. reflexivity. Qed.

Definition countdown : program := Program countdown_code countdown_asm countdown_assembled.

Section countdown.
Context (base : Z).

(** The call of [decr]. *)
Lemma countdown_call a n :
  loaded base countdown a -> R a 15 = base + 4 * 3 -> R a 0 = n -> 1 <= n < 2 ^ 32 ->
  exists b, runs a b /\ loaded base countdown b /\ R b 15 = base + 4 * 4 /\ R b 0 = n - 1 /\ fZ b = (n =? 1).
Proof.
  intros Hl Hp H0 Hn. eexists. split.
  { run do_call 3%nat. run do_dps 0%nat; [done|done| |done|].
    { unfold flags_supported. cbn. rewrite H0, (proj2 (Z.eqb_neq n 0)) by lia.
      destruct (fC a); [apply Z.leb_le; lia|done]. }
    run do_mov_reg 1%nat; [regs; auto with crange|]. apply runs_refl. }
  split; [eapply loaded_same; [eassumption|reflexivity]|]. regs. rewrite Hp. split; [addresses|].
  unfold dp_result. cbn. rewrite H0, u32_small by (unfold is_u32; lia). split; [done|].
  destruct (Z.eqb_spec n 1), (Z.eqb_spec (n - 1) 0); lia || done.
Qed.

Lemma countdown_runs m a :
  loaded base countdown a -> R a 15 = base + 4 * 3 -> R a 0 = Z.of_nat (S m) -> is_u32 (R a 0) ->
  exists c, halts a c /\ R c 0 = 0.
Proof.
  revert a. induction m as [|m IH]; intros a Hl Hp H0 Hu;
    (destruct (countdown_call a _ Hl Hp H0) as (a1 & Hr & Hl1 & Hp1 & G0 & Hz); [unfold is_u32 in Hu; lia|]).
  - eexists. split; [eexists; split|].
    { eapply runs_trans; [exact Hr|]. run do_skip 4%nat; [done|change (negb (fZ a1) = false); by rewrite Hz|]. apply runs_refl. }
    { eapply (do_swi _ _ _ 5); [by eapply loaded_same| |done]. regs. rewrite Hp1. addresses. }
    regs. by rewrite G0.
  - assert (Hj : exists a2, runs a1 a2 /\ loaded base countdown a2 /\ R a2 15 = base + 4 * 3 /\ R a2 0 = R a1 0).
    { eexists. split; [run do_jump 4%nat; [done| |apply runs_refl]|].
      - change (negb (fZ a1) = true). rewrite Hz. apply negb_true_iff, Z.eqb_neq. lia.
      - split; [eapply loaded_same; [eassumption|reflexivity]|]. regs. rewrite Hp1. split; [addresses|done]. }
    destruct Hj as (a2 & Hr2 & Hl2 & Hp2 & E0).
    destruct (IH a2 Hl2 Hp2) as (b & Hb & ?); [rewrite E0, G0; lia|rewrite E0, G0; unfold is_u32 in *; lia|].
    exists b. split; [eauto using runs_halts|done].
Qed.
End countdown.

(** ** A subtraction with flags *)

Definition flags_code : list Z :=
  [0xE3F01000;          (* main:  movs r1, #0xFFFFFFFF, assembled as mvns r1, #0 *)
   0xE3B02001;          (*        movs r2, #1 *)
   0xE1A03F82;          (*        mov r3, r2, lsl #31 *)
   0xE0514003;          (*        subs r4, r1, r3 *)
   0xEF123456].         (*        swi 0x123456 *)

Definition flags_asm : list (Z * instr) :=
  [(AL, DP MVN true 0 1 (Rotated 0 0));
   (AL, DP MOV true 0 2 (Rotated 1 0));
   (AL, DP MOV false 0 3 (Shifted 2 LSL 31));
   (AL, DP SUB true 1 4 (Shifted 3 LSL 0));
   (AL, Swi 0x123456)].

Lemma flags_assembled :
  (fun w => (field w 31 28, decode w)) <$> flags_code = (fun ci => (ci.1, Some ci.2)) <$> flags_asm.
Proof. vm_compute. reflexivity. Qed.

Definition flags_example : program := Program flags_code flags_asm flags_assembled.

Lemma flags_runs base a :
  loaded base flags_example a -> R a 15 = base ->
  exists c, halts a c /\ R c 4 = 0x7FFFFFFF /\ fN c = false /\ fZ c = false /\ fC c = true /\ fV c = false.
Proof.
  intros Hl Hp. eexists. split; [eexists; split|].
  { run do_dps 0%nat; [done|done|apply Bool.eqb_reflx|done|].
    run do_dps 1%nat; [done|done|apply Bool.eqb_reflx|done|]. run do_dp 2%nat; [done|done|].
    run do_dps 3%nat; [done|done| |done|].
    { unfold flags_supported. cbn. by destruct (fC a). }
    apply runs_refl. }
  { eapply (do_swi _ _ _ 4); [by eapply loaded_same| |done]. regs. rewrite Hp. addresses. }
  split_and!; reflexivity.
Qed.

(** ** Loads from the data of a program *)

(** The words after the program hold the addresses of its data. *)
Definition loads_code : list Z :=
  [0xE3A00AFF;          (* main:  mov r0, #0xFF000 *)
   0xE3A04001;          (*        mov r4, #1 *)
   0xE59F1010;          (*        ldr r1, =donnee *)
   0xE59F2010;          (*        ldr r2, =fin *)
   0xE2844000;          (*        add r4, #0 *)
   0xE7915104;          (*        ldr r5, [r1, +r4, lsl #2] *)
   0xE8B100C0;          (*        ldmia r1!, {r6, r7} *)
   0xEF123456].         (*        swi 0x123456 *)

Definition loads_asm : list (Z * instr) :=
  [(AL, DP MOV false 0 0 (Rotated 255 20));
   (AL, DP MOV false 0 4 (Rotated 1 0));
   (AL, Load 1 15 (Imm 16) true false);
   (AL, Load 2 15 (Imm 16) true false);
   (AL, DP ADD false 4 4 (Rotated 0 0));
   (AL, Load 5 1 (Reg true 4 2) true false);
   (AL, Multiple true true false true 1 [6; 7]);
   (AL, Swi 0x123456)].

Lemma loads_assembled :
  (fun w => (field w 31 28, decode w)) <$> loads_code = (fun ci => (ci.1, Some ci.2)) <$> loads_asm.
Proof. vm_compute. reflexivity. Qed.

Definition loads : program := Program loads_code loads_asm loads_assembled.

(** With the addresses [d] of [donnee] and [d + 8] of [fin] after the program. *)
Lemma loads_runs base d a :
  loaded base loads a -> R a 15 = base -> base + 40 <= size (ram a) -> base + 40 < 2 ^ 32 ->
  word_at (ram a) (base + 32) = d -> word_at (ram a) (base + 36) = d + 8 ->
  0 <= d -> d mod 4 = 0 -> d + 8 < 2 ^ 32 -> d + 8 <= size (ram a) ->
  exists c, halts a c /\ R c 0 = 0xFF000 /\ R c 1 = d + 8 /\ R c 2 = d + 8 /\ R c 5 = word_at (ram a) (d + 4) /\
    R c 6 = word_at (ram a) d /\ R c 7 = word_at (ram a) (d + 4).
Proof.
  intros Hl Hp Hs Hb Hd Hf Hd0 Hd4 Hdu Hds. pose proof (Hl) as (Hb0 & Hb4 & _).
  assert (A1 : forall x, R x 15 = base + 8 -> new_rn 15 (Imm 16) x = base + 32).
  { intros x Hx. unfold new_rn. cbn. rewrite Hx. addresses. }
  assert (A2 : forall x, R x 15 = base + 12 -> new_rn 15 (Imm 16) x = base + 36).
  { intros x Hx. unfold new_rn. cbn. rewrite Hx. addresses. }
  assert (M : forall j, (base + 4 * j) mod 4 = 0) by (intros j; by rewrite (Z.mul_comm 4), Z.mod_add).
  assert (Hstart : exists a1, runs a a1 /\ loaded base loads a1 /\ R a1 15 = base + 4 * 5 /\ R a1 0 = 0xFF000 /\
    R a1 1 = d /\ R a1 2 = d + 8 /\ R a1 4 = 1 /\ ram a1 = ram a).
  { eexists. split.
    { run do_dp 0%nat; [done|done|]. run do_mov 1%nat.
      run do_load 2%nat; [done|apply A1; regs; rewrite Hp; addresses|apply (M 8)|regs; lia|].
      run do_load 3%nat; [done|apply A2; regs; rewrite Hp; addresses|apply (M 9)|regs; lia|].
      run do_add 4%nat. apply runs_refl. }
    split; [eapply loaded_same; [eassumption|reflexivity]|]. regs.
    rewrite Hp, Hd, Hf. split_and!; try done. addresses. }
  destruct Hstart as (a1 & Hr1 & Hl1 & Hp1 & G0 & G1 & G2 & G4 & Gm).
  assert (A3 : new_rn 1 (Reg true 4 2) a1 = d + 4).
  { unfold new_rn. cbn. rewrite G1, G4. change (u32 (Z.shiftl 1 2)) with 4. addresses. }
  eexists. split; [apply (runs_halts _ _ _ Hr1); eexists; split|].
  { run do_load 5%nat; [done|exact A3|by rewrite Z.add_mod, Hd4 by done|rewrite Gm; lia|].
    run do_ldmia 6%nat; [done|done|by apply (bool_decide_unpack _)|by apply (bool_decide_unpack _)| | | |];
      [regs; rewrite G1; unfold is_u32; lia|by regs; rewrite G1|regs; rewrite G1, Gm; simpl; lia|].
    apply runs_refl. }
  { eapply (do_swi _ _ _ 7); [by eapply loaded_same| |done]. cbn [load_list]. regs. rewrite Hp1. addresses. }
  cbn [load_list]. regs. rewrite G0, G1, G2, Gm. split_and!; try done. simpl. addresses.
Qed.

Section simulated.
Context `{Hh : Host} `{!RotateHost}.

(** C6: The Syracuse iteration.  With the words of the program in the memory, the
    program counter at its loop and [n] in r5, the simulator comes back to the loop with
    the [k]-th iterate of [n] in r5, for every [k] up to the first iterate that is 1,
    as long as no iterate overflows; once the iterate is 1 it runs to the end of the
    program and exits with status 0, with 1 in r5. *)
Theorem syracuse_program base s n k :
  machine_ok s -> size (mem s) mod 4 = 0 -> loaded base syracuse (abstract s) ->
  pc_of s = base + 4 -> rval s 5 = n -> iterates k n ->
  exists i s', arm_steps i s = Ret 0 s' /\ rval s' 5 = iterate k n /\ pc_of s' = base + 4 /\
    (iterate k n = 1 -> ends s' (fun s1 => rval s1 5 = 1)).
Proof.
  intros Hok H4 Hl Hpc H5 Hit. pose proof (represents_abstract s Hok H4) as Hrep.
  destruct (syracuse_runs base k (abstract s) n) as (b & Hrun & Hat); [|done|].
  { split; [done|]. by rewrite abstract_pc, <- (represents_value s _ 5 Hrep) by lia. }
  destruct (runs_simulated s _ b Hrep Hrun) as (i & s' & Es & Hs'). exists i, s'. split; [done|].
  destruct (Hat) as (_ & Hp & Hr). split; [by rewrite (represents_value s' b) by (done || lia)|].
  split; [by rewrite <- Hp, (represents_pc s' b)|]. intros E. rewrite E in Hat.
  destruct (syracuse_end base b Hat) as (c & Hc & Hc5).
  apply (ends_impl s' _ _ (halts_simulated s' b c Hs' Hc)). intros s2 (s1 & E2 & Hs1).
  by rewrite (final_value s2 s1 c) by (done || lia).
Qed.

(** The small examples.  From a well-formed machine with the program loaded, the
    simulator runs each of them to its end: the countdown in a function, started with
    any positive number in r0, leaves 0 there; the subtraction of 0x80000000 from
    0xFFFFFFFF gives 0x7FFFFFFF with the flags of the architecture; the loads through
    the addresses after the program, with a scaled register offset and with a register
    list, find the words of its data. *)
Theorem examples_end base s :
  machine_ok s -> size (mem s) mod 4 = 0 ->
  (loaded base countdown (abstract s) -> pc_of s = base + 12 -> 0 < rval s 0 -> ends s (fun s' => rval s' 0 = 0)) /\
  (loaded base flags_example (abstract s) -> pc_of s = base ->
   ends s (fun s' => rval s' 4 = 0x7FFFFFFF /\ flag s' FLAG_N = false /\ flag s' FLAG_Z = false /\
                     flag s' FLAG_C = true /\ flag s' FLAG_V = false)) /\
  (forall d, loaded base loads (abstract s) -> pc_of s = base ->
   base + 40 <= size (mem s) -> base + 40 < 2 ^ 32 ->
   word_at (mem s) (base + 32) = d -> word_at (mem s) (base + 36) = d + 8 ->
   0 <= d -> d mod 4 = 0 -> d + 8 < 2 ^ 32 -> d + 8 <= size (mem s) ->
   ends s (fun s' => rval s' 1 = d + 8 /\ rval s' 5 = word_at (mem s) (d + 4) /\ rval s' 6 = word_at (mem s) d /\
                     rval s' 7 = word_at (mem s) (d + 4))).
Proof.
  intros Hok H4. pose proof (represents_abstract s Hok H4) as Hrep. split_and!.
  - intros Hl Hpc H0. destruct (countdown_runs base (Z.to_nat (rval s 0 - 1)) (abstract s) Hl) as (c & Hc & H0').
    + by rewrite abstract_pc.
    + rewrite <- (represents_value s _ 0 Hrep) by lia. lia.
    + apply rget_range, Hok.
    + apply (ends_impl s _ _ (halts_simulated s _ c Hrep Hc)). intros s' (s1 & E & Hs1).
      by rewrite (final_value s' s1 c) by (done || lia).
  - intros Hl Hpc. destruct (flags_runs base (abstract s) Hl) as (c & Hc & E4 & EN & EZ & EC & EV).
    { by rewrite abstract_pc. }
    apply (ends_impl s _ _ (halts_simulated s _ c Hrep Hc)). intros s' (s1 & E & Hs1).
    rewrite (final_value s' s1 c) by (done || lia). unfold flag. rewrite (arm_proper _ _ E).
    destruct Hs1 as (_ & _ & _ & _ & Hf). unfold flag in Hf. destruct Hf as (-> & -> & -> & ->). done.
  - intros d Hl Hpc ????????. destruct (loads_runs base d (abstract s) Hl) as (c & Hc & _ & E1 & _ & E5 & E6 & E7);
      try done.
    apply (ends_impl s _ _ (halts_simulated s _ c Hrep Hc)). intros s' (s1 & E & Hs1).
    by rewrite !(final_value s' s1 c) by (done || lia).
Qed.
End simulated.

(** ** Witnesses *)

(** A program at 0x20 of a memory of 128 bytes, with the registers r0 and r5. *)
Definition machine_at (ws : list Z) (pad : nat) (r0 r5 pc : Z) : machine :=
  Machine (ArmCore 0 (aset (aset (aset (aset regs_usr CPSR 0x10) 0 r0) 5 r5) 15 pc))
    (Memory (replicate 32 0 ++ flat_map word_bytes ws ++ replicate pad 0) 128 0) trace_on 0.

Definition machine_syracuse : machine := machine_at syracuse_code 52 0 15 0x24.
Definition machine_countdown : machine := machine_at countdown_code 72 5 0 0x2c.

Lemma machine_at_ok ws pad r0 r5 pc :
  let s := machine_at ws pad r0 r5 pc in
  bool_decide (length (m (mem s)) = 128%nat) && bool_decide (Forall is_u8 (m (mem s))) &&
  bool_decide (Forall is_u32 (regs s)) = true -> machine_ok s.
Proof.
  intros s [[Hl%bool_decide_eq_true Hm%bool_decide_eq_true]%andb_true_iff Hr%bool_decide_eq_true]%andb_true_iff.
  split; [split; [reflexivity|done]|split; [split; [done|split; rewrite Hl; cbn; lia]|]].
  split; [cbn; unfold is_u32; lia|apply trace_on_ok].
Qed.

(** The iterates of 15: 1 is the seventeenth. *)
Lemma iterates_15 : iterates 17 15.
Proof.
  split; [lia|]. split; intros j Hj; do 18 (destruct j as [|j]; [first [lia | vm_compute; congruence]|]); lia.
Qed.

Lemma syracuse_program_witness :
  exists i s', arm_steps (Hh := host0) i machine_syracuse = Ret 0 s' /\ ends (Hh := host0) s' (fun s1 => rval s1 5 = 1).
Proof.
  destruct (syracuse_program (Hh := host0) 0x20 machine_syracuse 15 17) as (i & s' & E & _ & _ & Hend).
  - apply machine_at_ok. vm_compute. reflexivity.
  - reflexivity.
  - do 4 (split; [vm_compute; congruence|]). intros k w Hk. pose proof (lookup_lt_Some _ _ _ Hk) as Hlt. simpl in Hlt.
    do 11 (destruct k as [|k]; [injection Hk as <-; vm_compute; reflexivity|]). lia.
  - reflexivity.
  - reflexivity.
  - exact iterates_15.
  - exists i, s'. split; [exact E|]. apply Hend. vm_compute. reflexivity.
Defined.

Lemma examples_end_witness : ends (Hh := host0) machine_countdown (fun s' => rval s' 0 = 0).
Proof.
  destruct (examples_end (Hh := host0) 0x20 machine_countdown) as [Hc _].
  - apply machine_at_ok. vm_compute. reflexivity.
  - reflexivity.
  - apply Hc; [|reflexivity|vm_compute; reflexivity].
    do 4 (split; [vm_compute; congruence|]). intros k w Hk. pose proof (lookup_lt_Some _ _ _ Hk) as Hlt. simpl in Hlt.
    do 6 (destruct k as [|k]; [injection Hk as <-; vm_compute; reflexivity|]). lia.
Defined.
