(* ===== verification/GdbRun.v ===== *)
(** * Debugging a program: gdb loads it and lets it run

    The composition of the whole path from the connection to the processor.  gdb sends
    the words of a program (the command X), the values of registers (P) and the command
    to continue (c); the scanner cuts the characters into packets, the commands write
    memory and registers, and the continue command runs the instructions.  What was
    proved of the program on the abstract machine of [Isa] holds of the session. *)
From S2P Require Import Prelude CInt Constants Memory Registers Format Trace Core CoreFacts Exception Branch Shifter DataProcessing LoadStore Safety Instruction CString Debug DebugMessages GdbProtocol Scanner Continue Isa Programs.
From Stdlib Require Import Factorial.

#[local] Open Scope string_scope.
#[local] Open Scope Z_scope.

(** ** The continue command on the abstract machine *)

(** The breakpoint is none of the instructions. *)
Lemma decode_breakpoint ins : decode ins <> None -> breakpoint ins = false.
Proof.
  intros Hd. unfold breakpoint. apply Z.eqb_neq. intros E. apply Hd.
  assert (Hb : forall i, 0 <= i -> Z.testbit 0xFFF000F0 i = true -> Z.testbit ins i = Z.testbit 0xE7F000F0 i).
  { intros i Hi Hm. rewrite <- E, Z.land_spec, Hm. by rewrite andb_true_r. }
  assert (Ht : field ins 27 25 = 3).
  { apply Z.bits_inj'. intros n Hn. destruct (Z.lt_ge_cases n 3).
    - assert (Hn' : n = 0 \/ n = 1 \/ n = 2) by lia.
      destruct_or! Hn'; subst n; rewrite <- testbit_field by lia; rewrite Hb by (done || lia); done.
    - unfold field. rewrite Z.mod_pow2_bits_high by lia. symmetry. apply Z.bits_above_log2; [lia|].
      simpl. lia. }
  unfold decode. rewrite Ht. cbn [Z.eqb Pos.eqb]. by rewrite (Hb 4) by (done || lia).
Qed.

Section continue.
Context `{Hh : Host} `{!RotateHost} `{Wire}.

Lemma astep_next a : astep a <> Unsupported ->
  R a 15 mod 4 = 0 /\ 0 <= R a 15 < size (ram a) /\ breakpoint (word_at (ram a) (R a 15)) = false.
Proof.
  unfold astep. intros Ha.
  destruct (Z.eqb_spec (R a 15 mod 4) 0); [|done]. destruct (Z.leb_spec 0 (R a 15)); [|done].
  destruct (Z.ltb_spec (R a 15) (size (ram a))); [|done]. cbn [andb] in Ha.
  split_and!; try done. apply decode_breakpoint. by destruct (decode _).
Qed.

(** The instruction that [cont] looks at before a step. *)
Lemma next_instruction_represents s a ins :
  represents s a -> R a 15 mod 4 = 0 -> 0 <= R a 15 < size (ram a) ->
  next_instruction ins s = word_at (ram a) (R a 15).
Proof.
  intros Hrep H4 Hs. pose proof (fetch_represents s a Hrep H4) as Hins. specialize (Hins ltac:(lia) ltac:(lia)).
  destruct (instruction_at_fetch s _ _ 0 ltac:(apply Hrep) Hins) as (Ef & _).
  unfold next_instruction. rewrite Ef. destruct Hrep as (_ & -> & _).
  by rewrite (proj2 (Z.ltb_lt _ _)) by lia.
Qed.

Lemma readable_represents s a : represents s a -> R a 15 mod 4 = 0 -> 0 <= R a 15 < size (ram a) -> readable s.
Proof.
  intros Hrep H4 Hs _. pose proof (fetch_represents s a Hrep H4) as Hins. specialize (Hins ltac:(lia) ltac:(lia)).
  destruct (instruction_at_fetch s _ _ 0 ltac:(apply Hrep) Hins) as (Ef & _). rewrite Ef. apply Hins.
Qed.

Lemma represents_roomy s a : represents s a -> mem_roomy 0 (mem s).
Proof. intros ((_ & Hm & _) & _ & H4 & _). split; [done|]. split; [done|]. destruct Hm as (_ & ? & _). lia. Qed.

(** The steps of the abstract machine are steps that [cont] makes. *)
Lemma arun_steps n e ins s a b :
  represents s a -> arun n a = Next b -> exists e' ins' s', steps n (e, ins, s) (e', ins', s') /\ represents s' b.
Proof.
  revert e ins s a. induction n as [|n IH]; intros e ins s a Hrep E; simpl in E.
  { injection E as <-. exists e, ins, s. split; [constructor|done]. }
  pose proof (isa_step_ok s a Hrep) as Hs.
  destruct (astep_next a) as (H4 & Hpc & Hb); [by destruct (astep a)|].
  destruct (astep a) as [a1| |]; try done. destruct Hs as (s1 & E1 & Hrep1).
  destruct (IH 0 (next_instruction ins s) s1 a1 Hrep1 E) as (e' & ins' & s' & Hst & Hrep').
  exists e', ins', s'. split; [|done]. eapply steps_cons; [by eapply readable_represents| |exact E1|exact Hst].
  by rewrite (next_instruction_represents s a).
Qed.

(** A program that ends makes the continue command exit, in its final state. *)
Lemma cont_halts g a c :
  gdb_ok g -> represents (machine_of g) a -> halts a c ->
  exists n, forall fuel data, (n < fuel)%nat ->
    exists g', cont fuel data g = Exit 0 g' /\ exists s1, machine_of g' ≡ s1 /\ represents s1 c.
Proof.
  intros Hg Hrep (b & [n En] & Hb).
  destruct (arun_steps n (target_exception g) (val0 (machine_of g)) _ a b (represents_alloc _ _ Hrep) En)
    as (e' & ins' & s' & Hst & Hrep').
  destruct (astep_next b) as (H4 & Hpc & Hbr); [by rewrite Hb|].
  pose proof (isa_step_ok s' b Hrep') as Hs. rewrite Hb in Hs. destruct Hs as (s'' & s1 & E & Hs1 & Hc).
  exists n. intros fuel data Hf.
  destruct (cont_steps g n e' ins' s' fuel data Hg ltac:(apply Hrep) (represents_roomy _ _ Hrep) Hst
              (readable_represents s' b Hrep' H4 Hpc) Hf) as [_ Hx].
  destruct (Hx s'') as (g' & Eg & Em); [by rewrite (next_instruction_represents s' b)|done|].
  exists g'. split; [done|]. exists s1. split; [by rewrite Em|done].
Qed.
End continue.

(** ** The commands *)

Section commands.
Context `{Hh : Host} `{!RotateHost} `{Wire}.

(** What is behind the text of a packet when its handler runs. *)
Definition behind (s : list Z) : list Z := hex_byte (checksum s) ++ [0].

(** [g] after the packet of the command [s] was found to be in order. *)
Definition accepted (s : list Z) (g : gdb_protocol_data) : gdb_protocol_data :=
  set_fd (fd g ++ [chars "+"])%list
    (tell (received (frame s) ++ chars (", checksum ok" +:+ newline)) (set_machine (alloc (machine_of g)) g)).

(** A command reaches its handler after an acknowledgement. *)
Lemma obey_command fuel c data h g :
  gdb_ok g -> handler fuel c = Some h ->
  obey fuel (Command (c :: data)) g =
  h (data ++ 0 :: behind (c :: data))%list (accepted (c :: data) g).
Proof.
  intros Hg Hh'. simpl obey. unfold frame. rewrite analysis_q by (exact (gdb_log g Hg) || apply checksum_range).
  rewrite Z.eqb_refl. unfold gdb_send_ack.
  erewrite bind_ret by (apply Rio_writen_q; [by apply gdb_ok_tell, gdb_ok_machine|done]).
  change (aget (36 :: (c :: data) ++ 0 :: hex_byte (checksum (c :: data)) ++ [0]) 1) with (Some c).
  cbv iota beta. by rewrite Hh'.
Qed.

(** [g] debugs a processor in the state [a]. *)
Definition debugs (g : gdb_protocol_data) (a : arch) : Prop :=
  gdb_ok g /\ represents (machine_of g) a /\ size (ram a) < 2 ^ 32.

Lemma debugs_accepted s g a : debugs g a -> debugs (accepted s g) a.
Proof.
  intros (Hg & Hrep & Hs). split; [|split; [by apply represents_alloc|done]].
  apply (gdb_ok_tell _ (set_machine (alloc (machine_of g)) g) (gdb_ok_machine _ _ Hg)).
Qed.

(** An acknowledgement is only mentioned. *)
Lemma obey_ack g a :
  debugs g a -> exists g', (forall fuel, obey fuel Ack g = Ret tt g') /\ debugs g' a.
Proof.
  intros (Hg & Hd). eexists. split; [intros fuel; simpl; apply scanner_debug_q; [exact (gdb_log g Hg)|reflexivity]|].
  split; [by apply gdb_ok_scanner_tell|done].
Qed.

Lemma represents_traced s a : represents s a -> represents (trace_off s) a /\ represents (trace_back s) a.
Proof.
  intros Hrep. destruct (Hrep) as ((Hr & Hm & Hc & Ht) & _).
  split; (apply (represents_equiv s); [done|done|]; by split_and!).
Qed.

(** P: the register has the value. *)
Lemma command_P g a r v :
  debugs g a -> 0 <= r < 16 -> is_u32 v ->
  exists g', (forall fuel, obey fuel (Command (80 :: hex_char r :: 61 :: hex_word v)) g = Ret tt g') /\
    debugs g' (set_R r v a).
Proof.
  intros Hd Hr Hv. destruct (Hd) as (Hg & _).
  apply (debugs_accepted (80 :: hex_char r :: 61 :: hex_word v)) in Hd. set (g1 := accepted _ _) in *.
  destruct Hd as (Hg1 & Hrep & Hs). destruct (Hrep) as ((Hregs & _) & _).
  destruct (gdb_write_register_effect g1 r v (behind (80 :: hex_char r :: 61 :: hex_word v)) Hg1 Hregs Hr Hv)
    as (g' & E & _ & Hg' & Em).
  exists g'. split; [intros fuel; by rewrite (obey_command fuel 80 _ gdb_write_register)|].
  split; [done|]. rewrite Em. split; [|done].
  apply represents_traced, represents_upd_reg; [|done..]. apply represents_traced. by do 3 apply represents_alloc.
Qed.

(** X: the bytes are in the memory. *)

Lemma until_nul_prefix t rest u :
  Forall (fun c => c <> 0) t -> exists r, until_nul (t ++ rest ++ 0 :: u)%list = Some (t ++ r)%list.
Proof.
  intros Ht. induction Ht as [|c t Hc _ IH].
  - simpl. induction rest as [|x rest IH]; [by exists []|]. destruct IH as [r E]. simpl in *.
    destruct (x =? 0); [by exists []|]. exists (x :: r). by rewrite E.
  - destruct IH as [r E]. exists r. simpl. by rewrite (proj2 (Z.eqb_neq _ _) Hc), E.
Qed.

Lemma index_after t r : Forall (fun c => c <> 58) t -> index (t ++ 58 :: r) 58 = Some (Z.of_nat (length t)).
Proof.
  intros Ht. induction Ht as [|c t Hc _ IH]; [done|]. simpl. rewrite (proj2 (Z.eqb_neq _ _) Hc).
  simpl in IH. rewrite IH. simpl. f_equal. lia.
Qed.

(** A text [t] that announces [n] bytes at the address [base]. *)
Definition announces (t : list Z) (base n : Z) : Prop :=
  Forall (fun c => c <> 0 /\ c <> 35 /\ c <> 36 /\ c <> 58) t /\
  forall rest, scan_x_x (t ++ 58 :: rest) = (Some base, Some n).

Lemma command_X g a t base esc bs :
  debugs g a -> announces t base (Z.of_nat (length bs)) -> esc 0x7d = true ->
  0 <= base -> base + Z.of_nat (length bs) <= size (ram a) -> Forall is_u8 bs ->
  exists g', (forall fuel, obey fuel (Command (88 :: t ++ 58 :: flat_map (escape esc) bs)) g = Ret tt g') /\
    debugs g' (set_ram (put_bytes (ram a) base bs) a).
Proof.
  intros Hd [Ht Hscan] Hesc Hb Hs Hu. destruct (Hd) as (Hg & _).
  apply (debugs_accepted (88 :: t ++ 58 :: flat_map (escape esc) bs)) in Hd. set (g1 := accepted _ _) in *.
  destruct Hd as (Hg1 & Hrep & Hs32). destruct (Hrep) as ((Hregs & Hmem & Hc & Htr) & Em & H4 & HR).
  set (tl := behind (88 :: t ++ 58 :: flat_map (escape esc) bs)).
  destruct (until_nul_prefix (t ++ [58]) (flat_map (escape esc) bs) tl) as [r Er].
  { apply Forall_app. split; [eapply Forall_impl; [exact Ht|]; by intros c (? & ?)|by repeat constructor]. }
  rewrite <- !app_assoc in Er. simpl in Er.
  destruct (write_memory_binary_q g1 ((t ++ 58 :: flat_map (escape esc) bs) ++ 0 :: tl) (t ++ 58 :: r) base esc bs
              (0 :: tl) (Z.of_nat (length t))) as (g' & E & _ & Hg' & Eg'); try done.
  - by rewrite Em.
  - by rewrite <- app_assoc.
  - apply index_after. eapply Forall_impl; [exact Ht|]. tauto.
  - replace (Z.to_nat (Z.of_nat (length t) + 1)) with (length t + 1)%nat by lia.
    by rewrite <- app_assoc, drop_app_add'.
  - exists g'. split; [intros fuel; by rewrite (obey_command fuel 88 _ write_memory_binary)|].
    rewrite Em, take_ge in Eg' by lia.
    assert (Hput := put_bytes_ok (ram a) base bs). rewrite <- Em in Hput at 1. destruct (Hput Hmem) as [Hok Hsz].
    split; [done|]. rewrite Eg'. split.
    { apply represents_set_mem; [by do 2 apply represents_alloc|done|]. by rewrite Hsz, <- Em. }
    simpl. by rewrite Hsz.
Qed.
End commands.

(** ** Loading a program *)

(** The bytes of words in the byte order of the target. *)
Definition code_bytes (be : bool) (ws : list Z) : list Z :=
  flat_map (fun w => word_byte be w <$> [0; 1; 2; 3]) ws.

Lemma length_code_bytes be ws : length (code_bytes be ws) = (4 * length ws)%nat.
Proof. induction ws as [|w ws IH]; simpl in *; [done|]. rewrite IH. lia. Qed.

Lemma code_bytes_lookup be ws k w j :
  ws !! k = Some w -> 0 <= j < 4 ->
  code_bytes be ws !! Z.to_nat (4 * Z.of_nat k + j) = Some (word_byte be w j).
Proof.
  intros Hk Hj. revert k Hk. induction ws as [|w' ws IH]; intros [|k] Hk; try done.
  - injection Hk as ->. assert (Hj' : j = 0 \/ j = 1 \/ j = 2 \/ j = 3) by lia. by destruct_or! Hj'; subst j.
  - replace (Z.to_nat (4 * Z.of_nat (S k) + j)) with (4 + Z.to_nat (4 * Z.of_nat k + j))%nat by lia.
    by apply IH.
Qed.

Lemma code_bytes_u8 be ws : Forall is_u8 (code_bytes be ws).
Proof.
  apply Forall_flat_map, Forall_forall. intros w _. simpl. repeat constructor; apply u8_range.
Qed.

Lemma is_be_put_bytes mm p bs : is_be (put_bytes mm p bs) = is_be mm.
Proof. revert mm p. induction bs as [|b bs IH]; intros mm p; simpl; [done|]. by rewrite IH. Qed.

Lemma loaded_put base p a :
  mem_ok (ram a) -> 0 <= base -> base mod 4 = 0 -> base + 4 * Z.of_nat (length (code p)) < 2 ^ 32 ->
  base + 4 * Z.of_nat (length (code p)) <= size (ram a) -> Forall is_u32 (code p) ->
  loaded base p (set_ram (put_bytes (ram a) base (code_bytes (nz (is_be (ram a))) (code p))) a).
Proof.
  intros Hm Hb H4 Hlt Hle Hu. destruct (put_bytes_ok (ram a) base (code_bytes (nz (is_be (ram a))) (code p)) Hm) as [_ Hs].
  split; [done|]. split; [done|]. split; [done|]. split; [by simpl; rewrite Hs|]. simpl ram.
  intros k w Hk. pose proof (lookup_lt_Some _ _ _ Hk) as Hlk. pose proof (Forall_lookup_1 _ _ _ _ Hu Hk) as Hw.
  destruct (Hm) as (_ & Hsz & _). set (be := nz (is_be (ram a))).
  rewrite (word_at_frame (put_word (ram a) (base + 4 * Z.of_nat k) w)); [|by rewrite is_be_put_bytes|].
  - apply word_at_put_word; [lia|lia|done].
  - intros j Hj. rewrite put_bytes_at; [|done|done|rewrite length_code_bytes; lia|apply code_bytes_u8].
    rewrite length_code_bytes.
    rewrite (proj2 (andb_true_iff _ _)) by (rewrite Z.leb_le, Z.ltb_lt; lia).
    replace (base + 4 * Z.of_nat k + j - base) with (4 * Z.of_nat k + j) by lia.
    rewrite (code_bytes_lookup be (code p) k w j Hk Hj). simpl. symmetry. apply byte_at_put_word; lia.
Qed.

(** ** The session *)

(** The characters that gdb escapes in binary data. *)
Definition gdb_esc (b : Z) : bool := (b =? 35) || (b =? 36) || (b =? 42) || (b =? 125).

Lemma escaped_ok bs : Forall (fun c => c <> 35 /\ c <> 36) (flat_map (escape gdb_esc) bs).
Proof.
  apply Forall_flat_map, Forall_forall. intros b _. unfold escape. destruct (gdb_esc b) eqn:E.
  - unfold gdb_esc in E. rewrite !orb_true_iff, !Z.eqb_eq in E.
    destruct_or! E; subst b; apply (bool_decide_eq_true_1 _); vm_compute; reflexivity.
  - unfold gdb_esc in E. rewrite !orb_false_iff, !Z.eqb_neq in E. apply Forall_singleton; tauto.
Qed.

(** The values given to registers, in this order. *)
Definition write_registers (rs : list (Z * Z)) (a : arch) : arch := fold_left (fun a rv => set_R rv.1 rv.2 a) rs a.

Definition assignments (rs : list (Z * Z)) : list message :=
  flat_map (fun rv => [Command (80 :: hex_char rv.1 :: 61 :: hex_word rv.2); Ack]) rs.

(** gdb loads the words [ws], announced by [t], gives values to registers and
    continues; it acknowledges every answer. *)
Definition session (be : bool) (t ws : list Z) (rs : list (Z * Z)) : list message :=
  [Command (88 :: t ++ 58 :: flat_map (escape gdb_esc) (code_bytes be ws)); Ack] ++ assignments rs ++ [Command [99]].

Definition register_ok (rv : Z * Z) : Prop := 0 <= rv.1 < 16 /\ is_u32 rv.2.

Lemma hex_char_plain d : 0 <= d < 16 -> hex_char d <> 35 /\ hex_char d <> 36.
Proof. intros Hd. pose proof (hex_char_range d Hd). lia. Qed.

Lemma hex_word_plain v : Forall (fun c => c <> 35 /\ c <> 36) (hex_word v).
Proof.
  assert (Hb : forall x, is_u8 x -> Forall (fun c => c <> 35 /\ c <> 36) (hex_byte x)).
  { intros x Hx. unfold is_u8 in Hx. repeat constructor; apply hex_char_plain; Z.div_mod_to_equations; lia. }
  unfold hex_word. repeat (apply Forall_app; split); apply Hb, u8_range.
Qed.

Lemma session_ok be t ws rs base n :
  announces t base n -> Forall register_ok rs -> Forall message_ok (session be t ws rs).
Proof.
  intros [Ht _] Hrs. constructor; [|constructor; [done|]].
  - simpl. constructor; [done|]. apply Forall_app. split.
    + eapply Forall_impl; [exact Ht|]. intros x (? & ? & ? & ?). done.
    + constructor; [done|apply escaped_ok].
  - apply Forall_app. split; [|by repeat constructor].
    apply Forall_flat_map. eapply Forall_impl; [exact Hrs|]. intros [r v] [Hr _].
    constructor; [|by repeat constructor]. simpl. constructor; [done|].
    constructor; [by apply hex_char_plain|]. constructor; [done|apply hex_word_plain].
Qed.

Section session.
Context `{Hh : Host} `{!RotateHost} `{Wire}.

Lemma obey_assignments rs g a :
  debugs g a -> Forall register_ok rs ->
  exists g', (forall fuel xs, obey_all fuel (assignments rs ++ xs) g = obey_all fuel xs g') /\
    debugs g' (write_registers rs a).
Proof.
  intros Hd Hrs. revert g a Hd. induction Hrs as [|[r v] rs [Hr Hv] _ IH]; intros g a Hd; [by exists g|].
  destruct (command_P g a r v Hd Hr Hv) as (g0 & E0 & Hd0). destruct (obey_ack g0 _ Hd0) as (g1 & E1 & Hd1).
  destruct (IH g1 _ Hd1) as (g' & E' & Hd').
  exists g'. split; [|done]. intros fuel xs. rewrite <- E'.
  cbn [assignments flat_map app obey_all]. rewrite (bind_ret _ _ _ _ _ (E0 fuel)). by rewrite (bind_ret _ _ _ _ _ (E1 fuel)).
Qed.

(** The state after the commands that load and prepare the program. *)
Definition prepared (base : Z) (p : program) (rs : list (Z * Z)) (a : arch) : arch :=
  write_registers rs (set_ram (put_bytes (ram a) base (code_bytes (nz (is_be (ram a))) (code p))) a).

Lemma obey_session g a t base p rs c :
  debugs g a -> announces t base (4 * Z.of_nat (length (code p))) -> 0 <= base ->
  base + 4 * Z.of_nat (length (code p)) <= size (ram a) -> Forall register_ok rs ->
  halts (prepared base p rs a) c ->
  exists n, forall fuel, (n < fuel)%nat ->
    exists g', obey_all fuel (session (nz (is_be (ram a))) t (code p) rs) g = Exit 0 g' /\
      exists s1, machine_of g' ≡ s1 /\ represents s1 c.
Proof.
  intros Hd Ht Hb Hs Hrs Hc. set (bs := code_bytes (nz (is_be (ram a))) (code p)).
  assert (Hl : Z.of_nat (length bs) = 4 * Z.of_nat (length (code p))) by (unfold bs; rewrite length_code_bytes; lia).
  destruct (command_X g a t base gdb_esc bs Hd) as (g0 & E0 & Hd0); [by rewrite Hl|done|done|by rewrite Hl|apply code_bytes_u8|].
  destruct (obey_ack g0 _ Hd0) as (g1 & E1 & Hd1).
  destruct (obey_assignments rs g1 _ Hd1 Hrs) as (g2 & E2 & Hd2).
  destruct (Hd2) as (Hg2 & _).
  apply (debugs_accepted [99]) in Hd2 as (Hg3 & Hrep & _).
  destruct (cont_halts _ _ c Hg3 Hrep Hc) as (n & Hn). exists n. intros fuel Hf.
  destruct (Hn fuel (0 :: behind [99]) Hf) as (g' & E & Hs1). exists g'. split; [|done].
  unfold session. cbn [app obey_all]. fold bs. rewrite (bind_ret _ _ _ _ _ (E0 fuel)), (bind_ret _ _ _ _ _ (E1 fuel)). rewrite E2. cbn [obey_all]. apply bind_exit.
  by rewrite (obey_command fuel 99 [] (cont fuel)).
Qed.
End session.

(** ** What the program starts from *)

Lemma write_registers_other rs a r : r ∉ rs.*1 -> R (write_registers rs a) r = R a r.
Proof.
  revert a. induction rs as [|[r' v] rs IH]; intros a Hr; [done|]. simpl in Hr. apply not_elem_of_cons in Hr as [Hne Hr].
  unfold write_registers in *. simpl. rewrite IH by done. simpl. by rewrite (proj2 (Z.eqb_neq _ _) Hne).
Qed.

Lemma write_registers_at rs a r v : NoDup rs.*1 -> (r, v) ∈ rs -> R (write_registers rs a) r = v.
Proof.
  revert a. induction rs as [|[r' v'] rs IH]; intros a Hnd Hin; [by apply not_elem_of_nil in Hin|].
  simpl in Hnd. apply NoDup_cons in Hnd as [Hnin Hnd]. apply elem_of_cons in Hin as [[= -> ->]|Hin].
  - change (R (write_registers rs (set_R r' v' a)) r' = v'). rewrite write_registers_other by done.
    simpl. by rewrite Z.eqb_refl.
  - by apply (IH (set_R r' v' a)).
Qed.

Lemma write_registers_ram rs a : ram (write_registers rs a) = ram a.
Proof. revert a. induction rs as [|rv rs IH]; intros a; [done|]. apply (IH (set_R rv.1 rv.2 a)). Qed.

Lemma write_registers_range rs a r :
  Forall register_ok rs -> is_u32 (R a r) -> is_u32 (R (write_registers rs a) r).
Proof.
  intros Hrs. revert a. induction Hrs as [|[r' v] rs [_ Hv] _ IH]; intros a Ha; [done|].
  apply (IH (set_R r' v a)). simpl. by destruct (r =? r').
Qed.

Section run.
Context `{Hh : Host} `{!RotateHost} `{Wire}.

Lemma session_runs pd t base p rs (Q : arch -> Prop) :
  let s := machine_of (gdb pd) in
  err_len pd = 0 -> gdb_ok (gdb pd) -> machine_ok s -> size (mem s) mod 4 = 0 -> size (mem s) < 2 ^ 32 ->
  announces t base (4 * Z.of_nat (length (code p))) -> 0 <= base -> base mod 4 = 0 ->
  base + 4 * Z.of_nat (length (code p)) <= size (mem s) -> Forall is_u32 (code p) ->
  Forall register_ok rs -> NoDup rs.*1 ->
  (forall a, loaded base p a -> (forall r, 0 <= r < 16 -> is_u32 (R a r)) ->
     (forall r v, (r, v) ∈ rs -> R a r = v) -> exists c, halts a c /\ Q c) ->
  exists n, forall fuel, (n < fuel)%nat ->
    exists pd' s1 c, yylex fuel (concat (encode <$> session (nz (is_be (mem s))) t (code p) rs)) pd = Exit 0 pd' /\
      machine_of (gdb pd') ≡ s1 /\ represents s1 c /\ Q c.
Proof.
  intros s E0 Hg Hok Hm4 Hsz Ht Hb H4 Hs Hu Hrs Hnd HQ. destruct (Hok) as (_ & Hmem & _).
  pose proof (represents_abstract s Hok Hm4) as Hrep.
  destruct (HQ (prepared base p rs (abstract s))) as (c & Hc & HQc).
  - apply (loaded_same base p (set_ram (put_bytes (mem s) base (code_bytes (nz (is_be (mem s))) (code p))) (abstract s)));
      [|apply write_registers_ram]. apply (loaded_put base p (abstract s)); try done. simpl. lia.
  - intros r Hr. apply write_registers_range; [done|]. apply rget_range, Hok.
  - intros r v Hin. by apply write_registers_at.
  - destruct (obey_session (gdb pd) (abstract s) t base p rs c) as (n & Hn); try done.
    exists n. intros fuel Hf. destruct (Hn fuel Hf) as (g' & E & s1 & Es & Hrep1).
    exists (lset gdb_lens g' pd), s1, c. split; [|done].
    rewrite yylex_session by (done || by eapply session_ok). unfold in_gdb, zoom. cbn [lget gdb_lens].
    change (mem s) with (ram (abstract s)). by rewrite E.
Qed.

(** C4: From the connection to the processor.  Whatever is proved of a program on
    the abstract machine, that it ends in a state with the property [Q] when it is
    loaded and the registers have the values [rs], holds of the simulator under gdb:
    on the characters of a session that loads its words, gives the registers these
    values and continues, it exits with status 0 in a state with [Q], on hosts and
    targets of either byte order and whatever is traced. *)
Theorem gdb_runs_program pd t base p rs (Q : arch -> Prop) :
  let s := machine_of (gdb pd) in
  err_len pd = 0 -> gdb_ok (gdb pd) -> machine_ok s -> size (mem s) mod 4 = 0 -> size (mem s) < 2 ^ 32 ->
  announces t base (4 * Z.of_nat (length (code p))) -> 0 <= base -> base mod 4 = 0 ->
  base + 4 * Z.of_nat (length (code p)) <= size (mem s) -> Forall is_u32 (code p) ->
  Forall register_ok rs -> NoDup rs.*1 ->
  (forall a, loaded base p a -> (forall r, 0 <= r < 16 -> is_u32 (R a r)) ->
     (forall r v, (r, v) ∈ rs -> R a r = v) -> exists c, halts a c /\ Q c) ->
  exists n, forall fuel, (n < fuel)%nat ->
    exists pd' s1 c, yylex fuel (concat (encode <$> session (nz (is_be (mem s))) t (code p) rs)) pd = Exit 0 pd' /\
      machine_of (gdb pd') ≡ s1 /\ represents s1 c /\ Q c.
Proof. apply session_runs. Qed.
End run.

(** ** Witnesses *)

#[local] Existing Instance wire_up.

(** A simulator with 128 bytes of big-endian memory, every trace on. *)
Definition machine_blank : machine := Machine (ArmCore 0 (aset regs_usr CPSR 0x10)) (Memory (replicate 132 0) 128 1) trace_on 0.
Definition parser_blank : parser_data := Parser (gdb_init_data machine_blank (replicate 1024 0) no_messages) (replicate 1024 0) 0.

Lemma machine_blank_ok : machine_ok machine_blank /\ mem_roomy 3 (mem machine_blank).
Proof.
  assert (Hm : mem_ok (mem machine_blank)).
  { split; [apply (bool_decide_eq_true_1 _); vm_compute; reflexivity|]. split; cbn; lia. }
  split; [|split; [done|split; [done|cbn; lia]]].
  split; [split; [reflexivity|apply (bool_decide_eq_true_1 _); vm_compute; reflexivity]|].
  split; [done|]. split; [cbn; unfold is_u32; lia|apply trace_on_ok].
Qed.

Lemma factorial_of_8 a :
  loaded 0x20 factorial a -> (forall r, 0 <= r < 16 -> is_u32 (R a r)) ->
  (forall r v, (r, v) ∈ [(5, 8); (15, 0x24)] -> R a r = v) -> exists c, halts a c /\ R c 7 = 40320.
Proof.
  intros Hl Hu Hrs. destruct (factorial_runs 0x20 8 a Hl) as (c & Hc & H7).
  - apply Hrs. apply (bool_decide_eq_true_1 _). vm_compute. reflexivity.
  - apply Hrs. apply (bool_decide_eq_true_1 _). vm_compute. reflexivity.
  - lia.
  - cbn. unfold is_u32. lia.
  - exact Hu.
  - exists c. split; [exact Hc|]. rewrite H7. vm_compute. reflexivity.
Qed.

(** gdb loads the factorial program at 0x20, puts 8 into r5, starts it at [fact]. *)
Lemma gdb_runs_program_witness :
  exists n, forall fuel, (n < fuel)%nat ->
    exists pd', yylex (H := host0) fuel
        (concat (encode <$> session true (chars "20,54") factorial_code [(5, 8); (15, 0x24)])) parser_blank = Exit 0 pd' /\
      rval (machine_of (gdb pd')) 7 = 40320.
Proof.
  destruct (gdb_runs_program (Hh := host0) parser_blank (chars "20,54") 0x20 factorial [(5, 8); (15, 0x24)]
              (fun c => R c 7 = 40320)) as (n & Hn).
  - reflexivity.
  - split_and!; reflexivity || done || apply no_messages_ok.
  - apply machine_blank_ok.
  - apply machine_blank_ok.
  - reflexivity.
  - split; [apply (bool_decide_eq_true_1 _); vm_compute; reflexivity|]. intros rest. reflexivity.
  - lia.
  - reflexivity.
  - vm_compute. congruence.
  - apply (bool_decide_eq_true_1 _). vm_compute. reflexivity.
  - repeat constructor; simpl; unfold is_u32; lia.
  - apply (bool_decide_eq_true_1 _). vm_compute. reflexivity.
  - exact factorial_of_8.
  - exists n. intros fuel Hf. destruct (Hn fuel Hf) as (pd' & s1 & c & E & Es & Hrep & H7).
    exists pd'. split; [exact E|]. rewrite (final_value _ s1 c 7 Es Hrep ltac:(lia)). exact H7.
Defined.
