(* ===== verification/GdbRegisters.v ===== *)
(** * All registers at once: the commands g and G of gdb

    The answer to g is the sixteen registers, twenty-five words of [x] for the floating
    point registers that the simulator does not have, and the CPSR; G takes a text of
    the same form. *)
From S2P Require Import Prelude CInt Constants Memory Registers Format Trace Core CoreFacts Exception Branch Shifter DataProcessing LoadStore Safety Instruction CString Debug DebugMessages GdbProtocol Scanner Continue Isa Programs GdbRun.

#[local] Open Scope string_scope.
#[local] Open Scope Z_scope.

Definition no_register : list Z := chars "xxxxxxxx".

(** The text for the registers [vs] and the status word [c]. *)
Definition registers_text (vs : list Z) (c : Z) : list Z :=
  flat_map hex_word vs ++ concat (replicate 25 no_register) ++ hex_word c.

Section registers.
Context `{Hh : Host} `{!RotateHost} `{Wire}.

(** ** Writing text into the packet *)

(** [c] writes the text [t] at the position it is given and touches nothing before
    it, in a machine [s]. *)
Definition types (s : machine) (c : Z -> M gdb_protocol_data unit) (t : list Z) : Prop :=
  forall g l1 tail, machine_of g = s -> packet g = (l1 ++ tail)%list -> (length t < length tail)%nat ->
  exists tail', c (Z.of_nat (length l1)) g = Ret tt (set_packet (l1 ++ t ++ 0 :: tail')%list g) /\
    length (0 :: tail') = (length tail - length t)%nat.

Lemma types_uint32 s v : types s (fun i => write_uint32 i v) (hex_word v).
Proof.
  intros g l1 tail _ Hp Hl. change (length (hex_word v)) with 8%nat in *.
  do 8 (destruct tail as [|?c tail]; [simpl in Hl; lia|]). destruct tail as [|y tail]; [simpl in Hl; lia|].
  exists tail. split; [|simpl; lia]. by apply (write_uint32_q g l1 [c; c0; c1; c2; c3; c4; c5; c6] y tail).
Qed.

Lemma types_no_register s : types s (fun i => sprintf_at i no_register) no_register.
Proof.
  intros g l1 tail _ Hp Hl. change (length no_register) with 8%nat in *.
  do 9 (destruct tail as [|?c tail]; [simpl in Hl; lia|]).
  exists tail. split; [|simpl; lia]. unfold sprintf_at.
  by rewrite (put_chars_mid g l1 [c; c0; c1; c2; c3; c4; c5; c6; c7] (no_register ++ [0]) tail _ eq_refl Hp eq_refl).
Qed.

Lemma types_ext s c c' t : (forall i g, machine_of g = s -> c i g = c' i g) -> types s c t -> types s c' t.
Proof.
  intros E Hc g l1 tail Hs Hp Hl. destruct (Hc g l1 tail Hs Hp Hl) as (tail' & E' & ?).
  exists tail'. by rewrite <- E.
Qed.

(** One text after the other, eight characters each. *)
Lemma types_loop {A} s (h : A -> Z -> M gdb_protocol_data Z) (f : A -> Z -> M gdb_protocol_data unit)
    (t : A -> list Z) (xs : list A) g l1 tail :
  (forall x i g, h x i g = (f x i ;;; ret (i + 8)) g) ->
  (forall x, In x xs -> types s (f x) (t x) /\ length (t x) = 8%nat) ->
  machine_of g = s -> packet g = (l1 ++ tail)%list -> (8 * length xs < length tail)%nat ->
  exists tail',
    for_each xs h (Z.of_nat (length l1)) g =
    Ret (Z.of_nat (length l1) + 8 * Z.of_nat (length xs)) (set_packet (l1 ++ flat_map t xs ++ tail')%list g) /\
    length tail' = (length tail - 8 * length xs)%nat.
Proof.
  intros Eh. revert g l1 tail. induction xs as [|x xs IH]; intros g l1 tail Hf Hs Hp Hl.
  { exists tail. split; [|simpl; lia]. simpl. rewrite <- Hp, Z.add_0_r. by destruct g. }
  destruct (Hf x ltac:(by left)) as [Hx H8]. simpl in Hl.
  destruct (Hx g l1 tail Hs Hp ltac:(lia)) as (t1 & E & L1).
  set (g1 := set_packet (l1 ++ t x ++ 0 :: t1)%list g) in *.
  destruct (IH g1 (l1 ++ t x)%list (0 :: t1)) as (t2 & E2 & L2).
  - intros y Hy. apply Hf. by right.
  - done.
  - unfold g1. simpl. by rewrite <- app_assoc.
  - rewrite L1, H8. lia.
  - exists t2. split; [|rewrite L2, L1, H8; simpl; lia]. cbn [for_each].
    rewrite (bind_ret _ _ _ (Z.of_nat (length l1) + 8) g1) by (by rewrite Eh, (bind_ret _ _ _ _ _ E)).
    replace (Z.of_nat (length l1) + 8) with (Z.of_nat (length (l1 ++ t x))) by (rewrite length_app, H8; lia).
    rewrite E2. f_equal; [rewrite length_app, H8; simpl; lia|].
    unfold g1. rewrite set_packet_twice. f_equal. simpl. by rewrite <- !app_assoc.
Qed.
(** ** The command g *)

(** A register read with the trace switched off. *)
Lemma reads_register s n r :
  quiet s -> regs_ok (regs s) -> 0 <= r < 16 ->
  at_line gdb_file n (arm_read_register r) s = Ret (rval s r) s.
Proof. intros Hq Hr Hrr. apply at_line_ret; [|done..]. by apply arm_read_register_q. Qed.

Lemma in_machine_same {A} (c : M machine A) g x : c (machine_of g) = Ret x (machine_of g) -> in_machine c g = Ret x g.
Proof. intros E. rewrite (in_machine_q c g x _ E). by destruct g. Qed.

Lemma types_register s n r :
  quiet s -> regs_ok (regs s) -> 0 <= r < 16 ->
  types s (fun i => let! v := in_machine (at_line gdb_file n (arm_read_register r)) in write_uint32 i v)
    (hex_word (rval s r)).
Proof.
  intros Hq Hr Hrr. apply (types_ext s (fun i => write_uint32 i (rval s r))); [|apply types_uint32].
  intros i g Hg. symmetry. rewrite (bind_ret _ _ g (rval s r) g); [done|].
  apply in_machine_same. rewrite Hg. by apply reads_register.
Qed.

Definition register_values (s : machine) : list Z := (rval s <$> (Z.of_nat <$> seq 0 15)) ++ [fetch_address s].

Lemma registers_text_nonzero vs c : Forall (fun c => c <> 0) (registers_text vs c).
Proof.
  unfold registers_text. apply Forall_app. split.
  { apply Forall_flat_map, Forall_forall. intros v _. apply hex_word_nonzero. }
  apply Forall_app. split; [|apply hex_word_nonzero]. apply (bool_decide_eq_true_1 _). vm_compute. reflexivity.
Qed.

(** What is written between the switches of the trace. *)
Lemma types_registers g x p :
  let s := machine_of g in
  quiet s -> regs_ok (regs s) -> packet g = x :: p -> length p = 1023%nat ->
  exists rest, length rest = 686%nat /\
    (let! position := for_each (Z.of_nat <$> seq 0 15)
       (fun i position =>
          let! v := in_machine (at_line gdb_file 217 (arm_read_register i)) in
          write_uint32 position v ;;;
          ret (position + 8)) 1 in
     let! pc := in_machine (at_line gdb_file 221 (arm_read_register 15)) in
     write_uint32 position (u32 (pc - 4)) ;;;
     let! position := for_each (Z.of_nat <$> seq 0 24)
       (fun _ position => sprintf_at position (chars "xxxxxxxx") ;;; ret (position + 8))
       (position + 8) in
     sprintf_at position (chars "xxxxxxxx") ;;;
     let! cpsr := in_machine (at_line gdb_file 235 arm_read_cpsr) in
     write_uint32 (position + 8) cpsr) g =
    Ret tt (set_packet (x :: registers_text (register_values s) (cpsr_of (regs s)) ++ 0 :: rest)%list g).
Proof.
  intros s Hq Hr Hp Hl.
  destruct (types_loop s (fun i position => let! v := in_machine (at_line gdb_file 217 (arm_read_register i)) in
              write_uint32 position v ;;; ret (position + 8)) _ (fun i => hex_word (rval s i))
              (Z.of_nat <$> seq 0 15) g [x] p
              ltac:(intros; symmetry; apply bind_assoc)) as (t1 & E1 & L1); [|done|done|simpl; lia|].
  { intros r Hin. apply in_map_iff in Hin as (k & <- & Hk%in_seq). split; [apply types_register; done || lia|done]. }
  rewrite (bind_ret _ _ _ _ _ E1). set (T1 := flat_map _ _) in *. set (g1 := set_packet _ g) in *.
  rewrite (bind_ret _ _ _ (rval s 15) g1) by (apply in_machine_same, reads_register; done || lia).
  rewrite rval_15. fold (fetch_address s).
  destruct (types_uint32 s (fetch_address s) g1 ([x] ++ T1)%list t1) as (t2 & E2 & L2);
    [done|done|simpl in *; lia|].
  set (T2 := (([x] ++ T1) ++ hex_word (fetch_address s))%list).
  replace (Z.of_nat (length ([x] ++ T1))) with (1 + 8 * 15) in E2 by done.
  change (Z.of_nat (length [x]) + 8 * Z.of_nat (length (Z.of_nat <$> seq 0 15))) with (1 + 8 * 15).
  rewrite (bind_ret _ _ _ _ _ E2). unfold g1. rewrite set_packet_twice. set (g2 := set_packet _ g).
  destruct (types_loop s (fun _ position => sprintf_at position (chars "xxxxxxxx") ;;; ret (position + 8))
              (fun _ i => sprintf_at i no_register) (fun _ => no_register) (Z.of_nat <$> seq 0 24) g2 T2 (0 :: t2)
              ltac:(done)) as (t3 & E3 & L3); [intros; split; [apply types_no_register|done]|done| |simpl in *; lia|].
  { unfold T2. by rewrite <- app_assoc. }
  change (1 + 8 * 15 + 8) with (Z.of_nat (length T2)). rewrite (bind_ret _ _ _ _ _ E3).
  unfold g2. rewrite set_packet_twice. set (T3 := flat_map _ (Z.of_nat <$> seq 0 24)) in *. set (g3 := set_packet _ g).
  destruct (types_no_register s g3 (T2 ++ T3)%list t3) as (t4 & E4 & L4);
    [done|by rewrite <- app_assoc|simpl in *; lia|].
  change (Z.of_nat (length T2) + 8 * Z.of_nat (length (Z.of_nat <$> seq 0 24))) with (Z.of_nat (length (T2 ++ T3))).
  fold no_register. rewrite (bind_ret _ _ _ _ _ E4). unfold g3. rewrite set_packet_twice. set (g4 := set_packet _ g).
  rewrite (bind_ret _ _ _ (cpsr_of (regs s)) g4) by (apply in_machine_same, at_line_ret; [by apply arm_read_cpsr_q|done..]).
  destruct (types_uint32 s (cpsr_of (regs s)) g4 ((T2 ++ T3) ++ no_register)%list (0 :: t4)) as (t5 & E5 & L5);
    [done|unfold g4; by rewrite <- (app_assoc (T2 ++ T3))|simpl in *; lia|].
  change (Z.of_nat (length (T2 ++ T3)) + 8) with (Z.of_nat (length ((T2 ++ T3) ++ no_register))). rewrite E5.
  exists t5. split; [simpl in *; lia|].
  unfold g4. rewrite set_packet_twice. do 2 f_equal.
Qed.

Definition answer (s : machine) : list Z := registers_text (register_values s) (cpsr_of (regs s)).

Lemma length_registers_text vs c : length vs = 16%nat -> length (registers_text vs c) = 336%nat.
Proof. intros Hl. do 17 (destruct vs as [|?v vs]; try done). Qed.

Lemma read_general_registers_q g data :
  gdb_ok g -> regs_ok (regs (machine_of g)) ->
  exists g', read_general_registers data g = Ret tt g' /\ fd g' = (fd g ++ [frame (answer (machine_of g))])%list /\
    gdb_ok g' /\ machine_of g' = trace_back (trace_off (machine_of g)).
Proof.
  intros Hg Hr. destruct (Hg) as (Hl & Ho & Ha & Hlog). destruct (packet g) as [|x p] eqn:Ep; [done|].
  set (g0 := set_machine (trace_off (machine_of g)) g).
  destruct (types_registers g0 x p ltac:(done) Hr Ep ltac:(simpl in Hl; lia)) as (rest & L & E).
  change (registers_text (register_values (machine_of g0)) (cpsr_of (regs (machine_of g0)))) with (answer (machine_of g)) in E.
  set (T := answer (machine_of g)) in *. set (g1 := set_packet (x :: T ++ 0 :: rest)%list g0) in *.
  unfold read_general_registers.
  rewrite (bind_ret _ _ _ tt (set_machine (trace_back (machine_of g1)) g1)) by (by apply traceless_q).
  assert (Hg1 : gdb_ok (set_machine (trace_back (machine_of g1)) g1)).
  { split_and!; try done. change (length (x :: T ++ 0 :: rest) = 1024%nat).
    cbn [length]. rewrite length_app. unfold T, answer. rewrite length_registers_text by done. simpl. by rewrite L. }
  destruct (gdb_send_buffer_q _ x T rest Hg1) as (g' & E' & Hrep); [apply registers_text_nonzero|done|by rewrite L; lia|].
  exists g'. split; [done|]. destruct (Hrep) as (Ef & _ & _ & Em & _). split; [done|].
  split; [by apply (replied_ok _ _ _ Hg1 Hrep)|done].
Qed.

(** ** The command G *)

Lemma until_nul_nonzero d rest s :
  Forall (fun c => c <> 0) d -> until_nul rest = Some s -> until_nul (d ++ rest) = Some (d ++ s)%list.
Proof. intros Hd Hs. induction Hd as [|c d Hc _ IH]; [done|]. simpl. by rewrite (proj2 (Z.eqb_neq _ _) Hc), IH. Qed.

(** A word of any eight characters. *)
Lemma read_any_loop ks d rest s value bytes (g : gdb_protocol_data) :
  length d = (2 * length ks)%nat -> Forall (fun c => c <> 0) d -> until_nul rest = Some s ->
  exists value' bytes', for_each ks
    (fun i l =>
       let '(data, value, bytes) := l in
       let! s := cstring data in
       let value := match scan_hex 2 s with Some (x, _) => x | None => value end in
       ret (drop 2 data, value, aset bytes i (u8 value)))
    (d ++ rest, value, bytes)%list g = Ret (rest, value', bytes') g.
Proof.
  intros Hl Hd Hs. revert d value bytes Hl Hd. induction ks as [|k ks IH]; intros d value bytes Hl Hd.
  { destruct d; [|done]. by eexists _, _. }
  destruct d as [|a [|b d]]; simpl in Hl; try lia. cbn [for_each].
  unfold cstring at 1. rewrite (until_nul_nonzero _ _ s Hd Hs). unfold bind at 1 2, ret at 1 2.
  inversion Hd as [|? ? _ Hd']; subst. inversion Hd'; subst. apply IH; [lia|done].
Qed.

Lemma read_uint32_any g d rest s :
  length d = 8%nat -> Forall (fun c => c <> 0) d -> until_nul rest = Some s ->
  exists v, read_uint32 (d ++ rest) g = Ret v (set_machine (alloc (alloc (machine_of g))) g).
Proof.
  intros Hl Hd Hs. unfold read_uint32.
  rewrite (bind_ret _ _ _ (val0 (machine_of g)) (set_machine (alloc (machine_of g)) g)) by done.
  rewrite (bind_ret _ _ _ (val0 (alloc (machine_of g)))
    (set_machine (alloc (alloc (machine_of g))) g)) by done.
  edestruct (read_any_loop byte_order d rest s) as (value & bytes & E); [|done|done|].
  { rewrite Hl, byte_order_host. by destruct host_big_endian. }
  rewrite (bind_ret _ _ _ _ _ E). by eexists.
Qed.
(** [g], with the trace switched off, debugs a processor in the state [a]; nothing has
    been sent since [g0]. *)
Definition silent (g0 g : gdb_protocol_data) (a : arch) : Prop :=
  quiet (machine_of g) /\ represents (machine_of g) a /\ same_wire g0 g /\
  mode_of (regs (machine_of g)) = mode_of (regs (machine_of g0)).

Lemma silent_tell g0 g a t : silent g0 g a -> silent g0 (tell t g) a.
Proof.
  intros (Hq & Hrep & (W1 & W2 & W3 & W4) & Hm). split; [done|]. split; [done|]. split; [|done].
  split_and!; try done. simpl. by rewrite files_said.
Qed.

Lemma silent_log g0 g a : silent g0 g a -> log_ok (log g0) -> log_ok (log g).
Proof. intros (_ & _ & (_ & _ & _ & E) & _) [l Hl]. exists l. by rewrite E. Qed.

Lemma silent_read g0 g a :
  silent g0 g a -> silent g0 (set_machine (alloc (alloc (machine_of g))) g) a.
Proof. intros (Hq & Hrep & Hw). split; [done|]. split; [by do 2 apply represents_alloc|done]. Qed.

Section texts.
Context (g0 : gdb_protocol_data) (data : list Z) (Hlog : log_ok (log g0)).

(** The words of the registers. *)
Lemma write_loop n rs vs rest s g a l1 :
  data = (l1 ++ flat_map hex_word vs ++ rest)%list -> length rs = length vs ->
  Forall (fun r => 0 <= r < 16) rs -> Forall is_u32 vs -> until_nul rest = Some s -> silent g0 g a ->
  exists g',
    for_each rs (fun i position =>
      let! value := read_uint32 (drop (Z.to_nat position) data) in
      in_machine (at_line gdb_file n (arm_write_register i value)) ;;;
      gdb_debug 298 (ret (chars ("r" +:+ fmt_02d i +:+ " = " +:+ fmt_08x value +:+ "   "))) ;;;
      when (i mod 4 =? 3) (gdb_debug_raw (ret (chars newline))) ;;;
      ret (position + 8)) (Z.of_nat (length l1)) g =
    Ret (Z.of_nat (length (l1 ++ flat_map hex_word vs))) g' /\ silent g0 g' (write_registers (zip rs vs) a).
Proof.
  intros Hd Hl Hrs Hvs Hs. revert vs g a l1 Hd Hl Hvs.
  induction Hrs as [|r rs Hr _ IH]; intros [|v vs] g a l1 Hd Hl Hvs Hg; try done.
  { exists g. split; [by rewrite app_nil_r|done]. }
  apply Forall_cons in Hvs as [Hv Hvs']. cbn [for_each flat_map] in *.
  assert (Ed : drop (Z.to_nat (Z.of_nat (length l1))) data = (hex_word v ++ flat_map hex_word vs ++ rest)%list)
    by (by rewrite Hd, Nat2Z.id, drop_app_length, <- app_assoc).
  rewrite Ed.
  destruct (silent_read g0 g a Hg) as (Hq1 & Hrep1 & Hw1). set (g1 := set_machine _ g) in *.
  set (g2 := set_machine (upd_reg r v (machine_of g1)) g1).
  assert (Hg2 : silent g0 g2 (set_R r v a)).
  { split; [done|]. split; [by apply represents_upd_reg|]. destruct Hw1 as [Hw1 Hm1]. split; [done|].
    rewrite <- Hm1. apply mode_of_aset. apply slot_range. lia. }
  pose proof (silent_log _ _ _ Hg2 Hlog) as Hl2.
  set (g3 := tell (if r mod 4 =? 3 then chars newline else []) (tell (debug_head gdb_file 298 ++ chars ("r" +:+ fmt_02d r +:+ " = " +:+ fmt_08x v +:+ "   ")) g2)).
  assert (Hg3 : silent g0 g3 (set_R r v a)) by by apply silent_tell, silent_tell.
  rewrite (bind_ret _ _ _ (Z.of_nat (length l1) + 8) g3); cycle 1.
  { assert (Hn : Forall (fun c => c <> 0) (flat_map hex_word vs))
      by (apply Forall_flat_map, Forall_forall; intros; apply hex_word_nonzero).
    rewrite (bind_ret _ _ _ _ _ (read_uint32_q g v (flat_map hex_word vs ++ rest) _ Hv (until_nul_nonzero _ _ s Hn Hs))).
    rewrite (bind_ret _ _ _ tt g2); cycle 1.
    { apply in_machine_q, at_line_ret; [|done..]. apply arm_write_register_q; try done. apply Hrep1. }
    erewrite bind_ret by (apply gdb_debug_q; [done|reflexivity]).
    by erewrite bind_ret by (apply when_debug_raw_q; by apply log_ok_tell). }
  destruct (IH vs g3 (set_R r v a) (l1 ++ hex_word v)%list) as (g' & E & Hg'); try done.
  { by rewrite Hd, <- !app_assoc. } { simpl in Hl. lia. }
  exists g'. split; [|done].
  replace (Z.of_nat (length l1) + 8) with (Z.of_nat (length (l1 ++ hex_word v))) by (rewrite length_app; simpl; lia).
  rewrite E. by rewrite <- app_assoc.
Qed.

(** The words of registers that do not exist. *)
Lemma skip_one rest s g a l1 :
  data = (l1 ++ no_register ++ rest)%list -> until_nul rest = Some s -> silent g0 g a ->
  exists v g', read_uint32 (drop (Z.to_nat (Z.of_nat (length l1))) data) g = Ret v g' /\ silent g0 g' a.
Proof.
  intros Hd Hs Hg. destruct (read_uint32_any g no_register rest s eq_refl) as [v E]; [|done|].
  { apply (bool_decide_eq_true_1 _). vm_compute. reflexivity. }
  eexists v, _. split; [|by apply silent_read]. by rewrite Hd, Nat2Z.id, drop_app_length.
Qed.

Lemma skip_loop {A} (xs : list A) rest s g a l1 :
  data = (l1 ++ concat (replicate (length xs) no_register) ++ rest)%list -> until_nul rest = Some s -> silent g0 g a ->
  exists g',
    for_each xs (fun _ position => read_uint32 (drop (Z.to_nat position) data) ;;; ret (position + 8))
      (Z.of_nat (length l1)) g =
    Ret (Z.of_nat (length (l1 ++ concat (replicate (length xs) no_register)))) g' /\ silent g0 g' a.
Proof.
  intros Hd Hs. revert g l1 Hd. induction xs as [|x xs IH]; intros g l1 Hd Hg.
  { exists g. simpl. by rewrite app_nil_r. }
  assert (Hn : until_nul (concat (replicate (length xs) no_register) ++ rest) =
               Some (concat (replicate (length xs) no_register) ++ s)%list).
  { apply until_nul_nonzero; [|done]. apply Forall_concat, Forall_replicate.
    apply (bool_decide_eq_true_1 _). vm_compute. reflexivity. }
  cbn [length replicate concat] in Hd |- *. rewrite <- app_assoc in Hd.
  destruct (skip_one _ _ g a l1 Hd Hn Hg) as (v & g1 & E1 & Hg1).
  destruct (IH g1 (l1 ++ no_register)%list) as (g' & E & Hg'); [by rewrite <- app_assoc|done|].
  exists g'. split; [|done]. cbn [for_each].
  rewrite (bind_ret _ _ _ (Z.of_nat (length l1) + 8) g1) by (by rewrite (bind_ret _ _ _ _ _ E1)).
  replace (Z.of_nat (length l1) + 8) with (Z.of_nat (length (l1 ++ no_register))) by (rewrite length_app; simpl; lia).
  rewrite E. by rewrite <- app_assoc.
Qed.
End texts.

(** What the command does between the switches of the trace: the registers get the
    values, then the CPSR. *)
Lemma write_all_registers g0 a vs c u :
  let data := (registers_text vs c ++ 0 :: u)%list in
  log_ok (log g0) -> silent g0 g0 a -> length vs = 16%nat -> Forall is_u32 vs -> is_u32 c ->
  exists g t, silent g0 g (write_registers (zip (Z.of_nat <$> seq 0 16) vs) a) /\
    (let! position := for_each (Z.of_nat <$> seq 0 16)
       (fun i position =>
          let! value := read_uint32 (drop (Z.to_nat position) data) in
          in_machine (at_line gdb_file 297 (arm_write_register i value)) ;;;
          gdb_debug 298 (ret (chars ("r" +:+ fmt_02d i +:+ " = " +:+ fmt_08x value +:+ "   "))) ;;;
          when (i mod 4 =? 3) (gdb_debug_raw (ret (chars newline))) ;;;
          ret (position + 8)) 0 in
     let! position := for_each (Z.of_nat <$> seq 0 24)
       (fun _ position =>
          read_uint32 (drop (Z.to_nat position) data) ;;; ret (position + 8)) position in
     read_uint32 (drop (Z.to_nat position) data) ;;;
     let! value := read_uint32 (drop (Z.to_nat (position + 8)) data) in
     in_machine (at_line gdb_file 322 (arm_write_cpsr value)) ;;;
     gdb_debug 323 (ret (chars ("cpsr = " +:+ fmt_08x value +:+ newline)))) g0 =
    Ret tt (tell t (set_machine (upd_cpsr c (machine_of g)) g)).
Proof.
  intros data Hlog Hs0 Hl Hvs Hc. set (X := concat (replicate 24 no_register)).
  assert (Hdata : data = (flat_map hex_word vs ++ X ++ no_register ++ hex_word c ++ 0 :: u)%list).
  { unfold data, registers_text, X. by rewrite <- !app_assoc. }
  assert (Hu : until_nul (0 :: u) = Some []) by done.
  pose proof (until_nul_nonzero _ _ _ (hex_word_nonzero c) Hu) as Hu1.
  assert (Hx : Forall (fun c => c <> 0) no_register) by (apply (bool_decide_eq_true_1 _); vm_compute; reflexivity).
  pose proof (until_nul_nonzero _ _ _ Hx Hu1) as Hu2.
  assert (HX : Forall (fun c => c <> 0) X) by (apply (bool_decide_eq_true_1 _); vm_compute; reflexivity).
  destruct (write_loop g0 data Hlog 297 (Z.of_nat <$> seq 0 16) vs _ (X ++ no_register ++ hex_word c ++ []) g0 a [] Hdata) as (g1 & E1 & Hs1);
    [by rewrite length_fmap, length_seq|by apply (bool_decide_eq_true_1 _); vm_compute|done
    |exact (until_nul_nonzero _ _ _ HX Hu2)|done|].
  assert (HX24 : concat (replicate (length (Z.of_nat <$> seq 0 24)) no_register) = X) by done.
  destruct (skip_loop g0 data (Z.of_nat <$> seq 0 24) (no_register ++ hex_word c ++ 0 :: u) _ g1 _ (flat_map hex_word vs)
              ltac:(rewrite HX24; exact Hdata) Hu2 Hs1) as (g2 & E2 & Hs2).
  set (L2 := (flat_map hex_word vs ++ X)%list).
  destruct (skip_one g0 data (hex_word c ++ 0 :: u) (hex_word c ++ []) g2
              (write_registers (zip (Z.of_nat <$> seq 0 16) vs) a) L2) as (v & g3 & E3 & Hs3);
    [by unfold L2; rewrite Hdata, <- app_assoc|exact Hu1|exact Hs2|].
  rewrite (bind_ret _ _ _ _ _ E1). cbn [app] in E2 |- *. rewrite (bind_ret _ _ _ _ _ E2).
  rewrite HX24. fold L2. rewrite (bind_ret _ _ _ _ _ E3).
  replace (drop _ data) with (hex_word c ++ 0 :: u)%list; cycle 1.
  { replace (Z.to_nat _) with (length (L2 ++ no_register)) by (rewrite length_app; simpl; lia).
    replace data with ((L2 ++ no_register) ++ hex_word c ++ 0 :: u)%list by (unfold L2; by rewrite Hdata, <- !app_assoc).
    by rewrite drop_app_length. }
  rewrite (bind_ret _ _ _ _ _ (read_uint32_q g3 c (0 :: u) [] Hc eq_refl)).
  apply silent_read in Hs3. set (g4 := set_machine _ g3) in *.
  pose proof (silent_log _ _ _ Hs3 Hlog) as Hl4. destruct (Hs3) as (Hq4 & Hrep4 & _).
  eexists g4, _. split; [exact Hs3|]. rewrite (bind_ret _ _ _ tt (set_machine (upd_cpsr c (machine_of g4)) g4)).
  - by apply gdb_debug_q.
  - apply in_machine_q, at_line_ret; [|done..]. apply arm_write_cpsr_q; [done|apply Hrep4].
Qed.

(** The whole command. *)
Lemma write_general_registers_q g vs c u :
  gdb_ok g -> machine_ok (machine_of g) -> size (mem (machine_of g)) mod 4 = 0 ->
  length vs = 16%nat -> Forall is_u32 vs -> is_u32 c ->
  exists g' s1, write_general_registers (registers_text vs c ++ 0 :: u) g = Ret tt g' /\
    fd g' = (fd g ++ [frame (chars "OK")])%list /\ gdb_ok g' /\
    represents s1 (write_registers (zip (Z.of_nat <$> seq 0 16) vs) (abstract (machine_of g))) /\
    mode_of (regs s1) = mode_of (regs (machine_of g)) /\ machine_of g' = trace_back (upd_cpsr c s1).
Proof.
  intros Hg Hok H4 Hl Hvs Hc. set (g0 := set_machine (trace_off (machine_of g)) g).
  destruct (write_all_registers g0 (abstract (machine_of g)) vs c u) as (g4 & t & (_ & Hrep & Hw & Hm) & E);
    [exact (gdb_log g Hg)| |done|done|done|].
  { split; [done|]. split; [|done]. by apply represents_traced, represents_abstract. }
  set (g5 := set_machine (trace_back (upd_cpsr c (machine_of g4))) (tell t (set_machine (upd_cpsr c (machine_of g4)) g4))).
  assert (Hg5 : gdb_ok g5).
  { apply (gdb_ok_tell t (set_machine (upd_cpsr c (machine_of g4)) g4)). by apply (gdb_ok_wire g0 g4). }
  destruct (gdb_send_data_q g5 (chars "OK") Hg5) as (g' & E' & Hrep'); [by repeat constructor|simpl; lia|].
  exists g', (machine_of g4). split.
  { unfold write_general_registers. by rewrite (bind_ret _ _ _ _ _ (traceless_q _ g tt _ E)). }
  destruct (Hrep') as (Ef & _ & _ & Em & _), Hw as (W1 & _).
  split; [by rewrite Ef; change (fd g5) with (fd g4); rewrite W1|]. split; [by apply (replied_ok _ _ _ Hg5 Hrep')|].
  split; [done|]. split; [done|]. by rewrite Em.
Qed.

(** ** Round trip *)

(** The registers of a machine whose status word is replaced in the same mode. *)
Lemma register_values_written s a vs c :
  represents s a -> length vs = 16%nat -> Forall is_u32 vs -> Z.land c 0x1f = mode_of (regs s) -> is_u32 c ->
  (forall pc, vs !! 15%nat = Some pc -> pc mod 4 = 0) ->
  (forall k v, vs !! k = Some v -> R a (Z.of_nat k) = v) ->
  register_values (upd_cpsr c s) = vs /\ cpsr_of (regs (upd_cpsr c s)) = c.
Proof.
  intros ((Hr & _) & _ & _ & HR & _) Hl Hvs Hm Hc Hpc Hk.
  assert (Ec : cpsr_of (regs (upd_cpsr c s)) = c) by (apply rget_aset_eq; [done|unfold CPSR; lia]).
  assert (Em : mode_of (regs (upd_cpsr c s)) = mode_of (regs s)) by (unfold mode_of at 1; by rewrite Ec).
  assert (Hget : forall k v, vs !! k = Some v ->
            rget (regs (upd_cpsr c s)) (slot (mode_of (regs (upd_cpsr c s))) (Z.of_nat k)) = v).
  { intros k v Hv. pose proof (lookup_lt_Some _ _ _ Hv). destruct (slot_range (mode_of (regs s)) (Z.of_nat k)); [lia|].
    rewrite Em. unfold upd_cpsr. simpl. rewrite rget_aset_ne by done. rewrite HR by lia. by apply Hk. }
  split; [|done]. apply list_eq. intros k. destruct (Nat.lt_ge_cases k 16) as [Hlt|Hge]; cycle 1.
  { transitivity (@None Z); [|symmetry]; apply lookup_ge_None_2; [simpl|]; lia. }
  destruct (vs !! k) as [v|] eqn:Hv; [|apply lookup_ge_None in Hv; lia]. unfold register_values.
  destruct (Nat.eq_dec k 15%nat) as [->|Hne].
  - rewrite lookup_app_r by (simpl; lia). simpl. f_equal. unfold fetch_address, pc_of.
    pose proof (Hget 15%nat v Hv) as G. change (Z.of_nat 15) with 15 in G. rewrite slot_15 in G. rewrite G.
    rewrite pc_read_aligned, u32_sub_l by by apply Hpc.
    replace (v + 4 - 4) with v by lia. apply u32_small, (Forall_lookup_1 _ _ _ _ Hvs Hv).
  - rewrite lookup_app_l by (simpl; lia). rewrite !list_lookup_fmap, lookup_seq_lt by lia. simpl. f_equal.
    unfold rval. rewrite (Hget k v Hv). by rewrite (proj2 (Z.eqb_neq (Z.of_nat k) 15)) by lia.
Qed.

(** C33: All registers at once.  The command G with any values, in the mode the
    processor is in and with an aligned program counter, gives the sixteen registers and
    the CPSR these values, changes no memory and answers OK; the command g then
    answers with the very text that G was given and changes nothing. *)
Theorem registers_roundtrip g vs c data u :
  gdb_ok g -> machine_ok (machine_of g) -> size (mem (machine_of g)) mod 4 = 0 ->
  length vs = 16%nat -> Forall is_u32 vs -> is_u32 c -> Z.land c 0x1f = mode_of (regs (machine_of g)) ->
  (forall pc, vs !! 15%nat = Some pc -> pc mod 4 = 0) ->
  exists g1 g2, write_general_registers (registers_text vs c ++ 0 :: u) g = Ret tt g1 /\
    register_values (machine_of g1) = vs /\ cpsr_of (regs (machine_of g1)) = c /\
    mem (machine_of g1) = mem (machine_of g) /\
    read_general_registers data g1 = Ret tt g2 /\
    fd g2 = (fd g ++ [frame (chars "OK"); frame (registers_text vs c)])%list /\
    arm (machine_of g2) = arm (machine_of g1) /\ mem (machine_of g2) = mem (machine_of g1).
Proof.
  intros Hg Hok H4 Hl Hvs Hc Hm Hpc.
  destruct (write_general_registers_q g vs c u Hg Hok H4 Hl Hvs Hc) as (g1 & s1 & E1 & F1 & Hg1 & Hrep & Em & Eg1).
  set (a := write_registers _ _) in Hrep.
  assert (Hk : forall k v, vs !! k = Some v -> R a (Z.of_nat k) = v).
  { intros k v Hv. pose proof (lookup_lt_Some _ _ _ Hv). apply write_registers_at.
    - rewrite fst_zip by (rewrite length_fmap, length_seq; lia). apply (bool_decide_eq_true_1 _). vm_compute. reflexivity.
    - apply list_elem_of_lookup. exists k. rewrite lookup_zip_with, list_lookup_fmap, lookup_seq_lt by lia.
      simpl. by rewrite Hv. }
  destruct (register_values_written s1 a vs c Hrep Hl Hvs) as [Ev Ec]; [by rewrite Em|done|done|done|].
  assert (Hr1 : regs_ok (regs (machine_of g1))). { rewrite Eg1. apply regs_ok_upd_cpsr; [apply Hrep|done]. }
  destruct (read_general_registers_q g1 data Hg1 Hr1) as (g2 & E2 & F2 & _ & Eg2). exists g1, g2.
  split; [done|]. split; [by rewrite Eg1|]. split; [by rewrite Eg1|].
  split. { rewrite Eg1. destruct Hrep as (_ & Hmm & _). simpl. rewrite Hmm. apply write_registers_ram. }
  split; [done|]. split; [|by rewrite Eg2]. rewrite F2, F1, <- app_assoc. simpl. do 3 f_equal.
  unfold answer. rewrite Eg1. change (register_values (trace_back (upd_cpsr c s1))) with (register_values (upd_cpsr c s1)).
  rewrite Ev. by change (cpsr_of (regs (trace_back (upd_cpsr c s1)))) with (cpsr_of (regs (upd_cpsr c s1))); rewrite Ec.
Qed.
End registers.

(** ** Witnesses *)

#[local] Existing Instance wire_up.

(** Sixteen values, the program counter at 0x24, in user mode with the carry set. *)
Definition values : list Z := (Z.of_nat <$> seq 100 15) ++ [0x24].

Lemma registers_roundtrip_witness :
  exists g2, (write_general_registers (H := host0) (registers_text values 0x20000010 ++ [0]) ;;;
              read_general_registers (H := host0) []) (gdb_init_data machine_blank (replicate 1024 0) no_messages) = Ret tt g2 /\
    fd g2 = [frame (chars "OK"); frame (registers_text values 0x20000010)].
Proof.
  destruct (registers_roundtrip (Hh := host0) (gdb_init_data machine_blank (replicate 1024 0) no_messages) values 0x20000010 [] [])
    as (g1 & g2 & E1 & _ & _ & _ & E2 & F & _).
  - split_and!; reflexivity || done || apply no_messages_ok.
  - apply machine_blank_ok.
  - reflexivity.
  - reflexivity.
  - apply (bool_decide_eq_true_1 _). vm_compute. reflexivity.
  - unfold is_u32. lia.
  - reflexivity.
  - intros pc [= <-]. reflexivity.
  - exists g2. split; [|exact F]. rewrite (bind_ret _ _ _ _ _ E1). exact E2.
Defined.
