(* ===== verification/StartToEnd.v ===== *)
(** * From the command line to the end of a program

    The whole simulator: [main] reads its options and creates memory and processor;
    the scanner of the gdb connection runs on what gdb sends; the program that gdb has
    loaded runs to its end and ends the simulator. *)
From S2P Require Import Prelude CInt Constants Memory Registers Format Trace Core CoreFacts Exception Branch Shifter DataProcessing LoadStore Safety Instruction CString Debug DebugMessages GdbProtocol Scanner Simulator CommandLine Continue Isa Programs GdbRun.

#[local] Open Scope string_scope.
#[local] Open Scope Z_scope.

Section start_to_end.
Context `{Hh : Host} `{!RotateHost} `{Wire}.

(** C3: From the command line to the end.  On every command line whose options are
    understood, with at most 64 files to debug, whatever [malloc] leaves in its blocks, [main] creates a processor on
    which the session of gdb that loads a program below the end of the memory, gives
    values to registers and continues makes the simulator exit with status 0, in the
    state that the program ends in on the abstract machine. *)
Theorem simulator_runs_program argv0 fopen err args mem_block cycle reg_block packet_block buffer_block
    t base p rs (Q : arch -> Prop) :
  Forall is_u8 mem_block -> Z.of_nat (length mem_block) = Options.MEMORY_SIZE -> regs_ok reg_block ->
  (length (Options.debug_names (getopt_long args)) <= 64)%nat -> CommandLine.ends fopen (getopt_long args) = None ->
  length packet_block = 1024%nat -> (forall w d, accepts w d = true) ->
  announces t base (4 * Z.of_nat (length (code p))) -> 0 <= base -> base mod 4 = 0 ->
  base + 4 * Z.of_nat (length (code p)) <= Options.MEMORY_SIZE -> Forall is_u32 (code p) ->
  Forall register_ok rs -> NoDup rs.*1 ->
  (forall a, loaded base p a -> (forall r, 0 <= r < 16 -> is_u32 (R a r)) ->
     (forall r v, (r, v) ∈ rs -> R a r = v) -> exists c, halts a c /\ Q c) ->
  exists d s, main_arguments argv0 fopen err args Options.main_init = Ret tt d /\
    Options.main_create d mem_block cycle reg_block = Ret tt s /\
    exists n, forall fuel, (n < fuel)%nat ->
      exists pd s1 c,
        gdb_scanner fuel packet_block buffer_block None (concat (encode <$> session true t (code p) rs))
          (Options.main_log d) s = Exit 0 pd /\
        machine_of (gdb pd) ≡ s1 /\ represents s1 c /\ Q c.
Proof.
  intros Hmem Hlen Hregs Hn E Hpk Hacc Ht Hb H4 Hs Hu Hrs Hnd HQ.
  destruct (Options.main_prepare_ok argv0 fopen err _ (ends_none _ _ E) Hn) as (d & l & Ed & _ & _ & _ & _ & _ & Hlog & _ & _ & Htr).
  destruct (Options.main_create_ok d mem_block cycle reg_block Htr Hmem Hlen Hregs) as (s & Es & Hok & _ & _ & _ & Em).
  exists d, s. split; [done|]. split; [done|]. unfold gdb_scanner.
  pose proof (session_runs (Parser (gdb_init_data s packet_block (Options.main_log d)) buffer_block 0) t base p rs Q) as Hrun.
  cbn [gdb machine_of gdb_init_data err_len] in Hrun. rewrite Em in Hrun. cbn [size is_be] in Hrun.
  change (nz 1) with true in Hrun. apply Hrun; try done. split_and!; [done..|by exists l].
Qed.
End start_to_end.

(** ** Witnesses *)

#[local] Existing Instance wire_up.

(** No options; gdb loads the factorial program at 0x20 and puts 8 into r5. *)
Lemma simulator_runs_program_witness :
  exists d s, main_arguments "arm_simulator" (fun _ => true) "" [] Options.main_init = Ret tt d /\
    Options.main_create d (replicate (Z.to_nat Options.MEMORY_SIZE) 0) 0 (replicate 37 0) = Ret tt s /\
    exists n, forall fuel, (n < fuel)%nat ->
      exists pd, gdb_scanner (H := host0) fuel (replicate 1024 0) (replicate 1024 0) None
          (concat (encode <$> session true (chars "20,54") factorial_code [(5, 8); (15, 0x24)])) (Options.main_log d) s = Exit 0 pd /\
        rval (machine_of (gdb pd)) 7 = 40320.
Proof.
  destruct (simulator_runs_program (Hh := host0) "arm_simulator" (fun _ => true) "" []
              (replicate (Z.to_nat Options.MEMORY_SIZE) 0) 0 (replicate 37 0) (replicate 1024 0) (replicate 1024 0)
              (chars "20,54") 0x20 factorial [(5, 8); (15, 0x24)] (fun c => R c 7 = 40320))
    as (d & s & Ed & Es & n & Hn).
  - apply Forall_replicate. unfold is_u8. lia.
  - rewrite length_replicate. reflexivity.
  - split; [reflexivity|]. apply Forall_replicate. unfold is_u32. lia.
  - simpl. lia.
  - reflexivity.
  - reflexivity.
  - reflexivity.
  - split; [apply (bool_decide_eq_true_1 _); vm_compute; reflexivity|]. intros rest. reflexivity.
  - lia.
  - reflexivity.
  - vm_compute. congruence.
  - apply (bool_decide_eq_true_1 _). vm_compute. reflexivity.
  - repeat constructor; simpl; unfold is_u32; lia.
  - apply (bool_decide_eq_true_1 _). vm_compute. reflexivity.
  - exact factorial_of_8.
  - exists d, s. split; [exact Ed|]. split; [exact Es|]. exists n. intros fuel Hf.
    destruct (Hn fuel Hf) as (pd & s1 & c & E & Eq & Hrep & H7).
    exists pd. split; [exact E|]. rewrite (final_value _ s1 c 7 Eq Hrep ltac:(lia)). exact H7.
Defined.
