(* ===== verification/MemoryTest.v ===== *)
(** * [memory_test.c]: the test program of the simulated memory

    The program prints the outcome of eight tests; the model returns them, 1 for
    a test that succeeds.  [word_read], [half_read] and [value] are the
    uninitialised variables. *)
From S2P Require Import Prelude CInt Constants Memory.

#[local] Open Scope Z_scope.

(** The array [m] of the two memories. *)
Record test_data : Type := Test { m0 : memory_data; m1 : memory_data }.

(** [m[i]] *)
Definition at_index (i : Z) : lens test_data memory_data :=
  if i =? 0 then Lens m0 (fun mm s => Test mm (m1 s)) else Lens m1 (fun mm s => Test (m0 s) mm).

(** The cells of an object, as the test reads them through [uint8_t *]. *)
Definition object_read (a : list Z) (i : Z) : M test_data Z :=
  match aget a i with Some x => ret x | None => undef OutOfBounds end.

Section with_host.
Context `{Host}.

(** The bytes of an object of [n] bytes in the host's order. *)
Definition object_bytes (n : nat) (v : Z) : list Z :=
  let le := (fun k => u8 (Z.shiftr v (8 * Z.of_nat k))) <$> seq 0 n in
  if host_big_endian then rev le else le.

(** The loops from [i], of which [n] is the distance to [size]. *)
Fixpoint compare_loop (n : nat) (i j j_step : Z) (a b : list Z) : M test_data Z :=
  match n with
  | O => ret 1
  | S n' =>
      let! x := object_read a i in
      let! y := object_read b j in
      if negb (x =? y) then ret 0 else compare_loop n' (i + 1) (j + j_step) j_step a b
  end.

Definition compare (a b : list Z) (size : Z) (reverse : bool) : M test_data Z :=
  let j := if reverse then size - 1 else 0 in
  let j_step := if reverse then -1 else 1 in
  compare_loop (Z.to_nat size) 0 j j_step a b.

Fixpoint compare_with_sim_loop (n : nat) (i j j_step value : Z) (a : list Z)
    (m : lens test_data memory_data) : M test_data Z :=
  match n with
  | O => ret 1
  | S n' =>
      let! rv := zoom m (memory_read_byte (u32 j) value) in
      let! x := object_read a i in
      if negb (x =? rv.2) then ret 0
      else compare_with_sim_loop n' (i + 1) (j + j_step) j_step rv.2 a m
  end.

Definition compare_with_sim (value : Z) (a : list Z) (m : lens test_data memory_data) (size : Z)
    (reverse : bool) : M test_data Z :=
  let j := if reverse then size - 1 else 0 in
  let j_step := if reverse then -1 else 1 in
  compare_with_sim_loop (Z.to_nat size) 0 j j_step value a m.

Definition memory_test (word_read half_read value : Z) : M test_data (list Z) :=
  let word_value := 0x11223344 in
  let half_value := 0x5566 in
  let word := object_bytes 4 word_value in
  let half := object_bytes 2 half_value in
  let same := at_index is_big_endian in
  let other := at_index (1 - is_big_endian) in
  for_each [0; 1; 2; 3]
    (fun i _ =>
       let! x := object_read word i in
       zoom (at_index 0) (memory_write_byte i x) ;;;
       zoom (at_index 1) (memory_write_byte i x) ;;; ret tt) tt ;;;
  let! w := zoom same (memory_read_word 0 word_read) in
  let! t1 := compare word (object_bytes 4 w.2) 4 false in
  let! h := zoom same (memory_read_half 0 half_read) in
  let! t2 := compare word (object_bytes 2 h.2) 2 false in
  let! w := zoom other (memory_read_word 0 w.2) in
  let! t3 := compare word (object_bytes 4 w.2) 4 true in
  let! h := zoom other (memory_read_half 0 h.2) in
  let! t4 := compare word (object_bytes 2 h.2) 2 true in
  zoom same (memory_write_word 0 word_value) ;;;
  let! t5 := compare_with_sim value word same 4 false in
  zoom same (memory_write_half 0 half_value) ;;;
  let! t6 := compare_with_sim value half same 2 false in
  zoom other (memory_write_word 0 word_value) ;;;
  let! t7 := compare_with_sim value word other 4 true in
  zoom other (memory_write_half 0 half_value) ;;;
  let! t8 := compare_with_sim value half other 2 true in
  ret [t1; t2; t3; t4; t5; t6; t7; t8].

(** [memory_create(4, 0)] and [memory_create(4, 1)]. *)
Definition test_start (block0 block1 : list Z) : test_data :=
  Test (memory_create (Some block0) 4 0) (memory_create (Some block1) 4 1).

(** The test program succeeds.  On hosts of either byte order, and whatever the
    memories hold when they are created, all eight tests of the program
    succeed. *)
Theorem memory_test_succeeds word_read half_read value block0 block1 :
  length block0 = 4%nat -> length block1 = 4%nat ->
  exists s, memory_test word_read half_read value (test_start block0 block1) =
    Ret [1; 1; 1; 1; 1; 1; 1; 1] s.
Proof.
  intros H0 H1.
  destruct block0 as [|a0 [|a1 [|a2 [|a3 [|]]]]]; try done.
  destruct block1 as [|b0 [|b1 [|b2 [|b3 [|]]]]]; try done.
  unfold memory_test, object_bytes, is_big_endian. destruct host_big_endian; eexists; vm_compute; reflexivity.
Qed.
End with_host.
